(** * irmago: session engine, requests and legacy log entries

    A shallow embedding of the parts of the IRMA client that the
    specification makes claims about:

    - [irmaclient/session.go]: protocol version negotiation ([calcVersion]),
      the session lifetime functions ([delete], [fail], [cancel], [Dismiss],
      [sendResponse]), configuration checking and the panic barrier;
    - the request types of package [irma] ([SignatureRequest.GetNonce],
      [CredentialRequest.AttributeList], [Timestamp] JSON marshalling);
    - the Android legacy log entries ([androidLogEnvelope.Parse],
      [androidLogEntry.GetTime]).

    Go strings are byte sequences and are modelled as [string]; Go's [int],
    [int64] and [*big.Int] are modelled as [Z], with the range of the
    machine types written out where the code depends on it.  Functions of
    the Go standard library that the code calls ([strconv.Atoi],
    [fmt.Sprint], [strings.Replace], [sha256.Sum256], [asn1.Marshal],
    [time.Parse]) are modelled after their documented behaviour in the
    modules [Strconv], [Strings], [Sha256], [Asn1] and [GoTime].  What the
    code calls in the rest of the client (transport, proofs, downloads) is
    answered by a [World].

    The operations on one session object run in goroutines and can
    overlap; module [Goroutines] gives them as sequences of steps on the
    shared object, whose runs interleave.

    Beside these, the file covers what surrounds them in the same sources:
    the identifiers of a request ([IssuanceRequest.Identifiers],
    [DisclosureRequest.Identifiers], module [RequestIdentifiers]), the
    legacy [SessionInfo.UnmarshalJSON] (module [LegacySessionInfo]), and the
    entry points of the session engine ([NewSession], [NewManualSession],
    [start], [do], the keyshare callbacks, [managerSession]).  The methods
    of the identifier types and [json.Unmarshal], which are not among the
    sources, are variables of a section there. *)

From Stdlib Require Import ZArith List String Ascii Lia Bool.
From stdpp Require Import base option list gmap strings.

Import ListNotations.
Local Open Scope string_scope.
Local Open Scope list_scope.
Local Open Scope Z_scope.
Set Warnings "-register-all".

(** ** Results of Go calls

    A Go call returns normally (with a value or with an error) or panics. *)

Inductive result (E A : Type) : Type :=
  | Ok (a : A)
  | Errored (e : E).
Arguments Ok {E A} a.
Arguments Errored {E A} e.

(** ** Package strconv and the decimal verbs of package fmt *)

Module Strconv.

(** [strconv.IntSize]: the size of Go's [int].  The client is modelled on a
    64-bit platform. *)
Definition intSize : Z := 64.

Inductive NumErrorKind := ErrSyntax | ErrRange.

(** [*strconv.NumError]: the function, the offending input and the kind. *)
Record NumError := mkNumError { Num : string; Kind : NumErrorKind }.

Definition is_digit (c : ascii) : bool :=
  let n := Z.of_N (N_of_ascii c) in (48 <=? n) && (n <=? 57).

Definition digit_val (c : ascii) : Z := Z.of_N (N_of_ascii c) - 48.

Definition digit_char (d : Z) : ascii := ascii_of_N (Z.to_N (48 + d)).

(** Decimal digits read as a number, on unbounded integers: the digit loop
    of [getnum] and [atoi] in package [time]. *)
Fixpoint parse_digits (acc : Z) (s : string) : option Z :=
  match s with
  | EmptyString => Some acc
  | String c s' =>
      if is_digit c then parse_digits (acc * 10 + digit_val c) s' else None
  end.

(** [maxUint64], and the cutoff of [ParseUint] in base 10: "the smallest
    number such that cutoff*base > maxUint64". *)
Definition maxUint64 : Z := 2 ^ 64 - 1.
Definition cutoff10 : Z := maxUint64 / 10 + 1.

(** The loop of [strconv.ParseUint(s, 10, 64)] over the bytes of a text
    that is not empty: it stops at the first byte that is not a digit with
    a syntax error, and at the first digit with which the number leaves
    [uint64] with a range error, whichever comes first. *)
Fixpoint parse_uint (n : Z) (s : string) : result NumErrorKind Z :=
  match s with
  | EmptyString => Ok n
  | String c s' =>
      if negb (is_digit c) then Errored ErrSyntax
      else if cutoff10 <=? n then Errored ErrRange
      else
        let n1 := n * 10 + digit_val c in
        if maxUint64 <? n1 then Errored ErrRange
        else parse_uint n1 s'
  end.

(** [strconv.ParseInt(s, 10, bitSize)], for [bitSize] 64 or 0 on a 64-bit
    platform.  A syntax error of [ParseUint] is returned at once; after a
    range error [un] is [maxUint64], which is out of range for either
    sign. *)
Definition ParseInt (s : string) (bitSize : Z) : result NumError Z :=
  match s with
  | EmptyString => Errored (mkNumError s ErrSyntax)
  | String c rest =>
      let neg := Ascii.eqb c "-" in
      let digits := if neg || Ascii.eqb c "+" then rest else s in
      match digits with
      | EmptyString => Errored (mkNumError s ErrSyntax)
      | _ =>
          match parse_uint 0 digits with
          | Errored ErrSyntax => Errored (mkNumError s ErrSyntax)
          | parsed =>
              let un := match parsed with Ok un => un | Errored _ => maxUint64 end in
              let cutoff := 2 ^ (bitSize - 1) in
              if negb neg && (cutoff <=? un) then Errored (mkNumError s ErrRange)
              else if neg && (cutoff <? un) then Errored (mkNumError s ErrRange)
              else Ok (if neg then - un else un)
          end
      end
  end.

(** [strconv.Atoi(s)] is [ParseInt(s, 10, 0)], that is at [IntSize]. *)
Definition Atoi (s : string) : result NumError Z := ParseInt s intSize.

(** The digit loop of [formatBits]: digits are produced from the least
    significant one and prepended to the buffer. *)
Fixpoint format_digits (fuel : nat) (u : Z) (buf : string) : string :=
  match fuel with
  | O => buf
  | S fuel' =>
      let buf' := String (digit_char (u mod 10)) buf in
      if u / 10 =? 0 then buf' else format_digits fuel' (u / 10) buf'
  end.

Definition FormatUint (u : Z) : string :=
  format_digits (S (Z.to_nat (Z.log2 u))) u "".

(** [strconv.FormatInt(i, 10)], which is also what [fmt.Sprint] and the
    verb [%d] print for an integer. *)
Definition FormatInt (i : Z) : string :=
  if i <? 0 then String "-" (FormatUint (- i)) else FormatUint i.

(** [string(b)] for a byte [b]: the UTF-8 encoding of the code point [b]. *)
Definition string_of_rune_byte (c : ascii) : string :=
  let n := Z.of_N (N_of_ascii c) in
  if n <? 128 then String c ""
  else String (ascii_of_N (Z.to_N (Z.lor 192 (Z.shiftr n 6))))
         (String (ascii_of_N (Z.to_N (Z.lor 128 (Z.land n 63)))) "").

End Strconv.

(** ** Go values that a panic can carry, and Go errors *)

(** The dynamic value handed to [panic] and returned by [recover]: the nil
    interface, a value of type [string], or a value of another type
    together with the result of its [Error()] method when the type
    implements [error] and of its [String()] method when it implements
    [fmt.Stringer]. *)
Inductive panic_value :=
  | PNil
  | PString (s : string)
  | PValue (error_method : option string) (stringer_method : option string).

(** The run-time panic of an index expression out of range; it is a
    [runtime.Error], hence an [error]. *)
Definition index_out_of_range : panic_value :=
  PValue (Some "runtime error: index out of range") None.

(** A Go call either returns or panics. *)
Inductive exec (A : Type) : Type :=
  | Returns (a : A)
  | Panics (v : panic_value).
Arguments Returns {A} a.
Arguments Panics {A} v.

(** Go [error] values met in the code: a [*strconv.NumError], an error made
    by [errors.New] or [fmt.Errorf] (its message), and an error wrapped with
    a stack trace by [errors.Wrap] of go-errors. *)
Inductive goerror :=
  | ENumError (e : Strconv.NumError)
  | EMessage (msg : string)
  | EWrapped (e : goerror).

(** ** Package irma: the QR code *)

Record Qr := mkQr {
  URL : string;
  ProtocolVersion : string;
  ProtocolMaxVersion : string;
  QrType : string
}.

(** ** irmaclient/session.go: protocol version negotiation *)

Module Negotiation.

(** [supportedVersions]: "Supported protocol versions.  Minor version
    numbers should be reverse sorted." *)
Definition supportedVersions : gmap Z (list Z) := {[ 2 := [2; 1] ]}.

(** [sort.Sort(sort.Reverse(sort.IntSlice(keys)))]: the result is the
    descending arrangement of the keys, here by insertion. *)
Fixpoint insert_desc (k : Z) (l : list Z) : list Z :=
  match l with
  | [] => [k]
  | x :: l' => if x <=? k then k :: l else x :: insert_desc k l'
  end.

Definition sort_desc (l : list Z) : list Z := foldr insert_desc [] l.

(** The index expression [s[i]] on a string. *)
Definition index (s : string) (i : nat) : exec ascii :=
  match String.get i s with
  | Some c => Returns c
  | None => Panics index_out_of_range
  end.

(** [strconv.Atoi(string(s[i]))]. *)
Definition atoi_at (s : string) (i : nat) : exec (result goerror Z) :=
  match index s i with
  | Panics v => Panics v
  | Returns c =>
      match Strconv.Atoi (Strconv.string_of_rune_byte c) with
      | Ok n => Returns (Ok n)
      | Errored e => Returns (Errored (ENumError e))
      end
  end.

Definition aboveMinimum (major minor minmajor minminor : Z) : bool :=
  (minmajor <? major) || ((major =? minmajor) && (minminor <=? minor)).

Definition underMaximum (major minor maxmajor maxminor : Z) : bool :=
  (major <? maxmajor) || ((major =? maxmajor) && (minor <=? maxminor)).

(** The inner loop: [for _, minor := range supportedVersions[major]]. *)
Fixpoint range_minors (major : Z) (minors : list Z)
    (minmajor minminor maxmajor maxminor : Z) : option (Z * Z) :=
  match minors with
  | [] => None
  | minor :: rest =>
      if aboveMinimum major minor minmajor minminor
         && underMaximum major minor maxmajor maxminor
      then Some (major, minor)
      else range_minors major rest minmajor minminor maxmajor maxminor
  end.

(** The outer loop: [for _, major := range keys]. *)
Fixpoint range_majors (supported : gmap Z (list Z)) (keys : list Z)
    (minmajor minminor maxmajor maxminor : Z) : option (Z * Z) :=
  match keys with
  | [] => None
  | major :: rest =>
      match range_minors major (default [] (supported !! major))
              minmajor minminor maxmajor maxminor with
      | Some v => Some v
      | None => range_majors supported rest minmajor minminor maxmajor maxminor
      end
  end.

(** [fmt.Sprintf("%d.%d", major, minor)]. *)
Definition sprintf_version (v : Z * Z) : string :=
  Strconv.FormatInt (fst v) +:+ "." +:+ Strconv.FormatInt (snd v).

Definition no_version_error (qr : Qr) : goerror :=
  EMessage ("No supported protocol version between " +:+ ProtocolVersion qr
            +:+ " and " +:+ ProtocolMaxVersion qr).

(** [calcVersion] over a table of supported versions.  [Returns (Errored e)]
    stands for the pair [("", e)]. *)
Definition calcVersionIn (supported : gmap Z (list Z)) (qr : Qr)
    : exec (result goerror string) :=
  match atoi_at (ProtocolVersion qr) 0 with
  | Panics v => Panics v
  | Returns (Errored e) => Returns (Errored e)
  | Returns (Ok minmajor) =>
  match atoi_at (ProtocolVersion qr) 2 with
  | Panics v => Panics v
  | Returns (Errored e) => Returns (Errored e)
  | Returns (Ok minminor) =>
  match atoi_at (ProtocolMaxVersion qr) 0 with
  | Panics v => Panics v
  | Returns (Errored e) => Returns (Errored e)
  | Returns (Ok maxmajor) =>
  match atoi_at (ProtocolMaxVersion qr) 2 with
  | Panics v => Panics v
  | Returns (Errored e) => Returns (Errored e)
  | Returns (Ok maxminor) =>
      let keys := sort_desc (elements (dom supported)) in
      match range_majors supported keys minmajor minminor maxmajor maxminor with
      | Some v => Returns (Ok (sprintf_version v))
      | None => Returns (Errored (no_version_error qr))
      end
  end end end end.

Definition calcVersion (qr : Qr) : exec (result goerror string) :=
  calcVersionIn supportedVersions qr.

(** What a caller can tell apart in the result of [calcVersion]. *)
Inductive verdict :=
  | VPanic
  | VSyntaxError (input : string)
  | VRangeError (input : string)
  | VNoVersion
  | VVersion (v : string).

Definition verdict_of (r : exec (result goerror string)) : verdict :=
  match r with
  | Panics _ => VPanic
  | Returns (Ok v) => VVersion v
  | Returns (Errored (ENumError (Strconv.mkNumError s Strconv.ErrSyntax))) => VSyntaxError s
  | Returns (Errored (ENumError (Strconv.mkNumError s Strconv.ErrRange))) => VRangeError s
  | Returns (Errored _) => VNoVersion
  end.

(** The bytes that [calcVersion] looks at. *)
Definition digit_at (s : string) (i : nat) : bool :=
  match String.get i s with
  | Some c => Strconv.is_digit c
  | None => false
  end.

Definition missing_at (s : string) (i : nat) : bool :=
  match String.get i s with
  | Some _ => false
  | None => true
  end.

(** The index expression that goes out of range first, if every byte
    inspected before it is a decimal digit. *)
Definition reaches_missing_byte (qr : Qr) : bool :=
  let v := ProtocolVersion qr in
  let vmax := ProtocolMaxVersion qr in
  missing_at v 0
  || (digit_at v 0 && missing_at v 2)
  || (digit_at v 0 && digit_at v 2 && missing_at vmax 0)
  || (digit_at v 0 && digit_at v 2 && digit_at vmax 0 && missing_at vmax 2).

(** The first inspected byte that is there and is not a decimal digit, if
    every byte inspected before it is one. *)
Definition bad_at (s : string) (i : nat) : option ascii :=
  match String.get i s with
  | Some c => if Strconv.is_digit c then None else Some c
  | None => None
  end.

Definition first_bad_byte (qr : Qr) : option ascii :=
  let v := ProtocolVersion qr in
  let vmax := ProtocolMaxVersion qr in
  if negb (digit_at v 0) then bad_at v 0
  else if negb (digit_at v 2) then bad_at v 2
  else if negb (digit_at vmax 0) then bad_at vmax 0
  else bad_at vmax 2.

(** *** Negotiation as the specification words it

    "Given server [minMajor.minMinor, maxMajor.maxMinor], return the first
    supported (major, minor) with (minMajor, minMinor) <= (major, minor) <=
    (maxMajor, maxMinor) in the iteration order above", where versions are
    "<major>.<minor>" in ASCII. *)

Definition lex_le (p q : Z * Z) : bool :=
  (fst p <? fst q) || ((fst p =? fst q) && (snd p <=? snd q)).

Definition pairs_of (supported : gmap Z (list Z)) (keys : list Z) : list (Z * Z) :=
  flat_map (fun major => map (pair major) (default [] (supported !! major))) keys.

Definition iteration_order (supported : gmap Z (list Z)) : list (Z * Z) :=
  pairs_of supported (sort_desc (elements (dom supported))).

Definition spec_negotiate (supported : gmap Z (list Z)) (lo hi : Z * Z)
    : option (Z * Z) :=
  List.find (fun p => lex_le lo p && lex_le p hi) (iteration_order supported).

(** The text before the first dot, and after it. *)
Fixpoint split_dot (s : string) : option (string * string) :=
  match s with
  | EmptyString => None
  | String c rest =>
      if Ascii.eqb c "." then Some (EmptyString, rest)
      else match split_dot rest with
           | Some (a, b) => Some (String c a, b)
           | None => None
           end
  end.

Definition spec_parse_version (s : string) : option (Z * Z) :=
  match split_dot s with
  | Some (a, b) =>
      match Strconv.Atoi a, Strconv.Atoi b with
      | Ok major, Ok minor => Some (major, minor)
      | _, _ => None
      end
  | None => None
  end.

End Negotiation.

(** ** Bytes and big integers *)

Module Bytes.

(** [[]byte(s)]: the bytes of a Go string, each a number below 256. *)
Fixpoint of_string (s : string) : list Z :=
  match s with
  | EmptyString => []
  | String c s' => Z.of_N (N_of_ascii c) :: of_string s'
  end.

(** [new(big.Int).SetBytes(b)]: [b] read as a big-endian unsigned integer. *)
Definition SetBytes (b : list Z) : Z :=
  fold_left (fun acc x => acc * 256 + x) b 0.

Fixpoint be_bytes (fuel : nat) (n : Z) (acc : list Z) : list Z :=
  match fuel with
  | O => acc
  | S fuel' =>
      if n =? 0 then acc else be_bytes fuel' (n / 256) (n mod 256 :: acc)
  end.

(** [x.Bytes()] of a [*big.Int]: the absolute value as a big-endian byte
    slice without leading zeros (empty for zero). *)
Definition BigBytes (n : Z) : list Z :=
  be_bytes (S (Z.to_nat (Z.log2 (Z.abs n)))) (Z.abs n) [].

End Bytes.

(** ** Package crypto/sha256 (FIPS 180-4) *)

Module Sha256.

Definition w32 (x : Z) : Z := x mod 4294967296.

Definition rotr (n x : Z) : Z :=
  Z.lor (Z.shiftr x n) (w32 (Z.shiftl x (32 - n))).

Definition Ch (x y z : Z) : Z :=
  Z.lxor (Z.land x y) (Z.land (Z.lxor x 4294967295) z).

Definition Maj (x y z : Z) : Z :=
  Z.lxor (Z.lxor (Z.land x y) (Z.land x z)) (Z.land y z).

Definition Sigma0 (x : Z) : Z := Z.lxor (Z.lxor (rotr 2 x) (rotr 13 x)) (rotr 22 x).
Definition Sigma1 (x : Z) : Z := Z.lxor (Z.lxor (rotr 6 x) (rotr 11 x)) (rotr 25 x).
Definition sigma0 (x : Z) : Z := Z.lxor (Z.lxor (rotr 7 x) (rotr 18 x)) (Z.shiftr x 3).
Definition sigma1 (x : Z) : Z := Z.lxor (Z.lxor (rotr 17 x) (rotr 19 x)) (Z.shiftr x 10).

(** The round constants: the first 32 bits of the fractional parts of the
    cube roots of the first 64 primes. *)
Definition K : list Z :=
  [
    1116352408; 1899447441; 3049323471; 3921009573;
    961987163; 1508970993; 2453635748; 2870763221;
    3624381080; 310598401; 607225278; 1426881987;
    1925078388; 2162078206; 2614888103; 3248222580;
    3835390401; 4022224774; 264347078; 604807628;
    770255983; 1249150122; 1555081692; 1996064986;
    2554220882; 2821834349; 2952996808; 3210313671;
    3336571891; 3584528711; 113926993; 338241895;
    666307205; 773529912; 1294757372; 1396182291;
    1695183700; 1986661051; 2177026350; 2456956037;
    2730485921; 2820302411; 3259730800; 3345764771;
    3516065817; 3600352804; 4094571909; 275423344;
    430227734; 506948616; 659060556; 883997877;
    958139571; 1322822218; 1537002063; 1747873779;
    1955562222; 2024104815; 2227730452; 2361852424;
    2428436474; 2756734187; 3204031479; 3329325298 ].

(** The initial hash value: from the square roots of the first 8 primes. *)
Definition H0 : list Z :=
  [
    1779033703; 3144134277; 1013904242; 2773480762;
    1359893119; 2600822924; 528734635; 1541459225 ].

(** Big-endian words of a block of bytes. *)
Fixpoint words (b : list Z) : list Z :=
  match b with
  | b0 :: b1 :: b2 :: b3 :: rest =>
      (((b0 * 256 + b1) * 256 + b2) * 256 + b3) :: words rest
  | _ => []
  end.

(** The message schedule, kept most recent word first. *)
Fixpoint schedule (n : nat) (rev_w : list Z) : list Z :=
  match n with
  | O => rev_w
  | S n' =>
      let w := w32 (sigma1 (nth 1 rev_w 0) + nth 6 rev_w 0
                    + sigma0 (nth 14 rev_w 0) + nth 15 rev_w 0) in
      schedule n' (w :: rev_w)
  end.

Definition round (st : list Z) (kw : Z * Z) : list Z :=
  match st with
  | [a; b; c; d; e; f; g; h] =>
      let t1 := h + Sigma1 e + Ch e f g + fst kw + snd kw in
      let t2 := Sigma0 a + Maj a b c in
      [w32 (t1 + t2); a; b; c; w32 (d + t1); e; f; g]
  | _ => st
  end.

Definition compress (h : list Z) (block : list Z) : list Z :=
  let w := rev (schedule 48 (rev (words block))) in
  let st := fold_left round (combine K w) h in
  map (fun p => w32 (fst p + snd p)) (combine h st).

(** Padding: a one bit, zeros up to 56 modulo 64, the bit length on 8 bytes. *)
Definition pad (msg : list Z) : list Z :=
  let len := Z.of_nat (length msg) in
  let zeros := Z.to_nat ((55 - len) mod 64) in
  let bits := len * 8 in
  msg ++ [128] ++ repeat 0 zeros
      ++ map (fun i => (bits / 2 ^ (8 * (7 - Z.of_nat i))) mod 256) (seq 0 8).

Fixpoint blocks (fuel : nat) (h : list Z) (data : list Z) : list Z :=
  match fuel with
  | O => h
  | S fuel' =>
      match data with
      | [] => h
      | _ => blocks fuel' (compress h (firstn 64 data)) (skipn 64 data)
      end
  end.

Definition word_bytes (w : Z) : list Z :=
  [ (w / 16777216) mod 256; (w / 65536) mod 256; (w / 256) mod 256; w mod 256 ].

(** [sha256.Sum256(data)], as the list of its 32 bytes. *)
Definition Sum256 (data : list Z) : list Z :=
  let p := pad data in
  flat_map word_bytes (blocks (length p) H0 p).

End Sha256.

(** ** Package encoding/asn1: marshalling of big integers and slices *)

Module Asn1.

(** The Go values that [GetNonce] marshals: a [*big.Int] (possibly the nil
    pointer) and a slice of such values ([[]interface{}]). *)
Inductive value :=
  | VBigInt (n : option Z)
  | VSlice (l : list value).

(** [appendTagAndLength], the length part: one byte below 128, otherwise
    the number of length bytes with the top bit set, then the length in
    big-endian bytes. *)
Definition appendLength (len : Z) : list Z :=
  if len <? 128 then [len]
  else let b := Bytes.BigBytes len in Z.lor 128 (Z.of_nat (length b)) :: b.

(** [makeBigInt]: the two's-complement contents of an INTEGER. *)
Definition makeBigInt (n : Z) : list Z :=
  if n <? 0 then
    let bytes := map (fun b => Z.lxor b 255) (Bytes.BigBytes (- n - 1)) in
    match bytes with
    | [] => 255 :: bytes
    | b0 :: _ => if Z.land b0 128 =? 0 then 255 :: bytes else bytes
    end
  else if n =? 0 then [0]
  else
    let bytes := Bytes.BigBytes n in
    match bytes with
    | b0 :: _ => if negb (Z.land b0 128 =? 0) then 0 :: bytes else bytes
    | [] => bytes
    end.

Definition empty_integer : goerror :=
  EMessage "asn1: structure error: empty integer".

Definition tagInteger : Z := 2.
Definition tagSequenceCompound : Z := 48.

(** [asn1.Marshal(val)]. *)
Fixpoint Marshal (v : value) : result goerror (list Z) :=
  match v with
  | VBigInt None => Errored empty_integer
  | VBigInt (Some n) =>
      let body := makeBigInt n in
      Ok (tagInteger :: appendLength (Z.of_nat (length body)) ++ body)
  | VSlice l =>
      let fields :=
        (fix fields (l : list value) : result goerror (list Z) :=
           match l with
           | [] => Ok []
           | x :: r =>
               match Marshal x with
               | Errored e => Errored e
               | Ok b =>
                   match fields r with
                   | Errored e => Errored e
                   | Ok bs => Ok (b ++ bs)
                   end
               end
           end) l in
      match fields with
      | Errored e => Errored e
      | Ok body =>
          Ok (tagSequenceCompound :: appendLength (Z.of_nat (length body)) ++ body)
      end
  end.

End Asn1.

(** ** ASN.1 DER as X.690 words it

    This second definition follows the standard, not the Go code: the
    contents of an INTEGER are the shortest two's-complement representation,
    lengths use the short form below 128 and the minimal long form above,
    and a SEQUENCE is the concatenation of its members. *)

Module Der.

Definition bit_length (m : Z) : Z := if m =? 0 then 0 else Z.log2 m + 1.

(** [k] octets of [v], most significant first, modulo [2 ^ (8 * k)]. *)
Fixpoint octets (k : nat) (v : Z) : list Z :=
  match k with
  | O => []
  | S k' => (v / 2 ^ (8 * Z.of_nat k')) mod 256 :: octets k' v
  end.

(** The least number of octets whose two's-complement range holds [n]. *)
Definition integer_octets (n : Z) : nat :=
  Z.to_nat (bit_length (if n <? 0 then - n - 1 else n) / 8 + 1).

Definition length_octets (len : Z) : list Z :=
  if len <? 128 then [len]
  else
    let k := Z.to_nat ((bit_length len + 7) / 8) in
    (128 + Z.of_nat k) :: octets k len.

Definition integer (n : Z) : list Z :=
  let k := integer_octets n in
  2 :: length_octets (Z.of_nat k) ++ octets k n.

Definition sequence (members : list (list Z)) : list Z :=
  let body := concat members in
  48 :: length_octets (Z.of_nat (length body)) ++ body.

(** [k] octets are exactly what the unsigned number [n] needs. *)
Definition width (k : nat) (n : Z) : Prop :=
  match k with
  | O => n = 0
  | S k' => 2 ^ (8 * Z.of_nat k') <= n < 2 ^ (8 * Z.of_nat k)
  end.

(** The number of octets of an unsigned number, and of a non-negative
    number with room for the sign bit. *)
Definition nbytes (m : Z) : nat := Z.to_nat ((bit_length m + 7) / 8).
Definition signed_octets (m : Z) : nat := Z.to_nat (bit_length m / 8 + 1).

End Der.

(** ** Package time, as far as timestamps go *)

Module GoTime.

(** An instant: seconds since the Unix epoch and nanoseconds within the
    second.  Locations and monotonic readings do not take part in the
    claims. *)
Record Time := mkTime { unixSec : Z; nsec : Z }.

(** [t.Unix()]. *)
Definition Unix_of (t : Time) : Z := unixSec t.

(** [time.Unix(sec, nsec)]. *)
Definition Unix (sec ns : Z) : Time :=
  if (ns <? 0) || (1000000000 <=? ns) then
    mkTime (sec + ns / 1000000000) (ns mod 1000000000)
  else mkTime sec ns.

(** The zero [Time]: January 1, year 1, 00:00:00 UTC. *)
Definition zeroTime : Time := mkTime (-62135596800) 0.

(** The values that [Time] can hold seconds for are [int64]. *)
Definition valid (t : Time) : Prop :=
  - 2 ^ 63 <= unixSec t < 2 ^ 63 /\ 0 <= nsec t < 1000000000.

(** *** Parsing a time against a layout

    [time.Parse(layout, value)] as the Go library does it, for layouts made
    of literal text and of the reference elements that occur in the layout
    of the Android log: "January", "2", "2006", "3", "04", "05", "PM", "MST"
    and "-07:00".  Where releases of Go differ (which offsets may follow
    "GMT" inside a zone abbreviation), the model follows the current one. *)

Inductive std :=
  | stdLongMonth
  | stdDay
  | stdLongYear
  | stdHour12
  | stdZeroMinute
  | stdZeroSecond
  | stdPM
  | stdTZ
  | stdNumColonTZ.

Fixpoint drop_chars (n : nat) (s : string) {struct n} : string :=
  match n, s with
  | S n', String _ rest => drop_chars n' rest
  | _, _ => s
  end.

(** The reference element that starts the layout, and its length. *)
Definition std_at (layout : string) : option (std * nat) :=
  if String.prefix "January" layout then Some (stdLongMonth, 7%nat)
  else if String.prefix "2006" layout then Some (stdLongYear, 4%nat)
  else if String.prefix "2" layout then Some (stdDay, 1%nat)
  else if String.prefix "3" layout then Some (stdHour12, 1%nat)
  else if String.prefix "04" layout then Some (stdZeroMinute, 2%nat)
  else if String.prefix "05" layout then Some (stdZeroSecond, 2%nat)
  else if String.prefix "PM" layout then Some (stdPM, 2%nat)
  else if String.prefix "MST" layout then Some (stdTZ, 3%nat)
  else if String.prefix "-07:00" layout && negb (String.prefix "-07:00:00" layout)
       then Some (stdNumColonTZ, 6%nat)
  else None.

(** The successive results of [nextStdChunk]: the literal text before each
    element with the element, and the literal text after the last one. *)
Fixpoint chunks (fuel : nat) (layout : string) (lit : string) {struct fuel}
    : list (string * std) * string :=
  match fuel with
  | O => ([], lit +:+ layout)
  | S fuel' =>
      match layout with
      | EmptyString => ([], lit)
      | String c rest =>
          match std_at layout with
          | Some (e, n) =>
              match chunks fuel' (drop_chars n layout) "" with
              | (l, tail) => ((lit, e) :: l, tail)
              end
          | None => chunks fuel' rest (lit +:+ String c "")
          end
      end
  end.

Fixpoint cutspace (s : string) : string :=
  match s with
  | String c rest => if Ascii.eqb c " " then cutspace rest else s
  | EmptyString => s
  end.

(** [skip(value, prefix)]: the literal text of the layout is removed from
    the value; a space of the layout stands for any run of spaces. *)
Fixpoint skip_steps (fuel : nat) (value prefix : string) {struct fuel}
    : option string :=
  match prefix with
  | EmptyString => Some value
  | String p prest =>
      match fuel with
      | O => None
      | S fuel' =>
          if Ascii.eqb p " " then
            match value with
            | String v _ =>
                if negb (Ascii.eqb v " ") then None
                else skip_steps fuel' (cutspace value) (cutspace prefix)
            | EmptyString => skip_steps fuel' (cutspace value) (cutspace prefix)
            end
          else
            match value with
            | String v vrest =>
                if Ascii.eqb v p then skip_steps fuel' vrest prest else None
            | EmptyString => None
            end
      end
  end.

Definition skip (value prefix : string) : option string :=
  skip_steps (String.length prefix) value prefix.

(** [getnum(s, fixed)]: one or two digits, two when [fixed]. *)
Definition getnum (s : string) (fixed : bool) : option (Z * string) :=
  match s with
  | String c0 rest =>
      if Strconv.is_digit c0 then
        match rest with
        | String c1 rest' =>
            if Strconv.is_digit c1 then
              Some (Strconv.digit_val c0 * 10 + Strconv.digit_val c1, rest')
            else if fixed then None else Some (Strconv.digit_val c0, rest)
        | EmptyString => if fixed then None else Some (Strconv.digit_val c0, rest)
        end
      else None
  | EmptyString => None
  end.

Definition longMonthNames : list string :=
  [ "January"; "February"; "March"; "April"; "May"; "June"; "July";
    "August"; "September"; "October"; "November"; "December" ].

(** [match]: the start of the value is the name, letters compared without
    case; what follows the name is returned. *)
Fixpoint match_name (value name : string) {struct name} : option string :=
  match name with
  | EmptyString => Some value
  | String c2 name' =>
      match value with
      | EmptyString => None
      | String c1 value' =>
          if Ascii.eqb c1 c2 then match_name value' name'
          else
            let l1 := Z.lor (Z.of_N (N_of_ascii c1)) 32 in
            let l2 := Z.lor (Z.of_N (N_of_ascii c2)) 32 in
            if (l1 =? l2) && (97 <=? l1) && (l1 <=? 122)
            then match_name value' name' else None
      end
  end.

(** [lookup(tab, val)]: the index of the first name of the table that
    starts the value. *)
Fixpoint lookup (tab : list string) (i : Z) (value : string) : option (Z * string) :=
  match tab with
  | [] => None
  | name :: tab' =>
      match match_name value name with
      | Some rest => Some (i, rest)
      | None => lookup tab' (i + 1) value
      end
  end.

(** [leadingInt]: the digits that start the string, as a number. *)
Fixpoint leadingInt (x : Z) (s : string) : option (Z * string) :=
  match s with
  | String c rest =>
      if Strconv.is_digit c then
        if 2 ^ 63 / 10 <? x then None
        else
          let x' := x * 10 + Strconv.digit_val c in
          if 2 ^ 63 <? x' then None else leadingInt x' rest
      else Some (x, s)
  | EmptyString => Some (x, s)
  end.

(** [parseSignedOffset]: the length of a sign and an hour up to 23 at the
    start of the value, or 0. *)
Definition parseSignedOffset (value : string) : nat :=
  match value with
  | String sign rest =>
      if Ascii.eqb sign "-" || Ascii.eqb sign "+" then
        match leadingInt 0 rest with
        | Some (x, rem) =>
            if (String.length rem =? String.length rest)%nat then 0%nat
            else if 23 <? x then 0%nat
            else (String.length value - String.length rem)%nat
        | None => 0%nat
        end
      else 0%nat
  | EmptyString => 0%nat
  end.

(** [parseGMT]: the value is known to start with "GMT". *)
Definition parseGMT (value : string) : nat :=
  match drop_chars 3 value with
  | EmptyString => 3%nat
  | rest => (3 + parseSignedOffset rest)%nat
  end.

Definition is_upper (c : ascii) : bool :=
  let n := Z.of_N (N_of_ascii c) in (65 <=? n) && (n <=? 90).

Fixpoint count_upper (limit : nat) (s : string) {struct limit} : nat :=
  match limit, s with
  | S limit', String c rest => if is_upper c then S (count_upper limit' rest) else 0%nat
  | _, _ => 0%nat
  end.

(** [parseTimeZone]: the length of the zone abbreviation that starts the
    value, if there is one. *)
Definition parseTimeZone (value : string) : option nat :=
  if (String.length value <? 3)%nat then None
  else if String.prefix "ChST" value || String.prefix "MeST" value then Some 4%nat
  else if String.prefix "GMT" value then Some (parseGMT value)
  else if String.prefix "+" value || String.prefix "-" value then
    match parseSignedOffset value with
    | O => None
    | n => Some n
    end
  else
    match count_upper 6 value with
    | 5%nat => if String.prefix "T" (drop_chars 4 value) then Some 5%nat else None
    | 4%nat =>
        if String.prefix "T" (drop_chars 3 value) || String.prefix "WITA" value
        then Some 4%nat else None
    | 3%nat => Some 3%nat
    | _ => None
    end.

Fixpoint take_chars (n : nat) (s : string) {struct n} : string :=
  match n, s with
  | S n', String c rest => String c (take_chars n' rest)
  | _, _ => EmptyString
  end.

Fixpoint count_digits (s : string) : nat :=
  match s with
  | String c rest => if Strconv.is_digit c then S (count_digits rest) else 0%nat
  | EmptyString => 0%nat
  end.

(** What [Parse] has read so far. *)
Record fields := mkFields {
  f_year : Z; f_month : Z; f_day : Z;
  f_hour : Z; f_min : Z; f_sec : Z; f_nsec : Z;
  pmSet : bool; amSet : bool;
  zUTC : bool; zoneOffset : Z; zoneName : string
}.

Definition no_fields : fields :=
  mkFields 0 1 1 0 0 0 0 false false false (-1) "".

(** The fraction of a second that follows the seconds in the value although
    the layout has none: a period or comma and digits, of which nine count. *)
Definition fraction (value : string) : option (Z * string) :=
  match value with
  | String c (String c1 _ as rest) =>
      if (Ascii.eqb c "." || Ascii.eqb c ",") && Strconv.is_digit c1 then
        let n := count_digits rest in
        let used := take_chars (Nat.min n 9) rest in
        match Strconv.parse_digits 0 used with
        | Some ns => Some (ns * 10 ^ Z.of_nat (9 - Nat.min n 9), drop_chars n rest)
        | None => None
        end
      else Some (0, value)
  | _ => Some (0, value)
  end.

(** One reference element read from the value. *)
Definition parse_std (e : std) (value : string) (f : fields)
    : option (string * fields) :=
  match e with
  | stdLongMonth =>
      match lookup longMonthNames 1 value with
      | Some (month, rest) =>
          Some (rest, mkFields (f_year f) month (f_day f) (f_hour f) (f_min f)
                        (f_sec f) (f_nsec f) (pmSet f) (amSet f) (zUTC f)
                        (zoneOffset f) (zoneName f))
      | None => None
      end
  | stdDay =>
      match getnum value false with
      | Some (day, rest) =>
          Some (rest, mkFields (f_year f) (f_month f) day (f_hour f) (f_min f)
                        (f_sec f) (f_nsec f) (pmSet f) (amSet f) (zUTC f)
                        (zoneOffset f) (zoneName f))
      | None => None
      end
  | stdLongYear =>
      if (String.length value <? 4)%nat then None
      else
        match Strconv.parse_digits 0 (take_chars 4 value) with
        | Some year =>
            Some (drop_chars 4 value,
                  mkFields year (f_month f) (f_day f) (f_hour f) (f_min f)
                    (f_sec f) (f_nsec f) (pmSet f) (amSet f) (zUTC f)
                    (zoneOffset f) (zoneName f))
        | None => None
        end
  | stdHour12 =>
      match getnum value false with
      | Some (hour, rest) =>
          if 12 <? hour then None
          else Some (rest, mkFields (f_year f) (f_month f) (f_day f) hour (f_min f)
                             (f_sec f) (f_nsec f) (pmSet f) (amSet f) (zUTC f)
                             (zoneOffset f) (zoneName f))
      | None => None
      end
  | stdZeroMinute =>
      match getnum value true with
      | Some (min, rest) =>
          if 60 <=? min then None
          else Some (rest, mkFields (f_year f) (f_month f) (f_day f) (f_hour f) min
                             (f_sec f) (f_nsec f) (pmSet f) (amSet f) (zUTC f)
                             (zoneOffset f) (zoneName f))
      | None => None
      end
  | stdZeroSecond =>
      match getnum value true with
      | Some (sec, rest) =>
          if 60 <=? sec then None
          else
            match fraction rest with
            | Some (ns, rest') =>
                Some (rest', mkFields (f_year f) (f_month f) (f_day f) (f_hour f)
                               (f_min f) sec ns (pmSet f) (amSet f) (zUTC f)
                               (zoneOffset f) (zoneName f))
            | None => None
            end
      | None => None
      end
  | stdPM =>
      if (String.length value <? 2)%nat then None
      else
        let p := take_chars 2 value in
        if String.eqb p "PM" then
          Some (drop_chars 2 value,
                mkFields (f_year f) (f_month f) (f_day f) (f_hour f) (f_min f)
                  (f_sec f) (f_nsec f) true (amSet f) (zUTC f)
                  (zoneOffset f) (zoneName f))
        else if String.eqb p "AM" then
          Some (drop_chars 2 value,
                mkFields (f_year f) (f_month f) (f_day f) (f_hour f) (f_min f)
                  (f_sec f) (f_nsec f) (pmSet f) true (zUTC f)
                  (zoneOffset f) (zoneName f))
        else None
  | stdTZ =>
      if String.prefix "UTC" value then
        Some (drop_chars 3 value,
              mkFields (f_year f) (f_month f) (f_day f) (f_hour f) (f_min f)
                (f_sec f) (f_nsec f) (pmSet f) (amSet f) true
                (zoneOffset f) (zoneName f))
      else
        match parseTimeZone value with
        | Some n =>
            Some (drop_chars n value,
                  mkFields (f_year f) (f_month f) (f_day f) (f_hour f) (f_min f)
                    (f_sec f) (f_nsec f) (pmSet f) (amSet f) (zUTC f)
                    (zoneOffset f) (take_chars n value))
        | None => None
        end
  | stdNumColonTZ =>
      match value with
      | String sign (String h1 (String h2 (String colon (String m1 (String m2 rest))))) =>
          if negb (Ascii.eqb colon ":") then None
          else
            match getnum (String h1 (String h2 "")) true,
                  getnum (String m1 (String m2 "")) true with
            | Some (hr, _), Some (mm, _) =>
                if (24 <? hr) || (60 <? mm) then None
                else
                  let offset := (hr * 60 + mm) * 60 in
                  if Ascii.eqb sign "+" then
                    Some (rest, mkFields (f_year f) (f_month f) (f_day f) (f_hour f)
                                  (f_min f) (f_sec f) (f_nsec f) (pmSet f) (amSet f)
                                  (zUTC f) offset (zoneName f))
                  else if Ascii.eqb sign "-" then
                    Some (rest, mkFields (f_year f) (f_month f) (f_day f) (f_hour f)
                                  (f_min f) (f_sec f) (f_nsec f) (pmSet f) (amSet f)
                                  (zUTC f) (- offset) (zoneName f))
                  else None
            | _, _ => None
            end
      | _ => None
      end
  end.

(** The loop of [Parse] over the chunks of the layout. *)
Fixpoint parse_chunks (l : list (string * std)) (tail : string) (value : string)
    (f : fields) : option fields :=
  match l with
  | [] =>
      match skip value tail with
      | Some EmptyString => Some f
      | _ => None
      end
  | (prefix, e) :: l' =>
      match skip value prefix with
      | Some value' =>
          match parse_std e value' f with
          | Some (value'', f') => parse_chunks l' tail value'' f'
          | None => None
          end
      | None => None
      end
  end.

Definition isLeap (year : Z) : bool :=
  (year mod 4 =? 0) && (negb (year mod 100 =? 0) || (year mod 400 =? 0)).

Definition daysBefore : list Z :=
  [0; 31; 59; 90; 120; 151; 181; 212; 243; 273; 304; 334; 365].

Definition daysIn (month year : Z) : Z :=
  if (month =? 2) && isLeap year then 29
  else nth (Z.to_nat month) daysBefore 0 - nth (Z.to_nat (month - 1)) daysBefore 0.

(** [Date(year, month, day, hour, min, sec, nsec, UTC)] for fields in their
    ranges: the seconds since the Unix epoch. *)
Definition Date (year month day hour min sec ns : Z) : Time :=
  let y := year - 1 in
  let days_before_year := 365 * y + y / 4 - y / 100 + y / 400 in
  let d := days_before_year + nth (Z.to_nat (month - 1)) daysBefore 0
           + (if isLeap year && (3 <=? month) then 1 else 0)
           + (day - 1) - 719162 in
  mkTime (d * 86400 + hour * 3600 + min * 60 + sec) ns.

(** The end of [Parse]: the twelve-hour clock, the day of the month, and the
    zone.  With the zone "UTC" the offset is not looked at. *)
Definition assemble (f : fields) : option Time :=
  let hour :=
    if pmSet f && (f_hour f <? 12) then f_hour f + 12
    else if amSet f && (f_hour f =? 12) then 0
    else f_hour f in
  if (f_day f <? 1) || (daysIn (f_month f) (f_year f) <? f_day f) then None
  else if zUTC f then
    Some (Date (f_year f) (f_month f) (f_day f) hour (f_min f) (f_sec f) (f_nsec f))
  else if negb (zoneOffset f =? -1) then
    match Date (f_year f) (f_month f) (f_day f) hour (f_min f) (f_sec f) (f_nsec f) with
    | mkTime sec ns => Some (mkTime (sec - zoneOffset f) ns)
    end
  else None.

(** [time.Parse(layout, value)]; [None] stands for a [*ParseError]. *)
Definition Parse (layout value : string) : option Time :=
  match chunks (String.length layout) layout "" with
  | (l, tail) =>
      match parse_chunks l tail value no_fields with
      | Some f => assemble f
      | None => None
      end
  end.

End GoTime.

(** ** Package irma: requests *)

Module Irma.

(** [Timestamp] is a [time.Time] that marshals to Unix timestamps. *)
Definition Timestamp := GoTime.Time.

(** [Timestamp.MarshalJSON]; the error it returns is always nil. *)
Definition MarshalJSON (t : Timestamp) : string :=
  let ts := GoTime.Unix_of t in
  Strconv.FormatInt ts.

(** [Timestamp.UnmarshalJSON]: the new value of [*t], or the error. *)
Definition UnmarshalJSON (b : string) : result goerror Timestamp :=
  match Strconv.Atoi b with
  | Errored e => Errored (ENumError e)
  | Ok ts => Ok (GoTime.Unix ts 0)
  end.

Record SessionRequest := mkSessionRequest {
  Context : option Z;
  Nonce : option Z
}.

(** A disjunction names attribute types. *)
Record AttributeDisjunction := mkDisjunction {
  DisjunctionAttributes : list string
}.

Record DisclosureRequest := mkDisclosureRequest {
  DisclosureBase : SessionRequest;
  Content : list AttributeDisjunction
}.

Record SignatureRequest := mkSignatureRequest {
  SignatureBase : DisclosureRequest;
  Message : string;
  MessageType : string
}.

(** [DisclosureRequest.GetNonce]. *)
Definition DisclosureGetNonce (dr : DisclosureRequest) : option Z :=
  Nonce (DisclosureBase dr).

(** [SignatureRequest.GetNonce]: the nonce with the message hashed into it.
    When [asn1.Marshal] fails the error is logged and [asn1bytes] stays nil. *)
Definition GetNonce (sr : SignatureRequest) : Z :=
  let hashbytes := Sha256.Sum256 (Bytes.of_string (Message sr)) in
  let hashint := Bytes.SetBytes hashbytes in
  let asn1bytes :=
    match Asn1.Marshal (Asn1.VSlice [Asn1.VBigInt (Some 2);
                                     Asn1.VBigInt (Nonce (DisclosureBase (SignatureBase sr)));
                                     Asn1.VBigInt (Some hashint)]) with
    | Ok b => b
    | Errored _ => []
    end in
  let asn1hash := Sha256.Sum256 asn1bytes in
  Bytes.SetBytes asn1hash.

(** The nonce as the specification words it:
    SHA256(DER([INTEGER 2, nonce, SHA256(message)])). *)
Definition spec_nonce (message : string) (nonce : Z) : list Z :=
  Sha256.Sum256
    (Der.sequence [Der.integer 2; Der.integer nonce;
                   Der.integer (Bytes.SetBytes (Sha256.Sum256 (Bytes.of_string message)))]).

(** *** The configuration and credential requests *)

Record AttributeDescription := mkAttributeDescription { ID : string }.

Record CredentialType := mkCredentialType {
  CredentialAttributes : list AttributeDescription
}.

Record SchemeManager := mkSchemeManager {
  Valid : bool;
  Status : string;
  KeyshareServer : string
}.

(** Modelled from the spec: [SchemeManager.Distributed] is not among the
    sources; a scheme manager is distributed when it names a keyshare
    server. *)
Definition Distributed (m : SchemeManager) : bool :=
  negb (String.eqb (KeyshareServer m) "").

Record Configuration := mkConfiguration {
  SchemeManagers : gmap string SchemeManager;
  CredentialTypes : gmap string CredentialType
}.

Record CredentialRequest := mkCredentialRequest {
  Validity : option Timestamp;
  KeyCounter : Z;
  CredentialTypeID : option string;
  Attributes : gmap string string
}.

(** [AttributeList]: the integers of a credential, metadata first.  An entry
    is [None] while the slice element is still the nil pointer. *)
Record AttributeList := mkAttributeList { Ints : list (option Z) }.

(** [CredentialInfo]: the preview shown in the dialog, built from the
    integers by [NewCredentialInfo]. *)
Record CredentialInfo := mkCredentialInfo { InfoInts : list (option Z) }.

Definition nil_dereference : panic_value :=
  PValue (Some "runtime error: invalid memory address or nil pointer dereference") None.

(** The assignment [a[i] = x] to a slice element. *)
Definition store {A} (a : list A) (i : nat) (x : A) : exec (list A) :=
  if (i <? length a)%nat then Returns (<[i := x]> a)
  else Panics index_out_of_range.

Section AttributeList.

(** The metadata attribute is built by [NewMetadataAttribute],
    [setKeyCounter], [setCredentialTypeIdentifier], [setSigningDate] and
    [setExpiryDate], none of which is among the sources: the bit-packed
    integer they produce from the key counter, the credential type and the
    validity (and the clock), or the error of [setExpiryDate], is a
    parameter. *)
Variable metadataInt : Z -> string -> option Timestamp -> result goerror Z.

(** The loop [for i, attrtype := range credtype.Attributes]. *)
Fixpoint fill_attributes (given : gmap string string)
    (declared : list AttributeDescription) (i : nat)
    (attrs : list (option Z)) : exec (result goerror (list (option Z))) :=
  match declared with
  | [] => Returns (Ok attrs)
  | attrtype :: rest =>
      match given !! ID attrtype with
      | Some str =>
          match store attrs (i + 1) (Some (Bytes.SetBytes (Bytes.of_string str))) with
          | Panics v => Panics v
          | Returns attrs' => fill_attributes given rest (S i) attrs'
          end
      | None => Returns (Errored (EMessage "Unknown attribute"))
      end
  end.

(** [CredentialRequest.AttributeList]. *)
Definition CredentialRequest_AttributeList (cr : CredentialRequest) (conf : Configuration)
    : exec (result goerror AttributeList) :=
  match CredentialTypeID cr with
  | None => Panics nil_dereference
  | Some id =>
      match metadataInt (KeyCounter cr) id (Validity cr) with
      | Errored e => Returns (Errored e)
      | Ok meta =>
          let attrs := replicate (size (Attributes cr) + 1) (@None Z) in
          match CredentialTypes conf !! id with
          | None => Returns (Errored (EMessage "Unknown credential type"))
          | Some credtype =>
              if negb (length (CredentialAttributes credtype) =? size (Attributes cr))%nat
              then Returns (Errored (EMessage "Received unexpected amount of attributes"))
              else
                match store attrs 0 (Some meta) with
                | Panics v => Panics v
                | Returns attrs0 =>
                    match fill_attributes (Attributes cr)
                            (CredentialAttributes credtype) 0 attrs0 with
                    | Panics v => Panics v
                    | Returns (Errored e) => Returns (Errored e)
                    | Returns (Ok attrs') => Returns (Ok (mkAttributeList attrs'))
                    end
                end
          end
      end
  end.

(** [CredentialRequest.Info]. *)
Definition CredentialRequest_Info (cr : CredentialRequest) (conf : Configuration)
    : exec (result goerror CredentialInfo) :=
  match CredentialRequest_AttributeList cr conf with
  | Panics v => Panics v
  | Returns (Errored e) => Returns (Errored e)
  | Returns (Ok list) => Returns (Ok (mkCredentialInfo (Ints list)))
  end.

(** The integer that [AttributeList] stores for a declared attribute. *)
Definition attribute_int (given : gmap string string) (attrtype : AttributeDescription)
    : option Z :=
  Some (Bytes.SetBytes (Bytes.of_string (default "" (given !! ID attrtype)))).

Definition all_given (given : gmap string string)
    (declared : list AttributeDescription) : bool :=
  forallb (fun attrtype => bool_decide (is_Some (given !! ID attrtype))) declared.

End AttributeList.

End Irma.

(** ** Package strings *)

Module Strings.

(** [strings.Replace(s, old, new, n)] for a non-empty [old] and [n >= 0]:
    the first [n] occurrences of [old], found from the left without
    overlap, are replaced.  [inside] counts the bytes of an occurrence that
    are still to be dropped. *)
Fixpoint replace_from (s old new : string) (n inside : nat) : string :=
  match s with
  | EmptyString => EmptyString
  | String c rest =>
      match inside with
      | S k => replace_from rest old new n k
      | O =>
          match n with
          | O => s
          | S n' =>
              if String.prefix old s
              then new +:+ replace_from rest old new n' (String.length old - 1)
              else String c (replace_from rest old new n O)
          end
      end
  end.

Definition Replace (s old new : string) (n : nat) : string :=
  replace_from s old new n 0.

End Strings.

(** ** Legacy log entries of the old Android app *)

Module Legacy.
Import Irma.

Definition androidLogVerificationType : string := "verification".
Definition androidLogIssueType : string := "issue".
Definition androidLogSignatureType : string := "signature".
Definition androidLogRemoveType : string := "remove".

Definition androidLogTimeFormat : string := "January 2, 2006 3:04:05 PM MST -07:00".

Record androidLogEnvelope := mkEnvelope {
  EnvelopeType : string;
  Value : string
}.

Record androidLogEntry := mkEntry {
  Time : string;
  CredentialIdentifier : string
}.

Record androidLogIssuance := mkIssuance { IssuanceEntry : androidLogEntry }.

Record androidLogRemoval := mkRemoval { RemovalEntry : androidLogEntry }.

Record androidLogVerification := mkVerification {
  VerificationEntry : androidLogEntry;
  Disclosed : gmap string bool
}.

Record androidLogSignature := mkSignature {
  SignatureVerification : androidLogVerification;
  SignatureMessage : string
}.

(** The value that [Parse] returns as [interface{}]: a pointer to one of
    the four types. *)
Inductive androidLog :=
  | LogVerification (val : androidLogVerification)
  | LogIssuance (val : androidLogIssuance)
  | LogSignature (val : androidLogSignature)
  | LogRemoval (val : androidLogRemoval).

Section Envelope.

(** [json.Unmarshal(data, val)] into a fresh value of each type: what the
    value holds afterwards, and the error. *)
Variable unmarshalVerification : string -> androidLogVerification * option goerror.
Variable unmarshalIssuance : string -> androidLogIssuance * option goerror.
Variable unmarshalSignature : string -> androidLogSignature * option goerror.
Variable unmarshalRemoval : string -> androidLogRemoval * option goerror.

(** [androidLogEnvelope.Parse]: the pair of the value and the error. *)
Definition EnvelopeParse (env : androidLogEnvelope) : option androidLog * option goerror :=
  if String.eqb (EnvelopeType env) androidLogVerificationType then
    match unmarshalVerification (Value env) with
    | (val, err) => (Some (LogVerification val), err)
    end
  else if String.eqb (EnvelopeType env) androidLogIssueType then
    match unmarshalIssuance (Value env) with
    | (val, err) => (Some (LogIssuance val), err)
    end
  else if String.eqb (EnvelopeType env) androidLogSignatureType then
    match unmarshalSignature (Value env) with
    | (val, err) => (Some (LogSignature val), err)
    end
  else if String.eqb (EnvelopeType env) androidLogRemoveType then
    match unmarshalRemoval (Value env) with
    | (val, err) => (Some (LogRemoval val), err)
    end
  else (None, Some (EMessage "Invalid Android log type")).

End Envelope.

(** *** Time stamps in the form of the layout

    A time of day on a date, in a zone given by an abbreviation and by an
    offset from UTC, and its text in the layout
    "January 2, 2006 3:04:05 PM MST -07:00". *)

Record civil := mkCivil {
  c_year : Z; c_month : Z; c_day : Z;
  c_hour : Z; c_min : Z; c_sec : Z;
  c_zone : string;
  c_east : bool;
  c_offset_hours : Z; c_offset_minutes : Z
}.

Definition two_digits (n : Z) : string :=
  String (Strconv.digit_char (n / 10)) (String (Strconv.digit_char (n mod 10)) "").

Definition four_digits (n : Z) : string :=
  two_digits (n / 100) +:+ two_digits (n mod 100).

Definition unpadded (n : Z) : string :=
  if n <? 10 then String (Strconv.digit_char n) "" else two_digits n.

Definition month_name (m : Z) : string :=
  nth (Z.to_nat (m - 1)) GoTime.longMonthNames "".

Definition hour12 (h : Z) : Z := if h mod 12 =? 0 then 12 else h mod 12.

Definition meridiem (h : Z) : string := if 12 <=? h then "PM" else "AM".

Definition offset_text (c : civil) : string :=
  String (if c_east c then "+" else "-")
    (two_digits (c_offset_hours c) +:+ ":" +:+ two_digits (c_offset_minutes c)).

(** The text up to the zone abbreviation, then [gap], then the offset: the
    layout has one space for [gap], the old Android app wrote none. *)
Definition time_text (c : civil) (gap : string) : string :=
  month_name (c_month c) +:+ " " +:+ unpadded (c_day c) +:+ ", "
    +:+ four_digits (c_year c) +:+ " " +:+ unpadded (hour12 (c_hour c)) +:+ ":"
    +:+ two_digits (c_min c) +:+ ":" +:+ two_digits (c_sec c) +:+ " "
    +:+ meridiem (c_hour c) +:+ " " +:+ c_zone c +:+ gap +:+ offset_text c.

Fixpoint all_upper (s : string) : bool :=
  match s with
  | EmptyString => true
  | String c rest => GoTime.is_upper c && all_upper rest
  end.

(** Zone abbreviations as Go knows them: three upper-case letters, or four
    or five upper-case letters that end in T and start with neither "UTC"
    nor "GMT", or one of "ChST", "MeST" and "WITA". *)
Definition zone_abbreviation (z : string) : bool :=
  String.eqb z "ChST" || String.eqb z "MeST" || String.eqb z "WITA"
  || (all_upper z
      && match String.length z with
         | 3%nat => true
         | 4%nat | 5%nat =>
             String.prefix "T" (GoTime.drop_chars (String.length z - 1) z)
             && negb (String.prefix "UTC" z) && negb (String.prefix "GMT" z)
         | _ => false
         end).

(** The text has no plus sign. *)
Fixpoint no_plus (s : string) : bool :=
  match s with
  | EmptyString => true
  | String c rest => negb (Ascii.eqb c "+") && no_plus rest
  end.

(** The hour of the day that [Parse] makes of the hour of the twelve-hour
    clock and of "AM" or "PM". *)
Definition clock (h : Z) : Z :=
  let pm := 12 <=? h in
  if pm && (hour12 h <? 12) then hour12 h + 12
  else if negb pm && (hour12 h =? 12) then 0
  else hour12 h.

Definition offset_seconds (c : civil) : Z :=
  let off := (c_offset_hours c * 60 + c_offset_minutes c) * 60 in
  if c_east c then off else - off.

(** A date of the calendar, a time of the day, a zone abbreviation, and an
    offset below a day that is zero when the zone is UTC. *)
Definition well_formed (c : civil) : Prop :=
  0 <= c_year c <= 9999 /\ 1 <= c_month c <= 12
  /\ 1 <= c_day c <= GoTime.daysIn (c_month c) (c_year c)
  /\ 0 <= c_hour c <= 23 /\ 0 <= c_min c <= 59 /\ 0 <= c_sec c <= 59
  /\ zone_abbreviation (c_zone c) = true
  /\ 0 <= c_offset_hours c <= 23 /\ 0 <= c_offset_minutes c <= 59
  /\ (c_zone c = "UTC" -> c_offset_hours c = 0 /\ c_offset_minutes c = 0).

(** The instant that the text denotes. *)
Definition instant (c : civil) : GoTime.Time :=
  match GoTime.Date (c_year c) (c_month c) (c_day c) (c_hour c) (c_min c) (c_sec c) 0 with
  | GoTime.mkTime sec ns => GoTime.mkTime (sec - offset_seconds c) ns
  end.

(** [androidLogEntry.GetTime]: the error of [time.Parse] is dropped, and the
    zero [Time] comes with it. *)
Definition GetTime (entry : androidLogEntry) : Timestamp :=
  let fixed := Strings.Replace (Time entry) "+" " +" 1 in
  match GoTime.Parse androidLogTimeFormat fixed with
  | Some parsed => parsed
  | None => GoTime.zeroTime
  end.

End Legacy.

(** ** irmaclient/session.go: the session engine *)

Module Session.
Import Irma.

(** [irma.Action] is a string type. *)
Definition Action := string.
Definition ActionDisclosing : Action := "disclosing".
Definition ActionSigning : Action := "signing".
Definition ActionIssuing : Action := "issuing".
Definition ActionSchemeManager : Action := "schememanager".
Definition ActionUnknown : Action := "unknown".

(** [irma.Status]. *)
Inductive SessionStatus := StatusManualStarted | StatusCommunicating | StatusConnected.

(** [irma.ErrorType]; [ErrorNone] is the zero value of a [SessionError]
    built without a type. *)
Inductive ErrorTypeT :=
  | ErrorNone
  | ErrorUnknownSchemeManager
  | ErrorInvalidSchemeManager
  | ErrorUnknownAction
  | ErrorProtocolVersionNotSupported
  | ErrorInvalidJWT
  | ErrorUnknownCredentialType
  | ErrorConfigurationDownload
  | ErrorCrypto
  | ErrorRejected
  | ErrorSerialization
  | ErrorKeyshare
  | ErrorPanic
  | ErrorTransport.

Record SessionError := mkSessionError {
  ErrorType : ErrorTypeT;
  Info : string;
  Err : option goerror
}.

(** [irma.IrmaIdentifierSet]: the keys of its maps. *)
Record IrmaIdentifierSet := mkIdentifierSet {
  SetSchemeManagers : gset string;
  SetIssuers : gset string;
  SetCredentialTypes : gset string
}.

(** Modelled from the spec: [IrmaIdentifierSet.Empty] is not among the
    sources; the set is empty when it names nothing. *)
Definition Empty (set : IrmaIdentifierSet) : bool :=
  bool_decide (SetSchemeManagers set = ∅)
  && bool_decide (SetIssuers set = ∅)
  && bool_decide (SetCredentialTypes set = ∅).

(** The request of a session as the engine uses it: the result of its
    [Identifiers()] and, for an issuance request, the credential requests
    and the previews recorded for the dialog. *)
Record IrmaSession := mkIrmaSession {
  Identifiers : IrmaIdentifierSet;
  Credentials : list CredentialRequest;
  CredentialInfoList : list CredentialInfo
}.

(** What leaves the engine: calls on the requestor's server and on scheme
    managers, proof construction, and the callbacks of the session
    [Handler] and of the client handler. *)
Inductive event :=
  | NetGet (path : string)
  | NetPost (path : string)
  | NetDelete
  | ConfDownload (wanted : IrmaIdentifierSet)
  | DownloadManager (url : string)
  | InstallManager
  | BuildProof
  | KeyshareSessionStarted
  | LogEntryAdded
  | StatusUpdate (a : Action) (st : SessionStatus)
  | Success (a : Action) (res : string)
  | Cancelled (a : Action)
  | Failure (a : Action) (e : SessionError)
  | UnsatisfiableRequest (a : Action) (server : string)
  | KeyshareEnrollmentMissing (manager : string)
  | RequestPermission (a : Action) (server : string)
  | RequestSchemeManagerPermission
  | UpdateConfiguration (new : IrmaIdentifierSet)
  | UpdateAttributes.

(** The session object, with the parts of the client it reaches. *)
Record session := mkSession {
  SAction : Action;
  HandlerSet : bool;
  Version : string;
  downloaded : option IrmaIdentifierSet;
  irmaSession : option IrmaSession;
  done : bool;
  ServerURL : string;
  configuration : Configuration;
  keyshareServers : gset string
}.

(** The answer of an HTTP transport call: a value, a [*SessionError], or an
    error of another dynamic type. *)
Inductive transport_result (A : Type) :=
  | TOk (a : A)
  | TSessionError (e : SessionError)
  | TOtherError (e : goerror).
Arguments TOk {A} a.
Arguments TSessionError {A} e.
Arguments TOtherError {A} e.

(** What the collaborators outside this file answer during one task, and
    the order in which the Go runtime ranges over the scheme manager
    identifiers of the request (unspecified by the language). *)
Record World := mkWorld {
  range_check : list string;
  range_enrollment : list string;
  download_answer : Configuration * option IrmaIdentifierSet * option goerror;
  get_jwt : transport_result unit;
  parse_jwt : result goerror (IrmaSession * string);
  info_keys : string -> Z;
  missing_attributes : bool;
  is_distributed : bool;
  proof_answer : exec (option goerror);
  builders_answer : exec (option goerror);
  post_answer : transport_result string;
  construct_credentials : option goerror;
  json_marshal : result goerror string;
  metadata_int : Z -> string -> option Timestamp -> result goerror Z;
  manager_download : option goerror;
  manager_install : option goerror
}.

(** *** A state, trace and panic monad for session tasks *)

Definition M (A : Type) : Type := session -> exec A * session * list event.

Definition ret {A} (a : A) : M A := fun s => (Returns a, s, []).

Definition bind {A B} (m : M A) (k : A -> M B) : M B :=
  fun s =>
    match m s with
    | (Returns a, s1, t1) =>
        match k a s1 with
        | (r, s2, t2) => (r, s2, t1 ++ t2)
        end
    | (Panics v, s1, t1) => (Panics v, s1, t1)
    end.

Notation "x <- m ;; k" := (bind m (fun x => k))
  (at level 90, m at level 80, k at level 90, right associativity, only parsing).
Notation "m ;;; k" := (bind m (fun _ => k))
  (at level 90, k at level 90, right associativity, only parsing).

Definition get : M session := fun s => (Returns s, s, []).
Definition modify (f : session -> session) : M unit := fun s => (Returns tt, f s, []).
Definition emit (e : event) : M unit := fun s => (Returns tt, s, [e]).
Definition panic {A} (v : panic_value) : M A := fun s => (Panics v, s, []).

Definition trace {A} (r : exec A * session * list event) : list event := snd r.
Definition final {A} (r : exec A * session * list event) : session := snd (fst r).
Definition outcome {A} (r : exec A * session * list event) : exec A := fst (fst r).

(** A call of a method of [session.Handler]: a nil interface panics. *)
Definition handler (e : event) : M unit :=
  s <- get ;;
  if HandlerSet s then emit e else panic nil_dereference.

(** The type assertion of a transport error to a pointer to
    [irma.SessionError], when the error has another dynamic type. *)
Definition interface_conversion : panic_value :=
  PValue (Some "interface conversion: error is not *irma.SessionError") None.

Definition set_done (s : session) : session :=
  mkSession (SAction s) (HandlerSet s) (Version s) (downloaded s) (irmaSession s)
    true (ServerURL s) (configuration s) (keyshareServers s).

Definition set_downloaded (c : Configuration) (d : option IrmaIdentifierSet)
    (s : session) : session :=
  mkSession (SAction s) (HandlerSet s) (Version s) d (irmaSession s)
    (done s) (ServerURL s) c (keyshareServers s).

Definition set_irmaSession (r : option IrmaSession) (s : session) : session :=
  mkSession (SAction s) (HandlerSet s) (Version s) (downloaded s) r
    (done s) (ServerURL s) (configuration s) (keyshareServers s).

Definition IsInteractive (s : session) : bool :=
  negb (String.eqb (ServerURL s) "").

(** *** Session lifetime functions *)

(** [panicToError]. *)
Definition panicToError (e : panic_value) : SessionError :=
  let info :=
    match e with
    | PString x => x
    | PValue (Some msg) _ => msg
    | PValue None (Some str) => str
    | _ => ""
    end in
  mkSessionError ErrorPanic info None.

(** [session.delete]: "Idempotently send DELETE to remote server, returning
    whether or not we did something". *)
Definition delete : M bool :=
  s <- get ;;
  if negb (done s) then
    (if IsInteractive s then emit NetDelete else ret tt) ;;;
    modify set_done ;;;
    ret true
  else ret false.

(** [errors.Wrap(e, 0)] of go-errors. *)
Definition Wrap (e : option goerror) : option goerror :=
  match e with
  | None => None
  | Some (EWrapped e') => Some (EWrapped e')
  | Some e' => Some (EWrapped e')
  end.

Definition announce_downloaded : M unit :=
  s <- get ;;
  match downloaded s with
  | Some d => if negb (Empty d) then emit (UpdateConfiguration d) else ret tt
  | None => ret tt
  end.

(** The network call of [delete] on a session that is not done, and the
    announcement of [fail] and [cancel]. *)
Definition delete_trace (s : session) : list event :=
  if IsInteractive s then [NetDelete] else [].

Definition announcement (s : session) : list event :=
  match downloaded s with
  | Some d => if negb (Empty d) then [UpdateConfiguration d] else []
  | None => []
  end.

(** [session.fail]. *)
Definition fail (err : SessionError) : M unit :=
  did <- delete ;;
  if did : bool then
    let err' := mkSessionError (ErrorType err) (Info err) (Wrap (Err err)) in
    announce_downloaded ;;;
    s <- get ;;
    handler (Failure (SAction s) err')
  else ret tt.

(** [session.cancel]. *)
Definition cancel : M unit :=
  did <- delete ;;
  if did : bool then
    announce_downloaded ;;;
    s <- get ;;
    handler (Cancelled (SAction s))
  else ret tt.

(** [session.Dismiss]. *)
Definition Dismiss : M unit := cancel.

(** [session.panicFailure], given what [recover()] returned. *)
Definition panicFailure (e : panic_value) : M unit :=
  match e with
  | PNil => ret tt
  | _ =>
      s <- get ;;
      if HandlerSet s then emit (Failure (SAction s) (panicToError e))
      else ret tt
  end.

(** [defer session.panicFailure()] around the body of a task: when the body
    panics, [recover()] returns the panic value and the task returns. *)
Definition guarded (body : M unit) : M unit :=
  fun s =>
    match body s with
    | (Returns _, s1, t1) => (Returns tt, s1, t1)
    | (Panics v, s1, t1) =>
        match panicFailure v s1 with
        | (r, s2, t2) => (r, s2, t1 ++ t2)
        end
    end.

(** *** Checking the configuration *)

Section Tasks.

Variable w : World.

(** [session.irmaSession.Identifiers()]; the interface is nil before a
    request has been parsed. *)
Definition identifiers : M IrmaIdentifierSet :=
  s <- get ;;
  match irmaSession s with
  | Some r => ret (Identifiers r)
  | None => panic nil_dereference
  end.

(** The loop of [checkKeyshareEnrollment] over the scheme managers. *)
Fixpoint enrollment_loop (ids : list string) : M bool :=
  match ids with
  | [] => ret true
  | id :: rest =>
      s <- get ;;
      match SchemeManagers (configuration s) !! id with
      | None =>
          handler (Failure (SAction s)
                     (mkSessionError ErrorUnknownSchemeManager id None)) ;;;
          ret false
      | Some manager =>
          let distributed := Distributed manager in
          let enrolled := bool_decide (id ∈ keyshareServers s) in
          if distributed && negb enrolled then
            handler (KeyshareEnrollmentMissing id) ;;;
            ret false
          else enrollment_loop rest
      end
  end.

(** [session.checkKeyshareEnrollment]. *)
Definition checkKeyshareEnrollment : M bool :=
  _ <- identifiers ;;
  enrollment_loop (range_enrollment w).

(** The first loop of [checkAndUpateConfiguration]. *)
Fixpoint check_loop (ids : list string) : M bool :=
  match ids with
  | [] => ret true
  | id :: rest =>
      s <- get ;;
      match SchemeManagers (configuration s) !! id with
      | None =>
          fail (mkSessionError ErrorUnknownSchemeManager id None) ;;;
          ret false
      | Some manager =>
          if negb (Valid manager) then
            fail (mkSessionError ErrorInvalidSchemeManager (Status manager) None) ;;;
            ret false
          else check_loop rest
      end
  end.

(** [session.checkAndUpateConfiguration]. *)
Definition checkAndUpateConfiguration : M bool :=
  _ <- identifiers ;;
  ok <- check_loop (range_check w) ;;
  if negb ok then ret false else
  ok <- checkKeyshareEnrollment ;;
  if negb ok then ret false else
  ids <- identifiers ;;
  emit (ConfDownload ids) ;;;
  match download_answer w with
  | (conf', d, err) =>
      modify (set_downloaded conf' d) ;;;
      match err with
      | Some e =>
          fail (mkSessionError ErrorConfigurationDownload "" (Some e)) ;;;
          ret false
      | None => ret true
      end
  end.

(** *** Sending the response *)

(** [session.getProof] and [session.getBuilders]: proof construction is
    done by the client, for the three session types. *)
Definition is_session_action (a : Action) : bool :=
  String.eqb a ActionSigning || String.eqb a ActionDisclosing
  || String.eqb a ActionIssuing.

Definition construct (answer : exec (option goerror)) : M (option goerror) :=
  s <- get ;;
  if is_session_action (SAction s) then
    emit BuildProof ;;;
    match answer with
    | Returns err => ret err
    | Panics v => panic v
    end
  else ret None.

Definition getProof : M (option goerror) := construct (proof_answer w).
Definition getBuilders : M (option goerror) := construct (builders_answer w).

(** [session.sendResponse]. *)
Definition sendResponse : M unit :=
  s <- get ;;
  proceed <-
    (if IsInteractive s then
       if String.eqb (SAction s) ActionSigning
          || String.eqb (SAction s) ActionDisclosing then
         emit (NetPost "proofs") ;;;
         match post_answer w with
         | TSessionError e => fail e ;;; ret None
         | TOtherError _ => panic interface_conversion
         | TOk response =>
             if negb (String.eqb response "VALID") then
               fail (mkSessionError ErrorRejected response None) ;;; ret None
             else ret (Some "")
         end
       else if String.eqb (SAction s) ActionIssuing then
         emit (NetPost "commitments") ;;;
         match post_answer w with
         | TSessionError e => fail e ;;; ret None
         | TOtherError _ => panic interface_conversion
         | TOk _ =>
             match construct_credentials w with
             | Some e => fail (mkSessionError ErrorCrypto "" (Some e)) ;;; ret None
             | None => ret (Some "")
             end
         end
       else ret (Some "")
     else
       match json_marshal w with
       | Errored e => fail (mkSessionError ErrorSerialization "" (Some e)) ;;; ret None
       | Ok messageJson => ret (Some messageJson)
       end) ;;
  match proceed with
  | None => ret tt
  | Some messageJson =>
      emit LogEntryAdded ;;;
      s <- get ;;
      match downloaded s with
      | None => panic nil_dereference
      | Some d =>
          (if negb (Empty d) then emit (UpdateConfiguration d) else ret tt) ;;;
          (if String.eqb (SAction s) ActionIssuing then emit UpdateAttributes
           else ret tt) ;;;
          modify set_done ;;;
          handler (Success (SAction s) messageJson)
      end
  end.

(** *** The tasks of a session *)

Definition set_credentials (creds : list CredentialRequest)
    (infos : list CredentialInfo) (s : session) : session :=
  match irmaSession s with
  | Some r => set_irmaSession (Some (mkIrmaSession (Identifiers r) creds infos)) s
  | None => s
  end.

(** "Store which public keys the server will use". *)
Fixpoint store_key_counters (creds : list CredentialRequest)
    : exec (list CredentialRequest) :=
  match creds with
  | [] => Returns []
  | credreq :: rest =>
      match CredentialTypeID credreq with
      | None => Panics nil_dereference
      | Some id =>
          match store_key_counters rest with
          | Panics v => Panics v
          | Returns rest' =>
              Returns (mkCredentialRequest (Validity credreq) (info_keys w id)
                         (CredentialTypeID credreq) (Attributes credreq) :: rest')
          end
      end
  end.

(** The loop of [start] that records the preview of every credential. *)
Fixpoint info_loop (creds : list CredentialRequest) : M bool :=
  match creds with
  | [] => ret true
  | credreq :: rest =>
      s <- get ;;
      match CredentialRequest_Info (metadata_int w) credreq (configuration s) with
      | Panics v => panic v
      | Returns (Errored e) =>
          fail (mkSessionError ErrorUnknownCredentialType "" (Some e)) ;;;
          ret false
      | Returns (Ok info) =>
          modify (fun s =>
                    match irmaSession s with
                    | Some r =>
                        set_credentials (Credentials r)
                          (CredentialInfoList r ++ [info]) s
                    | None => s
                    end) ;;;
          info_loop rest
      end
  end.

(** What [start] and [NewManualSession] do once the configuration has been
    checked: candidates, then the permission request. *)
Definition ask_permission (requestor : string) (with_status : bool) : M unit :=
  s <- get ;;
  if missing_attributes w then
    handler (UnsatisfiableRequest (SAction s) requestor)
  else
    (if with_status then handler (StatusUpdate (SAction s) StatusConnected)
     else ret tt) ;;;
    if is_session_action (SAction s) then
      handler (RequestPermission (SAction s) requestor)
    else panic (PString "Invalid session type").

(** The body of [session.start]. *)
Definition start_body : M unit :=
  s <- get ;;
  handler (StatusUpdate (SAction s) StatusCommunicating) ;;;
  emit (NetGet "jwt") ;;;
  match get_jwt w with
  | TSessionError e => fail e
  | TOtherError _ => panic interface_conversion
  | TOk _ =>
      match parse_jwt w with
      | Errored e => fail (mkSessionError ErrorInvalidJWT "" (Some e))
      | Ok (request, requestor) =>
          modify (set_irmaSession (Some request)) ;;;
          (if String.eqb (SAction s) ActionIssuing then
             match store_key_counters (Credentials request) with
             | Panics v => panic v
             | Returns creds => modify (set_credentials creds (CredentialInfoList request))
             end
           else ret tt) ;;;
          ok <- checkAndUpateConfiguration ;;
          if negb ok then ret tt else
          ok <- (if String.eqb (SAction s) ActionIssuing then
                   s' <- get ;;
                   match irmaSession s' with
                   | Some ir => info_loop (Credentials ir)
                   | None => panic nil_dereference
                   end
                 else ret true) ;;
          if negb ok then ret tt else
          ask_permission requestor true
      end
  end.

(** [session.start], with its deferred [panicFailure]. *)
Definition start : M unit := guarded start_body.

(** The body of [session.do]. *)
Definition do_body (proceed : bool) : M unit :=
  if negb proceed then cancel else
  s <- get ;;
  handler (StatusUpdate (SAction s) StatusCommunicating) ;;;
  if negb (is_distributed w) then
    err <- getProof ;;
    match err with
    | Some e => fail (mkSessionError ErrorCrypto "" (Some e))
    | None => sendResponse
    end
  else
    err <- getBuilders ;;
    match err with
    | Some e => fail (mkSessionError ErrorCrypto "" (Some e))
    | None => ret tt
    end ;;;
    emit KeyshareSessionStarted.

(** [session.do], with its deferred [panicFailure]. *)
Definition do (proceed : bool) : M unit := guarded (do_body proceed).

(** The keyshare session handler. *)
Definition KeyshareDone : M unit := sendResponse.
Definition KeyshareCancelled : M unit := cancel.

(** [KeyshareError]: a [*SessionError] keeps its fields but for the type. *)
Definition KeyshareError (err : SessionError + goerror) : M unit :=
  match err with
  | inl serr => fail (mkSessionError ErrorKeyshare (Info serr) (Err serr))
  | inr e => fail (mkSessionError ErrorKeyshare "" (Some e))
  end.

(** The body of [session.managerSession] and the callback it hands to
    [RequestSchemeManagerPermission]. *)
Definition managerSession_body : M unit :=
  s <- get ;;
  emit (DownloadManager (ServerURL s)) ;;;
  match manager_download w with
  | Some e =>
      handler (Failure (SAction s)
                 (mkSessionError ErrorConfigurationDownload "" (Some e)))
  | None => handler RequestSchemeManagerPermission
  end.

Definition managerSession : M unit := guarded managerSession_body.

Definition managerPermission (manager : string) (proceed : bool) : M unit :=
  s <- get ;;
  if negb proceed then handler (Cancelled (SAction s)) else
  emit InstallManager ;;;
  match manager_install w with
  | Some e =>
      handler (Failure (SAction s)
                 (mkSessionError ErrorConfigurationDownload "" (Some e)))
  | None =>
      emit (UpdateConfiguration (mkIdentifierSet {[ manager ]} ∅ ∅)) ;;;
      handler (Success (SAction s) "")
  end.

End Tasks.

(** *** Creating a session *)

Inductive task := TaskStart | TaskManagerSession.

Definition set_version (v : string) (s : session) : session :=
  mkSession (SAction s) (HandlerSet s) v (downloaded s) (irmaSession s)
    (done s) (ServerURL s) (configuration s) (keyshareServers s).

Definition set_url (u : string) (s : session) : session :=
  mkSession (SAction s) (HandlerSet s) (Version s) (downloaded s) (irmaSession s)
    (done s) u (configuration s) (keyshareServers s).

(** [strings.HasSuffix(s, "/")]. *)
Fixpoint ends_with_slash (s : string) : bool :=
  match s with
  | EmptyString => false
  | String c EmptyString => Ascii.eqb c "/"
  | String _ rest => ends_with_slash rest
  end.

(** [Client.NewSession]: the task it spawns, or [None] for the nil
    dismisser it returns after a failure.  The run starts from the fresh
    session object. *)
Definition NewSession (qr : Qr) (handlerSet : bool) (conf : Configuration)
    (enrolled : gset string) : exec (option task) * session * list event :=
  let fresh := mkSession (QrType qr) handlerSet "" None None false (URL qr)
                 conf enrolled in
  (if String.eqb (QrType qr) ActionSchemeManager then ret (Some TaskManagerSession)
   else
     match Negotiation.calcVersion qr with
     | Panics v => panic v
     | Returns (Errored err) =>
         fail (mkSessionError ErrorProtocolVersionNotSupported "" (Some err)) ;;;
         ret None
     | Returns (Ok version) =>
         modify (set_version version) ;;;
         if is_session_action (QrType qr) then
           s <- get ;;
           (if negb (ends_with_slash (ServerURL s))
            then modify (set_url (ServerURL s +:+ "/")) else ret tt) ;;;
           ret (Some TaskStart)
         else
           fail (mkSessionError ErrorUnknownAction (QrType qr) None) ;;;
           ret None
     end) fresh.

(** [Client.NewManualSession], after the request has been unmarshalled. *)
Definition NewManualSession (w : World) (request : IrmaSession)
    (handlerSet : bool) (conf : Configuration) (enrolled : gset string)
    : exec unit * session * list event :=
  let fresh := mkSession ActionSigning handlerSet "2" None (Some request) false ""
                 conf enrolled in
  (handler (StatusUpdate ActionSigning StatusManualStarted) ;;;
   ok <- checkAndUpateConfiguration w ;;
   if negb ok then ret tt else
   ask_permission w "E-mail request" false) fresh.

(** *** Sequences of operations on one session

    The entry points through which a session is driven: by the tasks the
    engine spawns, by the keyshare session, and by the application
    ([Dismiss]).  Each carries the answers of the outside world to the calls
    it makes. *)
Inductive operation :=
  | OpStart (w : World)
  | OpDo (w : World) (proceed : bool)
  | OpSendResponse (w : World)
  | OpKeyshareDone (w : World)
  | OpKeyshareCancelled
  | OpKeyshareError (err : SessionError + goerror)
  | OpFail (err : SessionError)
  | OpCancel
  | OpDismiss.

Definition perform (op : operation) : M unit :=
  match op with
  | OpStart w => start w
  | OpDo w proceed => do w proceed
  | OpSendResponse w => guarded (sendResponse w)
  | OpKeyshareDone w => guarded (KeyshareDone w)
  | OpKeyshareCancelled => guarded KeyshareCancelled
  | OpKeyshareError err => guarded (KeyshareError err)
  | OpFail err => guarded (fail err)
  | OpCancel => guarded cancel
  | OpDismiss => guarded Dismiss
  end.

(** The operations one after the other, in the given order. *)
Fixpoint perform_all (ops : list operation) (s : session) : session * list event :=
  match ops with
  | [] => (s, [])
  | op :: rest =>
      match perform op s with
      | (_, s1, t1) =>
          match perform_all rest s1 with
          | (s2, t2) => (s2, t1 ++ t2)
          end
      end
  end.

Definition is_delete (e : event) : bool :=
  match e with NetDelete => true | _ => false end.

Definition deletes (t : list event) : nat := length (List.filter is_delete t).

(** The discipline of the [done] flag: a computation started on a session
    that is done leaves it done and sends no DELETE; started on a session
    that is not done it sends none, or one and leaves the session done. *)
Definition disciplined {A} (m : M A) : Prop :=
  forall s,
    (done s = true -> done (final (m s)) = true /\ deletes (trace (m s)) = 0%nat)
    /\ (done s = false ->
        deletes (trace (m s)) = 0%nat
        \/ (deletes (trace (m s)) = 1%nat /\ done (final (m s)) = true)).

(** The error as [fail] hands it to the handler, with its cause wrapped. *)
Definition wrapped (err : SessionError) : SessionError :=
  mkSessionError (ErrorType err) (Info err) (Wrap (Err err)).

(** The first scheme manager, in the order of the range loop, that is
    absent from the configuration or not valid. *)
Definition offending (conf : Configuration) (id : string) : bool :=
  match SchemeManagers conf !! id with
  | None => true
  | Some manager => negb (Valid manager)
  end.

Definition first_offender (conf : Configuration) (order : list string) : option string :=
  List.find (offending conf) order.

(** The error [checkAndUpateConfiguration] reports for an offending
    scheme manager. *)
Definition manager_error (conf : Configuration) (id : string) : SessionError :=
  match SchemeManagers conf !! id with
  | None => mkSessionError ErrorUnknownSchemeManager id None
  | Some manager => mkSessionError ErrorInvalidSchemeManager (Status manager) None
  end.

(** A scheme manager on which [checkKeyshareEnrollment] stops. *)
Definition blocking (conf : Configuration) (enrolled : gset string) (id : string) : bool :=
  match SchemeManagers conf !! id with
  | None => true
  | Some manager => Distributed manager && negb (bool_decide (id ∈ enrolled))
  end.

Definition is_download_or_proof (e : event) : bool :=
  match e with
  | ConfDownload _ | BuildProof | NetPost _ => true
  | _ => false
  end.

Definition is_announcement (e : event) : bool :=
  match e with UpdateConfiguration _ => true | _ => false end.

End Session.

(** ** Session operations that run at the same time

    The tasks of a session are goroutines ([go session.start()],
    [go session.do(proceed)]) and [Dismiss] is called by the application, so
    the operations on one session object can overlap.  Here an operation is
    the sequence of its accesses to the session object and of its calls,
    and a run interleaves the steps of several operations: the steps act on
    the one session object, one at a time, and a read sees the last
    assignment (the source uses no lock or channel that would order them
    otherwise). *)

Module Goroutines.
Import Irma Session.

(** An operation as the steps it still has to make: a read of the session
    object, an assignment to one of its fields, a call that leaves the
    session engine (the transport, the handler, the client), or a call of
    [session.delete]. *)
Inductive steps (A : Type) : Type :=
  | Return (a : A)
  | Panic (v : panic_value)
  | Read (k : session -> steps A)
  | Write (f : session -> session) (k : steps A)
  | Call (e : event) (k : steps A)
  | CallDelete (k : bool -> steps A).
Arguments Return {A} a.
Arguments Panic {A} v.
Arguments Read {A} k.
Arguments Write {A} f k.
Arguments Call {A} e k.
Arguments CallDelete {A} k.

(** One operation after the other. *)
Fixpoint then_ {A B} (p : steps A) (f : A -> steps B) : steps B :=
  match p with
  | Return a => f a
  | Panic v => Panic v
  | Read k => Read (fun s => then_ (k s) f)
  | Write g k => Write g (then_ k f)
  | Call e k => Call e (then_ k f)
  | CallDelete k => CallDelete (fun did => then_ (k did) f)
  end.

(** The statements of [session.delete]: the test of [done], the test of
    [IsInteractive], the DELETE, and the assignment to [done]. *)
Definition delete_steps : steps bool :=
  Read (fun s =>
    if negb (done s) then
      Read (fun s' =>
        if IsInteractive s' then Call NetDelete (Write set_done (Return true))
        else Write set_done (Return true))
    else Return false).

(** A call of a method of [session.Handler]. *)
Definition handler_steps (e : event) : steps unit :=
  Read (fun s => if HandlerSet s then Call e (Return tt) else Panic nil_dereference).

Definition announce_steps : steps unit :=
  Read (fun s =>
    match downloaded s with
    | Some d => if negb (Empty d) then Call (UpdateConfiguration d) (Return tt)
                else Return tt
    | None => Return tt
    end).

(** [session.fail], [session.cancel] and [session.Dismiss]. *)
Definition fail_steps (err : SessionError) : steps unit :=
  CallDelete (fun did =>
    if did : bool then
      let err' := mkSessionError (ErrorType err) (Info err) (Wrap (Err err)) in
      then_ announce_steps (fun _ =>
        Read (fun s => handler_steps (Failure (SAction s) err')))
    else Return tt).

Definition cancel_steps : steps unit :=
  CallDelete (fun did =>
    if did : bool then
      then_ announce_steps (fun _ =>
        Read (fun s => handler_steps (Cancelled (SAction s))))
    else Return tt).

Definition Dismiss_steps : steps unit := cancel_steps.

(** [session.sendResponse]. *)
Definition sendResponse_steps (w : World) : steps unit :=
  Read (fun s =>
    then_
      (if IsInteractive s then
         if String.eqb (SAction s) ActionSigning
            || String.eqb (SAction s) ActionDisclosing then
           Call (NetPost "proofs")
             match post_answer w with
             | TSessionError e => then_ (fail_steps e) (fun _ => Return None)
             | TOtherError _ => Panic interface_conversion
             | TOk response =>
                 if negb (String.eqb response "VALID") then
                   then_ (fail_steps (mkSessionError ErrorRejected response None))
                     (fun _ => Return None)
                 else Return (Some "")
             end
         else if String.eqb (SAction s) ActionIssuing then
           Call (NetPost "commitments")
             match post_answer w with
             | TSessionError e => then_ (fail_steps e) (fun _ => Return None)
             | TOtherError _ => Panic interface_conversion
             | TOk _ =>
                 match construct_credentials w with
                 | Some e =>
                     then_ (fail_steps (mkSessionError ErrorCrypto "" (Some e)))
                       (fun _ => Return None)
                 | None => Return (Some "")
                 end
             end
         else Return (Some "")
       else
         match json_marshal w with
         | Errored e =>
             then_ (fail_steps (mkSessionError ErrorSerialization "" (Some e)))
               (fun _ => Return None)
         | Ok messageJson => Return (Some messageJson)
         end)
      (fun proceed =>
         match proceed with
         | None => Return tt
         | Some messageJson =>
             Call LogEntryAdded
               (Read (fun s =>
                  match downloaded s with
                  | None => Panic nil_dereference
                  | Some d =>
                      then_ (if negb (Empty d) then Call (UpdateConfiguration d) (Return tt)
                             else Return tt)
                        (fun _ =>
                           then_ (if String.eqb (SAction s) ActionIssuing
                                  then Call UpdateAttributes (Return tt)
                                  else Return tt)
                             (fun _ =>
                                Write set_done
                                  (handler_steps (Success (SAction s) messageJson))))
                  end))
         end)).

(** An operation run alone, from its first step to its last. *)
Fixpoint run {A} (p : steps A) : M A :=
  match p with
  | Return a => ret a
  | Panic v => panic v
  | Read k => fun s => run (k s) s
  | Write f k => bind (modify f) (fun _ => run k)
  | Call e k => bind (emit e) (fun _ => run k)
  | CallDelete k => bind delete (fun did => run (k did))
  end.

(** One step of an operation on the shared session object.  A call of
    [delete] is one step when [atomic] is set (as if [delete] held a lock);
    otherwise the operation goes on with the statements of [delete], and
    other operations can run in between. *)
Definition step {A} (atomic : bool) (p : steps A) (s : session)
    : steps A * session * list event :=
  match p with
  | Return _ | Panic _ => (p, s, [])
  | Read k => (k s, s, [])
  | Write f k => (k, f s, [])
  | Call e k => (k, s, [e])
  | CallDelete k =>
      if atomic then
        match delete s with
        | (Returns did, s1, t1) => (k did, s1, t1)
        | (Panics v, s1, t1) => (Panic v, s1, t1)
        end
      else (then_ delete_steps k, s, [])
  end.

(** A run of several operations: the schedule names, step by step, the
    operation that moves. *)
Fixpoint interleave (atomic : bool) (schedule : list nat)
    (operations : list (steps unit)) (s : session)
    : list (steps unit) * session * list event :=
  match schedule with
  | [] => (operations, s, [])
  | i :: rest =>
      match operations !! i with
      | None => interleave atomic rest operations s
      | Some p =>
          match step atomic p s with
          | (p', s1, t1) =>
              match interleave atomic rest (<[ i := p' ]> operations) s1 with
              | (ops, s2, t2) => (ops, s2, t1 ++ t2)
              end
          end
      end
  end.

(** Operations in which DELETE is only sent by [delete] and [done] is never
    reset. *)
Inductive orderly {A} : steps A -> Prop :=
  | orderly_return a : orderly (Return a)
  | orderly_panic v : orderly (Panic v)
  | orderly_read k : (forall s, orderly (k s)) -> orderly (Read k)
  | orderly_write f k :
      (forall s, done s = true -> done (f s) = true) -> orderly k -> orderly (Write f k)
  | orderly_call e k : is_delete e = false -> orderly k -> orderly (Call e k)
  | orderly_delete k : (forall did, orderly (k did)) -> orderly (CallDelete k).

(** The operations that end a session. *)
Definition session_ending (p : steps unit) : Prop :=
  (exists err, p = fail_steps err) \/ p = cancel_steps \/ p = Dismiss_steps
  \/ (exists w, p = sendResponse_steps w).

End Goroutines.

(** ** Concrete sessions used as examples *)

Module Examples.
Import Irma Session.

Definition example_request : SignatureRequest :=
  mkSignatureRequest
    (mkDisclosureRequest (mkSessionRequest (Some 1) (Some 42)) [])
    "I owe you everything" "STRING".

Definition studentCard : string := "irma-demo.RU.studentCard".

Definition request_ids : IrmaIdentifierSet :=
  mkIdentifierSet {[ "irma-demo" ]} {[ "irma-demo.RU" ]} {[ studentCard ]}.

Definition demo_manager : SchemeManager := mkSchemeManager true "Valid" "".

Definition demo_configuration : Configuration :=
  mkConfiguration {[ "irma-demo" := demo_manager ]}
    {[ studentCard := mkCredentialType
         [mkAttributeDescription "university"; mkAttributeDescription "studentID"] ]}.

Definition demo_request : IrmaSession := mkIrmaSession request_ids [] [].

(** An interactive disclosure session after the download step, in which
    the descriptor of the credential type was downloaded. *)
Definition after_download : session :=
  mkSession ActionDisclosing true "2.2"
    (Some (mkIdentifierSet ∅ ∅ {[ studentCard ]}))
    (Some demo_request) false "https://example.com/irma/session/" demo_configuration ∅.

(** A world in which everything succeeds. *)
Definition fair_world : World :=
  mkWorld ["irma-demo"] ["irma-demo"]
    (demo_configuration, Some (mkIdentifierSet ∅ ∅ ∅), None)
    (TOk tt) (Ok (demo_request, "testsp")) (fun _ => 0)
    false false (Returns None) (Returns None) (TOk "VALID") None (Ok "{}")
    (fun _ _ _ => Ok 1) None None.

(** The same world, but the client panics while it builds the proof. *)
Definition panicking_world : World :=
  mkWorld ["irma-demo"] ["irma-demo"]
    (demo_configuration, Some (mkIdentifierSet ∅ ∅ ∅), None)
    (TOk tt) (Ok (demo_request, "testsp")) (fun _ => 0)
    false false (Panics (PString "boom")) (Returns None) (TOk "VALID") None (Ok "{}")
    (fun _ _ _ => Ok 1) None None.

(** A request that names two scheme managers, of which the configuration
    lacks one and holds the other as invalid. *)
Definition broken_manager : SchemeManager := mkSchemeManager false "InvalidSignature" "".

Definition mixed_configuration : Configuration :=
  mkConfiguration {[ "irma-demo" := broken_manager ]} ∅.

Definition mixed_request : IrmaSession :=
  mkIrmaSession (mkIdentifierSet {[ "irma-demo"; "test" ]} ∅ ∅) [] [].

Definition mixed_session : session :=
  mkSession ActionDisclosing true "2.2" None (Some mixed_request) false
    "https://example.com/irma/session/" mixed_configuration ∅.

Definition world_ranging (order : list string) : World :=
  mkWorld order order
    (mixed_configuration, Some (mkIdentifierSet ∅ ∅ ∅), None)
    (TOk tt) (Ok (mixed_request, "testsp")) (fun _ => 0)
    false false (Returns None) (Returns None) (TOk "VALID") None (Ok "{}")
    (fun _ _ _ => Ok 1) None None.

(** A credential type whose description declares the same attribute twice,
    and a request for it with two different attributes. *)
Definition doubled_configuration : Configuration :=
  mkConfiguration {[ "irma-demo" := demo_manager ]}
    {[ studentCard := mkCredentialType
         [mkAttributeDescription "university"; mkAttributeDescription "university"] ]}.

Definition student_request : CredentialRequest :=
  mkCredentialRequest None 0 (Some studentCard)
    {[ "university" := "RU"; "studentID" := "456" ]}.

(** A metadata attribute that is always built. *)
(** The example of the source: a time stamp of cardemu.xml. *)
Definition cardemu_time : Legacy.civil :=
  Legacy.mkCivil 2017 9 29 11 12 57 "GMT" true 2 0.

(** A JSON decoder that finds nothing to read. *)
Definition end_of_input : goerror := EMessage "unexpected end of JSON input".

Definition empty_entry : Legacy.androidLogEntry := Legacy.mkEntry "" "".

Definition constant_metadata : Z -> string -> option Timestamp -> result goerror Z :=
  fun _ _ _ => Ok 1.

End Examples.


(** ** Package irma: the identifiers of a request *)

Module RequestIdentifiers.

(** [irma.IrmaIdentifierSet]: the keys of its three sets, and the counters
    of the public keys of each issuer. *)
Record IrmaIdentifierSet := mkIrmaIdentifierSet {
  SchemeManagers : gset string;
  Issuers : gset string;
  CredentialTypes : gset string;
  PublicKeys : gmap string (list Z)
}.

(** The set that [Identifiers] starts from: four empty maps. *)
Definition no_identifiers : IrmaIdentifierSet := mkIrmaIdentifierSet ∅ ∅ ∅ ∅.

(** [irma.IssuanceRequest].  [Disclose] is [None] for the nil slice.  The
    field [Ids] of the embedded [SessionRequest], which caches the result of
    [Identifiers], is passed beside the request. *)
Record IssuanceRequest := mkIssuanceRequest {
  IssuanceBase : Irma.SessionRequest;
  Credentials : list Irma.CredentialRequest;
  Disclose : option (list Irma.AttributeDisjunction);
  CredentialInfoList : list Irma.CredentialInfo
}.

(** [IssuanceRequest.ToDisclose]. *)
Definition IssuanceRequest_ToDisclose (ir : IssuanceRequest)
    : list Irma.AttributeDisjunction :=
  match Disclose ir with
  | None => []
  | Some disclose => disclose
  end.

(** [DisclosureRequest.ToDisclose]. *)
Definition DisclosureRequest_ToDisclose (dr : Irma.DisclosureRequest)
    : list Irma.AttributeDisjunction :=
  Irma.Content dr.

Section Identifiers.

(** The methods of the identifier types, which are not among the sources:
    the issuer of a credential type, the scheme manager of an issuer, the
    credential type of an attribute type, and whether an attribute type
    identifier names a whole credential. *)
Variable IssuerIdentifier : string -> string.
Variable SchemeManagerIdentifier : string -> string.
Variable CredentialTypeIdentifier : string -> string.
Variable IsCredential : string -> bool.

Definition scheme_manager_of (cti : string) : string :=
  SchemeManagerIdentifier (IssuerIdentifier cti).

(** The three assignments that enter a credential type, its issuer and its
    scheme manager. *)
Definition add_credential_type (ids : IrmaIdentifierSet) (cti : string)
    : IrmaIdentifierSet :=
  mkIrmaIdentifierSet
    ({[ scheme_manager_of cti ]} ∪ SchemeManagers ids)
    ({[ IssuerIdentifier cti ]} ∪ Issuers ids)
    ({[ cti ]} ∪ CredentialTypes ids)
    (PublicKeys ids).

(** The body of [for _, credreq := range ir.Credentials]. *)
Definition add_credential (ids : IrmaIdentifierSet) (credreq : Irma.CredentialRequest)
    : exec IrmaIdentifierSet :=
  match Irma.CredentialTypeID credreq with
  | None => Panics Irma.nil_dereference
  | Some id =>
      let issuer := IssuerIdentifier id in
      let ids1 := add_credential_type ids id in
      let keys := default [] (PublicKeys ids1 !! issuer) in
      Returns (mkIrmaIdentifierSet (SchemeManagers ids1) (Issuers ids1)
                 (CredentialTypes ids1)
                 (<[ issuer := keys ++ [Irma.KeyCounter credreq] ]> (PublicKeys ids1)))
  end.

(** The loop over the credential requests; the set is written through a
    pointer, so what has been entered stays when a later request panics. *)
Fixpoint add_credentials (ids : IrmaIdentifierSet) (creds : list Irma.CredentialRequest)
    : exec unit * IrmaIdentifierSet :=
  match creds with
  | [] => (Returns tt, ids)
  | credreq :: rest =>
      match add_credential ids credreq with
      | Panics v => (Panics v, ids)
      | Returns ids' => add_credentials ids' rest
      end
  end.

(** The credential type that an attribute of [ir.Disclose] stands for. *)
Definition disclosed_credential_type (attr : string) : string :=
  if negb (IsCredential attr) then CredentialTypeIdentifier attr else attr.

(** The loops over the disjunctions and their attributes, with the
    credential type read off each attribute by [cti]. *)
Definition add_disjunctions (cti : string -> string) (ids : IrmaIdentifierSet)
    (disjunctions : list Irma.AttributeDisjunction) : IrmaIdentifierSet :=
  fold_left
    (fun ids disjunction =>
       fold_left (fun ids attr => add_credential_type ids (cti attr))
         (Irma.DisjunctionAttributes disjunction) ids)
    disjunctions ids.

(** [IssuanceRequest.Identifiers]: the result, and [ir.Ids] afterwards. *)
Definition IssuanceRequest_Identifiers (ir : IssuanceRequest)
    (Ids : option IrmaIdentifierSet)
    : exec IrmaIdentifierSet * option IrmaIdentifierSet :=
  match Ids with
  | Some ids => (Returns ids, Some ids)
  | None =>
      match add_credentials no_identifiers (Credentials ir) with
      | (Panics v, ids) => (Panics v, Some ids)
      | (Returns _, ids) =>
          let ids' := add_disjunctions disclosed_credential_type ids
                        (default [] (Disclose ir)) in
          (Returns ids', Some ids')
      end
  end.

(** [DisclosureRequest.Identifiers]: the result, and [dr.Ids] afterwards. *)
Definition DisclosureRequest_Identifiers (dr : Irma.DisclosureRequest)
    (Ids : option IrmaIdentifierSet) : IrmaIdentifierSet * option IrmaIdentifierSet :=
  match Ids with
  | Some ids => (ids, Some ids)
  | None =>
      let ids := add_disjunctions CredentialTypeIdentifier no_identifiers
                   (Irma.Content dr) in
      (ids, Some ids)
  end.

(** The credential types that the requests and the disjunctions name, in
    the order in which the loops meet them. *)
Definition requested_types (creds : list Irma.CredentialRequest) : list string :=
  omap Irma.CredentialTypeID creds.

Definition disjunction_types (cti : string -> string)
    (disjunctions : list Irma.AttributeDisjunction) : list string :=
  map cti (flat_map Irma.DisjunctionAttributes disjunctions).

(** The key counters of the requests for credentials of one issuer. *)
Definition counters_of (issuer : string) (creds : list Irma.CredentialRequest) : list Z :=
  omap (fun credreq =>
          match Irma.CredentialTypeID credreq with
          | Some id =>
              if String.eqb (IssuerIdentifier id) issuer
              then Some (Irma.KeyCounter credreq) else None
          | None => None
          end) creds.

End Identifiers.

(** Modelled from the spec: "Parents are derivable from children by
    stripping suffixes"; an identifier is a dotted path, and its parent is
    the path without the last component. *)
Fixpoint has_dot (s : string) : bool :=
  match s with
  | EmptyString => false
  | String c rest => Ascii.eqb c "." || has_dot rest
  end.

Fixpoint parent (s : string) : string :=
  match s with
  | EmptyString => EmptyString
  | String c rest => if has_dot rest then String c (parent rest) else EmptyString
  end.

Fixpoint count_dots (s : string) : nat :=
  match s with
  | EmptyString => 0%nat
  | String c rest => ((if Ascii.eqb c "." then 1 else 0) + count_dots rest)%nat
  end.

(** Modelled from the spec: of the four kinds of names, a credential type
    is the one with three components. *)
Definition names_credential (s : string) : bool := (count_dots s =? 2)%nat.

End RequestIdentifiers.

(** ** More examples *)

Module RequestExamples.
Import RequestIdentifiers.

(** An issuance request for two credentials of the issuer "irma-demo.RU"
    and one of "irma-demo.MijnOverheid", which also asks for an attribute of
    a credential of the scheme manager "test" to be disclosed. *)
Definition issuance_example : IssuanceRequest :=
  mkIssuanceRequest (Irma.mkSessionRequest (Some 1) (Some 42))
    [ Irma.mkCredentialRequest None 2 (Some "irma-demo.RU.studentCard") ∅;
      Irma.mkCredentialRequest None 0 (Some "irma-demo.MijnOverheid.ageLimits") ∅;
      Irma.mkCredentialRequest None 3 (Some "irma-demo.RU.guestCard") ∅ ]
    (Some [Irma.mkDisjunction ["test.test.email.email"]]) [].

(** The same request with a credential request in the middle that names
    no credential type. *)
Definition untyped_example : IssuanceRequest :=
  mkIssuanceRequest (Irma.mkSessionRequest (Some 1) (Some 42))
    [ Irma.mkCredentialRequest None 2 (Some "irma-demo.RU.studentCard") ∅;
      Irma.mkCredentialRequest None 0 None ∅;
      Irma.mkCredentialRequest None 3 (Some "irma-demo.RU.guestCard") ∅ ]
    (Some [Irma.mkDisjunction ["test.test.email.email"]]) [].

Definition disclosure_example : Irma.DisclosureRequest :=
  Irma.mkDisclosureRequest (Irma.mkSessionRequest (Some 1) (Some 42))
    [ Irma.mkDisjunction ["irma-demo.RU.studentCard.studentID";
                          "irma-demo.MijnOverheid.root.BSN"];
      Irma.mkDisjunction ["irma-demo.RU.studentCard.level"] ].

End RequestExamples.

(** ** Package irma: how values are encoded *)

Module Encoding.

(** A byte slice whose elements are bytes. *)
Definition bytes (b : list Z) : Prop := Forall (fun x => 0 <= x < 256) b.

(** The text starts with a NUL byte. *)
Definition leading_nul (s : string) : bool :=
  match s with
  | String c _ => Ascii.eqb c zero
  | EmptyString => false
  end.

(** The text of a decimal number: an optional sign and digits. *)
Fixpoint all_digits (s : string) : bool :=
  match s with
  | EmptyString => true
  | String c rest => Strconv.is_digit c && all_digits rest
  end.

Definition unsigned_part (s : string) : string :=
  match s with
  | String c rest => if Ascii.eqb c "-" || Ascii.eqb c "+" then rest else s
  | EmptyString => s
  end.

Definition decimal (s : string) : bool :=
  all_digits (unsigned_part s) && negb (String.eqb (unsigned_part s) "").

(** A credential request with one attribute value replaced. *)
Definition with_attribute (cr : Irma.CredentialRequest) (k v : string)
    : Irma.CredentialRequest :=
  Irma.mkCredentialRequest (Irma.Validity cr) (Irma.KeyCounter cr)
    (Irma.CredentialTypeID cr) (<[ k := v ]> (Irma.Attributes cr)).

End Encoding.

(** ** Legacy session information *)

Module LegacySessionInfo.

Section SessionInfo.

(** Go's [float64], into which [encoding/json] decodes a number that it
    stores in an [interface{}], and the conversion [int(counter)]. *)
Variable float64 : Type.
Variable to_int : float64 -> Z.

(** A JSON value decoded into an [interface{}]: nil, [bool], [float64],
    [string], [[]interface{}] or [map[string]interface{}]. *)
Inductive json :=
  | JNull
  | JBool (b : bool)
  | JNumber (f : float64)
  | JString (s : string)
  | JArray (items : list json)
  | JObject (fields : gmap string json).

(** The anonymous struct [temp] that the JSON text is decoded into. *)
Record temp := mkTemp {
  TempJwt : string;
  TempNonce : option Z;
  TempContext : option Z;
  TempKeys : list (list json)
}.

(** [irma.SessionInfo]; the nil map reads as the empty map. *)
Record SessionInfo := mkSessionInfo {
  Jwt : string;
  InfoNonce : option Z;
  InfoContext : option Z;
  Keys : gmap string Z
}.

(** [json.Unmarshal(b, temp)] into the fresh [temp]. *)
Variable unmarshal : string -> result goerror temp.

Definition deserialize_error : goerror :=
  EMessage "Failed to deserialize session info".

(** The three type assertions on one item of [temp.Keys]; the index
    expressions [item[0]] and [item[1]] panic on a shorter item. *)
Definition key_of_item (item : list json) : exec (result goerror (string * Z)) :=
  match item !! 0%nat with
  | None => Panics index_out_of_range
  | Some (JObject idmap) =>
      match idmap !! "identifier" with
      | Some (JString idstr) =>
          match item !! 1%nat with
          | None => Panics index_out_of_range
          | Some (JNumber counter) => Returns (Ok (idstr, to_int counter))
          | Some _ => Returns (Errored deserialize_error)
          end
      | _ => Returns (Errored deserialize_error)
      end
  | Some _ => Returns (Errored deserialize_error)
  end.

(** The loop [for _, item := range temp.Keys], writing [si.Keys]. *)
Fixpoint store_keys (items : list (list json)) (si : SessionInfo)
    : exec (option goerror) * SessionInfo :=
  match items with
  | [] => (Returns None, si)
  | item :: rest =>
      match key_of_item item with
      | Panics v => (Panics v, si)
      | Returns (Errored e) => (Returns (Some e), si)
      | Returns (Ok (id, counter)) =>
          store_keys rest
            (mkSessionInfo (Jwt si) (InfoNonce si) (InfoContext si)
               (<[ id := counter ]> (Keys si)))
      end
  end.

(** [SessionInfo.UnmarshalJSON]: the error, and [*si] afterwards. *)
Definition UnmarshalJSON (b : string) (si : SessionInfo)
    : exec (option goerror) * SessionInfo :=
  match unmarshal b with
  | Errored err => (Returns (Some err), si)
  | Ok t =>
      store_keys (TempKeys t)
        (mkSessionInfo (TempJwt t) (TempNonce t) (TempContext t) ∅)
  end.

(** An item of the form [[{"identifier": id, ...}, counter, ...]]. *)
Definition well_formed_item (item : list json) (id : string) (counter : float64) : Prop :=
  exists idmap rest,
    item = JObject idmap :: JNumber counter :: rest
    /\ idmap !! "identifier" = Some (JString id).

(** The map that assigning the pairs one after the other leaves. *)
Definition assign_all (pairs : list (string * float64)) (keys : gmap string Z)
    : gmap string Z :=
  fold_left (fun keys p => <[ fst p := to_int (snd p) ]> keys) pairs keys.

End SessionInfo.

Arguments JNull {float64}.
Arguments JBool {float64} b.
Arguments JString {float64} s.
Arguments JNumber {float64} f.
Arguments JArray {float64} items.
Arguments JObject {float64} fields.

End LegacySessionInfo.

Module SessionInfoExamples.
Import LegacySessionInfo.

(** What the requestor's server sends for the keys: pairs of an issuer and
    the counter of its public key, here with numbers that are integers. *)
Definition server_keys : temp Z :=
  mkTemp Z "eyJ" (Some 42) (Some 1)
    [ [JObject {[ "identifier" := JString "irma-demo.RU" ]}; JNumber 2];
      [JObject {[ "identifier" := JString "irma-demo.MijnOverheid" ]}; JNumber 1];
      [JObject {[ "identifier" := JString "irma-demo.RU" ]}; JNumber 3] ].

Definition stale_info : SessionInfo :=
  mkSessionInfo "old" None None {[ "test.test" := 7 ]}.

End SessionInfoExamples.

(** ** What a session lets out *)

Module SessionTraces.
Import Irma Session.

(** Calls on the requestor's server. *)
Definition is_network (e : event) : bool :=
  match e with
  | NetGet _ | NetPost _ | NetDelete => true
  | _ => false
  end.

(** The callbacks that end a session for the user. *)
Definition is_outcome (e : event) : bool :=
  match e with
  | Success _ _ | Cancelled _ | Failure _ _ => true
  | _ => false
  end.

(** A computation that, on a session without a server URL, leaves it
    without one and makes no call on a requestor's server. *)
Definition offline {A} (m : M A) : Prop :=
  forall s,
    ServerURL s = "" ->
    ServerURL (final (m s)) = "" /\ List.filter is_network (trace (m s)) = [].

(** The operations of a manual session: all but [start], which only
    [NewSession] spawns. *)
Definition manual_operation (op : operation) : bool :=
  match op with
  | OpStart _ => false
  | _ => true
  end.

(** The operations that end a session through [fail] or [cancel]. *)
Definition is_ending (op : operation) : bool :=
  match op with
  | OpFail _ | OpCancel | OpDismiss | OpKeyshareCancelled | OpKeyshareError _ => true
  | _ => false
  end.

(** The session object that [NewSession] creates. *)
Definition fresh_session (qr : Qr) (handlerSet : bool) (conf : Configuration)
    (enrolled : gset string) : session :=
  mkSession (QrType qr) handlerSet "" None None false (URL qr) conf enrolled.

(** Every scheme manager of the set is in the configuration and valid, and
    the client is enrolled to it if it is distributed. *)
Definition managers_usable (conf : Configuration) (enrolled : gset string)
    (managers : gset string) : Prop :=
  forall id, id ∈ managers ->
    exists manager,
      SchemeManagers conf !! id = Some manager
      /\ Valid manager = true
      /\ (Distributed manager = true -> id ∈ enrolled).

End SessionTraces.

Module SessionExamples.
Import Irma Session.

(** A scheme manager with a keyshare server, to which the client is not
    enrolled, and a request that names it. *)
Definition distributed_manager : SchemeManager :=
  mkSchemeManager true "Valid" "https://keyshare.example.com".

Definition distributed_configuration : Configuration :=
  mkConfiguration {[ "test" := distributed_manager ]} ∅.

Definition distributed_request : IrmaSession :=
  mkIrmaSession (mkIdentifierSet {[ "test" ]} {[ "test.test" ]} {[ "test.test.email" ]})
    [] [].

Definition distributed_session : session :=
  mkSession ActionDisclosing true "2.2" None (Some distributed_request) false
    "https://example.com/irma/session/" distributed_configuration ∅.

Definition distributed_world : World :=
  mkWorld ["test"] ["test"]
    (distributed_configuration, Some (mkIdentifierSet ∅ ∅ ∅), None)
    (TOk tt) (Ok (distributed_request, "testsp")) (fun _ => 0)
    false true (Returns None) (Returns (Some (EMessage "no builders")))
    (TOk "VALID") None (Ok "{}") (fun _ _ _ => Ok 1) None None.

(** The same session on a client that is enrolled. *)
Definition enrolled_session : session :=
  mkSession ActionDisclosing true "2.2" (Some (mkIdentifierSet ∅ ∅ ∅))
    (Some distributed_request) false
    "https://example.com/irma/session/" distributed_configuration {[ "test" ]}.

(** The session that [NewSession] creates for the QR code of a scheme
    manager. *)
Definition manager_session : session :=
  mkSession ActionSchemeManager true "" None None false
    "https://example.com/irma-demo-schememanager" Examples.demo_configuration ∅.

(** The session that [NewSession] hands to [start] for a disclosure. *)
Definition before_start : session :=
  mkSession ActionDisclosing true "2.2" None None false
    "https://example.com/irma/session/" Examples.demo_configuration ∅.

(** A world in which the requestor's server does not answer. *)
Definition unreachable_world : World :=
  mkWorld ["irma-demo"] ["irma-demo"]
    (Examples.demo_configuration, Some (mkIdentifierSet ∅ ∅ ∅), None)
    (TSessionError (mkSessionError ErrorTransport "timeout" None))
    (Ok (Examples.demo_request, "testsp")) (fun _ => 0)
    false false (Returns None) (Returns None) (TOk "VALID") None (Ok "{}")
    (fun _ _ _ => Ok 1) None None.

(** A world in which the client lacks the requested attributes. *)
Definition demanding_world : World :=
  mkWorld ["irma-demo"] ["irma-demo"]
    (Examples.demo_configuration, Some (mkIdentifierSet ∅ ∅ ∅), None)
    (TOk tt) (Ok (Examples.demo_request, "testsp")) (fun _ => 0)
    true false (Returns None) (Returns None) (TOk "VALID") None (Ok "{}")
    (fun _ _ _ => Ok 1) None None.

(** A world in which the server refuses the proof. *)
Definition refusing_world : World :=
  mkWorld ["irma-demo"] ["irma-demo"]
    (Examples.demo_configuration, Some (mkIdentifierSet ∅ ∅ ∅), None)
    (TOk tt) (Ok (Examples.demo_request, "testsp")) (fun _ => 0)
    false false (Returns None) (Returns None) (TOk "INVALID") None (Ok "{}")
    (fun _ _ _ => Ok 1) None None.

End SessionExamples.
(** * Theorems *)

(** ** Decimal printing and parsing *)

Module StrconvFacts.
Import Strconv.

Lemma digit_cases (d : Z) :
  0 <= d < 10 ->
  d = 0 \/ d = 1 \/ d = 2 \/ d = 3 \/ d = 4 \/ d = 5 \/ d = 6 \/ d = 7 \/ d = 8 \/ d = 9.
Proof. lia. Qed.

Lemma digit_char_is_digit (d : Z) :
  0 <= d < 10 ->
  is_digit (digit_char d) = true /\ digit_val (digit_char d) = d
  /\ Ascii.eqb (digit_char d) "-" = false /\ Ascii.eqb (digit_char d) "+" = false.
Proof.
  intros Hd. destruct (digit_cases d Hd) as [-> | [-> | [-> | [-> | [-> | [-> | [-> | [-> | [-> | ->]]]]]]]]];
    repeat split; reflexivity.
Qed.

Lemma format_digits_parse (fuel : nat) :
  forall u buf, 0 <= u < 10 ^ Z.of_nat fuel ->
    exists p, forall acc,
      parse_digits acc (format_digits fuel u buf) = parse_digits (acc * p + u) buf.
Proof.
  induction fuel as [| fuel IH]; intros u buf Hu.
  - exists 1. intros acc. simpl in *. f_equal. lia.
  - assert (Hm : 0 <= u mod 10 < 10) by (apply Z.mod_pos_bound; lia).
    destruct (digit_char_is_digit _ Hm) as (Hdig & Hval & _).
    cbn [format_digits]. destruct (u / 10 =? 0) eqn:Hq.
    + exists 10. intros acc. cbn [parse_digits]. rewrite Hdig, Hval.
      apply Z.eqb_eq in Hq. f_equal.
      pose proof (Z.div_mod u 10). lia.
    + assert (Hdiv : 0 <= u / 10 < 10 ^ Z.of_nat fuel).
      { split; [apply Z.div_pos; lia |].
        apply Z.div_lt_upper_bound; [lia |].
        rewrite Nat2Z.inj_succ, Z.pow_succ_r in Hu by lia. lia. }
      destruct (IH (u / 10) (String (digit_char (u mod 10)) buf) Hdiv) as [p Hp].
      exists (p * 10). intros acc. rewrite Hp. cbn [parse_digits].
      rewrite Hdig, Hval. f_equal.
      pose proof (Z.div_mod u 10). lia.
Qed.

Lemma format_digits_head (fuel : nat) :
  forall u buf, 0 <= u ->
    exists d rest, 0 <= d < 10 /\ format_digits (S fuel) u buf = String (digit_char d) rest.
Proof.
  induction fuel as [| fuel IH]; intros u buf Hu.
  - assert (Hm : 0 <= u mod 10 < 10) by (apply Z.mod_pos_bound; lia).
    cbn [format_digits]. destruct (u / 10 =? 0); eauto.
  - assert (Hm : 0 <= u mod 10 < 10) by (apply Z.mod_pos_bound; lia).
    remember (S fuel) as f. cbn [format_digits]. destruct (u / 10 =? 0); [eauto |].
    subst f. apply IH. apply Z.div_pos; lia.
Qed.

Lemma fuel_enough (u : Z) : 0 <= u -> u < 10 ^ Z.of_nat (S (Z.to_nat (Z.log2 u))).
Proof.
  intros Hu. rewrite Nat2Z.inj_succ, Z2Nat.id by apply Z.log2_nonneg.
  destruct (Z.eq_dec u 0) as [-> | Hne]; [reflexivity |].
  pose proof (Z.log2_spec u ltac:(lia)) as [_ Hlt].
  eapply Z.lt_le_trans; [exact Hlt |].
  apply Z.pow_le_mono_l. lia.
Qed.

Lemma parse_FormatUint (u : Z) : 0 <= u -> parse_digits 0 (FormatUint u) = Some u.
Proof.
  intros Hu. unfold FormatUint.
  destruct (format_digits_parse _ u "" (conj Hu (fuel_enough u Hu))) as [p Hp].
  rewrite Hp. reflexivity.
Qed.

Lemma digit_val_range (c : ascii) : is_digit c = true -> 0 <= digit_val c < 10.
Proof.
  unfold is_digit, digit_val. intros H. apply andb_true_iff in H as [H1 H2].
  apply Z.leb_le in H1, H2. lia.
Qed.

Lemma parse_digits_lower (s : string) :
  forall acc n, 0 <= acc -> parse_digits acc s = Some n -> acc <= n.
Proof.
  induction s as [| c s IH]; intros acc n Hacc H; cbn [parse_digits] in H.
  - injection H as <-. lia.
  - destruct (is_digit c) eqn:Hc; [| discriminate].
    pose proof (digit_val_range c Hc). apply IH in H; lia.
Qed.

(** On digits whose number fits [uint64], the loop of [ParseUint] reads the
    number. *)
Lemma parse_uint_of_digits (s : string) :
  forall acc n, 0 <= acc -> parse_digits acc s = Some n -> n <= maxUint64 ->
    parse_uint acc s = Ok n.
Proof.
  induction s as [| c s IH]; intros acc n Hacc H Hn;
    cbn [parse_digits parse_uint] in *.
  - injection H as <-. reflexivity.
  - destruct (is_digit c) eqn:Hc; [| discriminate]. cbn [negb].
    pose proof (digit_val_range c Hc) as Hd.
    pose proof (parse_digits_lower s (acc * 10 + digit_val c) n ltac:(lia) H) as Hlow.
    unfold cutoff10, maxUint64 in *.
    change (2 ^ 64 - 1) with 18446744073709551615 in *.
    change (18446744073709551615 / 10 + 1) with 1844674407370955162.
    destruct (1844674407370955162 <=? acc) eqn:Hcut; [apply Z.leb_le in Hcut; lia |].
    destruct (18446744073709551615 <? acc * 10 + digit_val c) eqn:Hmax;
      [apply Z.ltb_lt in Hmax; lia |].
    apply IH; [lia | exact H | exact Hn].
Qed.

(** [Atoi] reads back what [FormatInt] prints, for every [int]. *)
Lemma Atoi_FormatInt (i : Z) :
  - 2 ^ 63 <= i < 2 ^ 63 -> Atoi (FormatInt i) = Ok i.
Proof.
  intros Hi. change (2 ^ 63) with 9223372036854775808 in Hi.
  unfold Atoi, FormatInt, intSize. destruct (i <? 0) eqn:Hneg.
  - apply Z.ltb_lt in Hneg.
    destruct (format_digits_head (Z.to_nat (Z.log2 (- i))) (- i) "" ltac:(lia))
      as (d & rest & Hd & Hfmt).
    pose proof (parse_FormatUint (- i) ltac:(lia)) as Hparse.
    unfold FormatUint in *. rewrite Hfmt in *.
    unfold ParseInt. rewrite Ascii.eqb_refl. cbn [orb].
    rewrite (parse_uint_of_digits _ 0 _ ltac:(lia) Hparse)
      by (unfold maxUint64; change (2 ^ 64 - 1) with 18446744073709551615; lia).
    change (2 ^ (64 - 1)) with 9223372036854775808.
    cbn [negb andb].
    destruct (9223372036854775808 <? - i) eqn:Hc; [apply Z.ltb_lt in Hc; lia |].
    f_equal. lia.
  - apply Z.ltb_ge in Hneg.
    destruct (format_digits_head (Z.to_nat (Z.log2 i)) i "" ltac:(lia))
      as (d & rest & Hd & Hfmt).
    pose proof (parse_FormatUint i ltac:(lia)) as Hparse.
    destruct (digit_char_is_digit d Hd) as (_ & _ & Hminus & Hplus).
    unfold FormatUint in *. rewrite Hfmt in *.
    unfold ParseInt. rewrite Hminus, Hplus. cbn [orb negb andb].
    rewrite (parse_uint_of_digits _ 0 _ ltac:(lia) Hparse)
      by (unfold maxUint64; change (2 ^ 64 - 1) with 18446744073709551615; lia).
    change (2 ^ (64 - 1)) with 9223372036854775808.
    destruct (9223372036854775808 <=? i) eqn:Hc; [apply Z.leb_le in Hc; lia |].
    reflexivity.
Qed.

End StrconvFacts.

(** ** ASN.1: the Go encoder against DER *)

Module DerFacts.
Import Bytes Der.

(** A property of bytes can be checked on the 256 of them. *)
Lemma byte_cases (P : Z -> bool) :
  forallb P (map Z.of_nat (seq 0 256)) = true ->
  forall b, 0 <= b < 256 -> P b = true.
Proof.
  intros Hall b Hb. rewrite forallb_forall in Hall. apply Hall.
  apply in_map_iff. exists (Z.to_nat b). split; [lia |].
  apply in_seq. lia.
Qed.

Lemma land_128 (b : Z) : 0 <= b < 256 -> (Z.land b 128 =? 0) = (b <? 128).
Proof.
  intros Hb. apply Bool.eqb_prop.
  apply (byte_cases (fun b => Bool.eqb (Z.land b 128 =? 0) (b <? 128))); [| exact Hb].
  vm_compute. reflexivity.
Qed.

Lemma lxor_255 (b : Z) : 0 <= b < 256 -> Z.lxor b 255 = 255 - b.
Proof.
  intros Hb. apply Z.eqb_eq.
  apply (byte_cases (fun b => Z.lxor b 255 =? 255 - b)); [| exact Hb].
  vm_compute. reflexivity.
Qed.

Lemma lor_128 (k : Z) : 0 <= k < 128 -> Z.lor 128 k = 128 + k.
Proof.
  intros Hk. apply Z.eqb_eq.
  pose proof (byte_cases (fun k => (128 <=? k) || (Z.lor 128 k =? 128 + k))
                eq_refl k ltac:(lia)) as H.
  cbv beta in H. destruct (128 <=? k) eqn:E; [apply Z.leb_le in E; lia | exact H].
Qed.

Lemma octets_length (k : nat) (v : Z) : length (octets k v) = k.
Proof. induction k; simpl; congruence. Qed.

Lemma octets_bytes (k : nat) (v : Z) : Forall (fun b => 0 <= b < 256) (octets k v).
Proof.
  induction k; simpl; constructor; [apply Z.mod_pos_bound; lia | assumption].
Qed.

Lemma octets_snoc (k : nat) (n : Z) :
  octets (S k) n = octets k (n / 256) ++ [n mod 256].
Proof.
  induction k as [| k IH].
  - simpl. rewrite Z.div_1_r. reflexivity.
  - change (octets (S (S k)) n)
      with ((n / 2 ^ (8 * Z.of_nat (S k))) mod 256 :: octets (S k) n).
    rewrite IH. change (octets (S k) (n / 256))
      with ((n / 256 / 2 ^ (8 * Z.of_nat k)) mod 256 :: octets k (n / 256)).
    simpl app. f_equal. f_equal.
    rewrite Z.div_div by lia. f_equal.
    rewrite Nat2Z.inj_succ.
    replace (8 * Z.succ (Z.of_nat k)) with (8 + 8 * Z.of_nat k) by lia.
    rewrite Z.pow_add_r by lia. reflexivity.
Qed.

Lemma pow_8_succ (k : nat) : 2 ^ (8 * Z.of_nat (S k)) = 2 ^ (8 * Z.of_nat k) * 256.
Proof.
  rewrite Nat2Z.inj_succ.
  replace (8 * Z.succ (Z.of_nat k)) with (8 * Z.of_nat k + 8) by lia.
  rewrite Z.pow_add_r by lia. reflexivity.
Qed.

Lemma pow_8_pos (k : nat) : 0 < 2 ^ (8 * Z.of_nat k).
Proof. apply Z.pow_pos_nonneg; lia. Qed.

Lemma width_div (k : nat) (n : Z) : width (S k) n -> width k (n / 256).
Proof.
  unfold width. intros [Hlo Hhi]. rewrite pow_8_succ in Hhi.
  destruct k as [| k].
  - simpl in *. apply Z.div_small. lia.
  - rewrite pow_8_succ in Hlo, Hhi |- *. pose proof (pow_8_pos k).
    set (x := 2 ^ (8 * Z.of_nat k)) in *. split.
    + apply Z.div_le_lower_bound; lia.
    + apply Z.div_lt_upper_bound; lia.
Qed.

Lemma be_bytes_octets (k : nat) :
  forall n fuel acc, (k <= fuel)%nat -> width k n ->
    be_bytes fuel n acc = octets k n ++ acc.
Proof.
  induction k as [| k IH]; intros n fuel acc Hfuel Hw.
  - simpl in Hw. subst n. destruct fuel; reflexivity.
  - destruct fuel as [| fuel]; [lia |].
    assert (Hpos : 0 < n).
    { destruct Hw as [Hlo _].
      assert (0 < 2 ^ (8 * Z.of_nat k)) by (apply Z.pow_pos_nonneg; lia). lia. }
    cbn [be_bytes]. destruct (n =? 0) eqn:E; [apply Z.eqb_eq in E; lia |].
    rewrite (IH (n / 256) fuel) by (try apply width_div; auto; lia).
    rewrite octets_snoc, <- app_assoc. reflexivity.
Qed.

Lemma bit_length_nonneg (m : Z) : 0 <= bit_length m.
Proof.
  unfold bit_length. destruct (m =? 0); [lia |].
  pose proof (Z.log2_nonneg m). lia.
Qed.

Lemma bit_length_spec (m : Z) :
  0 < m -> 2 ^ (bit_length m - 1) <= m < 2 ^ bit_length m.
Proof.
  intros Hm. unfold bit_length.
  destruct (m =? 0) eqn:E; [apply Z.eqb_eq in E; lia |].
  replace (Z.log2 m + 1 - 1) with (Z.log2 m) by lia.
  replace (Z.log2 m + 1) with (Z.succ (Z.log2 m)) by lia.
  apply Z.log2_spec. exact Hm.
Qed.

Lemma nbytes_width (m : Z) : 0 <= m -> width (nbytes m) m.
Proof.
  intros Hm. unfold nbytes.
  destruct (Z.eq_dec m 0) as [-> | Hne]; [reflexivity |].
  pose proof (bit_length_spec m ltac:(lia)) as [Hlo Hhi].
  assert (Hbl : 1 <= bit_length m).
  { unfold bit_length. destruct (m =? 0) eqn:E; [apply Z.eqb_eq in E; lia |].
    pose proof (Z.log2_nonneg m). lia. }
  pose proof (Z.div_mod (bit_length m + 7) 8 ltac:(lia)) as Hdm.
  pose proof (Z.mod_pos_bound (bit_length m + 7) 8 ltac:(lia)) as Hmod.
  set (K := (bit_length m + 7) / 8) in *.
  assert (HK : 1 <= K) by lia.
  destruct (Z.to_nat K) as [| k] eqn:Ek; [lia |].
  assert (Hk : Z.of_nat k = K - 1) by lia.
  unfold width. rewrite Nat2Z.inj_succ, Hk. split.
  - etransitivity; [| exact Hlo]. apply Z.pow_le_mono_r; lia.
  - eapply Z.lt_le_trans; [exact Hhi |]. apply Z.pow_le_mono_r; lia.
Qed.

Lemma BigBytes_octets (m : Z) : 0 <= m -> BigBytes m = octets (nbytes m) m.
Proof.
  intros Hm. unfold BigBytes. rewrite Z.abs_eq by exact Hm.
  rewrite (be_bytes_octets (nbytes m)), app_nil_r; [reflexivity | | apply nbytes_width; exact Hm].
  unfold nbytes, bit_length. destruct (m =? 0) eqn:E.
  - apply Z.eqb_eq in E. subst m. apply Nat.le_0_l.
  - pose proof (Z.log2_nonneg m).
    assert ((Z.log2 m + 1 + 7) / 8 <= Z.log2 m + 1).
    { apply Z.div_le_upper_bound; lia. }
    lia.
Qed.


Lemma nbytes_small (len : Z) : 0 <= len < 2 ^ 63 -> (nbytes len <= 8)%nat.
Proof.
  intros Hlen. pose proof (nbytes_width len ltac:(lia)) as Hw.
  destruct (nbytes len) as [| k]; [lia |].
  destruct Hw as [Hlo _].
  assert (Hlt : 2 ^ (8 * Z.of_nat k) < 2 ^ 63) by lia.
  apply Z.pow_lt_mono_r_iff in Hlt; lia.
Qed.

(** Go's length bytes are the DER length octets, for the length of a slice. *)
Lemma appendLength_der (len : Z) :
  0 <= len < 2 ^ 63 -> Asn1.appendLength len = length_octets len.
Proof.
  intros Hlen. unfold Asn1.appendLength, length_octets.
  destruct (len <? 128); [reflexivity |].
  rewrite BigBytes_octets by lia. fold (nbytes len).
  rewrite octets_length, lor_128; [reflexivity |].
  pose proof (nbytes_small len Hlen). lia.
Qed.

Lemma integer_octets_signed (n : Z) :
  integer_octets n = signed_octets (if n <? 0 then - n - 1 else n).
Proof. reflexivity. Qed.

Lemma signed_octets_width (l : nat) (m : Z) :
  width (S l) m ->
  signed_octets m = if m / 2 ^ (8 * Z.of_nat l) <? 128 then S l else S (S l).
Proof.
  intros [Hlo Hhi]. rewrite pow_8_succ in Hhi.
  pose proof (pow_8_pos l) as Hpos.
  assert (Hm : 0 < m) by lia.
  unfold signed_octets, bit_length.
  destruct (m =? 0) eqn:E; [apply Z.eqb_eq in E; lia |].
  assert (Hlog_lo : 8 * Z.of_nat l <= Z.log2 m).
  { apply Z.log2_le_pow2; [lia | exact Hlo]. }
  assert (Hlog_hi : Z.log2 m < 8 * Z.of_nat l + 8).
  { apply Z.log2_lt_pow2; [lia |]. rewrite Z.pow_add_r by lia. exact Hhi. }
  destruct (m / 2 ^ (8 * Z.of_nat l) <? 128) eqn:Hb.
  - apply Z.ltb_lt in Hb.
    assert (Hlt : m < 2 ^ (8 * Z.of_nat l + 7)).
    { rewrite Z.pow_add_r by lia. change (2 ^ 7) with 128.
      destruct (Z_lt_le_dec m (2 ^ (8 * Z.of_nat l) * 128)) as [? | Hge]; [assumption |].
      assert (128 <= m / 2 ^ (8 * Z.of_nat l)); [| lia].
      apply Z.div_le_lower_bound; lia. }
    apply Z.log2_lt_pow2 in Hlt; [| lia].
    assert (Hq : (Z.log2 m + 1) / 8 = Z.of_nat l).
    { symmetry. apply (Z.div_unique _ _ _ (Z.log2 m + 1 - 8 * Z.of_nat l)); lia. }
    rewrite Hq. lia.
  - apply Z.ltb_ge in Hb.
    assert (Hge : 2 ^ (8 * Z.of_nat l + 7) <= m).
    { rewrite Z.pow_add_r by lia. change (2 ^ 7) with 128.
      pose proof (Z.mul_div_le m (2 ^ (8 * Z.of_nat l)) Hpos).
      nia. }
    apply Z.log2_le_pow2 in Hge; [| lia].
    assert (Hq : (Z.log2 m + 1) / 8 = Z.of_nat l + 1).
    { symmetry. apply (Z.div_unique _ _ _ 0); lia. }
    rewrite Hq. lia.
Qed.

Lemma div_complement (m d : Z) : 0 < d -> (- m - 1) / d = - (m / d) - 1.
Proof.
  intros Hd. symmetry.
  apply (Z.div_unique _ _ _ (d - 1 - m mod d)).
  - pose proof (Z.mod_pos_bound m d Hd). lia.
  - pose proof (Z.div_mod m d ltac:(lia)). lia.
Qed.

Lemma mod_complement (q : Z) : (- q - 1) mod 256 = 255 - q mod 256.
Proof.
  symmetry. apply (Z.mod_unique _ _ (- (q / 256) - 1)).
  - pose proof (Z.mod_pos_bound q 256 ltac:(lia)). lia.
  - pose proof (Z.div_mod q 256 ltac:(lia)). lia.
Qed.

Lemma octets_complement (k : nat) (m : Z) :
  map (fun b => Z.lxor b 255) (octets k m) = octets k (- m - 1).
Proof.
  induction k as [| k IH]; [reflexivity |].
  cbn [octets map]. rewrite IH. f_equal.
  rewrite lxor_255 by (apply Z.mod_pos_bound; lia).
  rewrite div_complement by apply pow_8_pos.
  rewrite mod_complement. reflexivity.
Qed.

Lemma top_octet (l : nat) (m : Z) :
  width (S l) m -> (m / 2 ^ (8 * Z.of_nat l)) mod 256 = m / 2 ^ (8 * Z.of_nat l).
Proof.
  intros [Hlo Hhi]. rewrite pow_8_succ in Hhi. pose proof (pow_8_pos l).
  apply Z.mod_small. split.
  - apply Z.div_pos; lia.
  - apply Z.div_lt_upper_bound; lia.
Qed.

(** [makeBigInt] produces the shortest two's-complement octets. *)
Lemma makeBigInt_der (n : Z) :
  Asn1.makeBigInt n = octets (integer_octets n) n.
Proof.
  unfold Asn1.makeBigInt. rewrite integer_octets_signed.
  destruct (n <? 0) eqn:Hneg.
  - apply Z.ltb_lt in Hneg. set (m := - n - 1).
    assert (Hm : 0 <= m) by (unfold m; lia).
    assert (Hn : n = - m - 1) by (unfold m; lia).
    rewrite BigBytes_octets by exact Hm.
    pose proof (nbytes_width m Hm) as Hw.
    destruct (nbytes m) as [| l].
    + simpl in Hw. rewrite Hw in *. subst n. reflexivity.
    + rewrite octets_complement, <- Hn.
      rewrite (signed_octets_width l m Hw).
      cbn [octets].
      assert (Htop : (n / 2 ^ (8 * Z.of_nat l)) mod 256
                     = 255 - m / 2 ^ (8 * Z.of_nat l)).
      { rewrite Hn, div_complement, mod_complement, (top_octet l m Hw) by apply pow_8_pos.
        reflexivity. }
      rewrite Htop.
      assert (Hb : 0 <= m / 2 ^ (8 * Z.of_nat l) < 256).
      { rewrite <- (top_octet l m Hw). apply Z.mod_pos_bound. lia. }
      rewrite land_128 by lia.
      destruct (m / 2 ^ (8 * Z.of_nat l) <? 128) eqn:Hc.
      * apply Z.ltb_lt in Hc.
        destruct (255 - m / 2 ^ (8 * Z.of_nat l) <? 128) eqn:Hd;
          [apply Z.ltb_lt in Hd; lia |].
        cbn [octets]. rewrite Htop. reflexivity.
      * apply Z.ltb_ge in Hc.
        destruct (255 - m / 2 ^ (8 * Z.of_nat l) <? 128) eqn:Hd;
          [| apply Z.ltb_ge in Hd; lia].
        change (octets (S (S l)) n)
          with ((n / 2 ^ (8 * Z.of_nat (S l))) mod 256 :: octets (S l) n).
        cbn [octets]. rewrite Htop. f_equal.
        rewrite Hn, div_complement by apply pow_8_pos.
        destruct Hw as [_ Hhi]. rewrite Z.div_small by lia. reflexivity.
  - apply Z.ltb_ge in Hneg.
    destruct (n =? 0) eqn:Hz; [apply Z.eqb_eq in Hz; subst n; reflexivity |].
    apply Z.eqb_neq in Hz.
    rewrite BigBytes_octets by exact Hneg.
    pose proof (nbytes_width n Hneg) as Hw.
    destruct (nbytes n) as [| l]; [simpl in Hw; lia |].
    rewrite (signed_octets_width l n Hw).
    cbn [octets]. rewrite (top_octet l n Hw).
    assert (Hb : 0 <= n / 2 ^ (8 * Z.of_nat l) < 256).
    { rewrite <- (top_octet l n Hw). apply Z.mod_pos_bound. lia. }
    rewrite land_128 by lia.
    destruct (n / 2 ^ (8 * Z.of_nat l) <? 128) eqn:Hc; cbn [negb].
    + cbn [octets]. rewrite (top_octet l n Hw). reflexivity.
    + change (octets (S (S l)) n)
        with ((n / 2 ^ (8 * Z.of_nat (S l))) mod 256 :: octets (S l) n).
      cbn [octets]. rewrite (top_octet l n Hw). f_equal.
      destruct Hw as [_ Hhi]. rewrite Z.div_small by lia. reflexivity.
Qed.

(** [asn1.Marshal] of a big integer is its DER encoding. *)
Lemma Marshal_integer (n : Z) :
  Z.of_nat (integer_octets n) < 2 ^ 63 ->
  Asn1.Marshal (Asn1.VBigInt (Some n)) = Ok (Der.integer n).
Proof.
  intros Hk. cbn [Asn1.Marshal]. unfold Der.integer, Asn1.tagInteger.
  rewrite makeBigInt_der, octets_length, appendLength_der by lia.
  reflexivity.
Qed.

Lemma integer_length (n : Z) : (integer_octets n <= length (Der.integer n))%nat.
Proof.
  unfold Der.integer. cbn [length]. rewrite length_app, octets_length. lia.
Qed.

(** [asn1.Marshal] of a slice of three big integers is the DER SEQUENCE of
    their encodings, when the encoding fits a Go slice. *)
Lemma Marshal_sequence3 (a b c : Z) :
  Z.of_nat (length (Der.sequence [Der.integer a; Der.integer b; Der.integer c])) < 2 ^ 63 ->
  Asn1.Marshal (Asn1.VSlice [Asn1.VBigInt (Some a); Asn1.VBigInt (Some b);
                             Asn1.VBigInt (Some c)])
  = Ok (Der.sequence [Der.integer a; Der.integer b; Der.integer c]).
Proof.
  intros Hlen. unfold Der.sequence in *. cbn [concat] in *.
  rewrite app_nil_r in *.
  cbn [length] in Hlen. rewrite !length_app in Hlen.
  pose proof (integer_length a). pose proof (integer_length b).
  pose proof (integer_length c).
  change (Asn1.Marshal (Asn1.VSlice ?l)) with
    (match (match Asn1.Marshal (Asn1.VBigInt (Some a)) with
            | Errored e => Errored e
            | Ok x =>
              match (match Asn1.Marshal (Asn1.VBigInt (Some b)) with
                     | Errored e => Errored e
                     | Ok y =>
                       match (match Asn1.Marshal (Asn1.VBigInt (Some c)) with
                              | Errored e => Errored e
                              | Ok z => Ok (z ++ [])
                              end) with
                       | Errored e => Errored e
                       | Ok bs => Ok (y ++ bs)
                       end
                     end) with
              | Errored e => Errored e
              | Ok bs => Ok (x ++ bs)
              end
            end) with
     | Errored e => Errored e
     | Ok body => Ok (Asn1.tagSequenceCompound
                        :: Asn1.appendLength (Z.of_nat (length body)) ++ body)
     end).
  rewrite !Marshal_integer by lia.
  rewrite app_nil_r, appendLength_der; [reflexivity |].
  rewrite !length_app. lia.
Qed.

End DerFacts.

(** ** Requests *)

Module IrmaFacts.
Import Irma Examples.

(** C1.  For a signature request with message [m] and nonce [n], [GetNonce]
    is the integer whose big-endian bytes are SHA256 of the DER encoding of
    the sequence [INTEGER 2, n, SHA256(m) read as an integer].  The DER
    encoding is assumed to fit a Go slice (fewer than 2^63 bytes), which
    every encoding that the program can hold does. *)
Theorem GetNonce_is_sha256_of_der (sr : SignatureRequest) (n : Z) :
  Nonce (DisclosureBase (SignatureBase sr)) = Some n ->
  Z.of_nat (length (Der.sequence
     [Der.integer 2; Der.integer n;
      Der.integer (Bytes.SetBytes (Sha256.Sum256 (Bytes.of_string (Message sr))))]))
    < 2 ^ 63 ->
  GetNonce sr = Bytes.SetBytes (spec_nonce (Message sr) n).
Proof.
  intros Hnonce Hfits. unfold GetNonce, spec_nonce.
  rewrite Hnonce, DerFacts.Marshal_sequence3 by exact Hfits.
  reflexivity.
Qed.

Lemma GetNonce_is_sha256_of_der_witness :
  GetNonce example_request
  = Bytes.SetBytes (spec_nonce "I owe you everything" 42).
Proof.
  apply (GetNonce_is_sha256_of_der example_request 42).
  - reflexivity.
  - vm_compute. reflexivity.
Defined.

(** The nonce of the example, computed. *)
Example GetNonce_example :
  GetNonce example_request
  = 70673847437672399688890667205152932217915026298867386957270748938715655926262.
Proof. vm_compute. reflexivity. Qed.

(** C10.  Unmarshalling what [MarshalJSON] printed gives the timestamp
    truncated to whole seconds, and the timestamp itself when it lies on a
    whole second. *)
Theorem Timestamp_json_round_trip (t : Timestamp) :
  GoTime.valid t ->
  UnmarshalJSON (MarshalJSON t) = Ok (GoTime.mkTime (GoTime.unixSec t) 0)
  /\ (GoTime.nsec t = 0 -> UnmarshalJSON (MarshalJSON t) = Ok t).
Proof.
  intros [Hsec Hns].
  assert (H : UnmarshalJSON (MarshalJSON t) = Ok (GoTime.mkTime (GoTime.unixSec t) 0)).
  { unfold UnmarshalJSON, MarshalJSON, GoTime.Unix_of.
    rewrite StrconvFacts.Atoi_FormatInt by exact Hsec. reflexivity. }
  split; [exact H |].
  intros Hzero. rewrite H. destruct t as [sec ns]. simpl in Hzero. subst ns.
  reflexivity.
Qed.

Lemma Timestamp_json_round_trip_witness :
  UnmarshalJSON (MarshalJSON (GoTime.mkTime 1509000000 500000000))
  = Ok (GoTime.mkTime 1509000000 0).
Proof.
  refine (proj1 (Timestamp_json_round_trip (GoTime.mkTime 1509000000 500000000) _)).
  unfold GoTime.valid. simpl. lia.
Defined.

End IrmaFacts.

(** ** Credential requests *)

Module AttributeListFacts.
Import Irma Examples.

Lemma store_in_range {A} (a : list A) (i : nat) (x : A) :
  (i < length a)%nat -> store a i x = Returns (<[i := x]> a).
Proof.
  intros Hi. unfold store. destruct (i <? length a)%nat eqn:E; [reflexivity |].
  apply Nat.ltb_ge in E. lia.
Qed.

(** The loop writes the declared attributes' values, in the declared
    order, behind the metadata, and never leaves the slice. *)
Lemma fill_attributes_run (given : gmap string string)
    (declared : list AttributeDescription) :
  forall (i : nat) (attrs : list (option Z)),
    (i + length declared < length attrs)%nat ->
    fill_attributes given declared i attrs =
    if all_given given declared then
      Returns (Ok (take (S i) attrs ++ map (attribute_int given) declared
                     ++ drop (S i + length declared) attrs))
    else Returns (Errored (EMessage "Unknown attribute")).
Proof.
  induction declared as [| attrtype rest IH]; intros i attrs Hlen.
  - cbn. rewrite Nat.add_0_r, take_drop. reflexivity.
  - cbn [fill_attributes all_given forallb length map] in *.
    destruct (given !! ID attrtype) as [str |] eqn:Hstr.
    + rewrite bool_decide_eq_true_2 by eauto. cbn [andb].
      rewrite Nat.add_1_r, store_in_range by lia.
      rewrite IH by (rewrite length_insert; lia).
      fold (all_given given rest). destruct (all_given given rest); [| reflexivity].
      do 2 f_equal.
      rewrite take_insert_lt by lia.
      destruct (lookup_lt_is_Some_2 attrs (S i) ltac:(lia)) as [old Hold].
      rewrite (take_S_r _ _ _ Hold).
      rewrite insert_app_r_alt by (rewrite length_take; lia).
      rewrite length_take, Nat.min_l, Nat.sub_diag by lia.
      rewrite drop_insert_lt by lia.
      cbn [app]. rewrite <- app_assoc. cbn [app].
      unfold attribute_int at 2. rewrite Hstr. cbn [default].
      replace (S (S i) + length rest)%nat with (S i + S (length rest))%nat by lia.
      reflexivity.
    + rewrite bool_decide_eq_false_2; [reflexivity |].
      intros [x Hx]. congruence.
Qed.

Section WithMetadata.

Variable metadataInt : Z -> string -> option Timestamp -> result goerror Z.

(** [AttributeList], case by case. *)
Lemma AttributeList_run (cr : CredentialRequest) (conf : Configuration) :
  CredentialRequest_AttributeList metadataInt cr conf =
  match CredentialTypeID cr with
  | None => Panics nil_dereference
  | Some id =>
      match metadataInt (KeyCounter cr) id (Validity cr) with
      | Errored e => Returns (Errored e)
      | Ok meta =>
          match CredentialTypes conf !! id with
          | None => Returns (Errored (EMessage "Unknown credential type"))
          | Some credtype =>
              if negb (length (CredentialAttributes credtype) =? size (Attributes cr))%nat
              then Returns (Errored (EMessage "Received unexpected amount of attributes"))
              else if all_given (Attributes cr) (CredentialAttributes credtype)
              then Returns (Ok (mkAttributeList
                     (Some meta :: map (attribute_int (Attributes cr))
                                     (CredentialAttributes credtype))))
              else Returns (Errored (EMessage "Unknown attribute"))
          end
      end
  end.
Proof.
  unfold CredentialRequest_AttributeList.
  destruct (CredentialTypeID cr) as [id |]; [| reflexivity].
  destruct (metadataInt _ _ _) as [meta | e]; [| reflexivity].
  destruct (CredentialTypes conf !! id) as [credtype |]; [| reflexivity].
  destruct (length (CredentialAttributes credtype) =? size (Attributes cr))%nat eqn:Hlen;
    [| reflexivity].
  apply Nat.eqb_eq in Hlen. cbn [negb].
  rewrite store_in_range by (rewrite length_replicate; lia).
  rewrite fill_attributes_run by (rewrite length_insert, length_replicate; lia).
  destruct (all_given _ _); [| reflexivity].
  do 3 f_equal. rewrite Hlen, Nat.add_1_r. cbn.
  rewrite drop_ge by (rewrite length_replicate; lia).
  rewrite app_nil_r. reflexivity.
Qed.

Lemma all_given_subset (given : gmap string string)
    (declared : list AttributeDescription) :
  all_given given declared = true
  <-> list_to_set (map ID declared) ⊆ dom given.
Proof.
  unfold all_given. rewrite forallb_forall. split.
  - intros Hall x Hx. apply elem_of_list_to_set, list_elem_of_In, in_map_iff in Hx.
    destruct Hx as (a & <- & Ha). apply elem_of_dom.
    exact (bool_decide_eq_true_1 _ (Hall a Ha)).
  - intros Hsub a Ha. apply bool_decide_eq_true_2, elem_of_dom, Hsub.
    apply elem_of_list_to_set, list_elem_of_In, in_map. exact Ha.
Qed.

(** With distinct declared identifiers, as many attributes as declared and
    every declared one present is the same as the keys being exactly the
    declared identifiers. *)
Lemma keys_match (given : gmap string string) (declared : list AttributeDescription) :
  NoDup (map ID declared) ->
  (length declared = size given /\ all_given given declared = true)
  <-> dom given = list_to_set (map ID declared).
Proof.
  intros Hnodup. rewrite all_given_subset. split.
  - intros [Hlen Hsub]. symmetry. apply set_subseteq_size_eq; [exact Hsub |].
    rewrite size_dom, size_list_to_set, length_map by exact Hnodup. lia.
  - intros Heq. split.
    + rewrite <- (size_dom (D := gset string)), Heq, size_list_to_set, length_map
        by exact Hnodup. reflexivity.
    + rewrite Heq. reflexivity.
Qed.

(** C5, as the code has it.  When the declared attribute identifiers of
    the credential type are pairwise distinct, [AttributeList] succeeds
    exactly when the metadata attribute is built without error, the
    credential type is known and the keys of the attribute map are exactly
    the declared identifiers; then the integers are the metadata integer
    followed by the supplied strings read as big-endian bytes, in the
    declared order.  [Info], which builds the preview, succeeds exactly
    when [AttributeList] does. *)
Theorem AttributeList_succeeds_iff (cr : CredentialRequest) (conf : Configuration) :
  (forall id credtype,
      CredentialTypeID cr = Some id -> CredentialTypes conf !! id = Some credtype ->
      NoDup (map ID (CredentialAttributes credtype))) ->
  ((exists list, CredentialRequest_AttributeList metadataInt cr conf = Returns (Ok list))
   <-> exists id meta credtype,
         CredentialTypeID cr = Some id
         /\ metadataInt (KeyCounter cr) id (Validity cr) = Ok meta
         /\ CredentialTypes conf !! id = Some credtype
         /\ dom (Attributes cr) = list_to_set (map ID (CredentialAttributes credtype)))
  /\ (forall list,
        CredentialRequest_AttributeList metadataInt cr conf = Returns (Ok list) ->
        exists id meta credtype,
          CredentialTypeID cr = Some id
          /\ metadataInt (KeyCounter cr) id (Validity cr) = Ok meta
          /\ CredentialTypes conf !! id = Some credtype
          /\ Ints list
             = Some meta :: map (fun attrtype =>
                  Some (Bytes.SetBytes (Bytes.of_string
                          (default "" (Attributes cr !! ID attrtype)))))
                 (CredentialAttributes credtype))
  /\ ((exists info, CredentialRequest_Info metadataInt cr conf = Returns (Ok info))
      <-> exists list, CredentialRequest_AttributeList metadataInt cr conf = Returns (Ok list)).
Proof.
  intros Hdistinct. split; [| split].
  - rewrite AttributeList_run. split.
    + intros [list Hrun].
      destruct (CredentialTypeID cr) as [id |] eqn:Hid; [| discriminate].
      destruct (metadataInt (KeyCounter cr) id (Validity cr)) as [meta | e] eqn:Hmeta;
        [| discriminate].
      destruct (CredentialTypes conf !! id) as [credtype |] eqn:Htype; [| discriminate].
      destruct (length (CredentialAttributes credtype) =? size (Attributes cr))%nat eqn:Hlen;
        [| discriminate].
      destruct (all_given (Attributes cr) (CredentialAttributes credtype)) eqn:Hall;
        [| discriminate].
      exists id, meta, credtype.
      do 3 (split; [first [reflexivity | assumption] |]).
      apply keys_match; [exact (Hdistinct id credtype eq_refl Htype) |].
      apply Nat.eqb_eq in Hlen. auto.
    + intros (id & meta & credtype & Hid & Hmeta & Htype & Hdom).
      rewrite Hid, Hmeta, Htype.
      apply keys_match in Hdom as [Hlen Hall];
        [| exact (Hdistinct id credtype Hid Htype)].
      rewrite Hlen, Nat.eqb_refl, Hall. eauto.
  - intros list. rewrite AttributeList_run. intros Hrun.
    destruct (CredentialTypeID cr) as [id |] eqn:Hid; [| discriminate].
    destruct (metadataInt (KeyCounter cr) id (Validity cr)) as [meta | e] eqn:Hmeta;
      [| discriminate].
    destruct (CredentialTypes conf !! id) as [credtype |] eqn:Htype; [| discriminate].
    destruct (negb _); [discriminate |].
    destruct (all_given _ _); [| discriminate].
    injection Hrun as <-. exists id, meta, credtype.
    do 3 (split; [first [reflexivity | assumption] |]). reflexivity.
  - unfold CredentialRequest_Info.
    destruct (CredentialRequest_AttributeList metadataInt cr conf) as [[list | e] | v].
    + split; eauto.
    + split; intros [x Hx]; discriminate.
    + split; intros [x Hx]; discriminate.
Qed.

End WithMetadata.

Lemma AttributeList_succeeds_iff_witness :
  exists id meta credtype,
    CredentialTypeID (mkCredentialRequest None 0 (Some studentCard)
                        {[ "university" := "RU"; "studentID" := "456" ]}) = Some id
    /\ constant_metadata 0 id None = Ok meta
    /\ CredentialTypes demo_configuration !! id = Some credtype
    /\ Ints (mkAttributeList [Some 1; Some 21077; Some 3421494])
       = Some meta :: map (fun attrtype =>
            Some (Bytes.SetBytes (Bytes.of_string
                    (default "" (({[ "university" := "RU"; "studentID" := "456" ]}
                                    : gmap string string) !! ID attrtype)))))
           (CredentialAttributes credtype).
Proof.
  refine (proj1 (proj2 (AttributeList_succeeds_iff constant_metadata student_request
                          demo_configuration _)) _ _).
  - intros id credtype Hid Htype. injection Hid as <-.
    vm_compute in Htype. injection Htype as <-.
    cbn. repeat constructor; rewrite ?elem_of_cons, ?elem_of_nil; intuition discriminate.
  - vm_compute. reflexivity.
Defined.

(** C5 as stated fails when the description of the credential type
    declares an identifier twice: the request below has the keys
    "university" and "studentID", the type declares "university" and
    "university", and [AttributeList] succeeds. *)
Lemma AttributeList_accepts_other_keys :
  CredentialTypes doubled_configuration !! studentCard
  = Some (mkCredentialType
            [mkAttributeDescription "university"; mkAttributeDescription "university"])
  /\ dom (Attributes student_request) = {[ "university"; "studentID" ]}
  /\ ({[ "university"; "studentID" ]} : gset string) <> {[ "university" ]}
  /\ CredentialRequest_AttributeList constant_metadata student_request doubled_configuration
     = Returns (Ok (mkAttributeList [Some 1; Some 21077; Some 21077])).
Proof.
  split; [vm_compute; reflexivity |].
  split; [vm_compute; reflexivity |].
  split; [| vm_compute; reflexivity].
  intros Heq.
  assert (Hin : "studentID" ∈ ({[ "university"; "studentID" ]} : gset string)).
  { rewrite elem_of_union, !elem_of_singleton. tauto. }
  rewrite Heq, elem_of_singleton in Hin. discriminate.
Qed.

End AttributeListFacts.

(** ** Protocol version negotiation *)

Module NegotiationFacts.
Import Negotiation.

Lemma Atoi_of_byte (c : ascii) :
  Strconv.Atoi (Strconv.string_of_rune_byte c)
  = if Strconv.is_digit c then Ok (Strconv.digit_val c)
    else Errored (Strconv.mkNumError (Strconv.string_of_rune_byte c) Strconv.ErrSyntax).
Proof. destruct c as [[] [] [] [] [] [] [] []]; reflexivity. Qed.

(** [strconv.Atoi(string(s[i]))] depends on the byte at [i] alone. *)
Lemma atoi_at_byte (s : string) (i : nat) :
  atoi_at s i =
  match String.get i s with
  | None => Panics index_out_of_range
  | Some c =>
      if Strconv.is_digit c then Returns (Ok (Strconv.digit_val c))
      else Returns (Errored (ENumError
             (Strconv.mkNumError (Strconv.string_of_rune_byte c) Strconv.ErrSyntax)))
  end.
Proof.
  unfold atoi_at, index. destruct (String.get i s) as [c |]; [| reflexivity].
  rewrite Atoi_of_byte. destruct (Strconv.is_digit c); reflexivity.
Qed.

Lemma aboveMinimum_lex (major minor minmajor minminor : Z) :
  aboveMinimum major minor minmajor minminor
  = lex_le (minmajor, minminor) (major, minor).
Proof.
  unfold aboveMinimum, lex_le. cbn [fst snd]. rewrite (Z.eqb_sym major). reflexivity.
Qed.

Lemma underMaximum_lex (major minor maxmajor maxminor : Z) :
  underMaximum major minor maxmajor maxminor
  = lex_le (major, minor) (maxmajor, maxminor).
Proof. reflexivity. Qed.

Lemma range_minors_find (major : Z) (minors : list Z) (a b c d : Z) :
  range_minors major minors a b c d
  = List.find (fun p => lex_le (a, b) p && lex_le p (c, d)) (map (pair major) minors).
Proof.
  induction minors as [| minor rest IH]; [reflexivity |].
  cbn [range_minors map List.find].
  rewrite aboveMinimum_lex, underMaximum_lex, IH. reflexivity.
Qed.

Lemma find_app {A} (f : A -> bool) (l1 l2 : list A) :
  List.find f (l1 ++ l2)
  = match List.find f l1 with Some x => Some x | None => List.find f l2 end.
Proof.
  induction l1 as [| x l1 IH]; [reflexivity |].
  cbn [app List.find]. destruct (f x); [reflexivity | exact IH].
Qed.

(** The two loops of [calcVersion] return the first pair, in iteration
    order, that lies in the range. *)
Lemma range_majors_find (supported : gmap Z (list Z)) (keys : list Z) (a b c d : Z) :
  range_majors supported keys a b c d
  = List.find (fun p => lex_le (a, b) p && lex_le p (c, d)) (pairs_of supported keys).
Proof.
  induction keys as [| major rest IH]; [reflexivity |].
  cbn [range_majors]. unfold pairs_of in *. cbn [flat_map].
  rewrite find_app, range_minors_find, IH. reflexivity.
Qed.

(** On version strings made of one digit, a dot and one digit,
    [calcVersion] is the negotiation of the specification. *)
Lemma calcVersion_one_digit (supported : gmap Z (list Z)) (url ty : string)
    (a b c d : Z) :
  0 <= a < 10 -> 0 <= b < 10 -> 0 <= c < 10 -> 0 <= d < 10 ->
  let v := String (Strconv.digit_char a) (String "." (String (Strconv.digit_char b) "")) in
  let vmax := String (Strconv.digit_char c) (String "." (String (Strconv.digit_char d) "")) in
  calcVersionIn supported (mkQr url v vmax ty)
  = match spec_negotiate supported (a, b) (c, d) with
    | Some p => Returns (Ok (sprintf_version p))
    | None => Returns (Errored (no_version_error (mkQr url v vmax ty)))
    end.
Proof.
  intros Ha Hb Hc Hd v vmax.
  destruct (StrconvFacts.digit_char_is_digit a Ha) as (Ha1 & Ha2 & _).
  destruct (StrconvFacts.digit_char_is_digit b Hb) as (Hb1 & Hb2 & _).
  destruct (StrconvFacts.digit_char_is_digit c Hc) as (Hc1 & Hc2 & _).
  destruct (StrconvFacts.digit_char_is_digit d Hd) as (Hd1 & Hd2 & _).
  unfold calcVersionIn. cbn [ProtocolVersion ProtocolMaxVersion].
  rewrite !atoi_at_byte. subst v vmax. cbn [String.get].
  rewrite Ha1, Hb1, Hc1, Hd1, Ha2, Hb2, Hc2, Hd2.
  rewrite range_majors_find. reflexivity.
Qed.

(** The examples of the specification: with the versions 2.2 and 2.1
    supported, the range [2.1, 2.3] negotiates 2.2 and [2.3, 2.4] fails. *)
Example calcVersion_21_23 (url ty : string) :
  calcVersion (mkQr url "2.1" "2.3" ty) = Returns (Ok "2.2").
Proof. vm_compute. reflexivity. Qed.

Example calcVersion_23_24 (url ty : string) :
  verdict_of (calcVersion (mkQr url "2.3" "2.4" ty)) = VNoVersion.
Proof. vm_compute. reflexivity. Qed.

(** C2 (where the code departs from it).  A server that advertises the
    range [2.0, 2.10]: the first supported version in that range is 2.2, but
    [calcVersion] reads the maximum as 2.1 and answers 2.1; for the range
    [2.2, 2.10] it finds no version at all, although 2.2 is in the range. *)
Theorem calcVersion_two_digit_minor (url ty : string) :
  spec_parse_version "2.0" = Some (2, 0)
  /\ spec_parse_version "2.2" = Some (2, 2)
  /\ spec_parse_version "2.10" = Some (2, 10)
  /\ spec_negotiate supportedVersions (2, 0) (2, 10) = Some (2, 2)
  /\ spec_negotiate supportedVersions (2, 2) (2, 10) = Some (2, 2)
  /\ calcVersion (mkQr url "2.0" "2.10" ty) = Returns (Ok "2.1")
  /\ calcVersion (mkQr url "2.2" "2.10" ty)
     = Returns (Errored (no_version_error (mkQr url "2.2" "2.10" ty))).
Proof. vm_compute. repeat split; reflexivity. Qed.

Lemma digit_at_missing_at (s : string) (i : nat) :
  missing_at s i = true -> digit_at s i = false.
Proof. unfold missing_at, digit_at. destruct (String.get i s); [discriminate | reflexivity]. Qed.

(** C9, as the code has it.  [calcVersion] looks at the bytes 0 and 2 of
    the two version strings and at nothing else of them, in the order
    [v[0]], [v[2]], [vmax[0]], [vmax[2]]: two QR codes that agree on these
    four positions get the same verdict.  It panics, and then with an index
    out of range, exactly when one of these bytes is missing and every byte
    inspected before it is a decimal digit.  When the first inspected byte
    that is not a digit is there, it returns the error of [strconv.Atoi] for
    that byte.  When the four bytes are digits, they alone are the range
    that is negotiated: the major and the minor are read as one digit each,
    whatever follows.  There is no other case. *)
Theorem calcVersion_inspects_bytes_0_and_2 :
  (forall q1 q2 : Qr,
      String.get 0 (ProtocolVersion q1) = String.get 0 (ProtocolVersion q2) ->
      String.get 2 (ProtocolVersion q1) = String.get 2 (ProtocolVersion q2) ->
      String.get 0 (ProtocolMaxVersion q1) = String.get 0 (ProtocolMaxVersion q2) ->
      String.get 2 (ProtocolMaxVersion q1) = String.get 2 (ProtocolMaxVersion q2) ->
      verdict_of (calcVersion q1) = verdict_of (calcVersion q2))
  /\ (forall qr : Qr,
        (exists v, calcVersion qr = Panics v) <-> reaches_missing_byte qr = true)
  /\ (forall (qr : Qr) (v : panic_value),
        calcVersion qr = Panics v -> v = index_out_of_range)
  /\ (forall (qr : Qr) (c : ascii),
        first_bad_byte qr = Some c ->
        calcVersion qr
        = Returns (Errored (ENumError
            (Strconv.mkNumError (Strconv.string_of_rune_byte c) Strconv.ErrSyntax))))
  /\ (forall (qr : Qr) (a b c d : ascii),
        String.get 0 (ProtocolVersion qr) = Some a ->
        String.get 2 (ProtocolVersion qr) = Some b ->
        String.get 0 (ProtocolMaxVersion qr) = Some c ->
        String.get 2 (ProtocolMaxVersion qr) = Some d ->
        Strconv.is_digit a && Strconv.is_digit b && Strconv.is_digit c
          && Strconv.is_digit d = true ->
        calcVersion qr
        = match range_majors supportedVersions
                  (sort_desc (elements (dom supportedVersions)))
                  (Strconv.digit_val a) (Strconv.digit_val b)
                  (Strconv.digit_val c) (Strconv.digit_val d) with
          | Some v => Returns (Ok (sprintf_version v))
          | None => Returns (Errored (no_version_error qr))
          end)
  /\ (forall qr : Qr,
        reaches_missing_byte qr = true
        \/ (exists c, first_bad_byte qr = Some c)
        \/ exists a b c d,
             String.get 0 (ProtocolVersion qr) = Some a
             /\ String.get 2 (ProtocolVersion qr) = Some b
             /\ String.get 0 (ProtocolMaxVersion qr) = Some c
             /\ String.get 2 (ProtocolMaxVersion qr) = Some d
             /\ Strconv.is_digit a && Strconv.is_digit b && Strconv.is_digit c
                  && Strconv.is_digit d = true).
Proof.
  split; [| split; [| split; [| split; [| split]]]].
  - intros q1 q2 H0 H2 M0 M2. unfold calcVersion, calcVersionIn.
    rewrite !atoi_at_byte, H0, H2, M0, M2.
    destruct (String.get 0 (ProtocolVersion q2)) as [c0 |]; [| reflexivity].
    destruct (Strconv.is_digit c0); [| reflexivity].
    destruct (String.get 2 (ProtocolVersion q2)) as [c2 |]; [| reflexivity].
    destruct (Strconv.is_digit c2); [| reflexivity].
    destruct (String.get 0 (ProtocolMaxVersion q2)) as [m0 |]; [| reflexivity].
    destruct (Strconv.is_digit m0); [| reflexivity].
    destruct (String.get 2 (ProtocolMaxVersion q2)) as [m2 |]; [| reflexivity].
    destruct (Strconv.is_digit m2); [| reflexivity].
    destruct (range_majors _ _ _ _ _ _); reflexivity.
  - intros qr. unfold calcVersion, calcVersionIn, reaches_missing_byte,
      digit_at, missing_at.
    rewrite !atoi_at_byte.
    destruct (String.get 0 (ProtocolVersion qr)) as [c0 |];
      [| split; [reflexivity | eauto]].
    destruct (Strconv.is_digit c0);
      [| split; [intros [v Hv]; discriminate | discriminate]].
    destruct (String.get 2 (ProtocolVersion qr)) as [c2 |];
      [| split; [reflexivity | eauto]].
    destruct (Strconv.is_digit c2);
      [| split; [intros [v Hv]; discriminate | discriminate]].
    destruct (String.get 0 (ProtocolMaxVersion qr)) as [m0 |];
      [| split; [reflexivity | eauto]].
    destruct (Strconv.is_digit m0);
      [| split; [intros [v Hv]; discriminate | discriminate]].
    destruct (String.get 2 (ProtocolMaxVersion qr)) as [m2 |];
      [| split; [reflexivity | eauto]].
    destruct (Strconv.is_digit m2);
      [| split; [intros [v Hv]; discriminate | discriminate]].
    destruct (range_majors _ _ _ _ _ _);
      (split; [intros [v Hv]; discriminate | discriminate]).
  - intros qr v. unfold calcVersion, calcVersionIn. rewrite !atoi_at_byte.
    destruct (String.get 0 (ProtocolVersion qr)) as [c0 |]; [| congruence].
    destruct (Strconv.is_digit c0); [| discriminate].
    destruct (String.get 2 (ProtocolVersion qr)) as [c2 |]; [| congruence].
    destruct (Strconv.is_digit c2); [| discriminate].
    destruct (String.get 0 (ProtocolMaxVersion qr)) as [m0 |]; [| congruence].
    destruct (Strconv.is_digit m0); [| discriminate].
    destruct (String.get 2 (ProtocolMaxVersion qr)) as [m2 |]; [| congruence].
    destruct (Strconv.is_digit m2); [| discriminate].
    destruct (range_majors _ _ _ _ _ _); discriminate.
  - intros qr c. unfold calcVersion, calcVersionIn, first_bad_byte, digit_at, bad_at.
    rewrite !atoi_at_byte.
    destruct (String.get 0 (ProtocolVersion qr)) as [c0 |]; [| discriminate].
    destruct (Strconv.is_digit c0); cbn [negb]; [| congruence].
    destruct (String.get 2 (ProtocolVersion qr)) as [c2 |]; [| discriminate].
    destruct (Strconv.is_digit c2); cbn [negb]; [| congruence].
    destruct (String.get 0 (ProtocolMaxVersion qr)) as [m0 |]; [| discriminate].
    destruct (Strconv.is_digit m0); cbn [negb]; [| congruence].
    destruct (String.get 2 (ProtocolMaxVersion qr)) as [m2 |]; [| discriminate].
    destruct (Strconv.is_digit m2); [discriminate | congruence].
  - intros qr a b c d Ha Hb Hc Hd Hdig.
    apply andb_true_iff in Hdig as [Hdig Hdd].
    apply andb_true_iff in Hdig as [Hdig Hdc].
    apply andb_true_iff in Hdig as [Hda Hdb].
    unfold calcVersion, calcVersionIn.
    rewrite !atoi_at_byte, Ha, Hb, Hc, Hd, Hda, Hdb, Hdc, Hdd.
    destruct (range_majors _ _ _ _ _ _); reflexivity.
  - intros qr. unfold reaches_missing_byte, first_bad_byte, digit_at, missing_at, bad_at.
    destruct (String.get 0 (ProtocolVersion qr)) as [c0 |]; [| left; reflexivity].
    destruct (Strconv.is_digit c0) eqn:H0; cbn [negb andb orb]; [| right; left; eauto].
    destruct (String.get 2 (ProtocolVersion qr)) as [c2 |]; [| left; reflexivity].
    destruct (Strconv.is_digit c2) eqn:H2; cbn [negb andb orb]; [| right; left; eauto].
    destruct (String.get 0 (ProtocolMaxVersion qr)) as [m0 |]; [| left; reflexivity].
    destruct (Strconv.is_digit m0) eqn:M0; cbn [negb andb orb]; [| right; left; eauto].
    destruct (String.get 2 (ProtocolMaxVersion qr)) as [m2 |]; [| left; reflexivity].
    destruct (Strconv.is_digit m2) eqn:M2; cbn [negb andb orb]; [| right; left; eauto].
    right. right. exists c0, c2, m0, m2. rewrite H0, H2, M0, M2. repeat split.
Qed.

Lemma calcVersion_inspects_bytes_0_and_2_witness :
  verdict_of (calcVersion (mkQr "https://example.com/irma" "2.1" "2.10" "disclosing"))
  = verdict_of (calcVersion (mkQr "https://example.com/irma" "2.1" "2.1" "disclosing")).
Proof.
  apply (proj1 calcVersion_inspects_bytes_0_and_2); reflexivity.
Defined.

(** C9 as stated fails: a version string shorter than three characters
    whose first byte is not a digit gives the error of [strconv.Atoi], not
    a panic; and with a two-digit major, byte 2 is the dot, so the result is
    again an error and not a misread range. *)
Lemma calcVersion_short_string_without_panic :
  String.length "a" = 1%nat
  /\ calcVersion (mkQr "https://example.com/irma" "a" "2.2" "disclosing")
     = Returns (Errored (ENumError (Strconv.mkNumError "a" Strconv.ErrSyntax)))
  /\ calcVersion (mkQr "https://example.com/irma" "10.2" "10.3" "disclosing")
     = Returns (Errored (ENumError (Strconv.mkNumError "." Strconv.ErrSyntax))).
Proof. vm_compute. repeat split; reflexivity. Qed.

End NegotiationFacts.

(** ** The session engine *)

Module SessionFacts.
Import Irma Session Examples.

(** *** The lifetime functions, run *)

Lemma delete_run (s : session) :
  delete s =
  if done s then (Returns false, s, [])
  else (Returns true, set_done s, delete_trace s).
Proof.
  unfold delete, bind, get, delete_trace.
  destruct (done s); [reflexivity |]. cbn [negb].
  destruct (IsInteractive s); reflexivity.
Qed.

Lemma announce_run (s : session) :
  announce_downloaded s = (Returns tt, s, announcement s).
Proof.
  unfold announce_downloaded, announcement, bind, get.
  cbn. destruct (downloaded s) as [d |]; [| reflexivity].
  destruct (negb (Empty d)); reflexivity.
Qed.

Lemma handler_run (e : event) (s : session) :
  handler e s =
  if HandlerSet s then (Returns tt, s, [e]) else (Panics nil_dereference, s, []).
Proof. unfold handler, bind, get. cbn. destruct (HandlerSet s); reflexivity. Qed.

Lemma fail_run (err : SessionError) (s : session) :
  fail err s =
  if done s then (Returns tt, s, [])
  else if HandlerSet s then
    (Returns tt, set_done s,
     delete_trace s ++ announcement s ++ [Failure (SAction s) (wrapped err)])
  else (Panics nil_dereference, set_done s, delete_trace s ++ announcement s).
Proof.
  unfold fail. unfold bind at 1. rewrite delete_run.
  destruct (done s); [reflexivity |].
  unfold bind at 1. rewrite announce_run.
  unfold bind at 1. unfold get. rewrite handler_run.
  change (HandlerSet (set_done s)) with (HandlerSet s).
  change (SAction (set_done s)) with (SAction s).
  change (announcement (set_done s)) with (announcement s).
  destruct (HandlerSet s); rewrite ?app_nil_r; reflexivity.
Qed.

Lemma cancel_run (s : session) :
  cancel s =
  if done s then (Returns tt, s, [])
  else if HandlerSet s then
    (Returns tt, set_done s,
     delete_trace s ++ announcement s ++ [Cancelled (SAction s)])
  else (Panics nil_dereference, set_done s, delete_trace s ++ announcement s).
Proof.
  unfold cancel. unfold bind at 1. rewrite delete_run.
  destruct (done s); [reflexivity |].
  unfold bind at 1. rewrite announce_run.
  unfold bind at 1. unfold get. rewrite handler_run.
  change (HandlerSet (set_done s)) with (HandlerSet s).
  change (SAction (set_done s)) with (SAction s).
  change (announcement (set_done s)) with (announcement s).
  destruct (HandlerSet s); rewrite ?app_nil_r; reflexivity.
Qed.

(** *** At most one DELETE *)

Lemma deletes_app (t1 t2 : list event) :
  deletes (t1 ++ t2) = (deletes t1 + deletes t2)%nat.
Proof. unfold deletes. rewrite List.filter_app, length_app. reflexivity. Qed.

Lemma disciplined_ret {A} (a : A) : disciplined (ret a).
Proof. intros s. cbn. auto. Qed.

Lemma disciplined_get : disciplined get.
Proof. intros s. cbn. auto. Qed.

Lemma disciplined_panic {A} (v : panic_value) : disciplined (@panic A v).
Proof. intros s. cbn. auto. Qed.

Lemma disciplined_emit (e : event) : is_delete e = false -> disciplined (emit e).
Proof. intros He s. unfold deletes. cbn. rewrite He. cbn. auto. Qed.

Lemma disciplined_modify (f : session -> session) :
  (forall s, done s = true -> done (f s) = true) -> disciplined (modify f).
Proof. intros Hf s. cbn. auto. Qed.

Lemma disciplined_bind {A B} (m : M A) (k : A -> M B) :
  disciplined m -> (forall a, disciplined (k a)) -> disciplined (bind m k).
Proof.
  intros Hm Hk s. specialize (Hm s). unfold bind.
  destruct (m s) as [[[a | v] s1] t1]; cbn [final trace fst snd] in *; [| exact Hm].
  specialize (Hk a s1).
  destruct (k a s1) as [[r s2] t2]; cbn [final trace fst snd] in *.
  rewrite deletes_app.
  destruct Hm as [Hm1 Hm2], Hk as [Hk1 Hk2]. split.
  - intros Hd. destruct (Hm1 Hd) as [Hd1 Hz1]. destruct (Hk1 Hd1) as [Hd2 Hz2].
    split; [exact Hd2 | lia].
  - intros Hd. destruct (Hm2 Hd) as [Hz1 | [Ho1 Hd1]].
    + destruct (done s1) eqn:E.
      * destruct (Hk1 eq_refl) as [Hd2 Hz2]. left. lia.
      * destruct (Hk2 eq_refl) as [Hz2 | [Ho2 Hd2]]; [left; lia | right; split; [lia | exact Hd2]].
    + destruct (Hk1 Hd1) as [Hd2 Hz2]. right. split; [lia | exact Hd2].
Qed.

Lemma disciplined_delete : disciplined delete.
Proof.
  intros s. rewrite delete_run. destruct (done s) eqn:Hd; cbn [final trace fst snd].
  - split; [auto | discriminate].
  - split; [discriminate |]. intros _. unfold delete_trace.
    destruct (IsInteractive s); [right | left]; auto.
Qed.

Lemma disciplined_handler (e : event) : is_delete e = false -> disciplined (handler e).
Proof.
  intros He. unfold handler. apply disciplined_bind; [apply disciplined_get |].
  intros s. destruct (HandlerSet s); [apply disciplined_emit; exact He | apply disciplined_panic].
Qed.

Lemma disciplined_announce : disciplined announce_downloaded.
Proof.
  unfold announce_downloaded. apply disciplined_bind; [apply disciplined_get |].
  intros s. destruct (downloaded s) as [d |]; [| apply disciplined_ret].
  destruct (negb (Empty d)); [apply disciplined_emit; reflexivity | apply disciplined_ret].
Qed.

Lemma disciplined_fail (err : SessionError) : disciplined (fail err).
Proof.
  unfold fail. apply disciplined_bind; [apply disciplined_delete |].
  intros [|]; [| apply disciplined_ret].
  apply disciplined_bind; [apply disciplined_announce |]. intros _.
  apply disciplined_bind; [apply disciplined_get |]. intros s.
  apply disciplined_handler. reflexivity.
Qed.

Lemma disciplined_cancel : disciplined cancel.
Proof.
  unfold cancel. apply disciplined_bind; [apply disciplined_delete |].
  intros [|]; [| apply disciplined_ret].
  apply disciplined_bind; [apply disciplined_announce |]. intros _.
  apply disciplined_bind; [apply disciplined_get |]. intros s.
  apply disciplined_handler. reflexivity.
Qed.

Lemma disciplined_guarded (body : M unit) : disciplined body -> disciplined (guarded body).
Proof.
  intros Hb s. specialize (Hb s). unfold guarded.
  destruct (body s) as [[[[] | v] s1] t1]; cbn [final trace fst snd] in *; [exact Hb |].
  assert (Hp : panicFailure v s1 = (Returns tt, s1, [])
               \/ panicFailure v s1
                  = (Returns tt, s1, [Failure (SAction s1) (panicToError v)])).
  { unfold panicFailure, bind, get, emit, ret.
    destruct v; cbn; destruct (HandlerSet s1); auto. }
  destruct Hp as [-> | ->]; cbn [final trace fst snd]; rewrite deletes_app;
    unfold deletes at 2 4; cbn; rewrite Nat.add_0_r; exact Hb.
Qed.

(** Steps that the tactic below takes through the body of a task. *)
Ltac discipline :=
  repeat (intros;
    lazymatch goal with
    | |- disciplined (bind _ _) => apply disciplined_bind
    | |- disciplined (ret _) => apply disciplined_ret
    | |- disciplined get => apply disciplined_get
    | |- disciplined (panic _) => apply disciplined_panic
    | |- disciplined (emit _) => apply disciplined_emit; reflexivity
    | |- disciplined (handler _) => apply disciplined_handler; reflexivity
    | |- disciplined (fail _) => apply disciplined_fail
    | |- disciplined cancel => apply disciplined_cancel
    | |- disciplined delete => apply disciplined_delete
    | |- disciplined (guarded _) => apply disciplined_guarded
    | |- disciplined (modify _) =>
        apply disciplined_modify;
        let s := fresh "s" in let H := fresh "H" in
        intros s H; try exact H; try reflexivity
    | |- disciplined (match ?x with _ => _ end) => destruct x
    end).

Lemma disciplined_identifiers : disciplined identifiers.
Proof. unfold identifiers. discipline. Qed.

Lemma disciplined_enrollment_loop (ids : list string) : disciplined (enrollment_loop ids).
Proof.
  induction ids as [| id rest IH]; cbn [enrollment_loop]; discipline; intros; exact IH.
Qed.

Lemma disciplined_check_loop (ids : list string) : disciplined (check_loop ids).
Proof.
  induction ids as [| id rest IH]; cbn [check_loop]; discipline; intros; exact IH.
Qed.

Lemma disciplined_checkAndUpateConfiguration (w : World) :
  disciplined (checkAndUpateConfiguration w).
Proof.
  unfold checkAndUpateConfiguration, checkKeyshareEnrollment.
  discipline; intros;
    first [apply disciplined_identifiers | apply disciplined_check_loop
          | apply disciplined_enrollment_loop].
Qed.

Lemma disciplined_sendResponse (w : World) : disciplined (sendResponse w).
Proof. unfold sendResponse. discipline. Qed.

Lemma disciplined_info_loop (w : World) (creds : list CredentialRequest) :
  disciplined (info_loop w creds).
Proof.
  induction creds as [| credreq rest IH]; cbn [info_loop]; discipline; intros;
    try exact IH.
  unfold set_credentials. destruct (irmaSession s); exact H.
Qed.

Lemma disciplined_start (w : World) : disciplined (start w).
Proof.
  unfold start, start_body, ask_permission. discipline; intros;
    first [apply disciplined_checkAndUpateConfiguration | apply disciplined_info_loop
          | idtac].
  unfold set_credentials. destruct (irmaSession s0); exact H.
Qed.

Lemma disciplined_do (w : World) (proceed : bool) : disciplined (do w proceed).
Proof.
  unfold do, do_body, getProof, getBuilders, construct. discipline; intros;
    apply disciplined_sendResponse.
Qed.

Lemma disciplined_perform (op : operation) : disciplined (perform op).
Proof.
  destruct op; cbn [perform];
    first [apply disciplined_start | apply disciplined_do | idtac].
  all: unfold KeyshareDone, KeyshareCancelled, KeyshareError, Dismiss; discipline.
  all: intros; apply disciplined_sendResponse.
Qed.

Lemma perform_all_deletes (ops : list operation) :
  forall s,
    (deletes (snd (perform_all ops s)) <= 1)%nat
    /\ (done s = true -> deletes (snd (perform_all ops s)) = 0%nat).
Proof.
  induction ops as [| op rest IH]; intros s; [cbn; auto |].
  cbn [perform_all]. pose proof (disciplined_perform op s) as [H1 H2].
  destruct (perform op s) as [[r s1] t1]; cbn [final trace fst snd] in *.
  specialize (IH s1). destruct (perform_all rest s1) as [s2 t2]; cbn [snd] in *.
  rewrite deletes_app. destruct IH as [IHle IHdone]. split.
  - destruct (done s) eqn:Hd.
    + destruct (H1 eq_refl) as [Hd1 Hz]. lia.
    + destruct (H2 eq_refl) as [Hz | [Ho Hd1]]; [lia |]. rewrite (IHdone Hd1). lia.
  - intros Hd. destruct (H1 Hd) as [Hd1 Hz]. rewrite (IHdone Hd1). lia.
Qed.

(** *** Checking the configuration, run *)

Lemma identifiers_run (s : session) (r : IrmaSession) :
  irmaSession s = Some r -> identifiers s = (Returns (Identifiers r), s, []).
Proof. intros Hr. unfold identifiers, bind, get. cbn. rewrite Hr. reflexivity. Qed.

Lemma check_loop_passes (order : list string) (s : session) :
  first_offender (configuration s) order = None ->
  check_loop order s = (Returns true, s, []).
Proof.
  unfold first_offender. induction order as [| id rest IH]; intros Hnone; [reflexivity |].
  cbn [List.find] in Hnone. unfold offending at 1 in Hnone.
  cbn [check_loop]. unfold bind at 1, get. cbn [app].
  destruct (SchemeManagers (configuration s) !! id) as [manager |]; [| discriminate].
  destruct (negb (Valid manager)); [discriminate |].
  rewrite (IH Hnone). reflexivity.
Qed.

Lemma manager_error_wrapped (conf : Configuration) (id : string) :
  wrapped (manager_error conf id) = manager_error conf id.
Proof. unfold manager_error. destruct (SchemeManagers conf !! id); reflexivity. Qed.

Lemma check_loop_fails (order : list string) (s : session) (id : string) :
  done s = false -> HandlerSet s = true ->
  first_offender (configuration s) order = Some id ->
  check_loop order s
  = (Returns false, set_done s,
     delete_trace s ++ announcement s
       ++ [Failure (SAction s) (manager_error (configuration s) id)]).
Proof.
  intros Hd Hh. unfold first_offender.
  induction order as [| id0 rest IH]; intros Hfind; [discriminate |].
  cbn [List.find] in Hfind. unfold offending at 1 in Hfind.
  cbn [check_loop]. unfold bind at 1, get. cbn [app].
  rewrite <- (manager_error_wrapped (configuration s) id).
  unfold manager_error.
  destruct (SchemeManagers (configuration s) !! id0) as [manager |] eqn:Hm.
  - destruct (negb (Valid manager)).
    + injection Hfind as <-. rewrite Hm.
      unfold bind. rewrite fail_run, Hd, Hh. cbn [ret]. rewrite app_nil_r. reflexivity.
    + rewrite (IH Hfind), <- (manager_error_wrapped (configuration s) id).
      reflexivity.
  - injection Hfind as <-. rewrite Hm.
    unfold bind. rewrite fail_run, Hd, Hh. cbn [ret]. rewrite app_nil_r. reflexivity.
Qed.

Lemma enrollment_loop_passes (order : list string) (s : session) :
  List.find (blocking (configuration s) (keyshareServers s)) order = None ->
  enrollment_loop order s = (Returns true, s, []).
Proof.
  induction order as [| id rest IH]; intros Hnone; [reflexivity |].
  cbn [List.find] in Hnone. unfold blocking at 1 in Hnone.
  cbn [enrollment_loop]. unfold bind at 1, get. cbn [app].
  destruct (SchemeManagers (configuration s) !! id) as [manager |]; [| discriminate].
  destruct (Distributed manager && negb (bool_decide (id ∈ keyshareServers s)));
    [discriminate |].
  rewrite (IH Hnone). reflexivity.
Qed.

Lemma checkAndUpateConfiguration_fails (w : World) (s : session) (r : IrmaSession)
    (id : string) :
  irmaSession s = Some r -> done s = false -> HandlerSet s = true ->
  first_offender (configuration s) (range_check w) = Some id ->
  checkAndUpateConfiguration w s
  = (Returns false, set_done s,
     delete_trace s ++ announcement s
       ++ [Failure (SAction s) (manager_error (configuration s) id)]).
Proof.
  intros Hr Hd Hh Hfind. unfold checkAndUpateConfiguration.
  unfold bind at 1. rewrite (identifiers_run s r Hr).
  unfold bind at 1. rewrite (check_loop_fails _ s id Hd Hh Hfind).
  cbn [negb ret app]. rewrite app_nil_r. reflexivity.
Qed.

(** The download step: when the checks pass and the download fails, what
    was downloaded before the failure is announced. *)
Lemma checkAndUpateConfiguration_download_error (w : World) (s : session)
    (r : IrmaSession) (conf' : Configuration) (d : option IrmaIdentifierSet)
    (e : goerror) :
  irmaSession s = Some r -> done s = false -> HandlerSet s = true ->
  first_offender (configuration s) (range_check w) = None ->
  List.find (blocking (configuration s) (keyshareServers s)) (range_enrollment w) = None ->
  download_answer w = (conf', d, Some e) ->
  checkAndUpateConfiguration w s
  = (Returns false, set_done (set_downloaded conf' d s),
     ConfDownload (Identifiers r)
       :: delete_trace s ++ announcement (set_downloaded conf' d s)
       ++ [Failure (SAction s)
             (wrapped (mkSessionError ErrorConfigurationDownload "" (Some e)))]).
Proof.
  intros Hr Hd Hh Hcheck Henroll Hdl.
  unfold checkAndUpateConfiguration, checkKeyshareEnrollment.
  unfold bind at 1. rewrite (identifiers_run s r Hr).
  unfold bind at 1. rewrite (check_loop_passes _ s Hcheck). cbn [negb].
  unfold bind at 1. unfold bind at 1. rewrite (identifiers_run s r Hr).
  rewrite (enrollment_loop_passes _ s Henroll). cbn [negb app].
  unfold bind at 1. rewrite (identifiers_run s r Hr).
  unfold bind at 1. unfold emit at 1. rewrite Hdl.
  unfold bind at 1. unfold modify at 1.
  unfold bind at 1. rewrite fail_run.
  change (done (set_downloaded conf' d s)) with (done s).
  change (HandlerSet (set_downloaded conf' d s)) with (HandlerSet s).
  rewrite Hd, Hh. cbn [ret app]. rewrite app_nil_r. reflexivity.
Qed.

Lemma outcome_trace_without_download (s : session) (e : event) :
  is_download_or_proof e = false ->
  List.filter is_download_or_proof (delete_trace s ++ announcement s ++ [e]) = [].
Proof.
  intros He. unfold delete_trace, announcement.
  destruct (IsInteractive s), (downloaded s) as [d |]; try destruct (negb (Empty d));
    cbn; rewrite He; reflexivity.
Qed.

(** C4, as the code has it.  A session that is not done and whose request
    names a scheme manager that the configuration lacks or holds as not
    valid fails at the first such manager in the order of the range loop:
    with [UnknownSchemeManager] and the identifier as [Info] when that
    manager is absent, with [InvalidSchemeManager] when it is present and
    not valid.  Nothing is downloaded and no proof is built. *)
Theorem configuration_check_fails_at_first_offender (w : World) (s : session)
    (r : IrmaSession) :
  irmaSession s = Some r -> done s = false -> HandlerSet s = true ->
  (forall id, id ∈ range_check w <-> id ∈ SetSchemeManagers (Identifiers r)) ->
  (exists id, id ∈ SetSchemeManagers (Identifiers r)
              /\ offending (configuration s) id = true) ->
  exists id,
    id ∈ SetSchemeManagers (Identifiers r)
    /\ first_offender (configuration s) (range_check w) = Some id
    /\ checkAndUpateConfiguration w s
       = (Returns false, set_done s,
          delete_trace s ++ announcement s
            ++ [Failure (SAction s) (manager_error (configuration s) id)])
    /\ (SchemeManagers (configuration s) !! id = None ->
        manager_error (configuration s) id
        = mkSessionError ErrorUnknownSchemeManager id None)
    /\ (forall manager, SchemeManagers (configuration s) !! id = Some manager ->
        Valid manager = false
        /\ manager_error (configuration s) id
           = mkSessionError ErrorInvalidSchemeManager (Status manager) None)
    /\ List.filter is_download_or_proof (trace (checkAndUpateConfiguration w s)) = [].
Proof.
  intros Hr Hd Hh Horder (bad & Hbad & Hoff).
  destruct (first_offender (configuration s) (range_check w)) as [id |] eqn:Hfind.
  - unfold first_offender in Hfind.
    destruct (List.find_some _ _ Hfind) as [Hin Hid].
    exists id. rewrite (checkAndUpateConfiguration_fails w s r id Hr Hd Hh Hfind).
    split; [apply Horder, list_elem_of_In, Hin |].
    split; [reflexivity |]. split; [reflexivity |].
    split; [| split].
    + unfold manager_error. intros ->. reflexivity.
    + intros manager Hm. unfold offending in Hid. unfold manager_error.
      rewrite Hm in *. destruct (Valid manager); [discriminate | auto].
    + unfold trace. cbn [snd]. apply outcome_trace_without_download. reflexivity.
  - unfold first_offender in Hfind.
    apply Horder, list_elem_of_In in Hbad.
    rewrite (List.find_none _ _ Hfind bad Hbad) in Hoff. discriminate.
Qed.

Lemma configuration_check_fails_at_first_offender_witness :
  exists id,
    id ∈ SetSchemeManagers (Identifiers mixed_request)
    /\ first_offender mixed_configuration ["irma-demo"; "test"] = Some id
    /\ checkAndUpateConfiguration (world_ranging ["irma-demo"; "test"]) mixed_session
       = (Returns false, set_done mixed_session,
          delete_trace mixed_session ++ announcement mixed_session
            ++ [Failure ActionDisclosing (manager_error mixed_configuration id)])
    /\ (SchemeManagers mixed_configuration !! id = None ->
        manager_error mixed_configuration id
        = mkSessionError ErrorUnknownSchemeManager id None)
    /\ (forall manager, SchemeManagers mixed_configuration !! id = Some manager ->
        Valid manager = false
        /\ manager_error mixed_configuration id
           = mkSessionError ErrorInvalidSchemeManager (Status manager) None)
    /\ List.filter is_download_or_proof
         (trace (checkAndUpateConfiguration (world_ranging ["irma-demo"; "test"])
                   mixed_session)) = [].
Proof.
  apply (configuration_check_fails_at_first_offender
           (world_ranging ["irma-demo"; "test"]) mixed_session mixed_request).
  - reflexivity.
  - reflexivity.
  - reflexivity.
  - intros id. cbn. rewrite !elem_of_cons, elem_of_nil, elem_of_union, !elem_of_singleton.
    tauto.
  - exists "test". split; [| reflexivity].
    cbn. rewrite elem_of_union, !elem_of_singleton. tauto.
Defined.

(** C4 as stated fails on a request that names an absent and an invalid
    scheme manager: the request references the absent manager "test", yet
    when the loop meets "irma-demo" first the session fails with
    [InvalidSchemeManager]; and it references the invalid manager
    "irma-demo", yet when the loop meets "test" first it fails with
    [UnknownSchemeManager]. *)
Lemma mixed_managers_fail_by_order :
  ("test" ∈ SetSchemeManagers (Identifiers mixed_request)
   /\ SchemeManagers mixed_configuration !! "test" = None
   /\ trace (checkAndUpateConfiguration (world_ranging ["irma-demo"; "test"]) mixed_session)
      = [NetDelete;
         Failure ActionDisclosing
           (mkSessionError ErrorInvalidSchemeManager "InvalidSignature" None)])
  /\ ("irma-demo" ∈ SetSchemeManagers (Identifiers mixed_request)
      /\ SchemeManagers mixed_configuration !! "irma-demo" = Some broken_manager
      /\ Valid broken_manager = false
      /\ trace (checkAndUpateConfiguration (world_ranging ["test"; "irma-demo"]) mixed_session)
         = [NetDelete;
            Failure ActionDisclosing
              (mkSessionError ErrorUnknownSchemeManager "test" None)]).
Proof.
  repeat split;
    try (cbn; rewrite elem_of_union, !elem_of_singleton; tauto);
    vm_compute; reflexivity.
Qed.

(** The examples of the specification at the level of [NewSession]: for
    the range [2.3, 2.4] the session fails with
    [ProtocolVersionNotSupported] and no task is spawned; and so it does,
    through the misread maximum, for the range [2.2, 2.10]. *)
Example NewSession_version_not_supported :
  NewSession (mkQr "https://example.com/irma/session" "2.3" "2.4" "disclosing")
    true demo_configuration ∅
  = (Returns None,
     mkSession "disclosing" true "" None None true "https://example.com/irma/session"
       demo_configuration ∅,
     [NetDelete;
      Failure "disclosing"
        (mkSessionError ErrorProtocolVersionNotSupported ""
           (Some (EWrapped (EMessage "No supported protocol version between 2.3 and 2.4"))))]).
Proof. vm_compute. reflexivity. Qed.

Example NewSession_misread_maximum :
  trace (NewSession (mkQr "https://example.com/irma/session" "2.2" "2.10" "disclosing")
           true demo_configuration ∅)
  = [NetDelete;
     Failure "disclosing"
       (mkSessionError ErrorProtocolVersionNotSupported ""
          (Some (EWrapped (EMessage "No supported protocol version between 2.2 and 2.10"))))].
Proof. vm_compute. reflexivity. Qed.

(** A session that fails, is dismissed and is cancelled: one DELETE, one
    callback. *)
Example fail_then_dismiss :
  snd (perform_all [OpFail (mkSessionError ErrorCrypto "" None); OpDismiss; OpCancel]
         after_download)
  = [NetDelete;
     UpdateConfiguration (mkIdentifierSet ∅ ∅ {[ studentCard ]});
     Failure ActionDisclosing (mkSessionError ErrorCrypto "" None)].
Proof. vm_compute. reflexivity. Qed.

(** C6, as the code has it.  When a session that is not done ends through
    [fail] or [cancel], that is with any failure but a panic caught by the
    barrier: if something was downloaded, [UpdateConfiguration] is called
    with exactly the downloaded set, after the DELETE and right before the
    [Failure] or [Cancelled] callback; if nothing was downloaded (the set is
    nil, as before the download step, or empty), it is not called. *)
Theorem announcement_before_outcome (s : session) (err : SessionError) :
  done s = false -> HandlerSet s = true ->
  (forall d, downloaded s = Some d -> Empty d = false ->
     trace (fail err s)
     = delete_trace s ++ [UpdateConfiguration d; Failure (SAction s) (wrapped err)]
     /\ trace (cancel s)
        = delete_trace s ++ [UpdateConfiguration d; Cancelled (SAction s)])
  /\ ((downloaded s = None \/ exists d, downloaded s = Some d /\ Empty d = true) ->
      trace (fail err s) = delete_trace s ++ [Failure (SAction s) (wrapped err)]
      /\ trace (cancel s) = delete_trace s ++ [Cancelled (SAction s)]
      /\ List.filter is_announcement (trace (fail err s)) = []
      /\ List.filter is_announcement (trace (cancel s)) = []).
Proof.
  intros Hd Hh. rewrite fail_run, cancel_run, Hd, Hh. unfold trace. cbn [snd].
  unfold announcement. split.
  - intros d Hdl Hne. rewrite Hdl, Hne. auto.
  - intros Hnone.
    assert (Hann : match downloaded s with
                   | Some d => if negb (Empty d) then [UpdateConfiguration d] else []
                   | None => []
                   end = []).
    { destruct Hnone as [-> | (d & -> & ->)]; reflexivity. }
    rewrite Hann. cbn [app]. repeat split.
    + unfold delete_trace. destruct (IsInteractive s); reflexivity.
    + unfold delete_trace. destruct (IsInteractive s); reflexivity.
Qed.

Lemma announcement_before_outcome_witness :
  trace (fail (mkSessionError ErrorCrypto "" None) after_download)
  = [NetDelete;
     UpdateConfiguration (mkIdentifierSet ∅ ∅ {[ studentCard ]});
     Failure ActionDisclosing (mkSessionError ErrorCrypto "" None)].
Proof.
  refine (proj1 (proj1 (announcement_before_outcome after_download
                          (mkSessionError ErrorCrypto "" None) _ _) _ _ _));
    reflexivity.
Defined.

(** C6 as stated fails on the panic path: after the download step, with a
    descriptor downloaded, a panic while the proof is built ends the session
    with a [Failure] callback that no [UpdateConfiguration] precedes. *)
Lemma panic_fails_without_announcement :
  downloaded after_download = Some (mkIdentifierSet ∅ ∅ {[ studentCard ]})
  /\ Empty (mkIdentifierSet ∅ ∅ {[ studentCard ]}) = false
  /\ trace (do panicking_world true after_download)
     = [StatusUpdate ActionDisclosing StatusCommunicating;
        BuildProof;
        Failure ActionDisclosing (mkSessionError ErrorPanic "boom" None)]
  /\ List.filter is_announcement (trace (do panicking_world true after_download)) = [].
Proof. vm_compute. repeat split; reflexivity. Qed.

(** C7.  A panic inside a guarded task, with a value other than nil and a
    handler set, surfaces as one [Failure] callback with a [SessionError] of
    type [ErrorPanic]; its [Info] is the string itself for a string, the
    result of [Error()] for an error, the result of [String()] for a
    [Stringer] that is not an error, and the empty string for any other
    value.  The tasks [start], [do] and [managerSession] are guarded. *)
Theorem panic_surfaces_as_failure (body : M unit) (s s1 : session)
    (t1 : list event) (v : panic_value) :
  body s = (Panics v, s1, t1) -> v <> PNil -> HandlerSet s1 = true ->
  exists info,
    guarded body s
    = (Returns tt, s1,
       t1 ++ [Failure (SAction s1) (mkSessionError ErrorPanic info None)])
    /\ (forall x, v = PString x -> info = x)
    /\ (forall msg str, v = PValue (Some msg) str -> info = msg)
    /\ (forall str, v = PValue None (Some str) -> info = str)
    /\ (v = PValue None None -> info = "")
    /\ (forall w, start w = guarded (start_body w))
    /\ (forall w proceed, do w proceed = guarded (do_body w proceed))
    /\ (forall w, managerSession w = guarded (managerSession_body w)).
Proof.
  intros Hbody Hv Hh. exists (Info (panicToError v)).
  split; [| repeat split; intros; subst; reflexivity].
  unfold guarded. rewrite Hbody.
  destruct v as [| x | e str]; [congruence | |];
    unfold panicFailure, bind, get, emit; cbn; rewrite Hh; reflexivity.
Qed.

Lemma panic_surfaces_as_failure_witness :
  exists info,
    guarded (do_body panicking_world true) after_download
    = (Returns tt, after_download,
       [StatusUpdate ActionDisclosing StatusCommunicating; BuildProof]
         ++ [Failure (SAction after_download) (mkSessionError ErrorPanic info None)])
    /\ (forall x, PString "boom" = PString x -> info = x)
    /\ (forall msg str, PString "boom" = PValue (Some msg) str -> info = msg)
    /\ (forall str, PString "boom" = PValue None (Some str) -> info = str)
    /\ (PString "boom" = PValue None None -> info = "")
    /\ (forall w, start w = guarded (start_body w))
    /\ (forall w proceed, do w proceed = guarded (do_body w proceed))
    /\ (forall w, managerSession w = guarded (managerSession_body w)).
Proof.
  apply (panic_surfaces_as_failure (do_body panicking_world true) after_download
           after_download
           [StatusUpdate ActionDisclosing StatusCommunicating; BuildProof]
           (PString "boom")).
  - vm_compute. reflexivity.
  - discriminate.
  - reflexivity.
Defined.

(** The barrier says nothing when the handler is nil or the value is nil. *)
Example panic_with_nil_handler (body : M unit) (s s1 : session) (t1 : list event)
    (v : panic_value) :
  body s = (Panics v, s1, t1) -> HandlerSet s1 = false ->
  guarded body s = (Returns tt, s1, t1).
Proof.
  intros Hbody Hh. unfold guarded. rewrite Hbody.
  destruct v; unfold panicFailure, bind, get, ret; cbn; rewrite ?Hh, ?app_nil_r;
    reflexivity.
Qed.

End SessionFacts.

(** ** Operations that overlap *)

Module GoroutinesFacts.
Import Irma Session Goroutines SessionFacts Examples.

Lemma bind_assoc {A B C} (m : M A) (k : A -> M B) (f : B -> M C) (s : session) :
  bind (bind m k) f s = bind m (fun a => bind (k a) f) s.
Proof.
  unfold bind. destruct (m s) as [[[a | v] s1] t1]; [| reflexivity].
  destruct (k a s1) as [[[b | v] s2] t2]; [| reflexivity].
  destruct (f b s2) as [[r s3] t3]. rewrite app_assoc. reflexivity.
Qed.

Lemma bind_ext {A B} (m : M A) (k k' : A -> M B) (s : session) :
  (forall a s', k a s' = k' a s') -> bind m k s = bind m k' s.
Proof.
  intros H. unfold bind. destruct (m s) as [[[a | v] s1] t1]; [| reflexivity].
  rewrite H. reflexivity.
Qed.

Lemma bind_ext_both {A B} (m m' : M A) (k k' : A -> M B) (s : session) :
  m s = m' s -> (forall a s', k a s' = k' a s') -> bind m k s = bind m' k' s.
Proof. intros Hm Hk. rewrite (bind_ext m k k' s Hk). unfold bind. rewrite Hm. reflexivity. Qed.

Lemma bind_get {B} (k : session -> M B) (s : session) : bind get k s = k s s.
Proof. unfold bind, get. destruct (k s s) as [[r s2] t2]. reflexivity. Qed.

Lemma bind_ret_l {A B} (a : A) (k : A -> M B) (s : session) :
  bind (ret a) k s = k a s.
Proof. unfold bind, ret. destruct (k a s) as [[r s2] t2]. reflexivity. Qed.

(** Run alone, one operation after the other is the [bind] of the two. *)
Lemma run_then {A B} (p : steps A) (f : A -> steps B) :
  forall s, run (then_ p f) s = bind (run p) (fun a => run (f a)) s.
Proof.
  induction p as [a | v | k IH | g k IH | e k IH | k IH]; intros s;
    cbn [then_ run].
  - rewrite bind_ret_l. reflexivity.
  - reflexivity.
  - rewrite IH. reflexivity.
  - rewrite bind_assoc. apply bind_ext. intros _ s'. apply IH.
  - rewrite bind_assoc. apply bind_ext. intros _ s'. apply IH.
  - rewrite bind_assoc. apply bind_ext. intros did s'. apply IH.
Qed.

(** The steps are those of the functions: run alone, each operation does
    what the function does. *)
Lemma run_delete (s : session) : run delete_steps s = delete s.
Proof.
  rewrite delete_run. cbn [run delete_steps]. unfold delete_trace.
  destruct (done s); cbn [negb run]; [reflexivity |].
  destruct (IsInteractive s); reflexivity.
Qed.

Lemma run_handler (e : event) (s : session) : run (handler_steps e) s = handler e s.
Proof.
  rewrite handler_run. cbn [run handler_steps].
  destruct (HandlerSet s); reflexivity.
Qed.

Lemma run_announce (s : session) : run announce_steps s = announce_downloaded s.
Proof.
  rewrite announce_run. unfold announcement. cbn [run announce_steps].
  destruct (downloaded s) as [d |]; [| reflexivity].
  destruct (negb (Empty d)); reflexivity.
Qed.

Lemma run_fail (err : SessionError) (s : session) : run (fail_steps err) s = fail err s.
Proof.
  unfold fail_steps, fail. cbn [run]. apply bind_ext. intros [|] s'; [| reflexivity].
  rewrite run_then. apply bind_ext_both; [apply run_announce |].
  intros _ s''. cbn [run]. rewrite run_handler, bind_get. reflexivity.
Qed.

Lemma run_cancel (s : session) : run cancel_steps s = cancel s.
Proof.
  unfold cancel_steps, cancel. cbn [run]. apply bind_ext. intros [|] s'; [| reflexivity].
  rewrite run_then. apply bind_ext_both; [apply run_announce |].
  intros _ s''. cbn [run]. rewrite run_handler, bind_get. reflexivity.
Qed.

Lemma run_fail_then {A} (err : SessionError) (a : A) (s : session) :
  run (then_ (fail_steps err) (fun _ => Return a)) s = bind (fail err) (fun _ => ret a) s.
Proof. rewrite run_then. apply bind_ext_both; [apply run_fail | reflexivity]. Qed.

Lemma run_sendResponse (w : World) (s : session) :
  run (sendResponse_steps w) s = sendResponse w s.
Proof.
  unfold sendResponse_steps, sendResponse. cbn [run].
  rewrite bind_get, run_then. apply bind_ext_both.
  - destruct (IsInteractive s).
    + destruct (String.eqb (SAction s) ActionSigning || String.eqb (SAction s) ActionDisclosing).
      * cbn [run]. apply bind_ext. intros _ s'.
        destruct (post_answer w) as [response | e | e];
          [| apply run_fail_then | reflexivity].
        destruct (negb (String.eqb response "VALID")); [apply run_fail_then | reflexivity].
      * destruct (String.eqb (SAction s) ActionIssuing); [| reflexivity].
        cbn [run]. apply bind_ext. intros _ s'.
        destruct (post_answer w) as [response | e | e];
          [| apply run_fail_then | reflexivity].
        destruct (construct_credentials w); [apply run_fail_then | reflexivity].
    + destruct (json_marshal w); [reflexivity | apply run_fail_then].
  - intros [messageJson |] s'; [| reflexivity].
    cbn [run]. apply bind_ext. intros _ s''. rewrite bind_get.
    destruct (downloaded s'') as [d |]; [| reflexivity].
    rewrite run_then. apply bind_ext_both.
    { destruct (negb (Empty d)); [| reflexivity].
      cbn [run]. unfold bind, emit, ret. reflexivity. }
    intros _ s3. rewrite run_then. apply bind_ext_both.
    { destruct (String.eqb (SAction s'') ActionIssuing); [| reflexivity].
      cbn [run]. unfold bind, emit, ret. reflexivity. }
    intros _ s4. cbn [run]. apply bind_ext. intros _ s5. apply run_handler.
Qed.

(** A step, and the rest run alone, is the operation run alone: the steps
    of an operation are those of its function, at either grain. *)
Lemma step_run {A} (atomic : bool) (p : steps A) (s : session) :
  run p s
  = match step atomic p s with
    | (p', s1, t1) =>
        match run p' s1 with
        | (r, s2, t2) => (r, s2, t1 ++ t2)
        end
    end.
Proof.
  destruct p as [a | v | k | f k | e k | k]; cbn [step run].
  - reflexivity.
  - reflexivity.
  - destruct (run (k s) s) as [[r s2] t2]. reflexivity.
  - unfold bind, modify. reflexivity.
  - unfold bind, emit. reflexivity.
  - destruct atomic.
    + unfold bind. rewrite delete_run. destruct (done s); reflexivity.
    + rewrite run_then.
      rewrite (bind_ext_both (run delete_steps) delete _ (fun did => run (k did)) s
                 (run_delete s) (fun _ _ => eq_refl)).
      destruct (bind delete (fun did => run (k did)) s) as [[r s2] t2]. reflexivity.
Qed.

(** *** Operations that keep to [delete] *)

Lemma orderly_then {A B} (p : steps A) (f : A -> steps B) :
  orderly p -> (forall a, orderly (f a)) -> orderly (then_ p f).
Proof.
  intros Hp Hf. induction Hp; cbn [then_]; try (constructor; auto). apply Hf.
Qed.

Lemma orderly_handler (e : event) : is_delete e = false -> orderly (handler_steps e).
Proof.
  intros He. constructor. intros s. destruct (HandlerSet s); repeat constructor. exact He.
Qed.

Lemma orderly_announce : orderly announce_steps.
Proof.
  constructor. intros s. destruct (downloaded s) as [d |]; [| constructor].
  destruct (negb (Empty d)); repeat constructor.
Qed.

Lemma orderly_fail (err : SessionError) : orderly (fail_steps err).
Proof.
  constructor. intros [|]; [| constructor].
  apply orderly_then; [apply orderly_announce |]. intros _.
  constructor. intros s. apply orderly_handler. reflexivity.
Qed.

Lemma orderly_cancel : orderly cancel_steps.
Proof.
  constructor. intros [|]; [| constructor].
  apply orderly_then; [apply orderly_announce |]. intros _.
  constructor. intros s. apply orderly_handler. reflexivity.
Qed.

Lemma orderly_sendResponse (w : World) : orderly (sendResponse_steps w).
Proof.
  constructor. intros s. apply orderly_then.
  - destruct (IsInteractive s).
    + destruct (String.eqb (SAction s) ActionSigning || String.eqb (SAction s) ActionDisclosing).
      * constructor; [reflexivity |].
        destruct (post_answer w) as [response | e | e];
          [| apply orderly_then; [apply orderly_fail | constructor] | constructor].
        destruct (negb (String.eqb response "VALID"));
          [apply orderly_then; [apply orderly_fail | constructor] | constructor].
      * destruct (String.eqb (SAction s) ActionIssuing); [| constructor].
        constructor; [reflexivity |].
        destruct (post_answer w) as [response | e | e];
          [| apply orderly_then; [apply orderly_fail | constructor] | constructor].
        destruct (construct_credentials w);
          [apply orderly_then; [apply orderly_fail | constructor] | constructor].
    + destruct (json_marshal w);
        [constructor | apply orderly_then; [apply orderly_fail | constructor]].
  - intros [messageJson |]; [| constructor].
    constructor; [reflexivity |]. constructor. intros s'.
    destruct (downloaded s') as [d |]; [| constructor].
    apply orderly_then.
    { destruct (negb (Empty d)); repeat constructor. }
    intros _. apply orderly_then.
    { destruct (String.eqb (SAction s') ActionIssuing); repeat constructor. }
    intros _. constructor; [intros s0 _; reflexivity |].
    apply orderly_handler. reflexivity.
Qed.

(** One step of an orderly operation, with [delete] in one piece: it sends
    at most one DELETE, only on a session that is not done, and then the
    session is done; it never resets [done]. *)
Lemma step_orderly {A} (p : steps A) (s : session) :
  orderly p ->
  orderly (fst (fst (step true p s)))
  /\ (deletes (snd (step true p s)) <= 1)%nat
  /\ (done s = true ->
      done (snd (fst (step true p s))) = true /\ deletes (snd (step true p s)) = 0%nat)
  /\ (deletes (snd (step true p s)) = 1%nat -> done (snd (fst (step true p s))) = true).
Proof.
  intros Hp. destruct Hp as [a | v | k Hk | f k Hf Hk | e k He Hk | k Hk];
    cbn [step fst snd].
  - repeat split; try constructor; cbn; auto; discriminate.
  - repeat split; try constructor; cbn; auto; discriminate.
  - repeat split; cbn; auto; discriminate.
  - repeat split; cbn; auto; discriminate.
  - unfold deletes. cbn [List.filter]. rewrite He. repeat split; cbn; auto; discriminate.
  - rewrite delete_run. unfold delete_trace.
    destruct (done s) eqn:Hd; cbn [fst snd].
    + repeat split; cbn; auto; discriminate.
    + destruct (IsInteractive s); repeat split; cbn; auto; discriminate.
Qed.

(** However the steps of orderly operations are interleaved, as long as
    [delete] is one step: at most one DELETE, and none on a session that is
    done. *)
Lemma interleave_orderly (schedule : list nat) :
  forall operations s,
    Forall orderly operations ->
    (deletes (snd (interleave true schedule operations s)) <= 1)%nat
    /\ (done s = true -> deletes (snd (interleave true schedule operations s)) = 0%nat).
Proof.
  induction schedule as [| i rest IH]; intros operations s Hall; [cbn; auto |].
  cbn [interleave]. destruct (operations !! i) as [p |] eqn:Hp; [| apply IH; exact Hall].
  assert (Hord : orderly p) by (eapply Forall_lookup_1; eauto).
  pose proof (step_orderly p s Hord) as (Hp' & Hle & Hdone & Hone).
  destruct (step true p s) as [[p' s1] t1]; cbn [fst snd] in *.
  assert (Hall' : Forall orderly (<[ i := p' ]> operations))
    by (apply Forall_insert; assumption).
  destruct (IH (<[ i := p' ]> operations) s1 Hall') as [IH1 IH2].
  destruct (interleave true rest (<[ i := p' ]> operations) s1) as [[ops s2] t2];
    cbn [snd] in *.
  rewrite deletes_app. split.
  - destruct (deletes t1) as [| [| n]] eqn:Ht1; [lia | | lia].
    rewrite IH2 by (apply Hone; reflexivity). lia.
  - intros Hd. destruct (Hdone Hd) as [Hd1 Ht1]. rewrite Ht1, (IH2 Hd1). reflexivity.
Qed.

Lemma session_ending_orderly (p : steps unit) : session_ending p -> orderly p.
Proof.
  intros [[err ->] | [-> | [-> | [w ->]]]].
  - apply orderly_fail.
  - apply orderly_cancel.
  - apply orderly_cancel.
  - apply orderly_sendResponse.
Qed.

(** C3, as the code has it.  [delete] sends DELETE only on a session that is
    not done and is interactive, and leaves the session done.  The steps of
    [fail], [cancel], [Dismiss] and [sendResponse] are those of the
    functions.  However the steps of any number of these operations are
    interleaved, as long as every execution of [delete] is one step (no two
    of them overlap), at most one DELETE is sent, and none on a session that
    is done; so it is for the entry points of the session run one after the
    other, in whatever order.  [fail], [cancel] and [Dismiss] on a session
    that is done make no network call, fire no handler callback and leave
    the session as it is. *)
Theorem one_delete_unless_deletes_overlap :
  (forall s,
      delete s =
      if done s then (Returns false, s, [])
      else (Returns true, set_done s, if IsInteractive s then [NetDelete] else []))
  /\ (forall s err w,
        run delete_steps s = delete s
        /\ run (fail_steps err) s = fail err s
        /\ run cancel_steps s = cancel s
        /\ run Dismiss_steps s = Dismiss s
        /\ run (sendResponse_steps w) s = sendResponse w s)
  /\ (forall operations schedule s,
        Forall session_ending operations ->
        (deletes (snd (interleave true schedule operations s)) <= 1)%nat
        /\ (done s = true ->
            deletes (snd (interleave true schedule operations s)) = 0%nat))
  /\ (forall ops s, (deletes (snd (perform_all ops s)) <= 1)%nat)
  /\ (forall ops s, done s = true -> deletes (snd (perform_all ops s)) = 0%nat)
  /\ (forall s err, done s = true ->
        fail err s = (Returns tt, s, [])
        /\ cancel s = (Returns tt, s, [])
        /\ Dismiss s = (Returns tt, s, [])).
Proof.
  split; [| split; [| split; [| split; [| split]]]].
  - intros s. rewrite delete_run. reflexivity.
  - intros s err w. split; [apply run_delete |]. split; [apply run_fail |].
    split; [apply run_cancel |]. split; [apply run_cancel | apply run_sendResponse].
  - intros operations schedule s Hall. apply interleave_orderly.
    eapply Forall_impl; [exact Hall | exact session_ending_orderly].
  - intros ops s. apply perform_all_deletes.
  - intros ops s. apply perform_all_deletes.
  - intros s err Hd. unfold Dismiss. rewrite fail_run, cancel_run, Hd. auto.
Qed.

Lemma one_delete_unless_deletes_overlap_witness :
  (deletes (snd (interleave true [0; 1; 2; 0; 1; 2; 0; 1; 2; 0; 1; 2; 0; 1; 2; 0; 1; 2]%nat
                   [Dismiss_steps;
                    fail_steps (mkSessionError ErrorTransport "timeout" None);
                    sendResponse_steps fair_world]
                   after_download)) <= 1)%nat.
Proof.
  refine (proj1 (proj1 (proj2 (proj2 one_delete_unless_deletes_overlap))
                   [Dismiss_steps;
                    fail_steps (mkSessionError ErrorTransport "timeout" None);
                    sendResponse_steps fair_world] _ after_download _)).
  constructor; [right; right; left; reflexivity |].
  constructor; [left; eexists; reflexivity |].
  constructor; [right; right; right; eexists; reflexivity |].
  constructor.
Defined.

(** C3 as stated fails: the application dismisses a session while a task
    fails it.  Each of the two executions of [delete] tests [done] before
    the other has set it, and DELETE is sent twice; the handler is told both
    [Cancelled] and [Failure]. *)
Lemma overlapping_deletes_send_twice :
  snd (interleave false
         [0; 0; 1; 1; 0; 0; 0; 1; 1; 1; 0; 0; 0; 0; 0; 1; 1; 1; 1; 1]%nat
         [Dismiss_steps; fail_steps (mkSessionError ErrorTransport "timeout" None)]
         after_download)
  = [NetDelete; NetDelete;
     UpdateConfiguration (mkIdentifierSet ∅ ∅ {[ studentCard ]});
     Cancelled ActionDisclosing;
     UpdateConfiguration (mkIdentifierSet ∅ ∅ {[ studentCard ]});
     Failure ActionDisclosing (mkSessionError ErrorTransport "timeout" None)]
  /\ ~ (forall schedule operations s,
          Forall session_ending operations ->
          (deletes (snd (interleave false schedule operations s)) <= 1)%nat).
Proof.
  assert (Hrun :
    snd (interleave false
           [0; 0; 1; 1; 0; 0; 0; 1; 1; 1; 0; 0; 0; 0; 0; 1; 1; 1; 1; 1]%nat
           [Dismiss_steps; fail_steps (mkSessionError ErrorTransport "timeout" None)]
           after_download)
    = [NetDelete; NetDelete;
       UpdateConfiguration (mkIdentifierSet ∅ ∅ {[ studentCard ]});
       Cancelled ActionDisclosing;
       UpdateConfiguration (mkIdentifierSet ∅ ∅ {[ studentCard ]});
       Failure ActionDisclosing (mkSessionError ErrorTransport "timeout" None)]).
  { vm_compute. reflexivity. }
  split; [exact Hrun |]. intros H.
  specialize (H [0; 0; 1; 1; 0; 0; 0; 1; 1; 1; 0; 0; 0; 0; 0; 1; 1; 1; 1; 1]%nat
                [Dismiss_steps; fail_steps (mkSessionError ErrorTransport "timeout" None)]
                after_download).
  rewrite Hrun in H. 
  assert (Hall : Forall session_ending
                   [Dismiss_steps;
                    fail_steps (mkSessionError ErrorTransport "timeout" None)]).
  { constructor; [right; right; left; reflexivity |].
    constructor; [left; eexists; reflexivity |]. constructor. }
  specialize (H Hall). cbn in H. lia.
Qed.

(** The same two operations one after the other send one DELETE. *)
Example deletes_in_turn_send_once :
  snd (interleave false
         [0; 0; 0; 0; 0; 0; 0; 0; 0; 0; 1; 1; 1; 1; 1; 1; 1; 1; 1; 1]%nat
         [Dismiss_steps; fail_steps (mkSessionError ErrorTransport "timeout" None)]
         after_download)
  = [NetDelete;
     UpdateConfiguration (mkIdentifierSet ∅ ∅ {[ studentCard ]});
     Cancelled ActionDisclosing].
Proof. vm_compute. reflexivity. Qed.

End GoroutinesFacts.

(** ** Legacy log entries *)

Module LegacyFacts.
Import Legacy Examples.

Lemma append_cons (c : ascii) (s r : string) : String c s +:+ r = String c (s +:+ r).
Proof. reflexivity. Qed.

Lemma append_nil (r : string) : "" +:+ r = r.
Proof. reflexivity. Qed.

(** Pushes the appended text behind the characters that are known. *)
Ltac push_append := repeat (rewrite append_cons || rewrite append_nil).
Ltac push_append_in H := repeat (rewrite append_cons in H || rewrite append_nil in H).

(** Facts on the ten digit characters. *)
Lemma digit_char_plain (d : Z) :
  0 <= d < 10 ->
  Strconv.is_digit (Strconv.digit_char d) = true
  /\ Strconv.digit_val (Strconv.digit_char d) = d
  /\ Ascii.eqb (Strconv.digit_char d) " " = false
  /\ Ascii.eqb (Strconv.digit_char d) "+" = false.
Proof.
  intros Hd.
  destruct (StrconvFacts.digit_cases d Hd)
    as [-> | [-> | [-> | [-> | [-> | [-> | [-> | [-> | [-> | ->]]]]]]]]];
    repeat split; reflexivity.
Qed.

Lemma tens_ones (n : Z) : 0 <= n < 100 -> 0 <= n / 10 < 10 /\ 0 <= n mod 10 < 10.
Proof.
  intros Hn. split.
  - split; [apply Z.div_pos; lia | apply Z.div_lt_upper_bound; lia].
  - apply Z.mod_pos_bound. lia.
Qed.

Lemma getnum_two_digits (n : Z) (rest : string) (fixed : bool) :
  0 <= n < 100 ->
  GoTime.getnum (two_digits n +:+ rest) fixed = Some (n, rest).
Proof.
  intros Hn. destruct (tens_ones n Hn) as [Ht Ho].
  destruct (digit_char_plain _ Ht) as (Ht1 & Ht2 & _).
  destruct (digit_char_plain _ Ho) as (Ho1 & Ho2 & _).
  unfold two_digits. push_append. cbn [GoTime.getnum].
  rewrite Ht1, Ho1, Ht2, Ho2. do 2 f_equal.
  pose proof (Z.div_mod n 10). lia.
Qed.

Lemma getnum_unpadded (n : Z) (c : ascii) (rest : string) :
  0 <= n < 100 -> Strconv.is_digit c = false ->
  GoTime.getnum (unpadded n +:+ String c rest) false = Some (n, String c rest).
Proof.
  intros Hn Hc. unfold unpadded. destruct (n <? 10) eqn:Hlt.
  - apply Z.ltb_lt in Hlt.
    destruct (digit_char_plain n ltac:(lia)) as (H1 & H2 & _).
    push_append. cbn [GoTime.getnum]. rewrite H1, Hc, H2. reflexivity.
  - apply getnum_two_digits. exact Hn.
Qed.

Lemma skip_nothing (value : string) : GoTime.skip value "" = Some value.
Proof. reflexivity. Qed.

Lemma skip_space (rest : string) :
  GoTime.skip (String " " rest) " " = Some (GoTime.cutspace rest).
Proof. reflexivity. Qed.

Lemma skip_comma_space (rest : string) :
  GoTime.skip (String "," (String " " rest)) ", " = Some (GoTime.cutspace rest).
Proof. reflexivity. Qed.

Lemma skip_colon (rest : string) : GoTime.skip (String ":" rest) ":" = Some rest.
Proof. reflexivity. Qed.

Lemma cutspace_two_digits (n : Z) (rest : string) :
  0 <= n < 100 -> GoTime.cutspace (two_digits n +:+ rest) = two_digits n +:+ rest.
Proof.
  intros Hn. destruct (tens_ones n Hn) as [Ht _].
  destruct (digit_char_plain _ Ht) as (_ & _ & Hs & _).
  unfold two_digits. push_append. cbn [GoTime.cutspace]. rewrite Hs. reflexivity.
Qed.

Lemma cutspace_unpadded (n : Z) (rest : string) :
  0 <= n < 100 -> GoTime.cutspace (unpadded n +:+ rest) = unpadded n +:+ rest.
Proof.
  intros Hn. unfold unpadded. destruct (n <? 10) eqn:Hlt.
  - apply Z.ltb_lt in Hlt.
    destruct (digit_char_plain n ltac:(lia)) as (_ & _ & Hs & _).
    push_append. cbn [GoTime.cutspace]. rewrite Hs. reflexivity.
  - apply cutspace_two_digits. exact Hn.
Qed.

Lemma month_cases (m : Z) :
  1 <= m <= 12 ->
  m = 1 \/ m = 2 \/ m = 3 \/ m = 4 \/ m = 5 \/ m = 6 \/ m = 7 \/ m = 8 \/ m = 9
  \/ m = 10 \/ m = 11 \/ m = 12.
Proof. lia. Qed.

Lemma lookup_month (m : Z) (rest : string) :
  1 <= m <= 12 ->
  GoTime.lookup GoTime.longMonthNames 1 (month_name m +:+ rest) = Some (m, rest).
Proof.
  intros Hm.
  destruct (month_cases m Hm)
    as [-> | [-> | [-> | [-> | [-> | [-> | [-> | [-> | [-> | [-> | [-> | ->]]]]]]]]]]];
    reflexivity.
Qed.

Lemma four_digits_year (y : Z) (rest : string) (f : GoTime.fields) :
  0 <= y <= 9999 ->
  GoTime.parse_std GoTime.stdLongYear (four_digits y +:+ rest) f
  = Some (rest,
          GoTime.mkFields y (GoTime.f_month f) (GoTime.f_day f) (GoTime.f_hour f)
            (GoTime.f_min f) (GoTime.f_sec f) (GoTime.f_nsec f) (GoTime.pmSet f)
            (GoTime.amSet f) (GoTime.zUTC f) (GoTime.zoneOffset f) (GoTime.zoneName f)).
Proof.
  intros Hy.
  assert (Hhi : 0 <= y / 100 < 100).
  { split; [apply Z.div_pos; lia | apply Z.div_lt_upper_bound; lia]. }
  assert (Hlo : 0 <= y mod 100 < 100) by (apply Z.mod_pos_bound; lia).
  destruct (tens_ones _ Hhi) as [Ha Hb]. destruct (tens_ones _ Hlo) as [Hc Hd].
  destruct (digit_char_plain _ Ha) as (Ha1 & Ha2 & _).
  destruct (digit_char_plain _ Hb) as (Hb1 & Hb2 & _).
  destruct (digit_char_plain _ Hc) as (Hc1 & Hc2 & _).
  destruct (digit_char_plain _ Hd) as (Hd1 & Hd2 & _).
  unfold four_digits, two_digits. push_append.
  cbn [GoTime.parse_std String.length Nat.ltb Nat.leb
       GoTime.take_chars GoTime.drop_chars Strconv.parse_digits].
  rewrite Ha1, Hb1, Hc1, Hd1, Ha2, Hb2, Hc2, Hd2.
  replace ((((0 * 10 + y / 100 / 10) * 10 + (y / 100) mod 10) * 10 + y mod 100 / 10) * 10
           + (y mod 100) mod 10) with y; [reflexivity |].
  pose proof (Z.div_mod y 100). pose proof (Z.div_mod (y / 100) 10).
  pose proof (Z.div_mod (y mod 100) 10). lia.
Qed.


Lemma parse_month (m : Z) (rest : string) (f : GoTime.fields) :
  1 <= m <= 12 ->
  GoTime.parse_std GoTime.stdLongMonth (month_name m +:+ rest) f
  = Some (rest,
          GoTime.mkFields (GoTime.f_year f) m (GoTime.f_day f) (GoTime.f_hour f)
            (GoTime.f_min f) (GoTime.f_sec f) (GoTime.f_nsec f) (GoTime.pmSet f)
            (GoTime.amSet f) (GoTime.zUTC f) (GoTime.zoneOffset f) (GoTime.zoneName f)).
Proof. intros Hm. cbn [GoTime.parse_std]. rewrite lookup_month by exact Hm. reflexivity. Qed.

Lemma parse_day (d : Z) (c : ascii) (rest : string) (f : GoTime.fields) :
  0 <= d < 100 -> Strconv.is_digit c = false ->
  GoTime.parse_std GoTime.stdDay (unpadded d +:+ String c rest) f
  = Some (String c rest,
          GoTime.mkFields (GoTime.f_year f) (GoTime.f_month f) d (GoTime.f_hour f)
            (GoTime.f_min f) (GoTime.f_sec f) (GoTime.f_nsec f) (GoTime.pmSet f)
            (GoTime.amSet f) (GoTime.zUTC f) (GoTime.zoneOffset f) (GoTime.zoneName f)).
Proof.
  intros Hd Hc. cbn [GoTime.parse_std]. rewrite getnum_unpadded by assumption.
  reflexivity.
Qed.

Lemma parse_hour (h : Z) (c : ascii) (rest : string) (f : GoTime.fields) :
  0 <= h <= 12 -> Strconv.is_digit c = false ->
  GoTime.parse_std GoTime.stdHour12 (unpadded h +:+ String c rest) f
  = Some (String c rest,
          GoTime.mkFields (GoTime.f_year f) (GoTime.f_month f) (GoTime.f_day f) h
            (GoTime.f_min f) (GoTime.f_sec f) (GoTime.f_nsec f) (GoTime.pmSet f)
            (GoTime.amSet f) (GoTime.zUTC f) (GoTime.zoneOffset f) (GoTime.zoneName f)).
Proof.
  intros Hh Hc. cbn [GoTime.parse_std]. rewrite getnum_unpadded by (assumption || lia).
  destruct (12 <? h) eqn:E; [apply Z.ltb_lt in E; lia | reflexivity].
Qed.

Lemma parse_minute (n : Z) (rest : string) (f : GoTime.fields) :
  0 <= n <= 59 ->
  GoTime.parse_std GoTime.stdZeroMinute (two_digits n +:+ rest) f
  = Some (rest,
          GoTime.mkFields (GoTime.f_year f) (GoTime.f_month f) (GoTime.f_day f)
            (GoTime.f_hour f) n (GoTime.f_sec f) (GoTime.f_nsec f) (GoTime.pmSet f)
            (GoTime.amSet f) (GoTime.zUTC f) (GoTime.zoneOffset f) (GoTime.zoneName f)).
Proof.
  intros Hn. cbn [GoTime.parse_std]. rewrite getnum_two_digits by lia.
  destruct (60 <=? n) eqn:E; [apply Z.leb_le in E; lia | reflexivity].
Qed.

Lemma parse_second (n : Z) (rest : string) (f : GoTime.fields) :
  0 <= n <= 59 ->
  GoTime.parse_std GoTime.stdZeroSecond (two_digits n +:+ String " " rest) f
  = Some (String " " rest,
          GoTime.mkFields (GoTime.f_year f) (GoTime.f_month f) (GoTime.f_day f)
            (GoTime.f_hour f) (GoTime.f_min f) n 0 (GoTime.pmSet f)
            (GoTime.amSet f) (GoTime.zUTC f) (GoTime.zoneOffset f) (GoTime.zoneName f)).
Proof.
  intros Hn. cbn [GoTime.parse_std]. rewrite getnum_two_digits by lia.
  destruct (60 <=? n) eqn:E; [apply Z.leb_le in E; lia |].
  destruct rest; reflexivity.
Qed.

Lemma parse_meridiem (h : Z) (rest : string) (f : GoTime.fields) :
  GoTime.parse_std GoTime.stdPM (meridiem h +:+ rest) f
  = Some (rest,
          GoTime.mkFields (GoTime.f_year f) (GoTime.f_month f) (GoTime.f_day f)
            (GoTime.f_hour f) (GoTime.f_min f) (GoTime.f_sec f) (GoTime.f_nsec f)
            (if 12 <=? h then true else GoTime.pmSet f)
            (if 12 <=? h then GoTime.amSet f else true)
            (GoTime.zUTC f) (GoTime.zoneOffset f) (GoTime.zoneName f)).
Proof. unfold meridiem. destruct (12 <=? h); reflexivity. Qed.

Lemma parse_offset (c : civil) (f : GoTime.fields) :
  0 <= c_offset_hours c <= 23 -> 0 <= c_offset_minutes c <= 59 ->
  GoTime.parse_std GoTime.stdNumColonTZ (offset_text c) f
  = Some ("",
          GoTime.mkFields (GoTime.f_year f) (GoTime.f_month f) (GoTime.f_day f)
            (GoTime.f_hour f) (GoTime.f_min f) (GoTime.f_sec f) (GoTime.f_nsec f)
            (GoTime.pmSet f) (GoTime.amSet f) (GoTime.zUTC f) (offset_seconds c)
            (GoTime.zoneName f)).
Proof.
  intros Hh Hm. unfold offset_text, offset_seconds.
  pose proof (getnum_two_digits (c_offset_hours c) "" true ltac:(lia)) as Hgh.
  pose proof (getnum_two_digits (c_offset_minutes c) "" true ltac:(lia)) as Hgm.
  unfold two_digits in *. push_append. push_append_in Hgh. push_append_in Hgm.
  cbn [GoTime.parse_std]. cbn [Ascii.eqb Bool.eqb negb].
  rewrite Hgh, Hgm.
  destruct (24 <? c_offset_hours c) eqn:E1; [apply Z.ltb_lt in E1; lia |].
  destruct (60 <? c_offset_minutes c) eqn:E2; [apply Z.ltb_lt in E2; lia |].
  destruct (c_east c); reflexivity.
Qed.


Lemma prefix_cons (p c : ascii) (ps s : string) :
  String.prefix (String p ps) (String c s) = Ascii.eqb p c && String.prefix ps s.
Proof.
  cbn [String.prefix]. destruct (ascii_dec p c) as [-> | Hne].
  - rewrite Ascii.eqb_refl. reflexivity.
  - apply Ascii.eqb_neq in Hne. rewrite Hne. reflexivity.
Qed.

Lemma prefix_nil (s : string) : String.prefix "" s = true.
Proof. destruct s; reflexivity. Qed.

Lemma upper_not (c : ascii) :
  GoTime.is_upper c = true ->
  Ascii.eqb "h" c = false /\ Ascii.eqb "e" c = false
  /\ Ascii.eqb "+" c = false /\ Ascii.eqb "-" c = false
  /\ Ascii.eqb c "+" = false /\ Ascii.eqb c " " = false.
Proof.
  destruct c as [[] [] [] [] [] [] [] []]; intros H; try discriminate H;
    repeat split; reflexivity.
Qed.

Lemma parse_zone_UTC (r : string) (f : GoTime.fields) :
  GoTime.parse_std GoTime.stdTZ ("UTC" +:+ String " " r) f
  = Some (String " " r,
          GoTime.mkFields (GoTime.f_year f) (GoTime.f_month f) (GoTime.f_day f)
            (GoTime.f_hour f) (GoTime.f_min f) (GoTime.f_sec f) (GoTime.f_nsec f)
            (GoTime.pmSet f) (GoTime.amSet f) true (GoTime.zoneOffset f)
            (GoTime.zoneName f)).
Proof. reflexivity. Qed.

Ltac eqb_prefixes := rewrite ?prefix_cons, ?prefix_nil, ?andb_true_r in *.

Lemma parse_zone (z r : string) (f : GoTime.fields) :
  zone_abbreviation z = true -> z <> "UTC" ->
  GoTime.parse_std GoTime.stdTZ (z +:+ String " " r) f
  = Some (String " " r,
          GoTime.mkFields (GoTime.f_year f) (GoTime.f_month f) (GoTime.f_day f)
            (GoTime.f_hour f) (GoTime.f_min f) (GoTime.f_sec f) (GoTime.f_nsec f)
            (GoTime.pmSet f) (GoTime.amSet f) (GoTime.zUTC f) (GoTime.zoneOffset f) z).
Proof.
  unfold zone_abbreviation. intros Hz Hutc.
  apply orb_true_iff in Hz as [Hz | Hz].
  { apply orb_true_iff in Hz as [Hz | Hz]; [apply orb_true_iff in Hz as [Hz | Hz] |];
      apply String.eqb_eq in Hz; subst z; reflexivity. }
  apply andb_true_iff in Hz as [Hup Hshape].
  destruct z as [| a [| b [| c [| d [| e [| g z']]]]]];
    cbn [String.length] in Hshape; try discriminate Hshape.
  - (* three letters *)
    cbn [all_upper] in Hup.
    apply andb_true_iff in Hup as [Ha Hup]. apply andb_true_iff in Hup as [Hb Hup].
    apply andb_true_iff in Hup as [Hc _].
    destruct (upper_not a Ha) as (_ & _ & Hap & Ham & _).
    destruct (upper_not b Hb) as (Hbh & Hbe & _).
    push_append. cbn [GoTime.parse_std]. eqb_prefixes.
    destruct (Ascii.eqb "U" a && (Ascii.eqb "T" b && Ascii.eqb "C" c)) eqn:HU.
    { apply andb_true_iff in HU as [H1 HU]. apply andb_true_iff in HU as [H2 H3].
      apply Ascii.eqb_eq in H1, H2, H3. subst. congruence. }
    unfold GoTime.parseTimeZone. cbn [String.length Nat.ltb Nat.leb].
    eqb_prefixes. rewrite Hbh, Hbe, !andb_false_l, !andb_false_r. cbn [orb].
    destruct (Ascii.eqb "G" a && (Ascii.eqb "M" b && Ascii.eqb "T" c)) eqn:HG.
    + reflexivity.
    + rewrite Hap, Ham. cbn [orb GoTime.count_upper]. rewrite Ha, Hb, Hc.
      reflexivity.
  - (* four letters *)
    cbn [all_upper] in Hup.
    apply andb_true_iff in Hup as [Ha Hup]. apply andb_true_iff in Hup as [Hb Hup].
    apply andb_true_iff in Hup as [Hc Hup]. apply andb_true_iff in Hup as [Hd _].
    destruct (upper_not a Ha) as (_ & _ & Hap & Ham & _).
    destruct (upper_not b Hb) as (Hbh & Hbe & _).
    cbn [Nat.sub GoTime.drop_chars] in Hshape. eqb_prefixes.
    apply andb_true_iff in Hshape as [Hshape HG]. apply andb_true_iff in Hshape as [HT HU].
    apply negb_true_iff in HG, HU.
    push_append. cbn [GoTime.parse_std]. eqb_prefixes. rewrite HU.
    unfold GoTime.parseTimeZone. cbn [String.length Nat.ltb Nat.leb].
    eqb_prefixes. rewrite Hbh, Hbe, !andb_false_l, !andb_false_r, HG, Hap, Ham.
    cbn [orb GoTime.count_upper]. rewrite Ha, Hb, Hc, Hd.
    change (GoTime.is_upper " ") with false. cbn iota. cbn [GoTime.drop_chars].
    eqb_prefixes. rewrite HT. reflexivity.
  - (* five letters *)
    cbn [all_upper] in Hup.
    apply andb_true_iff in Hup as [Ha Hup]. apply andb_true_iff in Hup as [Hb Hup].
    apply andb_true_iff in Hup as [Hc Hup]. apply andb_true_iff in Hup as [Hd Hup].
    apply andb_true_iff in Hup as [He _].
    destruct (upper_not a Ha) as (_ & _ & Hap & Ham & _).
    destruct (upper_not b Hb) as (Hbh & Hbe & _).
    cbn [Nat.sub GoTime.drop_chars] in Hshape. eqb_prefixes.
    apply andb_true_iff in Hshape as [Hshape HG]. apply andb_true_iff in Hshape as [HT HU].
    apply negb_true_iff in HG, HU.
    push_append. cbn [GoTime.parse_std]. eqb_prefixes. rewrite HU.
    unfold GoTime.parseTimeZone. cbn [String.length Nat.ltb Nat.leb].
    eqb_prefixes. rewrite Hbh, Hbe, !andb_false_l, !andb_false_r, HG, Hap, Ham.
    cbn [orb GoTime.count_upper]. rewrite Ha, Hb, Hc, Hd, He.
    change (GoTime.is_upper " ") with false. cbn iota. cbn [GoTime.drop_chars].
    eqb_prefixes. rewrite HT. reflexivity.
Qed.


(** *** The plus sign and [strings.Replace] *)

Lemma replace_zero (s : string) : Strings.replace_from s "+" " +" 0 0 = s.
Proof. destruct s; reflexivity. Qed.

Lemma replace_plus (b : string) :
  Strings.replace_from (String "+" b) "+" " +" 1 0 = String " " (String "+" b).
Proof.
  cbn [Strings.replace_from]. rewrite prefix_cons, prefix_nil.
  cbn [Ascii.eqb Bool.eqb andb String.length Nat.sub]. push_append.
  rewrite replace_zero. reflexivity.
Qed.

Lemma replace_skip (a b : string) :
  no_plus a = true ->
  Strings.replace_from (a +:+ b) "+" " +" 1 0
  = a +:+ Strings.replace_from b "+" " +" 1 0.
Proof.
  induction a as [| c a IH]; intros Ha; [reflexivity |].
  cbn [no_plus] in Ha. apply andb_true_iff in Ha as [Hc Ha].
  apply negb_true_iff in Hc. push_append. cbn [Strings.replace_from].
  rewrite prefix_cons, Ascii.eqb_sym, Hc. cbn [andb]. rewrite IH by exact Ha.
  reflexivity.
Qed.

Lemma replace_none (a : string) :
  no_plus a = true -> Strings.replace_from a "+" " +" 1 0 = a.
Proof.
  induction a as [| c a IH]; intros Ha; [reflexivity |].
  cbn [no_plus] in Ha. apply andb_true_iff in Ha as [Hc Ha].
  apply negb_true_iff in Hc. cbn [Strings.replace_from].
  rewrite prefix_cons, Ascii.eqb_sym, Hc. cbn [andb]. rewrite IH by exact Ha.
  reflexivity.
Qed.

Lemma no_plus_two_digits (n : Z) : 0 <= n < 100 -> no_plus (two_digits n) = true.
Proof.
  intros Hn. destruct (tens_ones n Hn) as [Ht Ho].
  destruct (digit_char_plain _ Ht) as (_ & _ & _ & H1).
  destruct (digit_char_plain _ Ho) as (_ & _ & _ & H2).
  unfold two_digits. cbn [no_plus]. rewrite H1, H2. reflexivity.
Qed.

Lemma no_plus_unpadded (n : Z) : 0 <= n < 100 -> no_plus (unpadded n) = true.
Proof.
  intros Hn. unfold unpadded. destruct (n <? 10) eqn:Hlt.
  - apply Z.ltb_lt in Hlt.
    destruct (digit_char_plain n ltac:(lia)) as (_ & _ & _ & H1).
    cbn [no_plus]. rewrite H1. reflexivity.
  - apply no_plus_two_digits. exact Hn.
Qed.

Lemma no_plus_app (a b : string) : no_plus (a +:+ b) = no_plus a && no_plus b.
Proof.
  induction a as [| c a IH]; [reflexivity |].
  push_append. cbn [no_plus]. rewrite IH, andb_assoc. reflexivity.
Qed.

Lemma no_plus_four_digits (y : Z) : 0 <= y <= 9999 -> no_plus (four_digits y) = true.
Proof.
  intros Hy. unfold four_digits. rewrite no_plus_app, !no_plus_two_digits; [reflexivity | |].
  - apply Z.mod_pos_bound. lia.
  - split; [apply Z.div_pos; lia | apply Z.div_lt_upper_bound; lia].
Qed.

Lemma no_plus_month (m : Z) : 1 <= m <= 12 -> no_plus (month_name m) = true.
Proof.
  intros Hm.
  destruct (month_cases m Hm)
    as [-> | [-> | [-> | [-> | [-> | [-> | [-> | [-> | [-> | [-> | [-> | ->]]]]]]]]]]];
    reflexivity.
Qed.

Lemma no_plus_upper (z : string) : all_upper z = true -> no_plus z = true.
Proof.
  induction z as [| c z IH]; intros Hz; [reflexivity |].
  cbn [all_upper] in Hz. apply andb_true_iff in Hz as [Hc Hz].
  destruct (upper_not c Hc) as (_ & _ & _ & _ & Hp & _).
  cbn [no_plus]. rewrite Hp, IH by exact Hz. reflexivity.
Qed.

Lemma hour12_range (h : Z) : 0 <= h <= 23 -> 1 <= hour12 h <= 12.
Proof.
  intros Hh. unfold hour12. pose proof (Z.mod_pos_bound h 12 ltac:(lia)).
  destruct (h mod 12 =? 0) eqn:E; [lia | apply Z.eqb_neq in E; lia].
Qed.

Lemma clock_hour (h : Z) : 0 <= h <= 23 -> clock h = h.
Proof.
  intros Hh. apply Z.eqb_eq.
  pose proof (DerFacts.byte_cases (fun h => (23 <? h) || (clock h =? h)) eq_refl h
                ltac:(lia)) as H.
  cbv beta in H. destruct (23 <? h) eqn:E; [apply Z.ltb_lt in E; lia | exact H].
Qed.


(** *** The layout, chunk by chunk *)

Lemma layout_chunks :
  GoTime.chunks (String.length androidLogTimeFormat) androidLogTimeFormat ""
  = ([("", GoTime.stdLongMonth); (" ", GoTime.stdDay); (", ", GoTime.stdLongYear);
      (" ", GoTime.stdHour12); (":", GoTime.stdZeroMinute); (":", GoTime.stdZeroSecond);
      (" ", GoTime.stdPM); (" ", GoTime.stdTZ); (" ", GoTime.stdNumColonTZ)], "").
Proof. vm_compute. reflexivity. Qed.

Lemma parse_chunks_cons (prefix : string) (e : GoTime.std)
    (l : list (string * GoTime.std)) (tail value value' value'' : string)
    (f f' : GoTime.fields) :
  GoTime.skip value prefix = Some value' ->
  GoTime.parse_std e value' f = Some (value'', f') ->
  GoTime.parse_chunks ((prefix, e) :: l) tail value f
  = GoTime.parse_chunks l tail value'' f'.
Proof. intros Hskip Hstd. cbn [GoTime.parse_chunks]. rewrite Hskip, Hstd. reflexivity. Qed.

Lemma append_assoc (a b c : string) : (a +:+ b) +:+ c = a +:+ (b +:+ c).
Proof. induction a as [| x a IH]; [reflexivity |]. push_append. rewrite IH. reflexivity. Qed.

Lemma skip_space_unpadded (n : Z) (rest : string) :
  0 <= n < 100 ->
  GoTime.skip (String " " (unpadded n +:+ rest)) " " = Some (unpadded n +:+ rest).
Proof. intros Hn. rewrite skip_space, cutspace_unpadded by exact Hn. reflexivity. Qed.

Lemma skip_comma_space_year (y : Z) (rest : string) :
  0 <= y <= 9999 ->
  GoTime.skip (String "," (String " " (four_digits y +:+ rest))) ", "
  = Some (four_digits y +:+ rest).
Proof.
  intros Hy. rewrite skip_comma_space. unfold four_digits.
  rewrite append_assoc, cutspace_two_digits; [reflexivity |].
  split; [apply Z.div_pos; lia | apply Z.div_lt_upper_bound; lia].
Qed.

Lemma skip_space_meridiem (h : Z) (rest : string) :
  GoTime.skip (String " " (meridiem h +:+ rest)) " " = Some (meridiem h +:+ rest).
Proof. unfold meridiem. destruct (12 <=? h); reflexivity. Qed.

Lemma zone_plain (z rest : string) :
  zone_abbreviation z = true ->
  GoTime.cutspace (z +:+ rest) = z +:+ rest /\ no_plus z = true.
Proof.
  unfold zone_abbreviation. intros Hz.
  apply orb_true_iff in Hz as [Hz | Hz].
  { apply orb_true_iff in Hz as [Hz | Hz]; [apply orb_true_iff in Hz as [Hz | Hz] |];
      apply String.eqb_eq in Hz; subst z; split; reflexivity. }
  apply andb_true_iff in Hz as [Hup Hshape].
  split; [| apply no_plus_upper; exact Hup].
  destruct z as [| a z']; [discriminate Hshape |].
  cbn [all_upper] in Hup. apply andb_true_iff in Hup as [Ha _].
  destruct (upper_not a Ha) as (_ & _ & _ & _ & _ & Hs).
  push_append. cbn [GoTime.cutspace]. rewrite Hs. reflexivity.
Qed.

Lemma skip_space_zone (z rest : string) :
  zone_abbreviation z = true ->
  GoTime.skip (String " " (z +:+ rest)) " " = Some (z +:+ rest).
Proof.
  intros Hz. rewrite skip_space, (proj1 (zone_plain z rest Hz)). reflexivity.
Qed.

Lemma skip_space_offset (c : civil) (g : string) :
  g = "" \/ g = " " ->
  GoTime.skip (String " " (g +:+ offset_text c)) " " = Some (offset_text c).
Proof.
  intros [-> | ->]; rewrite skip_space; unfold offset_text; destruct (c_east c);
    reflexivity.
Qed.

Lemma daysIn_le (m y : Z) : 1 <= m <= 12 -> GoTime.daysIn m y <= 31.
Proof.
  intros Hm. unfold GoTime.daysIn.
  destruct (month_cases m Hm)
    as [-> | [-> | [-> | [-> | [-> | [-> | [-> | [-> | [-> | [-> | [-> | ->]]]]]]]]]]];
    try (vm_compute; discriminate).
  destruct (GoTime.isLeap y); vm_compute; discriminate.
Qed.

(** The fields that [Parse] has read at the end of the text. *)
Ltac norm_fields :=
  cbn [GoTime.f_year GoTime.f_month GoTime.f_day GoTime.f_hour GoTime.f_min
       GoTime.f_sec GoTime.f_nsec GoTime.pmSet GoTime.amSet GoTime.zUTC
       GoTime.zoneOffset GoTime.zoneName GoTime.no_fields].

Lemma parse_time_text (c : civil) (g : string) :
  well_formed c -> g = "" \/ g = " " ->
  GoTime.parse_chunks
    [("", GoTime.stdLongMonth); (" ", GoTime.stdDay); (", ", GoTime.stdLongYear);
     (" ", GoTime.stdHour12); (":", GoTime.stdZeroMinute); (":", GoTime.stdZeroSecond);
     (" ", GoTime.stdPM); (" ", GoTime.stdTZ); (" ", GoTime.stdNumColonTZ)] ""
    (time_text c (String " " g)) GoTime.no_fields
  = Some (GoTime.mkFields (c_year c) (c_month c) (c_day c) (hour12 (c_hour c))
            (c_min c) (c_sec c) 0
            (if 12 <=? c_hour c then true else false)
            (if 12 <=? c_hour c then false else true)
            (if String.eqb (c_zone c) "UTC" then true else false)
            (offset_seconds c)
            (if String.eqb (c_zone c) "UTC" then "" else c_zone c)).
Proof.
  intros (Hy & Hm & Hd & Hh & Hmi & Hs & Hz & Hoh & Hom & Hutc) Hg.
  pose proof (daysIn_le (c_month c) (c_year c) Hm) as Hdays.
  pose proof (hour12_range (c_hour c) Hh) as Hh12.
  change (time_text c (String " " g)) with
    (month_name (c_month c) +:+ String " "
      (unpadded (c_day c) +:+ String "," (String " "
        (four_digits (c_year c) +:+ String " "
          (unpadded (hour12 (c_hour c)) +:+ String ":"
            (two_digits (c_min c) +:+ String ":"
              (two_digits (c_sec c) +:+ String " "
                (meridiem (c_hour c) +:+ String " "
                  (c_zone c +:+ String " " (g +:+ offset_text c)))))))))).
  erewrite parse_chunks_cons;
    [| apply skip_nothing | apply parse_month; exact Hm]. norm_fields.
  erewrite parse_chunks_cons;
    [| apply skip_space_unpadded; lia | apply parse_day; [lia | reflexivity]]. norm_fields.
  erewrite parse_chunks_cons;
    [| apply skip_comma_space_year; exact Hy | apply four_digits_year; exact Hy]. norm_fields.
  erewrite parse_chunks_cons;
    [| apply skip_space_unpadded; lia | apply parse_hour; [lia | reflexivity]]. norm_fields.
  erewrite parse_chunks_cons;
    [| apply skip_colon | apply parse_minute; exact Hmi]. norm_fields.
  erewrite parse_chunks_cons;
    [| apply skip_colon | apply parse_second; exact Hs]. norm_fields.
  erewrite parse_chunks_cons;
    [| apply skip_space_meridiem | apply parse_meridiem]. norm_fields.
  destruct (String.eqb (c_zone c) "UTC") eqn:Hzone.
  - apply String.eqb_eq in Hzone.
    erewrite parse_chunks_cons;
      [| apply skip_space_zone; exact Hz | rewrite Hzone; apply parse_zone_UTC].
    norm_fields.
    erewrite parse_chunks_cons;
      [| apply skip_space_offset; exact Hg | apply parse_offset; assumption].
    reflexivity.
  - apply String.eqb_neq in Hzone.
    erewrite parse_chunks_cons;
      [| apply skip_space_zone; exact Hz | apply parse_zone; assumption].
    norm_fields.
    erewrite parse_chunks_cons;
      [| apply skip_space_offset; exact Hg | apply parse_offset; assumption].
    reflexivity.
Qed.

Lemma assemble_fields (c : civil) :
  well_formed c ->
  GoTime.assemble
    (GoTime.mkFields (c_year c) (c_month c) (c_day c) (hour12 (c_hour c))
       (c_min c) (c_sec c) 0
       (if 12 <=? c_hour c then true else false)
       (if 12 <=? c_hour c then false else true)
       (if String.eqb (c_zone c) "UTC" then true else false)
       (offset_seconds c)
       (if String.eqb (c_zone c) "UTC" then "" else c_zone c))
  = Some (instant c).
Proof.
  intros (Hy & Hm & Hd & Hh & Hmi & Hs & Hz & Hoh & Hom & Hutc).
  pose proof (clock_hour (c_hour c) Hh) as Hclock. unfold clock in Hclock.
  unfold GoTime.assemble, instant.
  cbn [GoTime.f_year GoTime.f_month GoTime.f_day GoTime.f_hour GoTime.f_min
       GoTime.f_sec GoTime.f_nsec GoTime.pmSet GoTime.amSet GoTime.zUTC
       GoTime.zoneOffset GoTime.zoneName].
  replace (if (if 12 <=? c_hour c then true else false) && (hour12 (c_hour c) <? 12)
           then hour12 (c_hour c) + 12
           else if (if 12 <=? c_hour c then false else true) && (hour12 (c_hour c) =? 12)
                then 0 else hour12 (c_hour c))
    with (c_hour c) by (destruct (12 <=? c_hour c); exact (eq_sym Hclock)).
  destruct (c_day c <? 1) eqn:E1; [apply Z.ltb_lt in E1; lia |].
  destruct (GoTime.daysIn (c_month c) (c_year c) <? c_day c) eqn:E2;
    [apply Z.ltb_lt in E2; lia |].
  cbn [orb]. unfold GoTime.Date.
  destruct (String.eqb (c_zone c) "UTC") eqn:Hzone.
  - apply String.eqb_eq in Hzone. destruct (Hutc Hzone) as [H0 H1].
    unfold offset_seconds. rewrite H0, H1. do 2 f_equal.
    destruct (c_east c); lia.
  - assert (Hoff : (offset_seconds c =? -1) = false).
    { apply Z.eqb_neq. unfold offset_seconds. destruct (c_east c); lia. }
    rewrite Hoff. reflexivity.
Qed.


(** [time.Parse] reads the text back, with one space or two before the
    offset. *)
Lemma Parse_time_text (c : civil) (g : string) :
  well_formed c -> g = "" \/ g = " " ->
  GoTime.Parse androidLogTimeFormat (time_text c (String " " g)) = Some (instant c).
Proof.
  intros Hc Hg. unfold GoTime.Parse.
  rewrite layout_chunks, (parse_time_text c g Hc Hg). apply assemble_fields, Hc.
Qed.

Lemma no_plus_meridiem (h : Z) : no_plus (meridiem h) = true.
Proof. unfold meridiem. destruct (12 <=? h); reflexivity. Qed.

(** What [strings.Replace] makes of the text: a space is put before the
    plus sign of the offset, and nothing else changes. *)
Lemma Replace_time_text (c : civil) (gap : string) :
  well_formed c -> gap = "" \/ gap = " " ->
  Strings.Replace (time_text c gap) "+" " +" 1
  = time_text c (if c_east c then String " " gap else gap).
Proof.
  intros (Hy & Hm & Hd & Hh & Hmi & Hs & Hz & Hoh & Hom & Hutc) Hgap.
  pose proof (daysIn_le (c_month c) (c_year c) Hm) as Hdays.
  pose proof (hour12_range (c_hour c) Hh) as Hh12.
  unfold Strings.Replace, time_text.
  rewrite (replace_skip (month_name _)) by (apply no_plus_month; exact Hm).
  rewrite (replace_skip " ") by reflexivity.
  rewrite (replace_skip (unpadded _)) by (apply no_plus_unpadded; lia).
  rewrite (replace_skip ", ") by reflexivity.
  rewrite (replace_skip (four_digits _)) by (apply no_plus_four_digits; exact Hy).
  rewrite (replace_skip " ") by reflexivity.
  rewrite (replace_skip (unpadded _)) by (apply no_plus_unpadded; lia).
  rewrite (replace_skip ":") by reflexivity.
  rewrite (replace_skip (two_digits _)) by (apply no_plus_two_digits; lia).
  rewrite (replace_skip ":") by reflexivity.
  rewrite (replace_skip (two_digits _)) by (apply no_plus_two_digits; lia).
  rewrite (replace_skip " ") by reflexivity.
  rewrite (replace_skip (meridiem _)) by apply no_plus_meridiem.
  rewrite (replace_skip " ") by reflexivity.
  rewrite (replace_skip (c_zone c)) by (apply (zone_plain _ "" Hz)).
  rewrite (replace_skip gap) by (destruct Hgap as [-> | ->]; reflexivity).
  do 15 f_equal. unfold offset_text. destruct (c_east c).
  - rewrite replace_plus. destruct Hgap as [-> | ->]; reflexivity.
  - rewrite replace_none; [reflexivity |].
    cbn [no_plus]. rewrite no_plus_app, no_plus_app, !no_plus_two_digits by lia.
    reflexivity.
Qed.

Section Envelope.

Variable unmarshalVerification : string -> androidLogVerification * option goerror.
Variable unmarshalIssuance : string -> androidLogIssuance * option goerror.
Variable unmarshalSignature : string -> androidLogSignature * option goerror.
Variable unmarshalRemoval : string -> androidLogRemoval * option goerror.


End Envelope.


(** Other time stamps: the reference time of the layout, and an offset
    west of Greenwich written without a space, which [GetTime] does not
    repair and turns into the zero time. *)
Example GetTime_reference_time :
  GetTime (mkEntry "January 2, 2006 3:04:05 PM MST -07:00" studentCard)
  = GoTime.mkTime 1136239445 0.
Proof. vm_compute. reflexivity. Qed.

Example GetTime_west_without_space :
  GetTime (mkEntry "February 29, 2016 12:00:00 AM GMT-05:00" studentCard)
  = GoTime.zeroTime.
Proof. vm_compute. reflexivity. Qed.

End LegacyFacts.

Set Warnings "-clear-no-such-hyp".

(** ** The identifiers of a request *)

Module RequestIdentifiersFacts.
Import RequestIdentifiers.

Section WithIdentifiers.

Variable IssuerIdentifier : string -> string.
Variable SchemeManagerIdentifier : string -> string.
Variable CredentialTypeIdentifier : string -> string.
Variable IsCredential : string -> bool.

Lemma add_types_run (cti : string -> string) (attrs : list string) :
  forall ids,
    fold_left (fun ids attr =>
                 add_credential_type IssuerIdentifier SchemeManagerIdentifier ids (cti attr))
      attrs ids
    = mkIrmaIdentifierSet
        (list_to_set (map (scheme_manager_of IssuerIdentifier SchemeManagerIdentifier)
                        (map cti attrs)) ∪ SchemeManagers ids)
        (list_to_set (map IssuerIdentifier (map cti attrs)) ∪ Issuers ids)
        (list_to_set (map cti attrs) ∪ CredentialTypes ids)
        (PublicKeys ids).
Proof using IssuerIdentifier SchemeManagerIdentifier.
  clear IsCredential CredentialTypeIdentifier.
  induction attrs as [| attr rest IH]; intros ids.
  - cbn. destruct ids. cbn. f_equal; set_solver.
  - cbn [fold_left]. rewrite IH. unfold add_credential_type. cbn.
    f_equal; set_solver.
Qed.

Lemma add_disjunctions_run (cti : string -> string)
    (disjunctions : list Irma.AttributeDisjunction) :
  forall ids,
    add_disjunctions IssuerIdentifier SchemeManagerIdentifier cti ids disjunctions
    = mkIrmaIdentifierSet
        (list_to_set (map (scheme_manager_of IssuerIdentifier SchemeManagerIdentifier)
                        (disjunction_types cti disjunctions))
           ∪ SchemeManagers ids)
        (list_to_set (map IssuerIdentifier (disjunction_types cti disjunctions))
           ∪ Issuers ids)
        (list_to_set (disjunction_types cti disjunctions) ∪ CredentialTypes ids)
        (PublicKeys ids).
Proof using IssuerIdentifier SchemeManagerIdentifier.
  clear IsCredential CredentialTypeIdentifier.
  unfold add_disjunctions, disjunction_types.
  induction disjunctions as [| d rest IH]; intros ids.
  - cbn. destruct ids. cbn. f_equal; set_solver.
  - cbn [fold_left flat_map]. rewrite IH, add_types_run. cbn.
    rewrite !map_app, !list_to_set_app_L. f_equal; set_solver.
Qed.

(** The loop over the credential requests, when every request names its
    credential type. *)
Lemma add_credentials_run (creds : list Irma.CredentialRequest) :
  Forall (fun credreq => is_Some (Irma.CredentialTypeID credreq)) creds ->
  forall ids,
    exists ids',
      add_credentials IssuerIdentifier SchemeManagerIdentifier ids creds
      = (Returns tt, ids')
      /\ SchemeManagers ids'
         = list_to_set (map (scheme_manager_of IssuerIdentifier SchemeManagerIdentifier)
                          (requested_types creds)) ∪ SchemeManagers ids
      /\ Issuers ids'
         = list_to_set (map IssuerIdentifier (requested_types creds)) ∪ Issuers ids
      /\ CredentialTypes ids' = list_to_set (requested_types creds) ∪ CredentialTypes ids
      /\ forall issuer,
           PublicKeys ids' !! issuer
           = match counters_of IssuerIdentifier issuer creds with
             | [] => PublicKeys ids !! issuer
             | _ :: _ =>
                 Some (default [] (PublicKeys ids !! issuer)
                         ++ counters_of IssuerIdentifier issuer creds)
             end.
Proof.
  induction 1 as [| credreq rest [id Hid] Hrest IH]; intros ids.
  - exists ids. cbn. repeat split; set_solver.
  - cbn [add_credentials]. unfold add_credential. rewrite Hid.
    match goal with |- context [add_credentials _ _ ?i rest] => destruct (IH i) as (ids' & Hrun & Hsm & Hiss & Hct & Hpk) end.
    exists ids'. rewrite Hrun. split; [reflexivity |].
    unfold requested_types in *. cbn [omap list_omap]. rewrite Hid.
    cbn in Hsm, Hiss, Hct, Hpk.
    split; [rewrite Hsm; cbn; set_solver |].
    split; [rewrite Hiss; cbn; set_solver |].
    split; [rewrite Hct; cbn; set_solver |].
    intros issuer. rewrite Hpk. unfold counters_of. cbn [omap list_omap]. rewrite Hid.
    fold (counters_of IssuerIdentifier issuer rest).
    destruct (String.eqb (IssuerIdentifier id) issuer) eqn:Heq.
    + apply String.eqb_eq in Heq. subst issuer. rewrite lookup_insert_eq.
      cbn [default app].
      destruct (counters_of IssuerIdentifier (IssuerIdentifier id) rest); cbn.
      * reflexivity.
      * rewrite <- app_assoc. reflexivity.
    + apply String.eqb_neq in Heq. rewrite lookup_insert_ne by exact Heq.
      cbn. reflexivity.
Qed.

(** X1.  When every credential request names a credential type, the first call of
    [IssuanceRequest.Identifiers] returns the set it stores in [ir.Ids]: the
    credential types are those of the requests and of the attributes of
    [ToDisclose], the issuers and scheme managers are the ones derived from
    these types, and [PublicKeys] maps every issuer of a requested
    credential to the key counters of its requests, in the order of the
    requests and with repetitions, and has no entry for any other issuer (the
    issuers of the disclosed attributes included). *)
Theorem IssuanceRequest_Identifiers_fresh (ir : IssuanceRequest) :
  Forall (fun credreq => is_Some (Irma.CredentialTypeID credreq)) (Credentials ir) ->
  let types :=
    requested_types (Credentials ir)
      ++ disjunction_types (disclosed_credential_type CredentialTypeIdentifier IsCredential)
           (IssuanceRequest_ToDisclose ir) in
  exists ids,
    IssuanceRequest_Identifiers IssuerIdentifier SchemeManagerIdentifier
      CredentialTypeIdentifier IsCredential ir None = (Returns ids, Some ids)
    /\ CredentialTypes ids = list_to_set types
    /\ Issuers ids = list_to_set (map IssuerIdentifier types)
    /\ SchemeManagers ids
       = list_to_set (map (scheme_manager_of IssuerIdentifier SchemeManagerIdentifier) types)
    /\ forall issuer,
         PublicKeys ids !! issuer
         = match counters_of IssuerIdentifier issuer (Credentials ir) with
           | [] => None
           | counter :: counters => Some (counter :: counters)
           end.
Proof.
  intros Htyped types. unfold IssuanceRequest_Identifiers.
  destruct (add_credentials_run (Credentials ir) Htyped no_identifiers)
    as (ids1 & Hrun & Hsm & Hiss & Hct & Hpk).
  rewrite Hrun, add_disjunctions_run.
  eexists. split; [reflexivity |]. cbn.
  subst types. unfold IssuanceRequest_ToDisclose.
  replace (match Disclose ir with Some disclose => disclose | None => [] end)
    with (default [] (Disclose ir)) by (destruct (Disclose ir); reflexivity).
  rewrite !map_app, !list_to_set_app_L, Hsm, Hiss, Hct. cbn.
  split; [set_solver |]. split; [set_solver |]. split; [set_solver |].
  intros issuer. rewrite Hpk. cbn. rewrite lookup_empty.
  destruct (counters_of IssuerIdentifier issuer (Credentials ir)); reflexivity.
Qed.

(** X2.  [Identifiers] leaves [Ids] set, also when it panics, and a later call
    returns the cached set whatever the request holds by then; the result of
    a call that returns is the set it stores.  This holds for issuance and
    for disclosure requests. *)
Theorem Identifiers_computed_once :
  (forall ir Ids r Ids',
      IssuanceRequest_Identifiers IssuerIdentifier SchemeManagerIdentifier
        CredentialTypeIdentifier IsCredential ir Ids = (r, Ids') ->
      exists ids,
        Ids' = Some ids
        /\ (forall x, r = Returns x -> x = ids)
        /\ forall ir',
             IssuanceRequest_Identifiers IssuerIdentifier SchemeManagerIdentifier
               CredentialTypeIdentifier IsCredential ir' Ids' = (Returns ids, Ids'))
  /\ (forall dr Ids,
        exists ids,
          DisclosureRequest_Identifiers IssuerIdentifier SchemeManagerIdentifier
            CredentialTypeIdentifier dr Ids = (ids, Some ids)
          /\ forall dr',
               DisclosureRequest_Identifiers IssuerIdentifier SchemeManagerIdentifier
                 CredentialTypeIdentifier dr' (Some ids) = (ids, Some ids)).
Proof.
  split.
  - intros ir Ids r Ids' Hrun. unfold IssuanceRequest_Identifiers in Hrun.
    destruct Ids as [ids |].
    + injection Hrun as <- <-. exists ids. repeat split; congruence.
    + destruct (add_credentials _ _ _ _) as [[[] | v] ids1];
        injection Hrun as <- <-; eexists; repeat split; congruence.
  - intros dr [ids |]; eexists; split; reflexivity.
Qed.

(** X3.  When a credential request names no credential type, the first call of
    [IssuanceRequest.Identifiers] panics with a nil dereference and leaves in
    [ir.Ids] the identifiers of the requests before it only; the next call
    does not panic and returns this partial set. *)
Theorem Identifiers_panic_leaves_partial_set (ir : IssuanceRequest)
    (before after : list Irma.CredentialRequest) (untyped : Irma.CredentialRequest) :
  Credentials ir = before ++ untyped :: after ->
  Forall (fun credreq => is_Some (Irma.CredentialTypeID credreq)) before ->
  Irma.CredentialTypeID untyped = None ->
  exists ids,
    IssuanceRequest_Identifiers IssuerIdentifier SchemeManagerIdentifier
      CredentialTypeIdentifier IsCredential ir None
    = (Panics Irma.nil_dereference, Some ids)
    /\ CredentialTypes ids = list_to_set (requested_types before)
    /\ Issuers ids = list_to_set (map IssuerIdentifier (requested_types before))
    /\ SchemeManagers ids
       = list_to_set (map (scheme_manager_of IssuerIdentifier SchemeManagerIdentifier)
                        (requested_types before))
    /\ (forall issuer,
          PublicKeys ids !! issuer
          = match counters_of IssuerIdentifier issuer before with
            | [] => None
            | counter :: counters => Some (counter :: counters)
            end)
    /\ IssuanceRequest_Identifiers IssuerIdentifier SchemeManagerIdentifier
         CredentialTypeIdentifier IsCredential ir (Some ids)
       = (Returns ids, Some ids).
Proof.
  intros Hcreds Htyped Hnone. unfold IssuanceRequest_Identifiers. rewrite Hcreds.
  assert (Hloop : forall ids0,
             exists ids,
               add_credentials IssuerIdentifier SchemeManagerIdentifier ids0
                 (before ++ untyped :: after) = (Panics Irma.nil_dereference, ids)
               /\ add_credentials IssuerIdentifier SchemeManagerIdentifier ids0 before
                  = (Returns tt, ids)).
  { clear Hcreds. induction Htyped as [| credreq rest [id Hid] Hrest IH]; intros ids0.
    - exists ids0. cbn. unfold add_credential. rewrite Hnone. split; reflexivity.
    - rewrite <- app_comm_cons. cbn [add_credentials]. unfold add_credential at 1 2.
      rewrite Hid. apply IH. }
  destruct (Hloop no_identifiers) as (ids & Hpanic & Hbefore).
  destruct (add_credentials_run before Htyped no_identifiers)
    as (ids1 & Hrun & Hsm & Hiss & Hct & Hpk).
  rewrite Hbefore in Hrun. injection Hrun as <-.
  exists ids. rewrite Hpanic. split; [reflexivity |].
  rewrite Hsm, Hiss, Hct. cbn.
  split; [set_solver |]. split; [set_solver |]. split; [set_solver |].
  split; [| reflexivity].
  intros issuer. rewrite Hpk. cbn. rewrite lookup_empty.
  destruct (counters_of IssuerIdentifier issuer before); reflexivity.
Qed.

(** X4.  The first call of [DisclosureRequest.Identifiers] returns and stores the
    credential types, issuers and scheme managers of the attributes of all
    disjunctions, with no public keys; the set does not depend on the order
    of the attributes or on how they are grouped into disjunctions. *)
Theorem DisclosureRequest_Identifiers_fresh :
  (forall dr : Irma.DisclosureRequest,
      let types := disjunction_types CredentialTypeIdentifier
                     (DisclosureRequest_ToDisclose dr) in
      DisclosureRequest_Identifiers IssuerIdentifier SchemeManagerIdentifier
        CredentialTypeIdentifier dr None
      = (mkIrmaIdentifierSet
           (list_to_set (map (scheme_manager_of IssuerIdentifier SchemeManagerIdentifier)
                           types))
           (list_to_set (map IssuerIdentifier types))
           (list_to_set types) ∅,
         Some (mkIrmaIdentifierSet
           (list_to_set (map (scheme_manager_of IssuerIdentifier SchemeManagerIdentifier)
                           types))
           (list_to_set (map IssuerIdentifier types))
           (list_to_set types) ∅)))
  /\ (forall dr dr' : Irma.DisclosureRequest,
        flat_map Irma.DisjunctionAttributes (Irma.Content dr)
          ≡ₚ flat_map Irma.DisjunctionAttributes (Irma.Content dr') ->
        DisclosureRequest_Identifiers IssuerIdentifier SchemeManagerIdentifier
          CredentialTypeIdentifier dr None
        = DisclosureRequest_Identifiers IssuerIdentifier SchemeManagerIdentifier
            CredentialTypeIdentifier dr' None).
Proof using IssuerIdentifier SchemeManagerIdentifier CredentialTypeIdentifier.
  assert (Hrun : forall dr : Irma.DisclosureRequest,
      let types := disjunction_types CredentialTypeIdentifier
                     (DisclosureRequest_ToDisclose dr) in
      DisclosureRequest_Identifiers IssuerIdentifier SchemeManagerIdentifier
        CredentialTypeIdentifier dr None
      = (mkIrmaIdentifierSet
           (list_to_set (map (scheme_manager_of IssuerIdentifier SchemeManagerIdentifier)
                           types))
           (list_to_set (map IssuerIdentifier types))
           (list_to_set types) ∅,
         Some (mkIrmaIdentifierSet
           (list_to_set (map (scheme_manager_of IssuerIdentifier SchemeManagerIdentifier)
                           types))
           (list_to_set (map IssuerIdentifier types))
           (list_to_set types) ∅))).
  { intros dr types. unfold DisclosureRequest_Identifiers.
    rewrite add_disjunctions_run. cbn. subst types.
    unfold DisclosureRequest_ToDisclose.
    rewrite !(right_id_L ∅ (∪)). reflexivity. }
  split; [exact Hrun |].
  intros dr dr' Hperm. rewrite !Hrun. cbv zeta.
  unfold disjunction_types, DisclosureRequest_ToDisclose.
  assert (Hset : forall (f : string -> string),
             (list_to_set (map f (flat_map Irma.DisjunctionAttributes (Irma.Content dr)))
                : gset string)
             = list_to_set (map f (flat_map Irma.DisjunctionAttributes (Irma.Content dr')))).
  { intros f. apply list_to_set_perm_L. rewrite Hperm. reflexivity. }
  rewrite !map_map.
  rewrite (Hset CredentialTypeIdentifier).
  rewrite (Hset (fun x => scheme_manager_of IssuerIdentifier SchemeManagerIdentifier
                            (CredentialTypeIdentifier x))).
  rewrite (Hset (fun x => IssuerIdentifier (CredentialTypeIdentifier x))).
  reflexivity.
Qed.

End WithIdentifiers.

Import RequestExamples.

Lemma IssuanceRequest_Identifiers_fresh_witness :
  exists ids,
    IssuanceRequest_Identifiers parent parent parent names_credential issuance_example None
    = (Returns ids, Some ids)
    /\ CredentialTypes ids
       = list_to_set (["irma-demo.RU.studentCard"; "irma-demo.MijnOverheid.ageLimits";
                       "irma-demo.RU.guestCard"] ++ ["test.test.email"])
    /\ Issuers ids
       = list_to_set (map parent
           (["irma-demo.RU.studentCard"; "irma-demo.MijnOverheid.ageLimits";
             "irma-demo.RU.guestCard"] ++ ["test.test.email"]))
    /\ SchemeManagers ids
       = list_to_set (map (scheme_manager_of parent parent)
           (["irma-demo.RU.studentCard"; "irma-demo.MijnOverheid.ageLimits";
             "irma-demo.RU.guestCard"] ++ ["test.test.email"]))
    /\ forall issuer,
         PublicKeys ids !! issuer
         = match counters_of parent issuer (Credentials issuance_example) with
           | [] => None
           | counter :: counters => Some (counter :: counters)
           end.
Proof.
  apply (IssuanceRequest_Identifiers_fresh parent parent parent names_credential
           issuance_example).
  repeat constructor; eexists; reflexivity.
Defined.

Example issuance_example_public_keys :
  forall ids,
    fst (IssuanceRequest_Identifiers parent parent parent names_credential
           issuance_example None) = Returns ids ->
    PublicKeys ids !! "irma-demo.RU" = Some [2; 3]
    /\ PublicKeys ids !! "irma-demo.MijnOverheid" = Some [0]
    /\ PublicKeys ids !! "test.test" = None.
Proof. intros ids H. vm_compute in H. injection H as <-. vm_compute. auto. Qed.

Lemma Identifiers_computed_once_witness :
  exists ids,
    Some (mkIrmaIdentifierSet {[ "irma-demo" ]} {[ "irma-demo.RU" ]}
            {[ "irma-demo.RU.studentCard" ]} ∅) = Some ids
    /\ (forall x,
          Returns (mkIrmaIdentifierSet {[ "irma-demo" ]} {[ "irma-demo.RU" ]}
                     {[ "irma-demo.RU.studentCard" ]} ∅) = Returns x -> x = ids)
    /\ forall ir',
         IssuanceRequest_Identifiers parent parent parent names_credential ir'
           (Some (mkIrmaIdentifierSet {[ "irma-demo" ]} {[ "irma-demo.RU" ]}
                    {[ "irma-demo.RU.studentCard" ]} ∅))
         = (Returns ids,
            Some (mkIrmaIdentifierSet {[ "irma-demo" ]} {[ "irma-demo.RU" ]}
                    {[ "irma-demo.RU.studentCard" ]} ∅)).
Proof.
  apply (proj1 (Identifiers_computed_once parent parent parent names_credential)
           issuance_example
           (Some (mkIrmaIdentifierSet {[ "irma-demo" ]} {[ "irma-demo.RU" ]}
                    {[ "irma-demo.RU.studentCard" ]} ∅))).
  reflexivity.
Defined.

Lemma Identifiers_panic_leaves_partial_set_witness :
  exists ids,
    IssuanceRequest_Identifiers parent parent parent names_credential untyped_example None
    = (Panics Irma.nil_dereference, Some ids)
    /\ CredentialTypes ids = list_to_set ["irma-demo.RU.studentCard"]
    /\ Issuers ids = list_to_set (map parent ["irma-demo.RU.studentCard"])
    /\ SchemeManagers ids
       = list_to_set (map (scheme_manager_of parent parent) ["irma-demo.RU.studentCard"])
    /\ (forall issuer,
          PublicKeys ids !! issuer
          = match counters_of parent issuer
                    [Irma.mkCredentialRequest None 2 (Some "irma-demo.RU.studentCard") ∅] with
            | [] => None
            | counter :: counters => Some (counter :: counters)
            end)
    /\ IssuanceRequest_Identifiers parent parent parent names_credential untyped_example
         (Some ids)
       = (Returns ids, Some ids).
Proof.
  apply (Identifiers_panic_leaves_partial_set parent parent parent names_credential
           untyped_example
           [Irma.mkCredentialRequest None 2 (Some "irma-demo.RU.studentCard") ∅]
           [Irma.mkCredentialRequest None 3 (Some "irma-demo.RU.guestCard") ∅]
           (Irma.mkCredentialRequest None 0 None ∅)).
  - reflexivity.
  - repeat constructor. eexists. reflexivity.
  - reflexivity.
Defined.

Lemma DisclosureRequest_Identifiers_fresh_witness :
  DisclosureRequest_Identifiers parent parent parent disclosure_example None
  = DisclosureRequest_Identifiers parent parent parent
      (Irma.mkDisclosureRequest (Irma.mkSessionRequest None None)
         [ Irma.mkDisjunction ["irma-demo.RU.studentCard.level";
                               "irma-demo.MijnOverheid.root.BSN";
                               "irma-demo.RU.studentCard.studentID"] ]) None.
Proof.
  apply (proj2 (DisclosureRequest_Identifiers_fresh parent parent parent)).
  cbn.
  etransitivity; [apply Permutation_swap |].
  etransitivity; [apply perm_skip, Permutation_swap |].
  apply Permutation_swap.
Defined.

End RequestIdentifiersFacts.

(** ** Attribute values, nonces and timestamps *)

Module EncodingFacts.
Import Irma Encoding.

(** *** SHA-256 digests are 32 bytes *)

Lemma round_length (st : list Z) (kw : Z * Z) :
  length (Sha256.round st kw) = length st.
Proof.
  unfold Sha256.round.
  destruct st as [| a [| b [| c [| d [| e [| f [| g [| h [| x st]]]]]]]]]; reflexivity.
Qed.

Lemma rounds_length (kws : list (Z * Z)) :
  forall st, length (fold_left Sha256.round kws st) = length st.
Proof.
  induction kws as [| kw kws IH]; intros st; [reflexivity |].
  cbn [fold_left]. rewrite IH. apply round_length.
Qed.

Lemma compress_length (h block : list Z) :
  length (Sha256.compress h block) = length h.
Proof.
  unfold Sha256.compress. rewrite length_map, length_combine, rounds_length.
  apply Nat.min_id.
Qed.

Lemma blocks_length (fuel : nat) :
  forall h data, length (Sha256.blocks fuel h data) = length h.
Proof.
  induction fuel as [| fuel IH]; intros h data; [reflexivity |].
  cbn [Sha256.blocks]. destruct data; [reflexivity |].
  rewrite IH. apply compress_length.
Qed.

Lemma word_bytes_flat (ws : list Z) :
  length (flat_map Sha256.word_bytes ws) = (4 * length ws)%nat
  /\ bytes (flat_map Sha256.word_bytes ws).
Proof.
  induction ws as [| w ws [IHl IHb]]; [split; [reflexivity | constructor] |].
  cbn [flat_map]. split.
  - rewrite length_app, IHl. cbn [length Sha256.word_bytes]. lia.
  - apply Forall_app. split; [| exact IHb].
    unfold Sha256.word_bytes. repeat constructor; apply Z.mod_pos_bound; lia.
Qed.

Lemma Sum256_bytes (data : list Z) :
  length (Sha256.Sum256 data) = 32%nat /\ bytes (Sha256.Sum256 data).
Proof.
  unfold Sha256.Sum256. destruct (word_bytes_flat
    (Sha256.blocks (length (Sha256.pad data)) Sha256.H0 (Sha256.pad data))) as [Hl Hb].
  split; [| exact Hb]. rewrite Hl, blocks_length. reflexivity.
Qed.

(** *** Big-endian numbers *)

Lemma SetBytes_snoc (b : list Z) (x : Z) :
  Bytes.SetBytes (b ++ [x]) = Bytes.SetBytes b * 256 + x.
Proof. unfold Bytes.SetBytes. rewrite fold_left_app. reflexivity. Qed.

Lemma SetBytes_range (b : list Z) :
  bytes b -> 0 <= Bytes.SetBytes b < 256 ^ Z.of_nat (length b).
Proof.
  induction b as [| x b IH] using rev_ind; intros Hb.
  - cbn. lia.
  - apply Forall_app in Hb as [Hb Hx]. apply Forall_inv in Hx.
    rewrite SetBytes_snoc, length_app. cbn [length].
    replace (Z.of_nat (length b + 1)) with (Z.of_nat (length b) + 1) by lia.
    rewrite Z.pow_add_r by lia. specialize (IH Hb). lia.
Qed.

Lemma SetBytes_acc (b : list Z) :
  forall acc,
    fold_left (fun acc x => acc * 256 + x) b acc
    = acc * 256 ^ Z.of_nat (length b) + Bytes.SetBytes b.
Proof.
  unfold Bytes.SetBytes. induction b as [| x b IH]; intros acc.
  - cbn. lia.
  - cbn [fold_left length]. rewrite IH, (IH (0 * 256 + x)).
    rewrite Nat2Z.inj_succ, Z.pow_succ_r by lia. lia.
Qed.

Lemma SetBytes_cons (x : Z) (b : list Z) :
  Bytes.SetBytes (x :: b) = x * 256 ^ Z.of_nat (length b) + Bytes.SetBytes b.
Proof.
  unfold Bytes.SetBytes at 1. cbn [fold_left]. rewrite SetBytes_acc. lia.
Qed.

(** Slices of the same length that hold the same number are equal. *)
Lemma SetBytes_inj_length (b1 : list Z) :
  forall b2, bytes b1 -> bytes b2 -> length b1 = length b2 ->
    Bytes.SetBytes b1 = Bytes.SetBytes b2 -> b1 = b2.
Proof.
  induction b1 as [| x1 b1 IH]; intros [| x2 b2] H1 H2 Hlen Heq;
    try discriminate Hlen; [reflexivity |].
  injection Hlen as Hlen.
  apply Forall_cons in H1 as [Hx1 H1]. apply Forall_cons in H2 as [Hx2 H2].
  rewrite !SetBytes_cons, Hlen in Heq.
  pose proof (SetBytes_range b1 H1) as R1. pose proof (SetBytes_range b2 H2) as R2.
  rewrite Hlen in R1. set (p := 256 ^ Z.of_nat (length b2)) in *.
  assert (Hx : x1 = x2) by nia.
  subst x2. f_equal. apply IH; [assumption | assumption | exact Hlen | lia].
Qed.

(** A slice that does not start with a zero byte holds a number of exactly
    its length. *)
Lemma SetBytes_lower (x : Z) (b : list Z) :
  bytes (x :: b) -> x <> 0 -> 256 ^ Z.of_nat (length b) <= Bytes.SetBytes (x :: b).
Proof.
  intros Hb Hx. apply Forall_cons in Hb as [Hx' Hb].
  rewrite SetBytes_cons. pose proof (SetBytes_range b Hb).
  assert (0 < 256 ^ Z.of_nat (length b)) by (apply Z.pow_pos_nonneg; lia). nia.
Qed.

Lemma SetBytes_inj (b1 b2 : list Z) :
  bytes b1 -> bytes b2 -> head b1 <> Some 0 -> head b2 <> Some 0 ->
  Bytes.SetBytes b1 = Bytes.SetBytes b2 -> b1 = b2.
Proof.
  intros H1 H2 N1 N2 Heq.
  apply SetBytes_inj_length; try assumption.
  pose proof (SetBytes_range b1 H1) as R1. pose proof (SetBytes_range b2 H2) as R2.
  destruct b1 as [| x1 b1], b2 as [| x2 b2]; [reflexivity | | |].
  - pose proof (SetBytes_lower x2 b2 H2 ltac:(cbn in N2; congruence)) as L2.
    assert (0 < 256 ^ Z.of_nat (length b2)) by (apply Z.pow_pos_nonneg; lia).
    cbn in Heq, R1. cbn in *. lia.
  - pose proof (SetBytes_lower x1 b1 H1 ltac:(cbn in N1; congruence)) as L1.
    assert (0 < 256 ^ Z.of_nat (length b1)) by (apply Z.pow_pos_nonneg; lia).
    cbn in Heq, R2. cbn in *. lia.
  - pose proof (SetBytes_lower x1 b1 H1 ltac:(cbn in N1; congruence)) as L1.
    pose proof (SetBytes_lower x2 b2 H2 ltac:(cbn in N2; congruence)) as L2.
    cbn [length] in *. f_equal.
    destruct (Nat.lt_trichotomy (length b1) (length b2)) as [Hlt | [Heq' | Hgt]];
      [| exact Heq' |].
    + exfalso. rewrite Nat2Z.inj_succ in R1.
      assert (256 ^ Z.succ (Z.of_nat (length b1)) <= 256 ^ Z.of_nat (length b2))
        by (apply Z.pow_le_mono_r; lia). lia.
    + exfalso. rewrite Nat2Z.inj_succ in R2.
      assert (256 ^ Z.succ (Z.of_nat (length b2)) <= 256 ^ Z.of_nat (length b1))
        by (apply Z.pow_le_mono_r; lia). lia.
Qed.

Lemma of_string_bytes (s : string) : bytes (Bytes.of_string s).
Proof.
  induction s as [| c s IH]; [constructor |].
  cbn [Bytes.of_string]. constructor; [| exact IH].
  destruct c as [[] [] [] [] [] [] [] []]; cbn; lia.
Qed.

Lemma of_string_length (s : string) : length (Bytes.of_string s) = String.length s.
Proof. induction s as [| c s IH]; [reflexivity |]. cbn. rewrite IH. reflexivity. Qed.

Lemma of_string_inj (s1 : string) :
  forall s2, Bytes.of_string s1 = Bytes.of_string s2 -> s1 = s2.
Proof.
  induction s1 as [| c1 s1 IH]; intros [| c2 s2] Heq; try discriminate Heq;
    [reflexivity |].
  cbn [Bytes.of_string] in Heq. injection Heq as Hc Hs.
  f_equal; [| apply IH; exact Hs].
  apply Nat2Z.inj in Hc || apply N2Z.inj in Hc.
  rewrite <- (ascii_N_embedding c1), <- (ascii_N_embedding c2), Hc. reflexivity.
Qed.

Lemma of_string_head (s : string) :
  leading_nul s = false -> head (Bytes.of_string s) <> Some 0.
Proof.
  destruct s as [| c s]; [discriminate |].
  cbn [leading_nul Bytes.of_string head]. intros Hc Heq. injection Heq as Heq.
  apply Ascii.eqb_neq in Hc. apply Hc.
  rewrite <- (ascii_N_embedding c). change 0 with (Z.of_N 0) in Heq.
  apply N2Z.inj in Heq. rewrite Heq. reflexivity.
Qed.

Lemma encoding_inj (s1 s2 : string) :
  leading_nul s1 = false -> leading_nul s2 = false ->
  Bytes.SetBytes (Bytes.of_string s1) = Bytes.SetBytes (Bytes.of_string s2) ->
  s1 = s2.
Proof.
  intros N1 N2 Heq. apply of_string_inj.
  apply SetBytes_inj; auto using of_string_bytes, of_string_head.
Qed.

Lemma encoding_leading_nul (s : string) :
  Bytes.SetBytes (Bytes.of_string (String zero s)) = Bytes.SetBytes (Bytes.of_string s).
Proof. cbn [Bytes.of_string]. rewrite SetBytes_cons. cbn. lia. Qed.

Lemma all_given_lookup (given : gmap string string) (declared : list AttributeDescription)
    (attrtype : AttributeDescription) :
  all_given given declared = true -> In attrtype declared ->
  is_Some (given !! ID attrtype).
Proof.
  unfold all_given. intros Hall Hin.
  rewrite forallb_forall in Hall. specialize (Hall attrtype Hin).
  apply bool_decide_eq_true_1 in Hall. exact Hall.
Qed.

Lemma forallb_pointwise {A} (f g : A -> bool) (l : list A) :
  (forall x, f x = g x) -> forallb f l = forallb g l.
Proof.
  intros H. induction l as [| x l IH]; [reflexivity |]. cbn. rewrite H, IH. reflexivity.
Qed.

Lemma lookup_map {A B} (f : A -> B) (l : list A) :
  forall i, map f l !! i = option_map f (l !! i).
Proof.
  induction l as [| x l IH]; intros [| i]; cbn; auto.
Qed.

Section WithMetadata.

Variable metadataInt : Z -> string -> option Timestamp -> result goerror Z.

(** What a successful [AttributeList] has gone through. *)
Lemma AttributeList_accepted (cr : CredentialRequest) (conf : Configuration)
    (l : AttributeList) (id : string) (credtype : CredentialType) :
  CredentialRequest_AttributeList metadataInt cr conf = Returns (Ok l) ->
  CredentialTypeID cr = Some id -> CredentialTypes conf !! id = Some credtype ->
  exists meta,
    all_given (Attributes cr) (CredentialAttributes credtype) = true
    /\ Ints l = Some meta :: map (attribute_int (Attributes cr))
                               (CredentialAttributes credtype).
Proof.
  intros Hrun Hid Htype.
  rewrite AttributeListFacts.AttributeList_run, Hid in Hrun.
  destruct (metadataInt (KeyCounter cr) id (Validity cr)) as [meta | e]; [| discriminate].
  rewrite Htype in Hrun.
  destruct (negb (length (CredentialAttributes credtype) =? size (Attributes cr))%nat);
    [discriminate |].
  destruct (all_given (Attributes cr) (CredentialAttributes credtype)); [| discriminate].
  injection Hrun as <-. exists meta. split; reflexivity.
Qed.

(** X5.  [AttributeList] tells the values of an attribute apart, up to leading
    NUL bytes.  Two requests for the same credential type that it accepts,
    and whose values for a declared attribute differ and do not start with
    a NUL byte, get different integer lists.  A request in which a value is
    replaced by the same value behind a NUL byte gets the same result, error
    or list.  In an accepted request every declared attribute has a value,
    and the integer at position [i+1] is that value read as big-endian
    bytes, below [256 ^ len(str)]. *)
Theorem attribute_encoding_injective :
  (forall (cr1 cr2 : CredentialRequest) (conf : Configuration) (l1 l2 : AttributeList)
          (id : string) (credtype : CredentialType) (attrtype : AttributeDescription)
          (str1 str2 : string),
      CredentialRequest_AttributeList metadataInt cr1 conf = Returns (Ok l1) ->
      CredentialRequest_AttributeList metadataInt cr2 conf = Returns (Ok l2) ->
      CredentialTypeID cr1 = Some id -> CredentialTypeID cr2 = Some id ->
      CredentialTypes conf !! id = Some credtype ->
      In attrtype (CredentialAttributes credtype) ->
      Attributes cr1 !! ID attrtype = Some str1 ->
      Attributes cr2 !! ID attrtype = Some str2 ->
      leading_nul str1 = false -> leading_nul str2 = false ->
      str1 <> str2 ->
      Ints l1 <> Ints l2)
  /\ (forall (cr : CredentialRequest) (conf : Configuration) (k str : string),
        Attributes cr !! k = Some str ->
        CredentialRequest_AttributeList metadataInt
          (with_attribute cr k (String zero str)) conf
        = CredentialRequest_AttributeList metadataInt cr conf)
  /\ (forall (cr : CredentialRequest) (conf : Configuration) (l : AttributeList)
             (id : string) (credtype : CredentialType) (i : nat)
             (attrtype : AttributeDescription),
        CredentialRequest_AttributeList metadataInt cr conf = Returns (Ok l) ->
        CredentialTypeID cr = Some id -> CredentialTypes conf !! id = Some credtype ->
        CredentialAttributes credtype !! i = Some attrtype ->
        exists str,
          Attributes cr !! ID attrtype = Some str
          /\ Ints l !! S i = Some (Some (Bytes.SetBytes (Bytes.of_string str)))
          /\ 0 <= Bytes.SetBytes (Bytes.of_string str)
               < 256 ^ Z.of_nat (String.length str)).
Proof.
  split; [| split].
  - intros cr1 cr2 conf l1 l2 id credtype attrtype str1 str2
      Hrun1 Hrun2 Hid1 Hid2 Htype Hin Hs1 Hs2 N1 N2 Hne Heq.
    destruct (AttributeList_accepted cr1 conf l1 id credtype Hrun1 Hid1 Htype)
      as (meta1 & _ & Hl1).
    destruct (AttributeList_accepted cr2 conf l2 id credtype Hrun2 Hid2 Htype)
      as (meta2 & _ & Hl2).
    rewrite Hl1, Hl2 in Heq. injection Heq as _ Hmap.
    rewrite List.map_ext_in_iff in Hmap. specialize (Hmap attrtype Hin).
    unfold attribute_int in Hmap. rewrite Hs1, Hs2 in Hmap. cbn [from_option Datatypes.id] in Hmap.
    injection Hmap as Hmap. apply Hne. apply encoding_inj; assumption.
  - intros cr conf k str Hk.
    rewrite !AttributeListFacts.AttributeList_run. unfold with_attribute.
    cbn [CredentialTypeID KeyCounter Validity Attributes].
    destruct (CredentialTypeID cr) as [id |]; [| reflexivity].
    destruct (metadataInt (KeyCounter cr) id (Validity cr)) as [meta | e]; [| reflexivity].
    destruct (CredentialTypes conf !! id) as [credtype |]; [| reflexivity].
    rewrite (map_size_insert_Some k (String zero str) (Attributes cr)) by (rewrite Hk; eauto).
    destruct (negb (length (CredentialAttributes credtype) =? size (Attributes cr))%nat);
      [reflexivity |].
    assert (Hgiven : all_given (<[ k := String zero str ]> (Attributes cr))
                       (CredentialAttributes credtype)
                     = all_given (Attributes cr) (CredentialAttributes credtype)).
    { unfold all_given. apply forallb_pointwise. intros attrtype.
      destruct (decide (k = ID attrtype)) as [-> | Hne].
      - rewrite lookup_insert_eq, Hk. reflexivity.
      - rewrite lookup_insert_ne by exact Hne. reflexivity. }
    rewrite Hgiven.
    destruct (all_given (Attributes cr) (CredentialAttributes credtype)); [| reflexivity].
    do 4 f_equal. apply map_ext. intros attrtype. unfold attribute_int.
    destruct (decide (k = ID attrtype)) as [-> | Hne].
    + rewrite lookup_insert_eq, Hk. cbn [from_option Datatypes.id].
      rewrite encoding_leading_nul. reflexivity.
    + rewrite lookup_insert_ne by exact Hne. reflexivity.
  - intros cr conf l id credtype i attrtype Hrun Hid Htype Hi.
    destruct (AttributeList_accepted cr conf l id credtype Hrun Hid Htype)
      as (meta & Hgiven & Hl).
    assert (Hin : In attrtype (CredentialAttributes credtype)).
    { apply list_elem_of_In. eapply list_elem_of_lookup_2. exact Hi. }
    destruct (all_given_lookup _ _ _ Hgiven Hin) as [str Hstr].
    exists str. split; [exact Hstr |]. split.
    + rewrite Hl. cbn [lookup list_lookup]. 
      change (map (attribute_int (Attributes cr)) (CredentialAttributes credtype) !! i
              = Some (Some (Bytes.SetBytes (Bytes.of_string str)))).
      rewrite lookup_map, Hi. cbn [option_map]. unfold attribute_int.
      rewrite Hstr. reflexivity.
    + pose proof (SetBytes_range _ (of_string_bytes str)) as R.
      rewrite of_string_length in R. exact R.
Qed.

End WithMetadata.

Lemma attribute_encoding_injective_witness :
  Ints (mkAttributeList [Some 1; Some 21077; Some 3421494])
  <> Ints (mkAttributeList [Some 1; Some 21077; Some 3421495]).
Proof.
  apply (proj1 (attribute_encoding_injective Examples.constant_metadata)
           Examples.student_request
           (with_attribute Examples.student_request "studentID" "457")
           Examples.demo_configuration
           (mkAttributeList [Some 1; Some 21077; Some 3421494])
           (mkAttributeList [Some 1; Some 21077; Some 3421495])
           Examples.studentCard
           (mkCredentialType
              [mkAttributeDescription "university"; mkAttributeDescription "studentID"])
           (mkAttributeDescription "studentID") "456" "457").
  - vm_compute. reflexivity.
  - vm_compute. reflexivity.
  - reflexivity.
  - reflexivity.
  - vm_compute. reflexivity.
  - right. left. reflexivity.
  - vm_compute. reflexivity.
  - vm_compute. reflexivity.
  - reflexivity.
  - reflexivity.
  - discriminate.
Defined.

(** A value and the same value after a NUL byte give the same credential. *)
Example leading_nul_is_lost :
  CredentialRequest_AttributeList Examples.constant_metadata
    (with_attribute Examples.student_request "studentID" (String zero "456"))
    Examples.demo_configuration
  = Returns (Ok (mkAttributeList [Some 1; Some 21077; Some 3421494])).
Proof. vm_compute. reflexivity. Qed.

(** *** The nonce of a signature request *)

(** X6.  The nonce of a signature request is a natural number below [2 ^ 256]. *)
Theorem GetNonce_range (sr : SignatureRequest) : 0 <= GetNonce sr < 2 ^ 256.
Proof.
  unfold GetNonce.
  match goal with |- context [Bytes.SetBytes (Sha256.Sum256 ?d)] =>
    destruct (Sum256_bytes d) as [Hl Hb];
    pose proof (SetBytes_range _ Hb) as R; rewrite Hl in R
  end.
  change (256 ^ Z.of_nat 32) with (2 ^ 256) in R. exact R.
Qed.

(** X7.  For a signature request without a nonce (a nil [*big.Int]),
    [asn1.Marshal] fails, the error is only logged, and [GetNonce] returns
    the SHA-256 hash of the empty byte sequence, whatever the message. *)
Theorem GetNonce_without_nonce (sr : SignatureRequest) :
  Nonce (DisclosureBase (SignatureBase sr)) = None ->
  GetNonce sr = Bytes.SetBytes (Sha256.Sum256 [])
  /\ GetNonce sr
     = 102987336249554097029535212322581322789799900648198034993379397001115665086549.
Proof.
  intros Hnone.
  assert (H : GetNonce sr = Bytes.SetBytes (Sha256.Sum256 [])).
  { unfold GetNonce. rewrite Hnone.
    set (h := Bytes.SetBytes (Sha256.Sum256 (Bytes.of_string (Message sr)))).
    reflexivity. }
  split; [exact H |]. rewrite H. vm_compute. reflexivity.
Qed.

Lemma GetNonce_without_nonce_witness :
  GetNonce (mkSignatureRequest (mkDisclosureRequest (mkSessionRequest None None) [])
              "I owe you everything" "STRING")
  = Bytes.SetBytes (Sha256.Sum256 []).
Proof.
  refine (proj1 (GetNonce_without_nonce
                   (mkSignatureRequest (mkDisclosureRequest (mkSessionRequest None None) [])
                      "I owe you everything" "STRING") _)).
  reflexivity.
Defined.

(** *** Timestamps in JSON *)

(** A text that has a byte which is not a digit is not read as a number. *)
Lemma parse_uint_not_digits (s : string) :
  forall acc, all_digits s = false -> exists kind, Strconv.parse_uint acc s = Errored kind.
Proof.
  induction s as [| c s IH]; intros acc H; [discriminate |].
  cbn [all_digits Strconv.parse_uint] in *.
  destruct (Strconv.is_digit c); cbn [negb andb] in *; [| eauto].
  destruct (Strconv.cutoff10 <=? acc); [eauto |].
  destruct (Strconv.maxUint64 <? acc * 10 + Strconv.digit_val c); [eauto |].
  apply IH. exact H.
Qed.

(** Digits are read as a number of [uint64], or leave it. *)
Lemma parse_uint_digits (s : string) :
  forall acc, 0 <= acc <= Strconv.maxUint64 -> all_digits s = true ->
    (exists n, Strconv.parse_uint acc s = Ok n /\ acc <= n <= Strconv.maxUint64
               /\ n < (acc + 1) * 10 ^ Z.of_nat (String.length s))
    \/ (Strconv.parse_uint acc s = Errored Strconv.ErrRange
        /\ Strconv.maxUint64 < (acc + 1) * 10 ^ Z.of_nat (String.length s)).
Proof.
  unfold Strconv.maxUint64. change (2 ^ 64 - 1) with 18446744073709551615.
  induction s as [| c s IH]; intros acc Hacc H.
  - cbn. left. exists acc. repeat split; lia.
  - cbn [all_digits Strconv.parse_uint String.length] in *.
    destruct (Strconv.is_digit c) eqn:Hc; [| discriminate]. cbn [negb andb] in *.
    pose proof (StrconvFacts.digit_val_range c Hc) as Hd.
    rewrite Nat2Z.inj_succ, Z.pow_succ_r by lia.
    assert (Hpow : 0 < 10 ^ Z.of_nat (String.length s))
      by (apply Z.pow_pos_nonneg; lia).
    unfold Strconv.cutoff10, Strconv.maxUint64.
    change (2 ^ 64 - 1) with 18446744073709551615.
    change (18446744073709551615 / 10 + 1) with 1844674407370955162.
    destruct (1844674407370955162 <=? acc) eqn:Hcut.
    { apply Z.leb_le in Hcut. right. split; [reflexivity | nia]. }
    apply Z.leb_gt in Hcut.
    destruct (18446744073709551615 <? acc * 10 + Strconv.digit_val c) eqn:Hmax.
    { apply Z.ltb_lt in Hmax. right. split; [reflexivity | nia]. }
    apply Z.ltb_ge in Hmax.
    destruct (IH (acc * 10 + Strconv.digit_val c) ltac:(lia) H)
      as [(n & Hn & Hr & Hb) | [Hn Hb]].
    + left. exists n. split; [exact Hn |]. split; [lia | nia].
    + right. split; [exact Hn | nia].
Qed.

(** Up to 19 bytes cannot leave [uint64]: the first byte that is not a
    digit is reached. *)
Lemma parse_uint_short (s : string) :
  forall acc, 0 <= acc ->
    (acc + 1) * 10 ^ Z.of_nat (String.length s) <= 10 ^ 19 ->
    all_digits s = false ->
    Strconv.parse_uint acc s = Errored Strconv.ErrSyntax.
Proof.
  change (10 ^ 19) with 10000000000000000000.
  induction s as [| c s IH]; intros acc Hacc Hb H; [discriminate |].
  cbn [all_digits Strconv.parse_uint String.length] in *.
  destruct (Strconv.is_digit c) eqn:Hc; cbn [negb andb] in *; [| reflexivity].
  pose proof (StrconvFacts.digit_val_range c Hc) as Hd.
  rewrite Nat2Z.inj_succ, Z.pow_succ_r in Hb by lia.
  assert (Hpow : 1 <= 10 ^ Z.of_nat (String.length s))
    by (pose proof (Z.pow_pos_nonneg 10 (Z.of_nat (String.length s))); lia).
  unfold Strconv.cutoff10, Strconv.maxUint64.
  change (2 ^ 64 - 1) with 18446744073709551615.
  change (18446744073709551615 / 10 + 1) with 1844674407370955162.
  destruct (1844674407370955162 <=? acc) eqn:Hcut; [apply Z.leb_le in Hcut; nia |].
  destruct (18446744073709551615 <? acc * 10 + Strconv.digit_val c) eqn:Hmax;
    [apply Z.ltb_lt in Hmax; nia |].
  apply IH; [lia | nia | exact H].
Qed.

Lemma ParseInt_unsigned (s : string) (bitSize : Z) :
  Strconv.ParseInt s bitSize =
  match unsigned_part s with
  | EmptyString => Errored (Strconv.mkNumError s Strconv.ErrSyntax)
  | String _ _ =>
      match Strconv.parse_uint 0 (unsigned_part s) with
      | Errored Strconv.ErrSyntax => Errored (Strconv.mkNumError s Strconv.ErrSyntax)
      | parsed =>
          let un := match parsed with Ok un => un | Errored _ => Strconv.maxUint64 end in
          let neg := String.prefix "-" s in
          let cutoff := 2 ^ (bitSize - 1) in
          if negb neg && (cutoff <=? un) then Errored (Strconv.mkNumError s Strconv.ErrRange)
          else if neg && (cutoff <? un) then Errored (Strconv.mkNumError s Strconv.ErrRange)
          else Ok (if neg then - un else un)
      end
  end.
Proof.
  destruct s as [| c rest]; [reflexivity |].
  unfold Strconv.ParseInt, unsigned_part.
  replace (String.prefix "-" (String c rest)) with (Ascii.eqb c "-").
  2:{ cbn [String.prefix]. destruct (ascii_dec "-" c) as [<- | Hne].
      - destruct rest; reflexivity.
      - rewrite Ascii.eqb_sym. apply Ascii.eqb_neq in Hne. exact Hne. }
  destruct (Ascii.eqb c "-" || Ascii.eqb c "+"); reflexivity.
Qed.

Lemma ParseInt_signed (s : string) (bitSize : Z) :
  unsigned_part s <> "" ->
  Strconv.ParseInt s bitSize =
  match Strconv.parse_uint 0 (unsigned_part s) with
  | Errored Strconv.ErrSyntax => Errored (Strconv.mkNumError s Strconv.ErrSyntax)
  | parsed =>
      let un := match parsed with Ok un => un | Errored _ => Strconv.maxUint64 end in
      let neg := String.prefix "-" s in
      let cutoff := 2 ^ (bitSize - 1) in
      if negb neg && (cutoff <=? un) then Errored (Strconv.mkNumError s Strconv.ErrRange)
      else if neg && (cutoff <? un) then Errored (Strconv.mkNumError s Strconv.ErrRange)
      else Ok (if neg then - un else un)
  end.
Proof.
  intros Hne. rewrite ParseInt_unsigned.
  destruct (unsigned_part s); [congruence | reflexivity].
Qed.

Lemma unsigned_part_empty (s : string) : String.eqb (unsigned_part s) "" = false ->
  unsigned_part s <> "".
Proof. intros H Heq. rewrite Heq in H. discriminate. Qed.

(** [Atoi] on a text with digits after the optional sign. *)
Lemma Atoi_digits (b : string) :
  decimal b = true ->
  (exists un, 0 <= un
      /\ un < 10 ^ Z.of_nat (String.length (unsigned_part b))
      /\ Strconv.Atoi b
         = if String.prefix "-" b
           then (if 2 ^ 63 <? un then Errored (Strconv.mkNumError b Strconv.ErrRange)
                 else Ok (- un))
           else (if 2 ^ 63 <=? un then Errored (Strconv.mkNumError b Strconv.ErrRange)
                 else Ok un))
  \/ (Strconv.Atoi b = Errored (Strconv.mkNumError b Strconv.ErrRange)
      /\ 2 ^ 64 <= 10 ^ Z.of_nat (String.length (unsigned_part b))).
Proof.
  unfold decimal, Strconv.Atoi, Strconv.intSize. intros Hdec.
  apply andb_true_iff in Hdec as [Hall Hne]. apply negb_true_iff in Hne.
  rewrite (ParseInt_signed b 64 (unsigned_part_empty b Hne)).
  change (2 ^ (64 - 1)) with (2 ^ 63).
  destruct (parse_uint_digits _ 0 ltac:(unfold Strconv.maxUint64; lia) Hall)
    as [(un & Hun & Hr & Hb) | [Hun Hb]].
  - left. exists un. rewrite Hun. cbv zeta.
    split; [lia |]. split; [lia |].
    destruct (String.prefix "-" b); reflexivity.
  - right. rewrite Hun. cbv zeta. unfold Strconv.maxUint64 in *.
    split; [destruct (String.prefix "-" b); reflexivity | lia].
Qed.

(** [Atoi] on any other text. *)
Lemma Atoi_not_digits (b : string) :
  decimal b = false ->
  exists kind,
    Strconv.Atoi b = Errored (Strconv.mkNumError b kind)
    /\ ((String.length (unsigned_part b) <= 19)%nat -> kind = Strconv.ErrSyntax).
Proof.
  unfold decimal, Strconv.Atoi, Strconv.intSize. intros Hdec.
  destruct (String.eqb (unsigned_part b) "") eqn:Hne.
  { apply String.eqb_eq in Hne. rewrite ParseInt_unsigned, Hne. eauto. }
  rewrite (ParseInt_signed b 64 (unsigned_part_empty b Hne)).
  change (2 ^ (64 - 1)) with (2 ^ 63).
  rewrite andb_true_r in Hdec.
  destruct (parse_uint_not_digits _ 0 Hdec) as [kind Hk].
  destruct kind.
  - rewrite Hk. eauto.
  - exists Strconv.ErrRange. split.
    + rewrite Hk. cbv zeta. destruct (String.prefix "-" b); reflexivity.
    + intros Hlen. exfalso.
      rewrite parse_uint_short in Hk; [discriminate | lia | | exact Hdec].
      rewrite Z.mul_1_l. apply Z.pow_le_mono_r; lia.
Qed.

(** X8.  A timestamp that [Timestamp.UnmarshalJSON] produces lies on a whole
    second within the range of [int64], and marshalling it and
    unmarshalling the result gives it back. *)
Theorem Timestamp_unmarshal_canonical (b : string) (t : Timestamp) :
  UnmarshalJSON b = Ok t ->
  GoTime.nsec t = 0
  /\ - 2 ^ 63 <= GoTime.unixSec t < 2 ^ 63
  /\ UnmarshalJSON (MarshalJSON t) = Ok t.
Proof.
  unfold UnmarshalJSON at 1.
  destruct (decimal b) eqn:Hdec.
  2:{ destruct (Atoi_not_digits b Hdec) as (kind & -> & _). discriminate. }
  destruct (Atoi_digits b Hdec) as [(un & Hpos & _ & ->) | [-> _]]; [| discriminate].
  destruct (String.prefix "-" b).
  - destruct (2 ^ 63 <? un) eqn:E; [discriminate |].
    apply Z.ltb_ge in E. intros Heq. injection Heq as <-.
    cbn [GoTime.Unix GoTime.nsec GoTime.unixSec]. cbn [Z.ltb Z.leb orb].
    assert (Hrange : - 2 ^ 63 <= - un < 2 ^ 63) by lia.
    split; [reflexivity |]. split; [exact Hrange |].
    unfold UnmarshalJSON, MarshalJSON, GoTime.Unix_of. cbn [GoTime.unixSec].
    rewrite StrconvFacts.Atoi_FormatInt by exact Hrange. reflexivity.
  - destruct (2 ^ 63 <=? un) eqn:E; [discriminate |].
    apply Z.leb_gt in E. intros Heq. injection Heq as <-.
    assert (Hrange : - 2 ^ 63 <= un < 2 ^ 63) by lia.
    split; [reflexivity |]. split; [exact Hrange |].
    unfold UnmarshalJSON, MarshalJSON, GoTime.Unix_of. cbn [GoTime.unixSec].
    rewrite StrconvFacts.Atoi_FormatInt by exact Hrange. reflexivity.
Qed.

Lemma Timestamp_unmarshal_canonical_witness :
  GoTime.nsec (GoTime.mkTime 1509000000 0) = 0
  /\ - 2 ^ 63 <= GoTime.unixSec (GoTime.mkTime 1509000000 0) < 2 ^ 63
  /\ UnmarshalJSON (MarshalJSON (GoTime.mkTime 1509000000 0))
     = Ok (GoTime.mkTime 1509000000 0).
Proof.
  apply (Timestamp_unmarshal_canonical "+01509000000" (GoTime.mkTime 1509000000 0)).
  vm_compute. reflexivity.
Defined.

(** X9.  [Timestamp.UnmarshalJSON] never returns a timestamp for a text that is
    not an optional sign followed by one or more decimal digits: it returns
    the error of [strconv.Atoi] for the text, which is a syntax error when
    at most 19 bytes follow the sign (with more, the number can leave
    [uint64] before the bad byte is met, and the error is then a range
    error).  For a sign and digits it returns a timestamp or a range error,
    and it returns a timestamp whenever there are at most 18 digits. *)
Theorem Timestamp_unmarshal_accepts (b : string) :
  (decimal b = false ->
   exists kind,
     UnmarshalJSON b = Errored (ENumError (Strconv.mkNumError b kind))
     /\ ((String.length (unsigned_part b) <= 19)%nat -> kind = Strconv.ErrSyntax))
  /\ (decimal b = true ->
      (exists t, UnmarshalJSON b = Ok t)
      \/ UnmarshalJSON b = Errored (ENumError (Strconv.mkNumError b Strconv.ErrRange)))
  /\ (decimal b = true -> (String.length (unsigned_part b) <= 18)%nat ->
      exists t, UnmarshalJSON b = Ok t).
Proof.
  unfold UnmarshalJSON. split; [| split].
  - intros Hdec. destruct (Atoi_not_digits b Hdec) as (kind & -> & Hk). eauto.
  - intros Hdec.
    destruct (Atoi_digits b Hdec) as [(un & _ & _ & ->) | [-> _]]; [| right; reflexivity].
    destruct (String.prefix "-" b).
    + destruct (2 ^ 63 <? un); [right; reflexivity | left; eauto].
    + destruct (2 ^ 63 <=? un); [right; reflexivity | left; eauto].
  - intros Hdec Hlen.
    assert (Hpow : 10 ^ Z.of_nat (String.length (unsigned_part b)) <= 10 ^ 18)
      by (apply Z.pow_le_mono_r; lia).
    change (10 ^ 18) with 1000000000000000000 in Hpow.
    destruct (Atoi_digits b Hdec) as [(un & Hpos & Hb & ->) | [_ Hbig]].
    2:{ change (2 ^ 64) with 18446744073709551616 in Hbig. lia. }
    change (2 ^ 63) with 9223372036854775808.
    destruct (String.prefix "-" b).
    + destruct (9223372036854775808 <? un) eqn:E; [apply Z.ltb_lt in E; lia | eauto].
    + destruct (9223372036854775808 <=? un) eqn:E; [apply Z.leb_le in E; lia | eauto].
Qed.

Lemma Timestamp_unmarshal_accepts_witness :
  exists kind,
    UnmarshalJSON "1.5e9" = Errored (ENumError (Strconv.mkNumError "1.5e9" kind))
    /\ ((String.length (unsigned_part "1.5e9") <= 19)%nat -> kind = Strconv.ErrSyntax).
Proof.
  apply (proj1 (Timestamp_unmarshal_accepts "1.5e9")). reflexivity.
Defined.

(** Which error a text with a bad byte gets depends on what comes first:
    with twenty nines the number has left [uint64] before the [x] is
    looked at. *)
Example Timestamp_unmarshal_bad_byte_after_overflow :
  UnmarshalJSON "99999999999999999999x"
  = Errored (ENumError (Strconv.mkNumError "99999999999999999999x" Strconv.ErrRange))
  /\ UnmarshalJSON "9223372036854775808x"
     = Errored (ENumError (Strconv.mkNumError "9223372036854775808x" Strconv.ErrSyntax))
  /\ UnmarshalJSON "9223372036854775808"
     = Errored (ENumError (Strconv.mkNumError "9223372036854775808" Strconv.ErrRange)).
Proof. vm_compute. repeat split; reflexivity. Qed.

End EncodingFacts.

(** ** Legacy session information *)

Module LegacySessionInfoFacts.
Import LegacySessionInfo.

Section WithJSON.

Variable float64 : Type.
Variable to_int : float64 -> Z.
Variable unmarshal : string -> result goerror (temp float64).

Lemma key_of_well_formed (item : list (json float64)) (id : string) (counter : float64) :
  well_formed_item float64 item id counter ->
  key_of_item float64 to_int item = Returns (Ok (id, to_int counter)).
Proof.
  intros (idmap & rest & -> & Hid). unfold key_of_item. cbn. rewrite Hid. reflexivity.
Qed.

Lemma store_keys_well_formed (items : list (list (json float64)))
    (pairs : list (string * float64)) :
  Forall2 (fun item p => well_formed_item float64 item (fst p) (snd p)) items pairs ->
  forall (rest : list (list (json float64))) (si : SessionInfo),
    store_keys float64 to_int (items ++ rest) si
    = store_keys float64 to_int rest
        (mkSessionInfo (Jwt si) (InfoNonce si) (InfoContext si)
           (assign_all float64 to_int pairs (Keys si))).
Proof.
  induction 1 as [| item [id counter] items pairs Hitem Hitems IH]; intros rest si.
  - cbn. destruct si. reflexivity.
  - cbn [app store_keys]. rewrite (key_of_well_formed item id counter Hitem).
    rewrite IH. reflexivity.
Qed.

Lemma assign_all_other (pairs : list (string * float64)) (id : string) :
  forall keys, id ∉ map fst pairs ->
    assign_all float64 to_int pairs keys !! id = keys !! id.
Proof.
  unfold assign_all. induction pairs as [| [id' c] pairs IH]; intros keys Hnot;
    [reflexivity |].
  cbn [fold_left map fst snd] in *. apply not_elem_of_cons in Hnot as [Hne Hnot].
  rewrite IH by exact Hnot. apply lookup_insert_ne. congruence.
Qed.

Lemma assign_all_last (before after : list (string * float64)) (id : string)
    (counter : float64) (keys : gmap string Z) :
  id ∉ map fst after ->
  assign_all float64 to_int (before ++ (id, counter) :: after) keys !! id
  = Some (to_int counter).
Proof.
  intros Hnot. unfold assign_all. rewrite fold_left_app. cbn [fold_left fst snd].
  fold (assign_all float64 to_int before keys).
  match goal with |- fold_left ?f after ?k !! id = _ =>
    change (fold_left f after k) with (assign_all float64 to_int after k) end.
  rewrite assign_all_other by exact Hnot. apply lookup_insert_eq.
Qed.

(** X10.  When the JSON text decodes and every item of [keys] starts with an
    object whose [identifier] is a string, followed by a number,
    [SessionInfo.UnmarshalJSON] returns no error and overwrites the receiver
    with the decoded [jwt], [nonce] and [context]; in the new [Keys], an
    issuer that occurs several times has the counter of its last item, and
    an issuer that does not occur has none (what [Keys] held before is
    gone). *)
Theorem SessionInfo_UnmarshalJSON_keys (b : string) (si : SessionInfo) (t : temp float64)
    (pairs : list (string * float64)) :
  unmarshal b = Ok t ->
  Forall2 (fun item p => well_formed_item float64 item (fst p) (snd p))
    (TempKeys float64 t) pairs ->
  exists keys,
    UnmarshalJSON float64 to_int unmarshal b si
    = (Returns None,
       mkSessionInfo (TempJwt float64 t) (TempNonce float64 t) (TempContext float64 t) keys)
    /\ (forall before after id counter,
          pairs = before ++ (id, counter) :: after -> id ∉ map fst after ->
          keys !! id = Some (to_int counter))
    /\ (forall id, id ∉ map fst pairs -> keys !! id = None).
Proof.
  intros Hb Hitems. exists (assign_all float64 to_int pairs ∅).
  unfold UnmarshalJSON. rewrite Hb.
  rewrite <- (app_nil_r (TempKeys float64 t)).
  rewrite (store_keys_well_formed _ _ Hitems). cbn [store_keys Jwt InfoNonce InfoContext Keys].
  split; [reflexivity |]. split.
  - intros before after id counter -> Hnot. apply assign_all_last. exact Hnot.
  - intros id Hnot. rewrite assign_all_other by exact Hnot. apply lookup_empty.
Qed.

(** X11.  When [json.Unmarshal] fails, [SessionInfo.UnmarshalJSON] returns its
    error and leaves the receiver as it was.  When the text decodes but an
    item of [keys] is not well formed, it returns the error "Failed to
    deserialize session info" or panics with an index out of range, and the
    receiver has by then been overwritten: it holds the new [jwt], [nonce]
    and [context] and the keys of the items before the bad one. *)
Theorem SessionInfo_UnmarshalJSON_stops (b : string) (si : SessionInfo) :
  (forall err, unmarshal b = Errored err ->
     UnmarshalJSON float64 to_int unmarshal b si = (Returns (Some err), si))
  /\ (forall t good pairs bad rest,
        unmarshal b = Ok t ->
        TempKeys float64 t = good ++ bad :: rest ->
        Forall2 (fun item p => well_formed_item float64 item (fst p) (snd p)) good pairs ->
        (forall id counter, ~ well_formed_item float64 bad id counter) ->
        exists r,
          UnmarshalJSON float64 to_int unmarshal b si
          = (r, mkSessionInfo (TempJwt float64 t) (TempNonce float64 t)
                  (TempContext float64 t) (assign_all float64 to_int pairs ∅))
          /\ (r = Returns (Some deserialize_error) \/ r = Panics index_out_of_range)).
Proof.
  split.
  - intros err Hb. unfold UnmarshalJSON. rewrite Hb. reflexivity.
  - intros t good pairs bad rest Hb Hkeys Hgood Hbad.
    unfold UnmarshalJSON. rewrite Hb, Hkeys.
    rewrite (store_keys_well_formed _ _ Hgood).
    cbn [store_keys Jwt InfoNonce InfoContext Keys].
    unfold key_of_item.
    destruct bad as [| x0 bad']; cbn [lookup list_lookup]; [eauto |].
    destruct x0 as [| b0 | f0 | s0 | l0 | idmap]; eauto.
    destruct (idmap !! "identifier") as [[| b1 | f1 | idstr | l1 | m1] |] eqn:Hid; eauto.
    destruct bad' as [| x1 bad'']; cbn [lookup list_lookup]; [eauto |].
    destruct x1 as [| b2 | counter | s2 | l2 | m2]; eauto.
    exfalso. apply (Hbad idstr counter). exists idmap, bad''. auto.
Qed.

(** X12.  What the loop body of [SessionInfo.UnmarshalJSON] does with one item of
    [keys]: it yields a key exactly when the item starts with an object
    whose [identifier] is a string, followed by a number (further elements
    are ignored); it panics, with an index out of range, exactly when the
    item is empty or consists of such an object alone; in every other case
    the error is "Failed to deserialize session info". *)
Theorem key_of_item_cases (item : list (json float64)) :
  (forall id counter,
      key_of_item float64 to_int item = Returns (Ok (id, counter))
      <-> exists f, well_formed_item float64 item id f /\ counter = to_int f)
  /\ (forall v,
        key_of_item float64 to_int item = Panics v
        <-> v = index_out_of_range
            /\ (item = []
                \/ exists idmap id,
                     item = [JObject idmap] /\ idmap !! "identifier" = Some (JString id)))
  /\ (forall e,
        key_of_item float64 to_int item = Returns (Errored e) -> e = deserialize_error).
Proof.
  unfold key_of_item, well_formed_item.
  destruct item as [| x0 rest]; cbn [lookup list_lookup].
  { split; [| split].
    - intros id counter. split; [discriminate |]. intros (f & (m & r & H & _) & _).
      discriminate.
    - intros v. split; [intros H; injection H as <-; auto |]. intros [-> _]. reflexivity.
    - discriminate. }
  assert (Hother : forall first : json float64,
             (forall idmap, first <> JObject idmap) ->
             (forall id counter,
                 Returns (Errored deserialize_error)
                 = (Returns (Ok (id, counter)) : exec (result goerror (string * Z)))
                 <-> exists f,
                       (exists idmap r,
                           first :: rest = JObject idmap :: JNumber f :: r
                           /\ idmap !! "identifier" = Some (JString id))
                       /\ counter = to_int f)
             /\ (forall v,
                   (Returns (Errored deserialize_error)
                      : exec (result goerror (string * Z))) = Panics v
                   <-> v = index_out_of_range
                       /\ (first :: rest = []
                           \/ exists idmap id,
                                first :: rest = [JObject idmap]
                                /\ idmap !! "identifier" = Some (JString id)))
             /\ (forall e,
                   (Returns (Errored deserialize_error)
                      : exec (result goerror (string * Z))) = Returns (Errored e)
                   -> e = deserialize_error)).
  { intros first Hfirst. split; [| split].
    - intros id counter. split; [discriminate |].
      intros (f & (m & r & H & _) & _). injection H as H _. exfalso. eapply Hfirst, H.
    - intros v. split; [discriminate |].
      intros [_ [H | (m & id & H & _)]]; [discriminate |].
      injection H as H _. exfalso. eapply Hfirst, H.
    - intros e H. injection H as <-. reflexivity. }
  destruct x0 as [| b0 | f0 | s0 | l0 | idmap]; try (apply Hother; discriminate).
  clear Hother.
  destruct (idmap !! "identifier") as [ident |] eqn:Hid.
  2:{ split; [| split].
      - intros id counter. split; [discriminate |].
        intros (f & (m & r & H & Hm) & _). injection H as <- _. congruence.
      - intros v. split; [discriminate |].
        intros [_ [H | (m & id & H & Hm)]]; [discriminate |].
        injection H as <- _. congruence.
      - intros e H. injection H as <-. reflexivity. }
  destruct ident as [| b1 | f1 | idstr | l1 | m1];
    try (split; [| split];
         [ intros id counter; split; [discriminate |];
           intros (f & (m & r & H & Hm) & _); injection H as <- _; congruence
         | intros v; split; [discriminate |];
           intros [_ [H | (m & id & H & Hm)]]; [discriminate |];
           injection H as <- _; congruence
         | intros e H; injection H as <-; reflexivity ]).
  destruct rest as [| x1 rest']; cbn [lookup list_lookup].
  { split; [| split].
    - intros id counter. split; [discriminate |].
      intros (f & (m & r & H & _) & _). discriminate.
    - intros v. split; [intros H; injection H as <-; eauto 6 |].
      intros [-> _]. reflexivity.
    - discriminate. }
  destruct x1 as [| b2 | counter | s2 | l2 | m2];
    try (split; [| split];
         [ intros id c; split; [discriminate |];
           intros (f & (m & r & H & _) & _); discriminate
         | intros v; split; [discriminate |];
           intros [_ [H | (m & id & H & _)]]; discriminate
         | intros e H; injection H as <-; reflexivity ]).
  split; [| split].
  - intros id c. split.
    + intros H. injection H as <- <-. exists counter. split; [| reflexivity].
      exists idmap, rest'. auto.
    + intros (f & (m & r & H & Hm) & ->). injection H as <- <- _.
      rewrite Hid in Hm. injection Hm as <-. reflexivity.
  - intros v. split; [discriminate |].
    intros [_ [H | (m & id & H & _)]]; discriminate.
  - discriminate.
Qed.

End WithJSON.

Import Examples SessionInfoExamples.

Lemma SessionInfo_UnmarshalJSON_keys_witness :
  exists keys,
    UnmarshalJSON Z id (fun _ => Ok server_keys) "{}" stale_info
    = (Returns None, mkSessionInfo "eyJ" (Some 42) (Some 1) keys)
    /\ (forall before after id counter,
          [("irma-demo.RU", 2); ("irma-demo.MijnOverheid", 1); ("irma-demo.RU", 3)]
          = before ++ (id, counter) :: after ->
          id ∉ map fst after -> keys !! id = Some counter)
    /\ (forall id,
          id ∉ map fst [("irma-demo.RU", 2); ("irma-demo.MijnOverheid", 1);
                        ("irma-demo.RU", 3)] ->
          keys !! id = None).
Proof.
  apply (SessionInfo_UnmarshalJSON_keys Z id (fun _ => Ok server_keys) "{}" stale_info
           server_keys
           [("irma-demo.RU", 2); ("irma-demo.MijnOverheid", 1); ("irma-demo.RU", 3)]).
  - reflexivity.
  - repeat constructor; eexists _, _; split; reflexivity.
Defined.

Lemma SessionInfo_UnmarshalJSON_stops_witness :
  UnmarshalJSON Z id (fun _ => Errored end_of_input) "" stale_info
  = (Returns (Some end_of_input), stale_info).
Proof.
  apply (proj1 (SessionInfo_UnmarshalJSON_stops Z id (fun _ => Errored end_of_input)
                  "" stale_info)).
  reflexivity.
Defined.

Lemma key_of_item_cases_witness :
  key_of_item Z id [JObject {[ "identifier" := JString "irma-demo.RU" ]}]
  = Panics index_out_of_range.
Proof.
  apply (proj1 (proj2 (key_of_item_cases Z id
                         [JObject {[ "identifier" := JString "irma-demo.RU" ]}]))).
  split; [reflexivity |]. right. eexists _, _. split; reflexivity.
Defined.

End LegacySessionInfoFacts.

(** ** Legacy log entries with an offset west of Greenwich *)

Module LegacyTimeFacts.
Import Legacy Examples LegacyFacts.

(** The text up to "AM" or "PM", read by the first seven elements of the
    layout. *)
Lemma parse_time_prefix (c : civil) (tail : string) :
  well_formed c ->
  GoTime.parse_chunks
    [("", GoTime.stdLongMonth); (" ", GoTime.stdDay); (", ", GoTime.stdLongYear);
     (" ", GoTime.stdHour12); (":", GoTime.stdZeroMinute); (":", GoTime.stdZeroSecond);
     (" ", GoTime.stdPM); (" ", GoTime.stdTZ); (" ", GoTime.stdNumColonTZ)] ""
    (month_name (c_month c) +:+ String " "
      (unpadded (c_day c) +:+ String "," (String " "
        (four_digits (c_year c) +:+ String " "
          (unpadded (hour12 (c_hour c)) +:+ String ":"
            (two_digits (c_min c) +:+ String ":"
              (two_digits (c_sec c) +:+ String " "
                (meridiem (c_hour c) +:+ tail)))))))) GoTime.no_fields
  = GoTime.parse_chunks [(" ", GoTime.stdTZ); (" ", GoTime.stdNumColonTZ)] "" tail
      (GoTime.mkFields (c_year c) (c_month c) (c_day c) (hour12 (c_hour c))
         (c_min c) (c_sec c) 0
         (if 12 <=? c_hour c then true else false)
         (if 12 <=? c_hour c then false else true)
         false (-1) "").
Proof.
  intros (Hy & Hm & Hd & Hh & Hmi & Hs & Hz & Hoh & Hom & Hutc).
  pose proof (daysIn_le (c_month c) (c_year c) Hm) as Hdays.
  pose proof (hour12_range (c_hour c) Hh) as Hh12.
  erewrite parse_chunks_cons;
    [| apply skip_nothing | apply parse_month; exact Hm]. norm_fields.
  erewrite parse_chunks_cons;
    [| apply skip_space_unpadded; lia | apply parse_day; [lia | reflexivity]]. norm_fields.
  erewrite parse_chunks_cons;
    [| apply skip_comma_space_year; exact Hy | apply four_digits_year; exact Hy]. norm_fields.
  erewrite parse_chunks_cons;
    [| apply skip_space_unpadded; lia | apply parse_hour; [lia | reflexivity]]. norm_fields.
  erewrite parse_chunks_cons;
    [| apply skip_colon | apply parse_minute; exact Hmi]. norm_fields.
  erewrite parse_chunks_cons;
    [| apply skip_colon | apply parse_second; exact Hs]. norm_fields.
  erewrite parse_chunks_cons;
    [| apply skip_space_meridiem | apply parse_meridiem]. norm_fields.
  reflexivity.
Qed.

Lemma upper_or_minus (c : ascii) :
  GoTime.is_upper c = true -> Ascii.eqb c "-" = false.
Proof. destruct c as [[] [] [] [] [] [] [] []]; intros H; try discriminate H; reflexivity. Qed.

(** A zone abbreviation other than "UTC" and "GMT", followed by the minus
    sign of the offset: the abbreviation is read and the sign is left. *)
Lemma parse_zone_minus (z r : string) (f : GoTime.fields) :
  zone_abbreviation z = true -> z <> "UTC" -> z <> "GMT" ->
  GoTime.parse_std GoTime.stdTZ (z +:+ String "-" r) f
  = Some (String "-" r,
          GoTime.mkFields (GoTime.f_year f) (GoTime.f_month f) (GoTime.f_day f)
            (GoTime.f_hour f) (GoTime.f_min f) (GoTime.f_sec f) (GoTime.f_nsec f)
            (GoTime.pmSet f) (GoTime.amSet f) (GoTime.zUTC f) (GoTime.zoneOffset f) z).
Proof.
  unfold zone_abbreviation. intros Hz Hutc Hgmt.
  apply orb_true_iff in Hz as [Hz | Hz].
  { apply orb_true_iff in Hz as [Hz | Hz]; [apply orb_true_iff in Hz as [Hz | Hz] |];
      apply String.eqb_eq in Hz; subst z; reflexivity. }
  apply andb_true_iff in Hz as [Hup Hshape].
  destruct z as [| a [| b [| c [| d [| e [| g z']]]]]];
    cbn [String.length] in Hshape; try discriminate Hshape.
  - cbn [all_upper] in Hup.
    apply andb_true_iff in Hup as [Ha Hup]. apply andb_true_iff in Hup as [Hb Hup].
    apply andb_true_iff in Hup as [Hc _].
    destruct (upper_not a Ha) as (_ & _ & Hap & Ham & _).
    destruct (upper_not b Hb) as (Hbh & Hbe & _).
    push_append. cbn [GoTime.parse_std]. eqb_prefixes.
    destruct (Ascii.eqb "U" a && (Ascii.eqb "T" b && Ascii.eqb "C" c)) eqn:HU.
    { apply andb_true_iff in HU as [H1 HU]. apply andb_true_iff in HU as [H2 H3].
      apply Ascii.eqb_eq in H1, H2, H3. subst. congruence. }
    unfold GoTime.parseTimeZone. cbn [String.length Nat.ltb Nat.leb].
    eqb_prefixes. rewrite Hbh, Hbe, !andb_false_l, !andb_false_r. cbn [orb].
    destruct (Ascii.eqb "G" a && (Ascii.eqb "M" b && Ascii.eqb "T" c)) eqn:HG.
    { apply andb_true_iff in HG as [H1 HG]. apply andb_true_iff in HG as [H2 H3].
      apply Ascii.eqb_eq in H1, H2, H3. subst. congruence. }
    rewrite Hap, Ham. cbn [orb GoTime.count_upper]. rewrite Ha, Hb, Hc.
    reflexivity.
  - cbn [all_upper] in Hup.
    apply andb_true_iff in Hup as [Ha Hup]. apply andb_true_iff in Hup as [Hb Hup].
    apply andb_true_iff in Hup as [Hc Hup]. apply andb_true_iff in Hup as [Hd _].
    destruct (upper_not a Ha) as (_ & _ & Hap & Ham & _).
    destruct (upper_not b Hb) as (Hbh & Hbe & _).
    cbn [Nat.sub GoTime.drop_chars] in Hshape. eqb_prefixes.
    apply andb_true_iff in Hshape as [Hshape HG]. apply andb_true_iff in Hshape as [HT HU].
    apply negb_true_iff in HG, HU.
    push_append. cbn [GoTime.parse_std]. eqb_prefixes. rewrite HU.
    unfold GoTime.parseTimeZone. cbn [String.length Nat.ltb Nat.leb].
    eqb_prefixes. rewrite Hbh, Hbe, !andb_false_l, !andb_false_r, HG, Hap, Ham.
    cbn [orb GoTime.count_upper]. rewrite Ha, Hb, Hc, Hd.
    change (GoTime.is_upper "-") with false. cbn iota. cbn [GoTime.drop_chars].
    eqb_prefixes. rewrite HT. reflexivity.
  - cbn [all_upper] in Hup.
    apply andb_true_iff in Hup as [Ha Hup]. apply andb_true_iff in Hup as [Hb Hup].
    apply andb_true_iff in Hup as [Hc Hup]. apply andb_true_iff in Hup as [Hd Hup].
    apply andb_true_iff in Hup as [He _].
    destruct (upper_not a Ha) as (_ & _ & Hap & Ham & _).
    destruct (upper_not b Hb) as (Hbh & Hbe & _).
    cbn [Nat.sub GoTime.drop_chars] in Hshape. eqb_prefixes.
    apply andb_true_iff in Hshape as [Hshape HG]. apply andb_true_iff in Hshape as [HT HU].
    apply negb_true_iff in HG, HU.
    push_append. cbn [GoTime.parse_std]. eqb_prefixes. rewrite HU.
    unfold GoTime.parseTimeZone. cbn [String.length Nat.ltb Nat.leb].
    eqb_prefixes. rewrite Hbh, Hbe, !andb_false_l, !andb_false_r, HG, Hap, Ham.
    cbn [orb GoTime.count_upper]. rewrite Ha, Hb, Hc, Hd, He.
    change (GoTime.is_upper "-") with false. cbn iota. cbn [GoTime.drop_chars].
    eqb_prefixes. rewrite HT. reflexivity.
Qed.

(** After "GMT", a minus sign and an hour up to 23 are taken into the
    abbreviation. *)
Lemma parse_zone_GMT_minus (h : Z) (r : string) (f : GoTime.fields) :
  0 <= h <= 23 ->
  GoTime.parse_std GoTime.stdTZ ("GMT" +:+ String "-" (two_digits h +:+ String ":" r)) f
  = Some (String ":" r,
          GoTime.mkFields (GoTime.f_year f) (GoTime.f_month f) (GoTime.f_day f)
            (GoTime.f_hour f) (GoTime.f_min f) (GoTime.f_sec f) (GoTime.f_nsec f)
            (GoTime.pmSet f) (GoTime.amSet f) (GoTime.zUTC f) (GoTime.zoneOffset f)
            ("GMT-" +:+ two_digits h)).
Proof.
  intros Hh. destruct (tens_ones h ltac:(lia)) as [Ht Ho].
  destruct (digit_char_plain _ Ht) as (Ht1 & Ht2 & _).
  destruct (digit_char_plain _ Ho) as (Ho1 & Ho2 & _).
  assert (Hlead : GoTime.leadingInt 0 (two_digits h +:+ String ":" r)
                  = Some (h, String ":" r)).
  { unfold two_digits. push_append. cbn [GoTime.leadingInt]. rewrite Ht1, Ho1, Ht2, Ho2.
    change (2 ^ 63 / 10) with 922337203685477580.
    change (2 ^ 63) with 9223372036854775808.
    change (Strconv.is_digit ":") with false. cbn iota.
    repeat match goal with
           | |- context [?a <? ?b] =>
               let E := fresh "E" in
               destruct (a <? b) eqn:E; [apply Z.ltb_lt in E; lia | clear E]
           end.
    do 2 f_equal. pose proof (Z.div_mod h 10). lia. }
  push_append. cbn [GoTime.parse_std].
  change (String.prefix "UTC" (String "G" (String "M" (String "T"
            (String "-" (two_digits h +:+ String ":" r)))))) with false. cbn iota.
  unfold GoTime.parseTimeZone.
  change (String.length (String "G" (String "M" (String "T"
            (String "-" (two_digits h +:+ String ":" r))))) <? 3)%nat with false.
  cbn iota.
  change (String.prefix "ChST" (String "G" (String "M" (String "T"
            (String "-" (two_digits h +:+ String ":" r)))))) with false.
  change (String.prefix "MeST" (String "G" (String "M" (String "T"
            (String "-" (two_digits h +:+ String ":" r)))))) with false.
  cbn [orb]. cbn iota.
  replace (String.prefix "GMT" (String "G" (String "M" (String "T"
            (String "-" (two_digits h +:+ String ":" r)))))) with true
    by (rewrite !prefix_cons, prefix_nil; reflexivity).
  cbn iota. unfold GoTime.parseGMT. cbn [GoTime.drop_chars].
  unfold GoTime.parseSignedOffset. cbn [Ascii.eqb Bool.eqb orb andb].
  rewrite Hlead.
  unfold two_digits. push_append. cbn [String.length Nat.eqb].
  match goal with
  | |- context [(String.length r =? ?x)%nat] =>
      destruct (String.length r =? x)%nat eqn:E; [apply Nat.eqb_eq in E; lia | clear E]
  end.
  destruct (23 <? h) eqn:E; [apply Z.ltb_lt in E; lia | clear E].
  replace (S (S (S (S (String.length r)))) - S (String.length r))%nat with 3%nat by lia.
  cbn [Nat.add GoTime.drop_chars GoTime.take_chars]. reflexivity.
Qed.

Lemma skip_space_refused (c : ascii) (r : string) :
  Ascii.eqb c " " = false -> GoTime.skip (String c r) " " = None.
Proof. intros Hc. unfold GoTime.skip. cbn. rewrite Hc. reflexivity. Qed.

(** X13.  For a log entry whose time is written with the zone directly followed
    by a negative offset, as in "GMT-05:00", [GetTime] does not parse the
    time: it replaces only a "+", the text does not match the layout, the
    error of [time.Parse] is dropped, and the result is the zero [time.Time],
    whose Unix time is -62135596800. *)
Theorem GetTime_west_compact_is_zero (c : civil) (id : string) :
  well_formed c -> c_east c = false ->
  GoTime.Parse androidLogTimeFormat (time_text c "") = None
  /\ GetTime (mkEntry (time_text c "") id) = GoTime.zeroTime
  /\ GoTime.Unix_of (GetTime (mkEntry (time_text c "") id)) = -62135596800.
Proof.
  intros Hc Heast.
  assert (Hparse : GoTime.Parse androidLogTimeFormat (time_text c "") = None).
  { pose proof Hc as (Hy & Hm & Hd & Hh & Hmi & Hs & Hz & Hoh & Hom & Hutc).
    unfold GoTime.Parse. rewrite layout_chunks.
    change (time_text c "") with
      (month_name (c_month c) +:+ String " "
        (unpadded (c_day c) +:+ String "," (String " "
          (four_digits (c_year c) +:+ String " "
            (unpadded (hour12 (c_hour c)) +:+ String ":"
              (two_digits (c_min c) +:+ String ":"
                (two_digits (c_sec c) +:+ String " "
                  (meridiem (c_hour c) +:+ String " "
                    (c_zone c +:+ offset_text c))))))))).
    rewrite (parse_time_prefix c _ Hc).
    unfold offset_text. rewrite Heast.
    cbn [GoTime.parse_chunks]. rewrite skip_space_zone by exact Hz.
    destruct (String.eqb (c_zone c) "UTC") eqn:Hzu.
    { apply String.eqb_eq in Hzu. rewrite Hzu. cbn. reflexivity. }
    apply String.eqb_neq in Hzu.
    destruct (String.eqb (c_zone c) "GMT") eqn:Hzg.
    { apply String.eqb_eq in Hzg. rewrite Hzg.
      change (":" +:+ two_digits (c_offset_minutes c))
        with (String ":" (two_digits (c_offset_minutes c))).
      rewrite parse_zone_GMT_minus by exact Hoh.
      rewrite skip_space_refused by reflexivity. reflexivity. }
    apply String.eqb_neq in Hzg.
    rewrite parse_zone_minus by assumption.
    rewrite skip_space_refused by reflexivity. reflexivity. }
  assert (Hget : GetTime (mkEntry (time_text c "") id) = GoTime.zeroTime).
  { unfold GetTime. cbn [Time].
    rewrite (Replace_time_text c "" Hc) by auto. rewrite Heast, Hparse. reflexivity. }
  split; [exact Hparse |]. split; [exact Hget |]. rewrite Hget. reflexivity.
Qed.

Lemma GetTime_west_compact_is_zero_witness :
  GetTime (mkEntry "February 29, 2016 12:00:00 AM GMT-05:00" studentCard)
  = GoTime.zeroTime.
Proof.
  refine (proj1 (proj2 (GetTime_west_compact_is_zero
                          (mkCivil 2016 2 29 0 0 0 "GMT" false 5 0) studentCard _ _))).
  - unfold well_formed. cbn. repeat split; try lia; try discriminate.
  - reflexivity.
Defined.

End LegacyTimeFacts.

(** ** The session engine, from creation to outcome *)

Module SessionTracesFacts.
Import Irma Session Negotiation SessionTraces SessionFacts Examples SessionExamples.

(** *** Version negotiation *)

Lemma supported_keys : sort_desc (elements (dom supportedVersions)) = [2].
Proof. vm_compute. reflexivity. Qed.

Lemma supported_minors : default [] (supportedVersions !! 2) = [2; 1].
Proof. vm_compute. reflexivity. Qed.

(** X14.  A version that [calcVersion] returns is one of the supported versions,
    "2.2" or "2.1", whatever the QR code holds. *)
Theorem calcVersion_answers_supported (qr : Qr) (v : string) :
  calcVersion qr = Returns (Ok v) ->
  (v = "2.2" \/ v = "2.1")
  /\ exists major minor,
       v = sprintf_version (major, minor)
       /\ supportedVersions !! major = Some [2; 1] /\ In minor [2; 1].
Proof.
  unfold calcVersion, calcVersionIn. rewrite !NegotiationFacts.atoi_at_byte.
  destruct (String.get 0 (ProtocolVersion qr)) as [c0 |]; [| discriminate].
  destruct (Strconv.is_digit c0); [| discriminate].
  destruct (String.get 2 (ProtocolVersion qr)) as [c2 |]; [| discriminate].
  destruct (Strconv.is_digit c2); [| discriminate].
  destruct (String.get 0 (ProtocolMaxVersion qr)) as [m0 |]; [| discriminate].
  destruct (Strconv.is_digit m0); [| discriminate].
  destruct (String.get 2 (ProtocolMaxVersion qr)) as [m2 |]; [| discriminate].
  destruct (Strconv.is_digit m2); [| discriminate].
  rewrite supported_keys. cbn [range_majors]. rewrite supported_minors.
  cbn [range_minors].
  destruct (_ && _).
  { intros H. injection H as <-. split; [left; reflexivity |].
    exists 2, 2.
    split; [vm_compute; reflexivity | split; [vm_compute; reflexivity | cbn; auto]]. }
  destruct (_ && _).
  { intros H. injection H as <-. split; [right; reflexivity |].
    exists 2, 1.
    split; [vm_compute; reflexivity | split; [vm_compute; reflexivity | cbn; auto]]. }
  discriminate.
Qed.

Lemma calcVersion_answers_supported_witness :
  ("2.2" = "2.2" \/ "2.2" = "2.1")
  /\ exists major minor,
       "2.2" = sprintf_version (major, minor)
       /\ supportedVersions !! major = Some [2; 1] /\ In minor [2; 1].
Proof.
  apply (calcVersion_answers_supported
           (mkQr "https://example.com/irma/session" "2.1" "2.3" "disclosing") "2.2").
  vm_compute. reflexivity.
Defined.

Lemma calcVersion_panics (qr : Qr) :
  calcVersion qr = (if reaches_missing_byte qr then Panics index_out_of_range
                    else calcVersion qr)
  /\ (reaches_missing_byte qr = false -> forall v, calcVersion qr <> Panics v).
Proof.
  unfold calcVersion, calcVersionIn, reaches_missing_byte, digit_at, missing_at.
  rewrite !NegotiationFacts.atoi_at_byte.
  destruct (String.get 0 (ProtocolVersion qr)) as [c0 |]; [| split; [reflexivity | discriminate]].
  destruct (Strconv.is_digit c0); [| split; [reflexivity | discriminate]].
  destruct (String.get 2 (ProtocolVersion qr)) as [c2 |]; [| split; [reflexivity | discriminate]].
  destruct (Strconv.is_digit c2); [| split; [reflexivity | discriminate]].
  destruct (String.get 0 (ProtocolMaxVersion qr)) as [m0 |];
    [| split; [reflexivity | discriminate]].
  destruct (Strconv.is_digit m0); [| split; [reflexivity | discriminate]].
  destruct (String.get 2 (ProtocolMaxVersion qr)) as [m2 |];
    [| split; [reflexivity | discriminate]].
  destruct (Strconv.is_digit m2); [| split; [reflexivity | discriminate]].
  cbn [orb andb]. split; [reflexivity |]. intros _ v.
  destruct (range_majors _ _ _ _ _ _); discriminate.
Qed.

(** *** Creating a session *)

Lemma session_action_not_manager (a : Action) :
  is_session_action a = true -> String.eqb a ActionSchemeManager = false.
Proof.
  unfold is_session_action. intros H.
  destruct (String.eqb a ActionSchemeManager) eqn:E; [| reflexivity].
  apply String.eqb_eq in E. subst a. discriminate H.
Qed.

Lemma ends_with_slash_app (u : string) : ends_with_slash (u +:+ "/") = true.
Proof.
  induction u as [| c u IH]; [reflexivity |].
  change (String c u +:+ "/") with (String c (u +:+ "/")).
  cbn [ends_with_slash]. destruct (u +:+ "/") eqn:E; [| exact IH].
  destruct u; discriminate E.
Qed.

Lemma NewSession_run (qr : Qr) (handlerSet : bool) (conf : Configuration)
    (enrolled : gset string) :
  NewSession qr handlerSet conf enrolled =
  let s0 := fresh_session qr handlerSet conf enrolled in
  if String.eqb (QrType qr) ActionSchemeManager
  then (Returns (Some TaskManagerSession), s0, [])
  else
    match calcVersion qr with
    | Panics v => (Panics v, s0, [])
    | Returns (Errored err) =>
        if handlerSet then
          (Returns None, set_done s0,
           delete_trace s0
             ++ [Failure (QrType qr)
                   (mkSessionError ErrorProtocolVersionNotSupported ""
                      (Wrap (Some err)))])
        else (Panics nil_dereference, set_done s0, delete_trace s0)
    | Returns (Ok version) =>
        if is_session_action (QrType qr) then
          (Returns (Some TaskStart),
           mkSession (QrType qr) handlerSet version None None false
             (if ends_with_slash (URL qr) then URL qr else URL qr +:+ "/") conf enrolled,
           [])
        else if handlerSet then
          (Returns None, set_done (set_version version s0),
           delete_trace s0
             ++ [Failure (QrType qr) (mkSessionError ErrorUnknownAction (QrType qr) None)])
        else (Panics nil_dereference, set_done (set_version version s0), delete_trace s0)
    end.
Proof.
  unfold NewSession, fresh_session. cbv zeta.
  destruct (String.eqb (QrType qr) ActionSchemeManager); [reflexivity |].
  destruct (calcVersion qr) as [[version | err] | v]; [| | reflexivity].
  - destruct (is_session_action (QrType qr)).
    + unfold bind, modify, get, ret. cbn [ServerURL set_version].
      destruct (ends_with_slash (URL qr)); reflexivity.
    + unfold bind at 1, modify. unfold bind at 1. rewrite fail_run.
      cbn [set_version done HandlerSet]. destruct handlerSet; cbn [ret app];
        rewrite ?app_nil_r; reflexivity.
  - unfold bind at 1. rewrite fail_run. cbn [done HandlerSet].
    destruct handlerSet; cbn [ret app]; rewrite ?app_nil_r; reflexivity.
Qed.

(** X15.  [NewSession] with a handler: when it returns the nil dismisser, the
    session is done and the handler has been told exactly one [Failure],
    after the DELETE that an interactive session sends, with
    [ErrorProtocolVersionNotSupported] or with [ErrorUnknownAction] and the
    action as its info; when it returns a
    session, the session is not done and nothing has been told or sent; a
    panic can only be the index out of range of [calcVersion], and it
    leaves the session untouched and the handler uninformed. *)
Theorem NewSession_outcome (qr : Qr) (conf : Configuration) (enrolled : gset string) :
  (outcome (NewSession qr true conf enrolled) = Returns None ->
   done (final (NewSession qr true conf enrolled)) = true
   /\ exists err,
        trace (NewSession qr true conf enrolled)
        = delete_trace (fresh_session qr true conf enrolled)
            ++ [Failure (QrType qr) err]
        /\ ((ErrorType err = ErrorProtocolVersionNotSupported /\ Info err = "")
            \/ (ErrorType err = ErrorUnknownAction /\ Info err = QrType qr
                /\ Err err = None)))
  /\ (forall task,
        outcome (NewSession qr true conf enrolled) = Returns (Some task) ->
        done (final (NewSession qr true conf enrolled)) = false
        /\ trace (NewSession qr true conf enrolled) = [])
  /\ (forall v,
        outcome (NewSession qr true conf enrolled) = Panics v ->
        v = index_out_of_range
        /\ final (NewSession qr true conf enrolled) = fresh_session qr true conf enrolled
        /\ trace (NewSession qr true conf enrolled) = []).
Proof.
  rewrite NewSession_run. cbv zeta.
  destruct (String.eqb (QrType qr) ActionSchemeManager).
  { cbn. split; [discriminate |]. split; [auto | discriminate]. }
  destruct (calcVersion_panics qr) as [Hpanic Hnot].
  destruct (calcVersion qr) as [[version | err] | v] eqn:Hcalc.
  - destruct (is_session_action (QrType qr)); cbn [outcome final trace fst snd].
    + split; [discriminate |]. split; [auto | discriminate].
    + split; [| split; discriminate]. intros _. split; [reflexivity |].
      eexists. split; [reflexivity |]. right. cbn. auto.
  - cbn [outcome final trace fst snd].
    split; [| split; discriminate]. intros _. split; [reflexivity |].
    eexists. split; [reflexivity |]. left. cbn. auto.
  - cbn [outcome final trace fst snd]. split; [discriminate |]. split; [discriminate |].
    intros v' Hv. injection Hv as <-.
    destruct (reaches_missing_byte qr) eqn:Hreach.
    + injection Hpanic as ->. auto.
    + exfalso. exact (Hnot eq_refl v eq_refl).
Qed.

Lemma NewSession_outcome_witness :
  done (final (NewSession (mkQr "https://example.com/irma/session" "2.3" "2.4" "disclosing")
                 true demo_configuration ∅)) = true
  /\ exists err,
       trace (NewSession (mkQr "https://example.com/irma/session" "2.3" "2.4" "disclosing")
                true demo_configuration ∅)
       = delete_trace (fresh_session
                         (mkQr "https://example.com/irma/session" "2.3" "2.4" "disclosing")
                         true demo_configuration ∅)
           ++ [Failure "disclosing" err]
       /\ ((ErrorType err = ErrorProtocolVersionNotSupported /\ Info err = "")
           \/ (ErrorType err = ErrorUnknownAction /\ Info err = "disclosing"
               /\ Err err = None)).
Proof.
  apply (proj1 (NewSession_outcome
                  (mkQr "https://example.com/irma/session" "2.3" "2.4" "disclosing")
                  demo_configuration ∅)).
  vm_compute. reflexivity.
Defined.

(** X16.  [NewSession] has no recovery barrier: for a QR code that is not for a
    scheme manager and whose version strings are too short for
    [calcVersion], it panics with an index out of range before anything is
    sent or reported.  For a scheme manager QR code the versions are not
    looked at, and the scheme manager task is started. *)
Theorem NewSession_panic_escapes (qr : Qr) (handlerSet : bool) (conf : Configuration)
    (enrolled : gset string) :
  (QrType qr <> ActionSchemeManager -> reaches_missing_byte qr = true ->
   NewSession qr handlerSet conf enrolled
   = (Panics index_out_of_range, fresh_session qr handlerSet conf enrolled, []))
  /\ (QrType qr = ActionSchemeManager ->
      NewSession qr handlerSet conf enrolled
      = (Returns (Some TaskManagerSession), fresh_session qr handlerSet conf enrolled, [])).
Proof.
  rewrite NewSession_run. cbv zeta. split.
  - intros Hne Hreach. apply String.eqb_neq in Hne. rewrite Hne.
    destruct (calcVersion_panics qr) as [Hpanic _]. rewrite Hreach in Hpanic.
    rewrite Hpanic. reflexivity.
  - intros ->. reflexivity.
Qed.

Lemma NewSession_panic_escapes_witness :
  NewSession (mkQr "https://example.com/irma/session" "2" "2.2" "disclosing")
    true demo_configuration ∅
  = (Panics index_out_of_range,
     fresh_session (mkQr "https://example.com/irma/session" "2" "2.2" "disclosing")
       true demo_configuration ∅, []).
Proof.
  apply (proj1 (NewSession_panic_escapes
                  (mkQr "https://example.com/irma/session" "2" "2.2" "disclosing")
                  true demo_configuration ∅)).
  - discriminate.
  - reflexivity.
Defined.

(** X17.  When the versions of the QR code can be negotiated and the action is
    disclosing, signing or issuing, [NewSession] hands to [start] a session
    that is not done, has the negotiated version, is interactive, and whose
    server URL is the URL of the QR code with a "/" appended unless it ends
    in one already. *)
Theorem NewSession_starts (qr : Qr) (handlerSet : bool) (conf : Configuration)
    (enrolled : gset string) (version : string) :
  calcVersion qr = Returns (Ok version) ->
  is_session_action (QrType qr) = true ->
  NewSession qr handlerSet conf enrolled
  = (Returns (Some TaskStart),
     mkSession (QrType qr) handlerSet version None None false
       (if ends_with_slash (URL qr) then URL qr else URL qr +:+ "/") conf enrolled,
     [])
  /\ ends_with_slash (if ends_with_slash (URL qr) then URL qr else URL qr +:+ "/") = true
  /\ IsInteractive (final (NewSession qr handlerSet conf enrolled)) = true.
Proof.
  intros Hcalc Haction.
  assert (Hrun : NewSession qr handlerSet conf enrolled
                 = (Returns (Some TaskStart),
                    mkSession (QrType qr) handlerSet version None None false
                      (if ends_with_slash (URL qr) then URL qr else URL qr +:+ "/")
                      conf enrolled, [])).
  { rewrite NewSession_run. cbv zeta.
    rewrite (session_action_not_manager _ Haction), Hcalc, Haction. reflexivity. }
  rewrite Hrun. split; [reflexivity |]. split.
  - destruct (ends_with_slash (URL qr)) eqn:E; [exact E | apply ends_with_slash_app].
  - unfold IsInteractive. cbn [final fst snd ServerURL].
    destruct (ends_with_slash (URL qr)) eqn:E.
    + destruct (URL qr); [discriminate E | reflexivity].
    + destruct (URL qr); reflexivity.
Qed.

Lemma NewSession_starts_witness :
  NewSession (mkQr "https://example.com/irma/session" "2.1" "2.3" "issuing")
    true demo_configuration ∅
  = (Returns (Some TaskStart),
     mkSession "issuing" true "2.2" None None false
       (if ends_with_slash "https://example.com/irma/session"
        then "https://example.com/irma/session"
        else "https://example.com/irma/session" +:+ "/") demo_configuration ∅,
     []).
Proof.
  refine (proj1 (NewSession_starts
                   (mkQr "https://example.com/irma/session" "2.1" "2.3" "issuing")
                   true demo_configuration ∅ "2.2" _ _)).
  - vm_compute. reflexivity.
  - reflexivity.
Defined.

(** *** Checking the configuration *)

Lemma check_loop_refuses (order : list string) (s : session) (id : string) :
  HandlerSet s = true ->
  first_offender (configuration s) order = Some id ->
  outcome (check_loop order s) = Returns false.
Proof.
  intros Hh. unfold first_offender.
  induction order as [| id0 rest IH]; intros Hfind; [discriminate |].
  cbn [List.find] in Hfind. unfold offending at 1 in Hfind.
  cbn [check_loop]. unfold bind at 1, get. cbn [app].
  destruct (SchemeManagers (configuration s) !! id0) as [manager |].
  - destruct (negb (Valid manager)).
    + unfold bind. rewrite fail_run, Hh. destruct (done s); reflexivity.
    + specialize (IH Hfind). destruct (check_loop rest s) as [[r s1] t1]. exact IH.
  - unfold bind. rewrite fail_run, Hh. destruct (done s); reflexivity.
Qed.

Lemma enrollment_loop_blocked (order : list string) (s : session) (id : string) :
  HandlerSet s = true ->
  (forall id', In id' order -> SchemeManagers (configuration s) !! id' <> None) ->
  List.find (blocking (configuration s) (keyshareServers s)) order = Some id ->
  enrollment_loop order s = (Returns false, s, [KeyshareEnrollmentMissing id]).
Proof.
  intros Hh. induction order as [| id0 rest IH]; intros Hin Hfind; [discriminate |].
  cbn [List.find] in Hfind. unfold blocking at 1 in Hfind.
  cbn [enrollment_loop]. unfold bind at 1, get. cbn [app].
  destruct (SchemeManagers (configuration s) !! id0) as [manager |] eqn:Hm.
  - destruct (Distributed manager && negb (bool_decide (id0 ∈ keyshareServers s))).
    + injection Hfind as <-. unfold bind. rewrite handler_run, Hh. reflexivity.
    + rewrite IH; [reflexivity | | exact Hfind].
      intros id' Hid'. apply Hin. right. exact Hid'.
  - exfalso. apply (Hin id0); [left; reflexivity | exact Hm].
Qed.

Lemma usable_iff (conf : Configuration) (enrolled : gset string) (managers : gset string)
    (order1 order2 : list string) :
  (forall id, id ∈ order1 <-> id ∈ managers) ->
  (forall id, id ∈ order2 <-> id ∈ managers) ->
  managers_usable conf enrolled managers
  <-> first_offender conf order1 = None
      /\ List.find (blocking conf enrolled) order2 = None.
Proof.
  intros H1 H2. unfold managers_usable, first_offender. split.
  - intros Hus. split.
    + destruct (List.find (offending conf) order1) as [id |] eqn:Hfind; [| reflexivity].
      destruct (List.find_some _ _ Hfind) as [Hin Hoff].
      apply list_elem_of_In, H1, Hus in Hin as (manager & Hm & Hv & _).
      unfold offending in Hoff. rewrite Hm, Hv in Hoff. discriminate.
    + destruct (List.find (blocking conf enrolled) order2) as [id |] eqn:Hfind;
        [| reflexivity].
      destruct (List.find_some _ _ Hfind) as [Hin Hbl].
      apply list_elem_of_In, H2, Hus in Hin as (manager & Hm & _ & He).
      unfold blocking in Hbl. rewrite Hm in Hbl.
      destruct (Distributed manager); [| discriminate].
      rewrite (bool_decide_eq_true_2 _ (He eq_refl)) in Hbl. discriminate.
  - intros [Hoff Hbl] id Hid.
    pose proof (List.find_none _ _ Hoff id) as Ho.
    pose proof (List.find_none _ _ Hbl id) as Hb.
    specialize (Ho (proj1 (list_elem_of_In _ _) (proj2 (H1 id) Hid))).
    specialize (Hb (proj1 (list_elem_of_In _ _) (proj2 (H2 id) Hid))).
    unfold offending in Ho. unfold blocking in Hb.
    destruct (SchemeManagers conf !! id) as [manager |]; [| discriminate].
    exists manager. split; [reflexivity |]. split.
    + destruct (Valid manager); [reflexivity | discriminate].
    + intros Hd. rewrite Hd in Hb. cbn in Hb. apply negb_false_iff in Hb.
      exact (bool_decide_eq_true_1 _ Hb).
Qed.

Lemma checkAndUpateConfiguration_cases (w : World) (s : session) (r : IrmaSession) :
  irmaSession s = Some r -> HandlerSet s = true ->
  (forall id', In id' (range_enrollment w) -> In id' (range_check w)) ->
  (first_offender (configuration s) (range_check w) = None
   /\ List.find (blocking (configuration s) (keyshareServers s)) (range_enrollment w) = None
   /\ snd (download_answer w) = None
   /\ checkAndUpateConfiguration w s
      = (Returns true,
         set_downloaded (fst (fst (download_answer w))) (snd (fst (download_answer w))) s,
         [ConfDownload (Identifiers r)]))
  \/ ((first_offender (configuration s) (range_check w) <> None
       \/ List.find (blocking (configuration s) (keyshareServers s)) (range_enrollment w)
          <> None
       \/ snd (download_answer w) <> None)
      /\ outcome (checkAndUpateConfiguration w s) = Returns false).
Proof.
  intros Hr Hh Hsub.
  remember (checkAndUpateConfiguration w s) as res eqn:Hres.
  unfold checkAndUpateConfiguration, checkKeyshareEnrollment in Hres.
  unfold bind at 1 in Hres. rewrite (identifiers_run s r Hr) in Hres.
  destruct (first_offender (configuration s) (range_check w)) as [bad |] eqn:Hoff.
  { right. split; [left; discriminate |].
    pose proof (check_loop_refuses _ s bad Hh Hoff) as Hout.
    unfold bind at 1 in Hres. destruct (check_loop (range_check w) s) as [[b s1] t1].
    cbn [outcome fst] in Hout. subst b. subst res. reflexivity. }
  unfold bind at 1 in Hres. rewrite (check_loop_passes _ s Hoff) in Hres.
  cbn [negb] in Hres.
  unfold bind at 1 in Hres. unfold bind at 1 in Hres.
  rewrite (identifiers_run s r Hr) in Hres.
  destruct (List.find (blocking (configuration s) (keyshareServers s))
              (range_enrollment w)) as [blocked |] eqn:Hbl.
  { right. split; [right; left; discriminate |].
    rewrite (enrollment_loop_blocked _ s blocked Hh) in Hres; [| | exact Hbl].
    - subst res. reflexivity.
    - intros id' Hid' Hnone. apply Hsub in Hid'. unfold first_offender in Hoff.
      pose proof (List.find_none _ _ Hoff id' Hid') as Hx.
      unfold offending in Hx. rewrite Hnone in Hx. discriminate. }
  rewrite (enrollment_loop_passes _ s Hbl) in Hres. cbn [negb app] in Hres.
  unfold bind at 1 in Hres. rewrite (identifiers_run s r Hr) in Hres.
  unfold bind at 1 in Hres. unfold emit at 1 in Hres.
  destruct (download_answer w) as [[conf' d] [e |]]; cbn [fst snd].
  - right. split; [right; right; discriminate |].
    unfold bind at 1 in Hres. unfold modify at 1 in Hres.
    unfold bind at 1 in Hres. rewrite fail_run in Hres.
    change (done (set_downloaded conf' d s)) with (done s) in Hres.
    change (HandlerSet (set_downloaded conf' d s)) with (HandlerSet s) in Hres.
    rewrite Hh in Hres. subst res. destruct (done s); reflexivity.
  - left. subst res. auto.
Qed.

(** X18.  When the loops of [checkAndUpateConfiguration] range over the scheme
    managers of the request, it returns true exactly when every one of them
    is in the configuration and valid, the client is enrolled to each
    distributed one, and the download of missing descriptors reports no
    error; it has then asked for the identifiers of the request to be
    downloaded, recorded what was downloaded, and told the handler
    nothing. *)
Theorem checkAndUpateConfiguration_passes (w : World) (s : session) (r : IrmaSession) :
  irmaSession s = Some r -> HandlerSet s = true ->
  (forall id, id ∈ range_check w <-> id ∈ SetSchemeManagers (Identifiers r)) ->
  (forall id, id ∈ range_enrollment w <-> id ∈ SetSchemeManagers (Identifiers r)) ->
  (outcome (checkAndUpateConfiguration w s) = Returns true
   <-> managers_usable (configuration s) (keyshareServers s)
         (SetSchemeManagers (Identifiers r))
       /\ snd (download_answer w) = None)
  /\ (outcome (checkAndUpateConfiguration w s) = Returns true ->
      checkAndUpateConfiguration w s
      = (Returns true,
         set_downloaded (fst (fst (download_answer w))) (snd (fst (download_answer w))) s,
         [ConfDownload (Identifiers r)])).
Proof.
  intros Hr Hh H1 H2.
  rewrite (usable_iff _ _ _ _ _ H1 H2).
  assert (Hsub : forall id', In id' (range_enrollment w) -> In id' (range_check w)).
  { intros id' Hid'. apply list_elem_of_In, H1, H2, list_elem_of_In. exact Hid'. }
  destruct (checkAndUpateConfiguration_cases w s r Hr Hh Hsub)
    as [(Hoff & Hbl & Herr & Hrun) | [Hsome Hout]].
  - rewrite Hrun. cbn [outcome fst]. split; [| reflexivity]. split; auto.
  - rewrite Hout. split; [| discriminate]. split; [discriminate |].
    intros [[Hoff Hbl] Herr]. destruct Hsome as [Hx | [Hx | Hx]]; contradiction.
Qed.

Lemma checkAndUpateConfiguration_passes_witness :
  checkAndUpateConfiguration fair_world after_download
  = (Returns true,
     set_downloaded (fst (fst (download_answer fair_world)))
       (snd (fst (download_answer fair_world))) after_download,
     [ConfDownload (Identifiers demo_request)]).
Proof.
  refine (proj2 (checkAndUpateConfiguration_passes fair_world after_download demo_request
                   _ _ _ _) _).
  - reflexivity.
  - reflexivity.
  - intros id. cbn. rewrite elem_of_cons, elem_of_nil, elem_of_singleton. tauto.
  - intros id. cbn. rewrite elem_of_cons, elem_of_nil, elem_of_singleton. tauto.
  - vm_compute. reflexivity.
Defined.

(** X19.  When the scheme managers are all known and valid but the client is not
    enrolled to a distributed one, [checkAndUpateConfiguration] calls
    [KeyshareEnrollmentMissing] for the first such manager and returns
    false without ending the session: no DELETE is sent and the session is
    not done, so that a later [Dismiss] still sends DELETE (if interactive)
    and reports [Cancelled]. *)
Theorem enrollment_missing_leaves_session_open (w : World) (s : session)
    (r : IrmaSession) (id : string) :
  irmaSession s = Some r -> HandlerSet s = true -> done s = false ->
  first_offender (configuration s) (range_check w) = None ->
  (forall id', In id' (range_enrollment w) -> In id' (range_check w)) ->
  List.find (blocking (configuration s) (keyshareServers s)) (range_enrollment w)
  = Some id ->
  checkAndUpateConfiguration w s = (Returns false, s, [KeyshareEnrollmentMissing id])
  /\ snd (perform_all [OpDismiss] (final (checkAndUpateConfiguration w s)))
     = delete_trace s ++ announcement s ++ [Cancelled (SAction s)].
Proof.
  intros Hr Hh Hd Hoff Hsub Hbl.
  assert (Hrun : checkAndUpateConfiguration w s
                 = (Returns false, s, [KeyshareEnrollmentMissing id])).
  { unfold checkAndUpateConfiguration, checkKeyshareEnrollment.
    unfold bind at 1. rewrite (identifiers_run s r Hr).
    unfold bind at 1. rewrite (check_loop_passes _ s Hoff). cbn [negb].
    unfold bind at 1. unfold bind at 1. rewrite (identifiers_run s r Hr).
    rewrite (enrollment_loop_blocked _ s id Hh); [reflexivity | | exact Hbl].
    intros id' Hid' Hnone. apply Hsub in Hid'. unfold first_offender in Hoff.
    pose proof (List.find_none _ _ Hoff id' Hid') as Hx.
    unfold offending in Hx. rewrite Hnone in Hx. discriminate. }
  split; [exact Hrun |]. rewrite Hrun. cbn [final fst snd perform_all perform].
  unfold guarded, Dismiss. rewrite cancel_run, Hd, Hh. cbn [snd]. rewrite app_nil_r.
  reflexivity.
Qed.

Lemma enrollment_missing_leaves_session_open_witness :
  checkAndUpateConfiguration distributed_world distributed_session
  = (Returns false, distributed_session, [KeyshareEnrollmentMissing "test"])
  /\ snd (perform_all [OpDismiss]
            (final (checkAndUpateConfiguration distributed_world distributed_session)))
     = delete_trace distributed_session ++ announcement distributed_session
         ++ [Cancelled (SAction distributed_session)].
Proof.
  apply (enrollment_missing_leaves_session_open distributed_world distributed_session
           distributed_request "test"); try reflexivity.
  intros id' Hid'. exact Hid'.
Defined.

(** *** Sending the response *)

Lemma sendResponse_tail (s : session) (d : IrmaIdentifierSet) (messageJson : string) :
  HandlerSet s = true -> downloaded s = Some d ->
  (emit LogEntryAdded ;;;
   s' <- get ;;
   match downloaded s' with
   | None => panic nil_dereference
   | Some d =>
       (if negb (Empty d) then emit (UpdateConfiguration d) else ret tt) ;;;
       (if String.eqb (SAction s') ActionIssuing then emit UpdateAttributes
        else ret tt) ;;;
       modify set_done ;;;
       handler (Success (SAction s') messageJson)
   end) s
  = (Returns tt, set_done s,
     [LogEntryAdded] ++ announcement s
       ++ (if String.eqb (SAction s) ActionIssuing then [UpdateAttributes] else [])
       ++ [Success (SAction s) messageJson]).
Proof.
  intros Hh Hd. destruct s as [a h v dl r dn url conf ks]. cbn in Hh, Hd. subst h dl.
  unfold bind, get, emit, modify, ret, handler, announcement. cbn.
  destruct (negb (Empty d)), (String.eqb a ActionIssuing); reflexivity.
Qed.

Lemma sendResponse_run (w : World) (s : session) (d : IrmaIdentifierSet) :
  HandlerSet s = true -> downloaded s = Some d ->
  sendResponse w s =
  let finish messageJson :=
    (Returns tt, set_done s,
     [LogEntryAdded] ++ announcement s
       ++ (if String.eqb (SAction s) ActionIssuing then [UpdateAttributes] else [])
       ++ [Success (SAction s) messageJson]) in
  let failed (err : SessionError) :=
    if done s then (Returns tt, s, [])
    else (Returns tt, set_done s,
          delete_trace s ++ announcement s ++ [Failure (SAction s) (wrapped err)]) in
  let after (e : event) (r : exec unit * session * list event) :=
    (fst (fst r), snd (fst r), e :: snd r) in
  if IsInteractive s then
    if String.eqb (SAction s) ActionSigning || String.eqb (SAction s) ActionDisclosing then
      match post_answer w with
      | TSessionError e => after (NetPost "proofs") (failed e)
      | TOtherError _ => (Panics interface_conversion, s, [NetPost "proofs"])
      | TOk response =>
          if negb (String.eqb response "VALID")
          then after (NetPost "proofs") (failed (mkSessionError ErrorRejected response None))
          else after (NetPost "proofs") (finish "")
      end
    else if String.eqb (SAction s) ActionIssuing then
      match post_answer w with
      | TSessionError e => after (NetPost "commitments") (failed e)
      | TOtherError _ => (Panics interface_conversion, s, [NetPost "commitments"])
      | TOk _ =>
          match construct_credentials w with
          | Some e =>
              after (NetPost "commitments")
                (failed (mkSessionError ErrorCrypto "" (Some e)))
          | None => after (NetPost "commitments") (finish "")
          end
      end
    else finish ""
  else
    match json_marshal w with
    | Errored e => failed (mkSessionError ErrorSerialization "" (Some e))
    | Ok messageJson => finish messageJson
    end.
Proof.
  intros Hh Hd. cbv zeta. unfold sendResponse.
  unfold bind at 1. unfold get at 1. cbn [app].
  assert (Hfail : forall err,
             (fail err ;;; ret (@None string)) s
             = if done s then (Returns None, s, [])
               else (Returns None, set_done s,
                     delete_trace s ++ announcement s
                       ++ [Failure (SAction s) (wrapped err)])).
  { intros err. unfold bind. rewrite fail_run, Hh.
    destruct (done s); cbn [ret]; rewrite ?app_nil_r; reflexivity. }
  assert (Hfail' : forall e err,
             (emit e ;;; (fail err ;;; ret (@None string))) s
             = if done s then (Returns None, s, [e])
               else (Returns None, set_done s,
                     e :: delete_trace s ++ announcement s
                       ++ [Failure (SAction s) (wrapped err)])).
  { intros e err. unfold bind at 1. unfold emit at 1. rewrite Hfail.
    destruct (done s); reflexivity. }
  destruct (IsInteractive s).
  - destruct (String.eqb (SAction s) ActionSigning
              || String.eqb (SAction s) ActionDisclosing).
    + destruct (post_answer w) as [response | e | e].
      * destruct (negb (String.eqb response "VALID")).
        -- unfold bind at 1. rewrite Hfail'.
           destruct (done s); cbn [ret fst snd app]; rewrite ?app_nil_r; reflexivity.
        -- unfold bind at 1. unfold bind at 1. unfold emit at 1. unfold ret at 1.
           cbn [app]. rewrite (sendResponse_tail s d "" Hh Hd). reflexivity.
      * unfold bind at 1. rewrite Hfail'.
           destruct (done s); cbn [ret fst snd app]; rewrite ?app_nil_r; reflexivity.
      * reflexivity.
    + destruct (String.eqb (SAction s) ActionIssuing) eqn:Hiss.
      * destruct (post_answer w) as [response | e | e].
        -- destruct (construct_credentials w) as [e |].
           ++ unfold bind at 1. rewrite Hfail'.
           destruct (done s); cbn [ret fst snd app]; rewrite ?app_nil_r; reflexivity.
           ++ unfold bind at 1. unfold bind at 1. unfold emit at 1. unfold ret at 1.
              cbn [app]. rewrite (sendResponse_tail s d "" Hh Hd), Hiss. reflexivity.
        -- unfold bind at 1. rewrite Hfail'.
           destruct (done s); cbn [ret fst snd app]; rewrite ?app_nil_r; reflexivity.
        -- reflexivity.
      * unfold bind at 1. unfold ret at 1. cbn [app].
        rewrite (sendResponse_tail s d "" Hh Hd), Hiss. reflexivity.
  - destruct (json_marshal w) as [messageJson | e].
    + unfold bind at 1. unfold ret at 1. cbn [app].
      rewrite (sendResponse_tail s d messageJson Hh Hd). reflexivity.
    + unfold bind at 1. rewrite Hfail.
      destruct (done s); cbn [ret fst snd app]; rewrite ?app_nil_r; reflexivity.
Qed.

Lemma sendResponse_accepted (w : World) (s : session) (d : IrmaIdentifierSet) :
  HandlerSet s = true -> downloaded s = Some d -> IsInteractive s = true ->
  SAction s = ActionDisclosing \/ SAction s = ActionSigning ->
  post_answer w = TOk "VALID" ->
  sendResponse w s
  = (Returns tt, set_done s,
     [NetPost "proofs"; LogEntryAdded] ++ announcement s ++ [Success (SAction s) ""]).
Proof.
  intros Hh Hd Hi Ha Hp. rewrite (sendResponse_run w s d Hh Hd). cbv zeta.
  rewrite Hi, Hp. destruct Ha as [-> | ->]; reflexivity.
Qed.

(** X20.  [sendResponse] on a session with a handler, after the download step:
    for an interactive disclosure or signature session whose server answers
    "VALID", and for an interactive issuance session whose server answers and
    whose credentials can be constructed, it posts the response (to "proofs"
    or "commitments"), adds the log entry, announces downloaded descriptors,
    marks the session done without a DELETE, and reports [Success] with an
    empty result, after [UpdateAttributes] when issuing.  For a manual
    session it posts nothing and reports [Success] with the marshalled
    message. *)
Theorem sendResponse_success (w : World) (s : session) (d : IrmaIdentifierSet) :
  HandlerSet s = true -> downloaded s = Some d ->
  (IsInteractive s = true ->
   SAction s = ActionDisclosing \/ SAction s = ActionSigning ->
   post_answer w = TOk "VALID" ->
   sendResponse w s
   = (Returns tt, set_done s,
      [NetPost "proofs"; LogEntryAdded] ++ announcement s ++ [Success (SAction s) ""]))
  /\ (IsInteractive s = true -> SAction s = ActionIssuing ->
      (exists response, post_answer w = TOk response) ->
      construct_credentials w = None ->
      sendResponse w s
      = (Returns tt, set_done s,
         [NetPost "commitments"; LogEntryAdded] ++ announcement s
           ++ [UpdateAttributes; Success ActionIssuing ""]))
  /\ (IsInteractive s = false ->
      forall messageJson, json_marshal w = Ok messageJson ->
      sendResponse w s
      = (Returns tt, set_done s,
         [LogEntryAdded] ++ announcement s
           ++ (if String.eqb (SAction s) ActionIssuing then [UpdateAttributes] else [])
           ++ [Success (SAction s) messageJson])).
Proof.
  intros Hh Hd. rewrite (sendResponse_run w s d Hh Hd). cbv zeta.
  split; [| split].
  - intros -> Ha ->. destruct Ha as [-> | ->]; reflexivity.
  - intros -> -> [response ->] ->. reflexivity.
  - intros -> messageJson ->. reflexivity.
Qed.

Lemma sendResponse_success_witness :
  sendResponse fair_world after_download
  = (Returns tt, set_done after_download,
     [NetPost "proofs"; LogEntryAdded] ++ announcement after_download
       ++ [Success (SAction after_download) ""]).
Proof.
  refine (proj1 (sendResponse_success fair_world after_download
                   (mkIdentifierSet ∅ ∅ {[ studentCard ]}) _ _) _ _ _).
  - reflexivity.
  - reflexivity.
  - reflexivity.
  - left. reflexivity.
  - reflexivity.
Defined.

(** X21.  In an interactive disclosure or signature session that is not done,
    when the server answers the posted proofs with anything but "VALID", the
    session fails with [ErrorRejected] and the answer as its info; when the
    POST fails, it fails with the error of the transport.  In both cases
    DELETE is sent after the POST, no log entry is added, and the session is
    done. *)
Theorem sendResponse_refused (w : World) (s : session) (d : IrmaIdentifierSet) :
  HandlerSet s = true -> downloaded s = Some d -> done s = false ->
  IsInteractive s = true ->
  SAction s = ActionDisclosing \/ SAction s = ActionSigning ->
  (forall response,
      post_answer w = TOk response -> response <> "VALID" ->
      sendResponse w s
      = (Returns tt, set_done s,
         [NetPost "proofs"; NetDelete] ++ announcement s
           ++ [Failure (SAction s) (mkSessionError ErrorRejected response None)]))
  /\ (forall e,
        post_answer w = TSessionError e ->
        sendResponse w s
        = (Returns tt, set_done s,
           [NetPost "proofs"; NetDelete] ++ announcement s
             ++ [Failure (SAction s) (wrapped e)])).
Proof.
  intros Hh Hd Hdone Hi Ha. rewrite (sendResponse_run w s d Hh Hd). cbv zeta.
  unfold delete_trace. rewrite Hi, Hdone.
  assert (Hact : String.eqb (SAction s) ActionSigning
                 || String.eqb (SAction s) ActionDisclosing = true)
    by (destruct Ha as [-> | ->]; reflexivity).
  rewrite Hact. split.
  - intros response -> Hne. apply String.eqb_neq in Hne. rewrite Hne. reflexivity.
  - intros e ->. reflexivity.
Qed.

Lemma sendResponse_refused_witness :
  sendResponse refusing_world after_download
  = (Returns tt, set_done after_download,
     [NetPost "proofs"; NetDelete] ++ announcement after_download
       ++ [Failure (SAction after_download)
             (mkSessionError ErrorRejected "INVALID" None)]).
Proof.
  refine (proj1 (sendResponse_refused refusing_world after_download
                   (mkIdentifierSet ∅ ∅ {[ studentCard ]}) _ _ _ _ _) "INVALID" _ _).
  - reflexivity.
  - reflexivity.
  - reflexivity.
  - reflexivity.
  - left. reflexivity.
  - reflexivity.
  - discriminate.
Defined.

Lemma deletes_announcement (s : session) : deletes (announcement s) = 0%nat.
Proof.
  unfold announcement. destruct (downloaded s) as [d |]; [| reflexivity].
  destruct (negb (Empty d)); reflexivity.
Qed.

Lemma no_success_in_failure (s : session) (a a' : Action) (res : string)
    (err : SessionError) (pre : list event) :
  Forall (fun e => is_outcome e = false) pre ->
  ~ In (Success a res) (pre ++ delete_trace s ++ announcement s ++ [Failure a' err]).
Proof.
  intros Hpre Hin. apply in_app_or in Hin as [Hin | Hin].
  { rewrite Forall_forall in Hpre. apply list_elem_of_In, Hpre in Hin. discriminate. }
  apply in_app_or in Hin as [Hin | Hin].
  { unfold delete_trace in Hin. destruct (IsInteractive s); cbn in Hin;
      intuition discriminate. }
  apply in_app_or in Hin as [Hin | Hin].
  { unfold announcement in Hin. destruct (downloaded s) as [d |]; [| exact Hin].
    destruct (negb (Empty d)); cbn in Hin; intuition discriminate. }
  cbn in Hin. intuition discriminate.
Qed.

(** X22.  On a session with a handler, after the download step: if
    [sendResponse] reports [Success], then it has sent no DELETE, the
    session is done, and no later operation on the session sends one. *)
Theorem success_without_delete (w : World) (s : session) (d : IrmaIdentifierSet)
    (res : string) :
  HandlerSet s = true -> downloaded s = Some d ->
  In (Success (SAction s) res) (trace (sendResponse w s)) ->
  deletes (trace (sendResponse w s)) = 0%nat
  /\ done (final (sendResponse w s)) = true
  /\ forall ops, deletes (snd (perform_all ops (final (sendResponse w s)))) = 0%nat.
Proof.
  intros Hh Hd Hin.
  assert (Hmain : deletes (trace (sendResponse w s)) = 0%nat
                  /\ done (final (sendResponse w s)) = true).
  { revert Hin. rewrite (sendResponse_run w s d Hh Hd). cbv zeta.
    assert (Hfinish : forall pre messageJson,
               deletes pre = 0%nat ->
               deletes (pre ++ [LogEntryAdded] ++ announcement s
                          ++ (if String.eqb (SAction s) ActionIssuing
                              then [UpdateAttributes] else [])
                          ++ [Success (SAction s) messageJson]) = 0%nat).
    { intros pre messageJson Hp. rewrite !deletes_app, Hp, deletes_announcement.
      destruct (String.eqb (SAction s) ActionIssuing); reflexivity. }
    assert (Hno : forall pre a' err,
               Forall (fun e => is_outcome e = false) pre ->
               In (Success (SAction s) res)
                 (trace (if done s then (Returns tt, s, pre)
                         else (Returns tt, set_done s,
                               pre ++ delete_trace s ++ announcement s
                                 ++ [Failure a' err]))) -> False).
    { intros pre a' err Hpre Hin. destruct (done s); cbn [trace snd] in Hin.
      - rewrite Forall_forall in Hpre. apply list_elem_of_In, Hpre in Hin. discriminate.
      - exact (no_success_in_failure s _ _ _ _ _ Hpre Hin). }
    destruct (IsInteractive s).
    - destruct (String.eqb (SAction s) ActionSigning
                || String.eqb (SAction s) ActionDisclosing).
      + destruct (post_answer w) as [response | e | e].
        * destruct (negb (String.eqb response "VALID")).
          -- intros Hin. exfalso.
             apply (Hno [NetPost "proofs"] (SAction s)
                      (wrapped (mkSessionError ErrorRejected response None)));
               [repeat constructor |].
             destruct (done s); exact Hin.
          -- intros _. split; [| reflexivity]. cbn [trace fst snd].
             apply (Hfinish [NetPost "proofs"]). reflexivity.
        * intros Hin. exfalso.
          apply (Hno [NetPost "proofs"] (SAction s) (wrapped e)); [repeat constructor |].
          destruct (done s); exact Hin.
        * cbn. intuition discriminate.
      + destruct (String.eqb (SAction s) ActionIssuing).
        * destruct (post_answer w) as [response | e | e].
          -- destruct (construct_credentials w) as [e |].
             ++ intros Hin. exfalso.
                apply (Hno [NetPost "commitments"] (SAction s)
                         (wrapped (mkSessionError ErrorCrypto "" (Some e))));
                  [repeat constructor |].
                destruct (done s); exact Hin.
             ++ intros _. split; [| reflexivity]. cbn [trace fst snd].
                apply (Hfinish [NetPost "commitments"]). reflexivity.
          -- intros Hin. exfalso.
             apply (Hno [NetPost "commitments"] (SAction s) (wrapped e));
               [repeat constructor |].
             destruct (done s); exact Hin.
          -- cbn. intuition discriminate.
        * intros _. split; [| reflexivity]. cbn [trace fst snd].
          apply (Hfinish []). reflexivity.
    - destruct (json_marshal w) as [messageJson | e].
      + intros _. split; [| reflexivity]. cbn [trace fst snd].
        apply (Hfinish []). reflexivity.
      + intros Hin. exfalso.
        apply (Hno [] (SAction s)
                 (wrapped (mkSessionError ErrorSerialization "" (Some e))));
          [constructor |].
        destruct (done s); exact Hin. }
  destruct Hmain as [Hdel Hdone]. split; [exact Hdel |]. split; [exact Hdone |].
  intros ops. apply perform_all_deletes. exact Hdone.
Qed.

Lemma success_without_delete_witness :
  deletes (trace (sendResponse fair_world after_download)) = 0%nat
  /\ done (final (sendResponse fair_world after_download)) = true
  /\ forall ops,
       deletes (snd (perform_all ops (final (sendResponse fair_world after_download))))
       = 0%nat.
Proof.
  apply (success_without_delete fair_world after_download
           (mkIdentifierSet ∅ ∅ {[ studentCard ]}) "").
  - reflexivity.
  - reflexivity.
  - vm_compute. right. right. right. left. reflexivity.
Defined.

(** *** How the operations compose *)

Lemma guarded_returns (body : M unit) (s s1 : session) (t : list event) :
  body s = (Returns tt, s1, t) -> guarded body s = (Returns tt, s1, t).
Proof. intros H. unfold guarded. rewrite H. reflexivity. Qed.

(** X23.  [sendResponse] does not look at [done]: when the user dismisses an
    interactive session while the keyshare protocol runs and the keyshare
    session then finishes, the proofs are still posted after the DELETE,
    and the handler is told [Cancelled] and then [Success]. *)
Theorem dismissed_session_still_succeeds (w : World) (s : session)
    (d : IrmaIdentifierSet) :
  HandlerSet s = true -> downloaded s = Some d -> done s = false ->
  IsInteractive s = true ->
  SAction s = ActionDisclosing \/ SAction s = ActionSigning ->
  post_answer w = TOk "VALID" ->
  snd (perform_all [OpDismiss; OpKeyshareDone w] s)
  = [NetDelete] ++ announcement s ++ [Cancelled (SAction s)]
      ++ [NetPost "proofs"; LogEntryAdded] ++ announcement s ++ [Success (SAction s) ""]
  /\ List.filter is_outcome (snd (perform_all [OpDismiss; OpKeyshareDone w] s))
     = [Cancelled (SAction s); Success (SAction s) ""].
Proof.
  intros Hh Hd Hdone Hi Ha Hpost.
  assert (Hrun : snd (perform_all [OpDismiss; OpKeyshareDone w] s)
                 = [NetDelete] ++ announcement s ++ [Cancelled (SAction s)]
                     ++ [NetPost "proofs"; LogEntryAdded] ++ announcement s
                     ++ [Success (SAction s) ""]).
  { cbn [perform_all perform]. unfold Dismiss, KeyshareDone.
    rewrite (guarded_returns cancel s (set_done s)
               (delete_trace s ++ announcement s ++ [Cancelled (SAction s)]))
      by (rewrite cancel_run, Hdone, Hh; reflexivity).
    rewrite (guarded_returns (sendResponse w) (set_done s) (set_done (set_done s))
               ([NetPost "proofs"; LogEntryAdded] ++ announcement (set_done s)
                  ++ [Success (SAction (set_done s)) ""])).
    2:{ apply (sendResponse_accepted w (set_done s) d Hh Hd); assumption. }
    cbn [snd]. rewrite app_nil_r. unfold delete_trace. rewrite Hi.
    change (announcement (set_done s)) with (announcement s).
    change (SAction (set_done s)) with (SAction s).
    rewrite <- !app_assoc. reflexivity. }
  split; [exact Hrun |]. rewrite Hrun.
  unfold announcement. rewrite Hd. destruct (negb (Empty d)); reflexivity.
Qed.

Lemma dismissed_session_still_succeeds_witness :
  snd (perform_all [OpDismiss; OpKeyshareDone fair_world] after_download)
  = [NetDelete] ++ announcement after_download ++ [Cancelled (SAction after_download)]
      ++ [NetPost "proofs"; LogEntryAdded] ++ announcement after_download
      ++ [Success (SAction after_download) ""].
Proof.
  refine (proj1 (dismissed_session_still_succeeds fair_world after_download
                   (mkIdentifierSet ∅ ∅ {[ studentCard ]}) _ _ _ _ _ _));
    try reflexivity.
  left. reflexivity.
Defined.

(** X24.  In [do], for a distributed session, an error of [getBuilders] fails the
    session with [ErrorCrypto], but the function does not return there: the
    keyshare session is still started, after the [Failure] callback. *)
Theorem keyshare_session_started_after_failure (w : World) (s : session) (e : goerror) :
  HandlerSet s = true -> done s = false -> is_session_action (SAction s) = true ->
  is_distributed w = true -> builders_answer w = Returns (Some e) ->
  do w true s
  = (Returns tt, set_done s,
     [StatusUpdate (SAction s) StatusCommunicating; BuildProof]
       ++ delete_trace s ++ announcement s
       ++ [Failure (SAction s) (wrapped (mkSessionError ErrorCrypto "" (Some e)));
           KeyshareSessionStarted]).
Proof.
  intros Hh Hdone Ha Hdist Hb. apply guarded_returns.
  unfold do_body. cbn [negb]. unfold bind at 1. unfold get at 1.
  unfold bind at 1. rewrite handler_run, Hh. cbn [app]. rewrite Hdist. cbn [negb].
  unfold bind at 1. unfold bind at 1. unfold getBuilders, construct.
  unfold bind at 1. unfold get at 1. rewrite Ha, Hb.
  unfold bind at 1. unfold emit at 1. unfold ret at 1. cbn [app].
  rewrite fail_run, Hdone, Hh. unfold emit.
  rewrite <- !app_assoc. reflexivity.
Qed.

Lemma keyshare_session_started_after_failure_witness :
  do distributed_world true enrolled_session
  = (Returns tt, set_done enrolled_session,
     [StatusUpdate (SAction enrolled_session) StatusCommunicating; BuildProof]
       ++ delete_trace enrolled_session ++ announcement enrolled_session
       ++ [Failure (SAction enrolled_session)
             (wrapped (mkSessionError ErrorCrypto "" (Some (EMessage "no builders"))));
           KeyshareSessionStarted]).
Proof.
  apply (keyshare_session_started_after_failure distributed_world enrolled_session
           (EMessage "no builders")); reflexivity.
Defined.

(** The operations that end a session, on a session that is done and on
    one that is not. *)
Lemma ending_on_done (op : operation) (s : session) :
  is_ending op = true -> done s = true -> perform op s = (Returns tt, s, []).
Proof.
  intros Hop Hd. destruct op; try discriminate Hop; cbn [perform];
    apply guarded_returns; unfold KeyshareCancelled, KeyshareError, Dismiss;
    try destruct err; rewrite ?fail_run, ?cancel_run, Hd; reflexivity.
Qed.

Lemma ending_run (op : operation) (s : session) :
  is_ending op = true -> done s = false -> HandlerSet s = true ->
  exists e,
    is_outcome e = true /\ is_delete e = false
    /\ perform op s
       = (Returns tt, set_done s, delete_trace s ++ announcement s ++ [e]).
Proof.
  intros Hop Hd Hh. destruct op; try discriminate Hop; cbn [perform];
    unfold KeyshareCancelled, KeyshareError, Dismiss; try destruct err;
    eexists; (split; [| split; [| apply guarded_returns;
                                   rewrite ?fail_run, ?cancel_run, Hd, Hh; reflexivity]]);
    reflexivity.
Qed.

Lemma endings_on_done (ops : list operation) :
  forall s, forallb is_ending ops = true -> done s = true -> perform_all ops s = (s, []).
Proof.
  induction ops as [| op ops IH]; intros s Hops Hd; [reflexivity |].
  cbn [forallb] in Hops. apply andb_true_iff in Hops as [Hop Hops].
  cbn [perform_all]. rewrite (ending_on_done op s Hop Hd), (IH s Hops Hd). reflexivity.
Qed.

(** X25.  Of any sequence of [fail], [cancel], [Dismiss], [KeyshareCancelled] and
    [KeyshareError] calls on a session that has a handler and is not done,
    only the first has an effect: the handler is told exactly one outcome,
    that of the first call, after the DELETE and the announcement of
    downloaded descriptors, and the session is done. *)
Theorem first_ending_wins (op : operation) (ops : list operation) (s : session) :
  HandlerSet s = true -> done s = false ->
  is_ending op = true -> forallb is_ending ops = true ->
  perform_all (op :: ops) s = (set_done s, trace (perform op s))
  /\ exists e,
       is_outcome e = true
       /\ snd (perform_all (op :: ops) s) = delete_trace s ++ announcement s ++ [e]
       /\ List.filter is_outcome (snd (perform_all (op :: ops) s)) = [e].
Proof.
  intros Hh Hd Hop Hops.
  destruct (ending_run op s Hop Hd Hh) as (e & He & _ & Hrun).
  assert (Hall : perform_all (op :: ops) s
                 = (set_done s, delete_trace s ++ announcement s ++ [e])).
  { cbn [perform_all]. rewrite Hrun.
    rewrite (endings_on_done ops (set_done s) Hops eq_refl), app_nil_r. reflexivity. }
  rewrite Hall, Hrun. split; [reflexivity |].
  exists e. split; [exact He |]. split; [reflexivity |]. cbn [snd].
  rewrite !List.filter_app. cbn [List.filter]. rewrite He.
  unfold delete_trace, announcement.
  destruct (IsInteractive s), (downloaded s) as [d |]; try destruct (negb (Empty d));
    reflexivity.
Qed.

Lemma first_ending_wins_witness :
  perform_all [OpFail (mkSessionError ErrorCrypto "" None); OpDismiss; OpCancel;
               OpKeyshareCancelled] after_download
  = (set_done after_download,
     trace (perform (OpFail (mkSessionError ErrorCrypto "" None)) after_download)).
Proof.
  refine (proj1 (first_ending_wins (OpFail (mkSessionError ErrorCrypto "" None))
                   [OpDismiss; OpCancel; OpKeyshareCancelled] after_download _ _ _ _));
    reflexivity.
Defined.

(** X26.  On a session with a handler that is not done, [KeyshareError] fails
    the session with an error of type
    [ErrorKeyshare], whatever the type of the error it is given: a
    [*SessionError] keeps its info and cause and loses its type, any other
    error becomes the cause. *)
Theorem KeyshareError_is_keyshare_failure (err : SessionError + goerror) (s : session) :
  HandlerSet s = true -> done s = false ->
  exists info cause,
    KeyshareError err s
    = (Returns tt, set_done s,
       delete_trace s ++ announcement s
         ++ [Failure (SAction s) (mkSessionError ErrorKeyshare info cause)])
    /\ (forall serr, err = inl serr -> info = Info serr /\ cause = Wrap (Err serr))
    /\ (forall e, err = inr e -> info = "" /\ cause = Wrap (Some e)).
Proof.
  intros Hh Hd. destruct err as [serr | e]; unfold KeyshareError;
    rewrite fail_run, Hd, Hh; eexists _, _; (split; [reflexivity |]);
    split; intros x Hx; inversion Hx; subst; auto.
Qed.

Lemma KeyshareError_is_keyshare_failure_witness :
  exists info cause,
    KeyshareError (inl (mkSessionError ErrorTransport "timeout" None)) after_download
    = (Returns tt, set_done after_download,
       delete_trace after_download ++ announcement after_download
         ++ [Failure (SAction after_download) (mkSessionError ErrorKeyshare info cause)])
    /\ (forall serr,
          (inl (mkSessionError ErrorTransport "timeout" None) : SessionError + goerror)
          = inl serr ->
          info = Info serr /\ cause = Wrap (Err serr))
    /\ (forall e : goerror,
          (inl (mkSessionError ErrorTransport "timeout" None) : SessionError + goerror)
          = inr e ->
          info = "" /\ cause = Wrap (Some e)).
Proof.
  apply (KeyshareError_is_keyshare_failure
           (inl (mkSessionError ErrorTransport "timeout" None)) after_download);
    reflexivity.
Defined.

(** *** The first message of a session *)

Lemma start_opening (s : session) (k : session -> M unit) :
  HandlerSet s = true ->
  (s0 <- get ;;
   handler (StatusUpdate (SAction s0) StatusCommunicating) ;;;
   emit (NetGet "jwt") ;;; k s0) s
  = match k s s with
    | (r, s1, t1) =>
        (r, s1, StatusUpdate (SAction s) StatusCommunicating :: NetGet "jwt" :: t1)
    end.
Proof.
  intros Hh. unfold bind at 1. unfold get at 1. unfold bind at 1.
  rewrite handler_run, Hh. unfold bind at 1. unfold emit at 1.
  destruct (k s s) as [[[u | v] s1] t1]; reflexivity.
Qed.

(** X27.  [start] on a session with a handler that is not done: when fetching
    the first message fails with a [*SessionError], the session fails with
    that error; when the JWT in it cannot be parsed, it fails with
    [ErrorInvalidJWT]; in both cases after the status update and the GET,
    and with a DELETE if interactive.  When the transport returns an error
    of another type, the type assertion panics: the handler is told a
    [Failure] of type [ErrorPanic], but no DELETE is sent and the session is
    not done. *)
Theorem start_first_message_failures (w : World) (s : session) :
  HandlerSet s = true -> done s = false ->
  (forall e, get_jwt w = TSessionError e ->
     start w s
     = (Returns tt, set_done s,
        [StatusUpdate (SAction s) StatusCommunicating; NetGet "jwt"]
          ++ delete_trace s ++ announcement s ++ [Failure (SAction s) (wrapped e)]))
  /\ (forall u e, get_jwt w = TOk u -> parse_jwt w = Errored e ->
     start w s
     = (Returns tt, set_done s,
        [StatusUpdate (SAction s) StatusCommunicating; NetGet "jwt"]
          ++ delete_trace s ++ announcement s
          ++ [Failure (SAction s)
                (wrapped (mkSessionError ErrorInvalidJWT "" (Some e)))]))
  /\ (forall e, get_jwt w = TOtherError e ->
     exists info,
       start w s
       = (Returns tt, s,
          [StatusUpdate (SAction s) StatusCommunicating; NetGet "jwt";
           Failure (SAction s) (mkSessionError ErrorPanic info None)])).
Proof.
  intros Hh Hd. unfold start, guarded, start_body. split; [| split].
  - intros e He. rewrite (start_opening s _ Hh), He, fail_run, Hd, Hh. reflexivity.
  - intros u e Hu He. rewrite (start_opening s _ Hh), Hu, He, fail_run, Hd, Hh.
    reflexivity.
  - intros e He. eexists. rewrite (start_opening s _ Hh), He.
    cbn [panic panicFailure interface_conversion]. unfold bind, get, emit.
    rewrite Hh. cbn. reflexivity.
Qed.

Lemma start_first_message_failures_witness :
  start unreachable_world before_start
  = (Returns tt, set_done before_start,
     [StatusUpdate (SAction before_start) StatusCommunicating; NetGet "jwt"]
       ++ delete_trace before_start ++ announcement before_start
       ++ [Failure (SAction before_start)
             (wrapped (mkSessionError ErrorTransport "timeout" None))]).
Proof.
  refine (proj1 (start_first_message_failures unreachable_world before_start _ _) _ _);
    reflexivity.
Defined.

(** X28.  When a disclosure or signature request passes the configuration check
    but asks for attributes that the client lacks, [start] calls
    [UnsatisfiableRequest] and returns: no permission is asked, no outcome
    is reported, no DELETE is sent and the session is not done, so that
    the DELETE is only sent by a later [Dismiss]. *)
Theorem unsatisfiable_request_leaves_session_open (w : World) (s : session)
    (request : IrmaSession) (requestor : string) (u : unit) :
  HandlerSet s = true -> done s = false ->
  String.eqb (SAction s) ActionIssuing = false ->
  get_jwt w = TOk u -> parse_jwt w = Ok (request, requestor) ->
  (forall id', In id' (range_enrollment w) -> In id' (range_check w)) ->
  first_offender (configuration s) (range_check w) = None ->
  List.find (blocking (configuration s) (keyshareServers s)) (range_enrollment w) = None ->
  snd (download_answer w) = None ->
  missing_attributes w = true ->
  trace (start w s)
  = [StatusUpdate (SAction s) StatusCommunicating; NetGet "jwt";
     ConfDownload (Identifiers request); UnsatisfiableRequest (SAction s) requestor]
  /\ done (final (start w s)) = false
  /\ ServerURL (final (start w s)) = ServerURL s
  /\ deletes (snd (perform_all [OpDismiss] (final (start w s)))) = deletes (delete_trace s).
Proof.
  intros Hh Hd Hact Hu Hp Hsub Hoff Hbl Herr Hmiss.
  set (s1 := set_irmaSession (Some request) s).
  set (s2 := set_downloaded (fst (fst (download_answer w)))
               (snd (fst (download_answer w))) s1).
  assert (Hrun : start w s
                 = (Returns tt, s2,
                    [StatusUpdate (SAction s) StatusCommunicating; NetGet "jwt";
                     ConfDownload (Identifiers request);
                     UnsatisfiableRequest (SAction s) requestor])).
  { unfold start. apply guarded_returns. unfold start_body.
    rewrite (start_opening s _ Hh), Hu, Hp, Hact.
    unfold bind at 1. unfold modify at 1. fold s1.
    unfold bind at 1. unfold ret at 1.
    unfold bind at 1.
    destruct (checkAndUpateConfiguration_cases w s1 request eq_refl Hh Hsub)
      as [(_ & _ & _ & Hc) | [Hsome _]];
      [| destruct Hsome as [Hx | [Hx | Hx]]; contradiction].
    rewrite Hc. fold s2. cbn [negb].
    unfold bind at 1. unfold ret at 1. cbn [negb].
    unfold ask_permission. unfold bind at 1. unfold get at 1. rewrite Hmiss.
    rewrite handler_run. change (HandlerSet s2) with (HandlerSet s). rewrite Hh.
    reflexivity. }
  rewrite Hrun. cbn [trace final fst snd]. split; [reflexivity |].
  split; [exact Hd |]. split; [reflexivity |].
  cbn [perform_all perform]. unfold Dismiss.
  rewrite (guarded_returns cancel s2 (set_done s2)
             (delete_trace s2 ++ announcement s2 ++ [Cancelled (SAction s2)]))
    by (rewrite cancel_run; change (done s2) with (done s);
        change (HandlerSet s2) with (HandlerSet s); rewrite Hd, Hh; reflexivity).
  cbn [snd]. rewrite app_nil_r. unfold deletes.
  rewrite !List.filter_app, !length_app.
  change (delete_trace s2) with (delete_trace s).
  fold (deletes (announcement s2)). rewrite deletes_announcement. cbn. lia.
Qed.

Lemma unsatisfiable_request_leaves_session_open_witness :
  trace (start demanding_world before_start)
  = [StatusUpdate (SAction before_start) StatusCommunicating; NetGet "jwt";
     ConfDownload (Identifiers demo_request);
     UnsatisfiableRequest (SAction before_start) "testsp"]
  /\ done (final (start demanding_world before_start)) = false
  /\ ServerURL (final (start demanding_world before_start)) = ServerURL before_start
  /\ deletes (snd (perform_all [OpDismiss] (final (start demanding_world before_start))))
     = deletes (delete_trace before_start).
Proof.
  apply (unsatisfiable_request_leaves_session_open demanding_world before_start
           demo_request "testsp" tt); try reflexivity.
  intros id' Hid'. exact Hid'.
Defined.

(** *** Scheme manager sessions *)



(** After a scheme manager has been installed with success, dismissing the
    session sends DELETE to the scheme manager's URL and reports
    [Cancelled]. *)
Example manager_session_dismissed_after_success :
  snd (perform_all [OpDismiss]
         (final (managerPermission fair_world "irma-demo" true manager_session)))
  = [NetDelete; Cancelled ActionSchemeManager].
Proof. vm_compute. reflexivity. Qed.

(** *** Manual sessions *)

Lemma offline_ret {A} (a : A) : offline (ret a).
Proof. intros s Hs. cbn. auto. Qed.

Lemma offline_get : offline get.
Proof. intros s Hs. cbn. auto. Qed.

Lemma offline_panic {A} (v : panic_value) : offline (@panic A v).
Proof. intros s Hs. cbn. auto. Qed.

Lemma offline_emit (e : event) : is_network e = false -> offline (emit e).
Proof. intros He s Hs. cbn. rewrite He. auto. Qed.

Lemma offline_modify (f : session -> session) :
  (forall s, ServerURL (f s) = ServerURL s) -> offline (modify f).
Proof. intros Hf s Hs. cbn. rewrite Hf. auto. Qed.

Lemma offline_bind {A B} (m : M A) (k : A -> M B) :
  offline m -> (forall a, offline (k a)) -> offline (bind m k).
Proof.
  intros Hm Hk s Hs. specialize (Hm s Hs). unfold bind.
  destruct (m s) as [[[a | v] s1] t1]; cbn [final trace fst snd] in *; [| exact Hm].
  destruct Hm as [Hs1 Ht1]. specialize (Hk a s1 Hs1).
  destruct (k a s1) as [[r s2] t2]; cbn [final trace fst snd] in *.
  destruct Hk as [Hs2 Ht2]. split; [exact Hs2 |].
  rewrite List.filter_app, Ht1, Ht2. reflexivity.
Qed.

(** What follows [get] may use that the session has no server URL. *)
Lemma offline_get_bind {B} (k : session -> M B) :
  (forall s, ServerURL s = "" ->
     ServerURL (final (k s s)) = "" /\ List.filter is_network (trace (k s s)) = []) ->
  offline (bind get k).
Proof.
  intros Hk s Hs. specialize (Hk s Hs). unfold bind, get.
  destruct (k s s) as [[r s2] t2]; cbn [final trace fst snd app] in *. exact Hk.
Qed.

Lemma offline_handler (e : event) : is_network e = false -> offline (handler e).
Proof.
  intros He. unfold handler. apply offline_bind; [apply offline_get |].
  intros s. destruct (HandlerSet s); [apply offline_emit; exact He | apply offline_panic].
Qed.

Lemma offline_delete : offline delete.
Proof.
  intros s Hs. rewrite delete_run. unfold delete_trace, IsInteractive. rewrite Hs.
  destruct (done s); cbn; auto.
Qed.

Lemma offline_announce : offline announce_downloaded.
Proof.
  unfold announce_downloaded. apply offline_bind; [apply offline_get |].
  intros s. destruct (downloaded s) as [d |]; [| apply offline_ret].
  destruct (negb (Empty d)); [apply offline_emit; reflexivity | apply offline_ret].
Qed.

Lemma offline_guarded (body : M unit) : offline body -> offline (guarded body).
Proof.
  intros Hb s Hs. specialize (Hb s Hs). unfold guarded.
  destruct (body s) as [[[[] | v] s1] t1]; cbn [final trace fst snd] in *; [exact Hb |].
  destruct Hb as [Hs1 Ht1].
  assert (Hp : panicFailure v s1 = (Returns tt, s1, [])
               \/ panicFailure v s1
                  = (Returns tt, s1, [Failure (SAction s1) (panicToError v)])).
  { unfold panicFailure, bind, get, emit, ret.
    destruct v; cbn; destruct (HandlerSet s1); auto. }
  destruct Hp as [-> | ->]; cbn [final trace fst snd];
    rewrite List.filter_app, Ht1; auto.
Qed.

Ltac offline_steps :=
  repeat (intros;
    lazymatch goal with
    | |- offline (bind _ _) => apply offline_bind
    | |- offline (ret _) => apply offline_ret
    | |- offline get => apply offline_get
    | |- offline (panic _) => apply offline_panic
    | |- offline (emit _) => apply offline_emit; reflexivity
    | |- offline (handler _) => apply offline_handler; reflexivity
    | |- offline delete => apply offline_delete
    | |- offline announce_downloaded => apply offline_announce
    | |- offline (guarded _) => apply offline_guarded
    | |- offline (modify _) => apply offline_modify; intros; reflexivity
    | |- offline (match ?x with _ => _ end) => destruct x
    end).

Lemma offline_fail (err : SessionError) : offline (fail err).
Proof. unfold fail. offline_steps. Qed.

Lemma offline_cancel : offline cancel.
Proof. unfold cancel. offline_steps. Qed.

Lemma offline_sendResponse (w : World) : offline (sendResponse w).
Proof.
  unfold sendResponse. apply offline_get_bind. intros s Hs.
  unfold IsInteractive. rewrite Hs. cbn [String.eqb negb].
  match goal with
  | |- context [bind ?m ?k s] => assert (Hoff : offline (bind m k))
  end.
  { offline_steps; apply offline_fail. }
  exact (Hoff s Hs).
Qed.

Lemma offline_identifiers : offline identifiers.
Proof. unfold identifiers. offline_steps. Qed.

Lemma offline_enrollment_loop (ids : list string) : offline (enrollment_loop ids).
Proof.
  induction ids as [| id rest IH]; cbn [enrollment_loop]; offline_steps; exact IH.
Qed.

Lemma offline_check_loop (ids : list string) : offline (check_loop ids).
Proof.
  induction ids as [| id rest IH]; cbn [check_loop]; offline_steps;
    first [apply offline_fail | exact IH].
Qed.

Lemma offline_checkAndUpateConfiguration (w : World) :
  offline (checkAndUpateConfiguration w).
Proof.
  unfold checkAndUpateConfiguration, checkKeyshareEnrollment.
  offline_steps; intros;
    first [apply offline_identifiers | apply offline_check_loop
          | apply offline_enrollment_loop | apply offline_fail].
Qed.

Lemma offline_perform (op : operation) : manual_operation op = true -> offline (perform op).
Proof.
  intros Hop. destruct op; try discriminate Hop; cbn [perform].
  all: unfold do, do_body, getProof, getBuilders, construct, KeyshareDone,
         KeyshareCancelled, KeyshareError, Dismiss.
  all: offline_steps;
    first [apply offline_sendResponse | apply offline_fail | apply offline_cancel].
Qed.

Lemma offline_perform_all (ops : list operation) :
  forallb manual_operation ops = true ->
  forall s, ServerURL s = "" ->
    List.filter is_network (snd (perform_all ops s)) = [].
Proof.
  induction ops as [| op ops IH]; intros Hops s Hs; [reflexivity |].
  cbn [forallb] in Hops. apply andb_true_iff in Hops as [Hop Hops].
  cbn [perform_all]. pose proof (offline_perform op Hop s Hs) as [Hs1 Ht1].
  destruct (perform op s) as [[r s1] t1]; cbn [final trace fst snd] in *.
  specialize (IH Hops s1 Hs1). destruct (perform_all ops s1) as [s2 t2]; cbn [snd] in *.
  rewrite List.filter_app, Ht1, IH. reflexivity.
Qed.

(** X30.  A manual session never calls a requestor's server: neither
    [NewManualSession] nor any of [do], [sendResponse], the keyshare
    callbacks, [fail], [cancel] and [Dismiss] on the session it creates,
    in any number and order, sends a GET, POST or DELETE, and the session
    is not interactive. *)
Theorem manual_session_stays_offline (w : World) (request : IrmaSession)
    (handlerSet : bool) (conf : Configuration) (enrolled : gset string)
    (ops : list operation) :
  forallb manual_operation ops = true ->
  List.filter is_network
    (trace (NewManualSession w request handlerSet conf enrolled)
       ++ snd (perform_all ops (final (NewManualSession w request handlerSet conf enrolled))))
  = []
  /\ IsInteractive (final (NewManualSession w request handlerSet conf enrolled)) = false.
Proof.
  intros Hops. unfold NewManualSession.
  match goal with
  | |- context [bind ?m ?k ?s0] =>
      assert (Hoff : offline (bind m k));
      [| pose proof (Hoff s0 eq_refl) as [Hs Ht];
         destruct (bind m k s0) as [[r s1] t1] ]
  end.
  { unfold ask_permission. offline_steps; apply offline_checkAndUpateConfiguration. }
  cbn [final trace fst snd] in *.
  rewrite List.filter_app, Ht, (offline_perform_all ops Hops s1 Hs).
  split; [reflexivity |]. unfold IsInteractive. rewrite Hs. reflexivity.
Qed.

Lemma manual_session_stays_offline_witness :
  List.filter is_network
    (trace (NewManualSession fair_world demo_request true demo_configuration ∅)
       ++ snd (perform_all [OpDo fair_world true; OpDismiss]
                 (final (NewManualSession fair_world demo_request true
                           demo_configuration ∅))))
  = [].
Proof.
  refine (proj1 (manual_session_stays_offline fair_world demo_request true
                   demo_configuration ∅ [OpDo fair_world true; OpDismiss] _)).
  reflexivity.
Defined.

End SessionTracesFacts.
